(** * OpenAPI extractor: split / merge engine

    A shallow embedding of [core.py], [splitter.py] and [merger.py].

    Documents are the trees produced by [json.load]: Python [dict]s are
    insertion-ordered association lists with pairwise distinct keys, Python
    [list]s are lists, numbers are Python [int]s (floating-point literals are
    not represented).  Python raises are values of [exc]; the dynamic typing
    of the source is kept by routing every access through the primitives of
    module [Py], which say what [in], [x[k]], [.get], [.copy()], [.items()]
    and iteration do on each kind of value. *)

From Stdlib Require Import String Ascii List ZArith Bool Arith Lia.
From Stdlib Require Import Permutation Sorted DecimalString.
Import ListNotations.

#[local] Set Warnings "-register-all".

Local Open Scope string_scope.
Local Open Scope list_scope.

Infix "+++" := String.append (at level 60, right associativity).

(* ------------------------------------------------------------------ *)
(** ** Python values *)

Module Py.

Inductive json : Type :=
| JNull
| JBool (b : bool)
| JNum (n : Z)
| JStr (s : string)
| JArr (items : list json)
| JObj (entries : list (string * json)).

(** A [dict] with string keys, in insertion order. *)
Abbreviation dict A := (list (string * A)) (only parsing).

Inductive exception : Type :=
| TypeError
| AttributeError
| KeyError (key : string)
| ValueError (msg : string)
| RuntimeError (msg : string).

Inductive exc (A : Type) : Type :=
| Ok (a : A)
| Raise (e : exception).

Arguments Ok {A} a.
Arguments Raise {A} e.

Definition bind {A B : Type} (m : exc A) (k : A -> exc B) : exc B :=
  match m with
  | Ok a => k a
  | Raise e => Raise e
  end.

Notation "x <- m ;; k" := (bind m (fun x => k))
  (at level 61, m at next level, right associativity).

(** *** dict operations *)

Fixpoint dict_get {A : Type} (k : string) (d : dict A) : option A :=
  match d with
  | [] => None
  | (k', v) :: r => if String.eqb k k' then Some v else dict_get k r
  end.

Definition dict_mem {A : Type} (k : string) (d : dict A) : bool :=
  match dict_get k d with Some _ => true | None => false end.

(** [d.get(k, default)] *)
Definition dict_get_default {A : Type} (k : string) (default : A) (d : dict A) : A :=
  match dict_get k d with Some v => v | None => default end.

(** [d[k] = v]: an existing key keeps its position, a new key goes last. *)
Fixpoint dict_set {A : Type} (k : string) (v : A) (d : dict A) : dict A :=
  match d with
  | [] => [(k, v)]
  | (k', v') :: r =>
      if String.eqb k k' then (k', v) :: r else (k', v') :: dict_set k v r
  end.

(** [del d[k]] for a key that is present. *)
Fixpoint dict_del {A : Type} (k : string) (d : dict A) : dict A :=
  match d with
  | [] => []
  | (k', v') :: r => if String.eqb k k' then r else (k', v') :: dict_del k r
  end.

Definition dict_keys {A : Type} (d : dict A) : list string := map fst d.

(** The invariant of every Python dict: no key twice. *)
Definition dict_wf {A : Type} (d : dict A) : Prop := NoDup (dict_keys d).

(** *** str operations *)

(** [sub in s] *)
Fixpoint str_contains (sub s : string) : bool :=
  prefix sub s ||
  match s with
  | EmptyString => false
  | String _ s' => str_contains sub s'
  end.

(** [s.split(sep)] for a non-empty [sep]; [skip] counts the characters of a
    separator just matched that are still to be passed over, [cur] is the
    piece being read. *)
Fixpoint split_go (sep s : string) (skip : nat) (cur : string) : list string :=
  match s with
  | EmptyString => [cur]
  | String c s' =>
      match skip with
      | S k => split_go sep s' k cur
      | O =>
          if prefix sep s
          then cur :: split_go sep s' (String.length sep - 1) ""
          else split_go sep s' 0 (cur +++ String c "")
      end
  end.

Definition str_split (sep s : string) : list string := split_go sep s 0 "".

(** [s.replace(old, "")] for a one-character [old]. *)
Fixpoint str_remove (old : ascii) (s : string) : string :=
  match s with
  | EmptyString => ""
  | String c s' =>
      if Ascii.eqb c old then str_remove old s' else String c (str_remove old s')
  end.

(** [s.replace(old, new)] for one-character [old] and [new]. *)
Fixpoint str_replace_char (old new : ascii) (s : string) : string :=
  match s with
  | EmptyString => ""
  | String c s' =>
      String (if Ascii.eqb c old then new else c) (str_replace_char old new s')
  end.

Fixpoint str_lstrip (ch : ascii) (s : string) : string :=
  match s with
  | EmptyString => ""
  | String c s' => if Ascii.eqb c ch then str_lstrip ch s' else s
  end.

Fixpoint str_rstrip (ch : ascii) (s : string) : string :=
  match s with
  | EmptyString => ""
  | String c s' =>
      match str_rstrip ch s' with
      | EmptyString => if Ascii.eqb c ch then "" else String c ""
      | r => String c r
      end
  end.

(** [s.strip(ch)] *)
Definition str_strip (ch : ascii) (s : string) : string :=
  str_rstrip ch (str_lstrip ch s).

(** [s.startswith(p)] *)
Definition str_startswith (p s : string) : bool := prefix p s.

Fixpoint str_chars (s : string) : list string :=
  match s with
  | EmptyString => []
  | String c s' => String c "" :: str_chars s'
  end.

(** Decimal text of an [int]: [str(n)], [f"{n}"]. *)
Definition str_of_Z (n : Z) : string := NilZero.string_of_int (Z.to_int n).
Definition str_of_nat (n : nat) : string := NilZero.string_of_uint (Nat.to_uint n).

Fixpoint str_repeat (c : ascii) (n : nat) : string :=
  match n with
  | O => ""
  | S n' => String c (str_repeat c n')
  end.

(** [f"{n:03d}"] for [n >= 0]: at least three digits, padded with zeros. *)
Definition format_03d (n : nat) : string :=
  let s := str_of_nat n in
  str_repeat "0"%char (3 - String.length s) +++ s.

(** *** Dynamic operations on values *)

(** [isinstance(v, dict)] *)
Definition is_dict (v : json) : bool :=
  match v with JObj _ => true | _ => false end.

(** [bool(v)] *)
Definition truthy (v : json) : bool :=
  match v with
  | JNull => false
  | JBool b => b
  | JNum n => negb (n =? 0)%Z
  | JStr s => negb (String.eqb s "")
  | JArr l => match l with [] => false | _ => true end
  | JObj d => match d with [] => false | _ => true end
  end.

(** Whether [hash(v)] succeeds: lists and dicts are unhashable. *)
Definition hashable (v : json) : bool :=
  match v with JArr _ | JObj _ => false | _ => true end.

(** [a == b] when [a] is hashable: [True == 1] and [False == 0] hold, a
    scalar never equals a list or a dict. *)
Definition scalar_eq (a b : json) : bool :=
  match a, b with
  | JNull, JNull => true
  | JBool x, JBool y => Bool.eqb x y
  | JBool x, JNum y => ((if x then 1 else 0) =? y)%Z
  | JNum x, JBool y => (x =? (if y then 1 else 0))%Z
  | JNum x, JNum y => (x =? y)%Z
  | JStr x, JStr y => String.eqb x y
  | _, _ => false
  end.

(** [k in v] for a str [k]. *)
Definition contains (k : string) (v : json) : exc bool :=
  match v with
  | JObj d => Ok (dict_mem k d)
  | JArr l => Ok (existsb (scalar_eq (JStr k)) l)
  | JStr s => Ok (str_contains k s)
  | _ => Raise TypeError
  end.

(** [v[k]] for a str [k]. *)
Definition getitem (v : json) (k : string) : exc json :=
  match v with
  | JObj d => match dict_get k d with Some x => Ok x | None => Raise (KeyError k) end
  | _ => Raise TypeError
  end.

(** [v[k] = x] for a str [k]; the result is the container after the write. *)
Definition setitem (v : json) (k : string) (x : json) : exc json :=
  match v with
  | JObj d => Ok (JObj (dict_set k x d))
  | _ => Raise TypeError
  end.

(** [del v[k]] for a str [k]. *)
Definition delitem (v : json) (k : string) : exc json :=
  match v with
  | JObj d => if dict_mem k d then Ok (JObj (dict_del k d)) else Raise (KeyError k)
  | _ => Raise TypeError
  end.

(** [v.get(k, default)] *)
Definition get (v : json) (k : string) (default : json) : exc json :=
  match v with
  | JObj d => Ok (dict_get_default k default d)
  | _ => Raise AttributeError
  end.

(** [v.copy()]: dicts and lists have it; the copy is shallow, which is the
    same value. *)
Definition copy (v : json) : exc json :=
  match v with
  | JObj _ | JArr _ => Ok v
  | _ => Raise AttributeError
  end.

(** [v.items()] *)
Definition items (v : json) : exc (dict json) :=
  match v with
  | JObj d => Ok d
  | _ => Raise AttributeError
  end.

(** [list(v.keys())] *)
Definition keys (v : json) : exc (list json) :=
  match v with
  | JObj d => Ok (map JStr (dict_keys d))
  | _ => Raise AttributeError
  end.

(** [for x in v]: a list yields its elements, a dict its keys, a str its
    characters. *)
Definition iter (v : json) : exc (list json) :=
  match v with
  | JArr l => Ok l
  | JObj d => Ok (map JStr (dict_keys d))
  | JStr s => Ok (map JStr (str_chars s))
  | _ => Raise TypeError
  end.

(** [len(v)] *)
Definition len (v : json) : exc nat :=
  match v with
  | JObj d => Ok (List.length d)
  | JArr l => Ok (List.length l)
  | JStr s => Ok (String.length s)
  | _ => Raise TypeError
  end.

(** [v.append(x)] *)
Definition append (v : json) (x : json) : exc json :=
  match v with
  | JArr l => Ok (JArr (l ++ [x]))
  | _ => Raise AttributeError
  end.

(** [x in s] for a set [s] kept as the list of its members. *)
Definition set_mem (x : json) (s : list json) : exc bool :=
  if hashable x then Ok (existsb (scalar_eq x) s) else Raise TypeError.

(** [s.add(x)] *)
Definition set_add (x : json) (s : list json) : exc (list json) :=
  b <- set_mem x s ;; Ok (if b then s else s ++ [x]).

(** [str(v)] as an f-string writes it.  [repr] stands for Python's text of a
    list or dict, which the repository does not define. *)
Definition format (repr : json -> string) (v : json) : string :=
  match v with
  | JStr s => s
  | JNull => "None"
  | JBool true => "True"
  | JBool false => "False"
  | JNum n => str_of_Z n
  | _ => repr v
  end.

(** *** [json.dumps(v, sort_keys=True)]

    The two texts that the source compares are equal exactly when the two
    values have the same tree once the keys of every dict are sorted, so the
    text is represented by that tree. *)

Fixpoint insert_sorted (k : string) (v : json) (d : dict json) : dict json :=
  match d with
  | [] => [(k, v)]
  | (k', v') :: r =>
      if String.leb k k' then (k, v) :: d else (k', v') :: insert_sorted k v r
  end.

Fixpoint dumps_sorted (v : json) : json :=
  match v with
  | JArr l => JArr (map dumps_sorted l)
  | JObj d =>
      JObj ((fix go (d : dict json) : dict json :=
               match d with
               | [] => []
               | (k, x) :: r => insert_sorted k (dumps_sorted x) (go r)
               end) d)
  | _ => v
  end.

Fixpoint json_eqb (a b : json) : bool :=
  match a, b with
  | JNull, JNull => true
  | JBool x, JBool y => Bool.eqb x y
  | JNum x, JNum y => (x =? y)%Z
  | JStr x, JStr y => String.eqb x y
  | JArr l, JArr m =>
      (fix go (l m : list json) : bool :=
         match l, m with
         | [], [] => true
         | x :: l', y :: m' => json_eqb x y && go l' m'
         | _, _ => false
         end) l m
  | JObj d, JObj e =>
      (fix go (d e : dict json) : bool :=
         match d, e with
         | [], [] => true
         | (k, x) :: d', (k', y) :: e' =>
             String.eqb k k' && json_eqb x y && go d' e'
         | _, _ => false
         end) d e
  | _, _ => false
  end.

(** [json.dumps(a, sort_keys=True) == json.dumps(b, sort_keys=True)] *)
Definition dumps_equal (a b : json) : bool :=
  json_eqb (dumps_sorted a) (dumps_sorted b).

(** *** Loops *)

(** A [for] loop whose body may raise. *)
Fixpoint foldM {A S : Type} (f : S -> A -> exc S) (l : list A) (s : S) : exc S :=
  match l with
  | [] => Ok s
  | x :: r => s' <- f s x ;; foldM f r s'
  end.

(** [counts[k] += 1] on a counter that holds [k]. *)
Definition incr (k : string) (counts : dict nat) : dict nat :=
  dict_set k (S (dict_get_default k 0 counts)) counts.

End Py.

Import Py.

(* ------------------------------------------------------------------ *)
(** ** core.py *)

Module ComponentExtractor.

Definition COMPONENT_TYPES : list string :=
  ["schemas"; "responses"; "parameters"; "examples"; "requestBodies";
   "headers"; "securitySchemes"; "links"; "callbacks"].

Definition extract_components (spec : dict json) : exc (dict json) :=
  let components := map (fun comp_type => (comp_type, JObj [])) COMPONENT_TYPES in
  match dict_get "components" spec with
  | Some c =>
      foldM (fun components comp_type =>
               b <- contains comp_type c ;;
               if b : bool
               then v <- getitem c comp_type ;;
                    v' <- copy v ;;
                    Ok (dict_set comp_type v' components)
               else Ok components)
            COMPONENT_TYPES components
  | None => Ok components
  end.

(** [merge_components] writes into the object [target] while it reads the
    object [source], and a caller may pass the same object twice.  The two
    arguments are therefore locations of a store, and every read goes to the
    store as it is at that moment. *)
Definition loc : Type := nat.
Definition heap : Type := loc -> json.

Definition heap_set (h : heap) (l : loc) (v : json) : heap :=
  fun l' => if Nat.eqb l' l then v else h l'.

(** [target[comp_type][name] = definition] *)
Definition store_component (comp_type name : string) (definition : json)
    (target : loc) (h : heap) : exc heap :=
  tc <- getitem (h target) comp_type ;;
  tc' <- setitem tc name definition ;;
  t' <- setitem (h target) comp_type tc' ;;
  Ok (heap_set h target t').

(** The body of the inner loop, lines 143-159. *)
Definition merge_one (conflict_strategy comp_type name : string)
    (definition : json) (target : loc) (h : heap) (conflicts : dict nat)
  : heap * exc (dict nat) :=
  match (tc <- getitem (h target) comp_type ;;
         b <- contains name tc ;; Ok (tc, b)) with
  | Raise e => (h, Raise e)
  | Ok (tc, true) =>
      match getitem tc name with
      | Raise e => (h, Raise e)
      | Ok existing =>
          if dumps_equal existing definition then (h, Ok conflicts)
          else
            let conflicts := incr comp_type conflicts in
            if String.eqb conflict_strategy "error" then
              (h, Raise (ValueError
                           ("Conflicting " +++ comp_type +++ " '" +++ name +++ "'")))
            else if String.eqb conflict_strategy "keep_last" then
              match store_component comp_type name definition target h with
              | Ok h' => (h', Ok conflicts)
              | Raise e => (h, Raise e)
              end
            else (h, Ok conflicts)
      end
  | Ok (tc, false) =>
      match store_component comp_type name definition target h with
      | Ok h' => (h', Ok conflicts)
      | Raise e => (h, Raise e)
      end
  end.

(** [for name, definition in source[comp_type].items()]: the iterator walks
    the positions of the dict it was created on and, each time it is asked
    for the next item, first raises if the dict no longer has the size it had
    when the loop began ([len0]). *)
Fixpoint merge_items (positions : list nat) (len0 : nat)
    (conflict_strategy comp_type : string) (target source : loc)
    (h : heap) (conflicts : dict nat) : heap * exc (dict nat) :=
  match (sv <- getitem (h source) comp_type ;; items sv) with
  | Raise e => (h, Raise e)
  | Ok sd =>
      if negb (Nat.eqb (List.length sd) len0) then
        (h, Raise (RuntimeError "dictionary changed size during iteration"))
      else
        match positions with
        | [] => (h, Ok conflicts)
        | i :: rest =>
            match nth_error sd i with
            | None => (h, Ok conflicts)
            | Some (name, definition) =>
                match merge_one conflict_strategy comp_type name definition
                        target h conflicts with
                | (h', Ok conflicts') =>
                    merge_items rest len0 conflict_strategy comp_type
                      target source h' conflicts'
                | (h', Raise e) => (h', Raise e)
                end
            end
        end
  end.

(** One round of the outer loop, lines 136-159. *)
Definition merge_type (conflict_strategy : string) (target source : loc)
    (h : heap) (conflicts : dict nat) (comp_type : string)
  : heap * exc (dict nat) :=
  match contains comp_type (h source) with
  | Raise e => (h, Raise e)
  | Ok false => (h, Ok conflicts)
  | Ok true =>
      match (b <- contains comp_type (h target) ;;
             if b : bool then Ok h
             else t' <- setitem (h target) comp_type (JObj []) ;;
                  Ok (heap_set h target t')) with
      | Raise e => (h, Raise e)
      | Ok h1 =>
          match (sv <- getitem (h1 source) comp_type ;; items sv) with
          | Raise e => (h1, Raise e)
          | Ok sd =>
              merge_items (seq 0 (List.length sd)) (List.length sd)
                conflict_strategy comp_type target source h1 conflicts
          end
      end
  end.

Fixpoint merge_types (comp_types : list string) (conflict_strategy : string)
    (target source : loc) (h : heap) (conflicts : dict nat)
  : heap * exc (dict nat) :=
  match comp_types with
  | [] => (h, Ok conflicts)
  | comp_type :: rest =>
      match merge_type conflict_strategy target source h conflicts comp_type with
      | (h', Ok conflicts') =>
          merge_types rest conflict_strategy target source h' conflicts'
      | (h', Raise e) => (h', Raise e)
      end
  end.

(** [merge_components(target, source, conflict_strategy)]: the store after
    the call, and the returned counts or the exception raised. *)
Definition merge_components (h : heap) (target source : loc)
    (conflict_strategy : string) : heap * exc (dict nat) :=
  let conflicts := map (fun comp_type => (comp_type, 0)) COMPONENT_TYPES in
  merge_types COMPONENT_TYPES conflict_strategy target source h conflicts.

End ComponentExtractor.

Module OperationCounter.

Definition HTTP_METHODS : list string :=
  ["get"; "post"; "put"; "delete"; "patch"; "options"; "head"; "trace"].

(** A [(path, method, operation)] tuple. *)
Definition endpoint : Type := string * string * json.

Definition count_path_item (counts : dict nat) (path_item : json) : dict nat :=
  match path_item with
  | JObj d =>
      fold_left (fun counts method =>
                   if dict_mem method d
                   then incr "total" (incr method counts)
                   else counts)
                HTTP_METHODS counts
  | _ => counts
  end.

Definition count_operations (spec : dict json) : exc (dict nat) :=
  let counts := map (fun method => (method, 0)) HTTP_METHODS in
  let counts := dict_set "total" 0 counts in
  paths <- items (dict_get_default "paths" (JObj []) spec) ;;
  Ok (fold_left (fun counts entry => count_path_item counts (snd entry))
                paths counts).

Definition path_item_operations (path : string) (path_item : json) : list endpoint :=
  match path_item with
  | JObj d =>
      flat_map (fun method =>
                  match dict_get method d with
                  | Some operation => [(path, method, operation)]
                  | None => []
                  end)
               HTTP_METHODS
  | _ => []
  end.

Definition get_operations (spec : dict json) : exc (list endpoint) :=
  paths <- items (dict_get_default "paths" (JObj []) spec) ;;
  Ok (flat_map (fun entry => path_item_operations (fst entry) (snd entry)) paths).

End OperationCounter.

(** [validate_spec_structure]: the issues found, in the order of the checks. *)
Definition validate_spec_structure (spec : dict json) : list string :=
  (if dict_mem "openapi" spec || dict_mem "swagger" spec then []
   else ["Missing OpenAPI/Swagger version field"])
  ++ match dict_get "info" spec with
     | None => ["Missing 'info' object"]
     | Some (JObj info) =>
         (if dict_mem "title" info then [] else ["Missing 'info.title'"])
         ++ (if dict_mem "version" info then [] else ["Missing 'info.version'"])
     | Some _ => ["'info' must be an object"]
     end
  ++ match dict_get "paths" spec with
     | None => ["Missing 'paths' object"]
     | Some (JObj paths) => if truthy (JObj paths) then [] else ["'paths' is empty"]
     | Some _ => ["'paths' must be an object"]
     end
  ++ match dict_get "components" spec with
     | Some (JObj _) | None => []
     | Some _ => ["'components' must be an object"]
     end.

(* ------------------------------------------------------------------ *)
(** ** splitter.py *)

Module OpenAPISplitter.

Import OperationCounter.

(** The splitter object: the loaded document, the components taken from it
    by [__init__], and the modification time that [Path(spec_path).stat()]
    reports for the source file. *)
Record state : Type := {
  spec_path : string;
  spec : dict json;
  common_components : dict json;
  st_mtime : json
}.

(** [__init__], given what [SpecLoader.load_spec] returned. *)
Definition init (path : string) (loaded : dict json) (mtime : json) : exc state :=
  components <- ComponentExtractor.extract_components loaded ;;
  Ok {| spec_path := path; spec := loaded;
        common_components := components; st_mtime := mtime |}.

(** [range(0, stop, step)] *)
Definition range_step (stop : nat) (step : Z) : exc (list nat) :=
  if (step =? 0)%Z then Raise (ValueError "range() arg 3 must not be zero")
  else if (step <? 0)%Z then Ok []
  else
    let s := Z.to_nat step in
    Ok (map (fun k => k * s) (seq 0 ((stop + s - 1) / s))).

(** [l[i:j]] for [0 <= i <= j] *)
Definition slice {A : Type} (l : list A) (i j : nat) : list A :=
  firstn (j - i) (skipn i l).

(** [grouped[k].append(x)] on a [defaultdict(list)] *)
Definition group_append {A : Type} (k : string) (x : A) (grouped : dict (list A))
  : dict (list A) :=
  dict_set k (dict_get_default k [] grouped ++ [x]) grouped.

(** The [defaultdict(list)] of [group_endpoints_by_tag]: its keys are the
    tags, any hashable values, compared as Python compares dict keys; a key
    keeps the position and the value it was first inserted with. *)
Definition tag_groups : Type := list (json * list endpoint).

Fixpoint tag_groups_get (k : json) (g : tag_groups) : option (list endpoint) :=
  match g with
  | [] => None
  | (k', v) :: r => if scalar_eq k k' then Some v else tag_groups_get k r
  end.

Fixpoint tag_groups_set (k : json) (v : list endpoint) (g : tag_groups) : tag_groups :=
  match g with
  | [] => [(k, v)]
  | (k', v') :: r =>
      if scalar_eq k k' then (k', v) :: r else (k', v') :: tag_groups_set k v r
  end.

(** [grouped[tag].append(x)] *)
Definition tag_groups_append (tag : json) (x : endpoint) (g : tag_groups)
  : exc tag_groups :=
  if hashable tag
  then Ok (tag_groups_set tag
             (match tag_groups_get tag g with Some l => l | None => [] end ++ [x]) g)
  else Raise TypeError.

(** Lines 86-98: one operation, for the groups and the untagged list. *)
Definition group_operation_by_tag (path method : string) (operation : json)
    (st : tag_groups * list endpoint) : exc (tag_groups * list endpoint) :=
  match operation with
  | JObj d =>
      let tags := dict_get_default "tags" (JArr []) d in
      if truthy tags then
        ts <- iter tags ;;
        grouped <- foldM (fun g tag => tag_groups_append tag (path, method, operation) g)
                         ts (fst st) ;;
        Ok (grouped, snd st)
      else Ok (fst st, snd st ++ [(path, method, operation)])
  | _ => Ok st
  end.

Definition group_path_item_by_tag (st : tag_groups * list endpoint)
    (entry : string * json) : exc (tag_groups * list endpoint) :=
  let (path, path_item) := entry in
  match path_item with
  | JObj d =>
      foldM (fun st method =>
               match dict_get method d with
               | Some operation => group_operation_by_tag path method operation st
               | None => Ok st
               end)
            HTTP_METHODS st
  | _ => Ok st
  end.

Definition group_endpoints_by_tag (self : state) : exc tag_groups :=
  paths <- items (dict_get_default "paths" (JObj []) (spec self)) ;;
  r <- foldM group_path_item_by_tag paths ([], []) ;;
  Ok (match snd r with
      | [] => fst r
      | untagged => tag_groups_set (JStr "untagged") untagged (fst r)
      end).

(** [len(self.spec.get('components', {}).get(section, {}))] *)
Definition section_size (self : state) (section : string) : exc nat :=
  v <- get (dict_get_default "components" (JObj []) (spec self)) section (JObj []) ;;
  len v.

(** [analyze_spec] *)
Definition analyze_spec (self : state) : exc (dict json) :=
  operation_counts <- count_operations (spec self) ;;
  total_endpoints <- len (dict_get_default "paths" (JObj []) (spec self)) ;;
  total_operations <- match dict_get "total" operation_counts with
                      | Some n => Ok n
                      | None => Raise (KeyError "total")
                      end ;;
  let operations_by_method :=
    filter (fun entry : string * nat =>
              negb (String.eqb (fst entry) "total") && Nat.ltb 0 (snd entry))
           operation_counts in
  total_schemas <- section_size self "schemas" ;;
  total_responses <- section_size self "responses" ;;
  total_parameters <- section_size self "parameters" ;;
  has_security <- (if dict_mem "security" (spec self) then Ok true
                   else contains "securitySchemes"
                          (dict_get_default "components" (JObj []) (spec self))) ;;
  Ok [("total_endpoints", JNum (Z.of_nat total_endpoints));
      ("total_operations", JNum (Z.of_nat total_operations));
      ("operations_by_method",
       JObj (map (fun entry : string * nat => (fst entry, JNum (Z.of_nat (snd entry))))
                 operations_by_method));
      ("total_schemas", JNum (Z.of_nat total_schemas));
      ("total_responses", JNum (Z.of_nat total_responses));
      ("total_parameters", JNum (Z.of_nat total_parameters));
      ("has_security", JBool has_security);
      ("has_servers", JBool (dict_mem "servers" (spec self)));
      ("openapi_version",
       dict_get_default "openapi"
         (dict_get_default "swagger" (JStr "unknown") (spec self)) (spec self))].

(** Lines 121-126: the group label of a path. *)
Definition path_prefix (path : string) : string :=
  let parts := str_split "/" (str_strip "/"%char path) in
  let prefix :=
    match parts with
    | p :: _ => if String.eqb p "" then "root" else p
    | [] => "root"
    end in
  str_remove "}"%char (str_remove "{"%char prefix).

Definition group_path_item (grouped : dict (list endpoint))
    (entry : string * json) : dict (list endpoint) :=
  let (path, path_item) := entry in
  match path_item with
  | JObj d =>
      let prefix := path_prefix path in
      fold_left (fun grouped method =>
                   match dict_get method d with
                   | Some operation =>
                       if is_dict operation
                       then group_append prefix (path, method, operation) grouped
                       else grouped
                   | None => grouped
                   end)
                HTTP_METHODS grouped
  | _ => grouped
  end.

(** Lines 136-142: the assignments to [final_groups] caused by one group,
    in the order in which they are made. *)
Definition chunk_group (max_per_file : Z) (entry : string * list endpoint)
  : exc (list (string * list endpoint)) :=
  let (prefix, endpoints) := entry in
  if (max_per_file <? Z.of_nat (List.length endpoints))%Z then
    let s := Z.to_nat max_per_file in
    starts <- range_step (List.length endpoints) max_per_file ;;
    Ok (map (fun i => (prefix +++ "_part" +++ str_of_nat (i / s + 1),
                       slice endpoints i (i + s)))
            starts)
  else Ok [(prefix, endpoints)].

Definition grouped_by_prefix (self : state) : exc (dict (list endpoint)) :=
  paths <- items (dict_get_default "paths" (JObj []) (spec self)) ;;
  Ok (fold_left group_path_item paths []).

(** All the assignments [final_groups[label] = endpoints] of lines 136-142,
    in the order in which the two nested loops make them. *)
Definition final_assignments (max_per_file : Z) (grouped : dict (list endpoint))
  : exc (list (string * list endpoint)) :=
  foldM (fun assignments entry =>
           a <- chunk_group max_per_file entry ;; Ok (assignments ++ a))
        grouped [].

Definition group_endpoints_by_path_prefix (self : state) (max_per_file : Z)
  : exc (dict (list endpoint)) :=
  grouped <- grouped_by_prefix self ;;
  assignments <- final_assignments max_per_file grouped ;;
  Ok (fold_left (fun final_groups a => dict_set (fst a) (snd a) final_groups)
                assignments []).

(** Lines 183-186: the tags used by the endpoints. *)
Definition used_tags_of (endpoints : list endpoint) : exc (list json) :=
  foldM (fun used_tags (e : endpoint) =>
           let operation := snd e in
           b <- contains "tags" operation ;;
           if b : bool
           then t <- getitem operation "tags" ;;
                xs <- iter t ;;
                foldM (fun used_tags x => set_add x used_tags) xs used_tags
           else Ok used_tags)
        endpoints [].

(** Lines 189-192. *)
Definition filter_tags (spec_tags : json) (used_tags : list json) : exc (list json) :=
  tags <- iter spec_tags ;;
  foldM (fun kept tag =>
           name <- get tag "name" JNull ;;
           b <- set_mem name used_tags ;;
           Ok (if b : bool then kept ++ [tag] else kept))
        tags [].

(** Lines 195-198: [mini_spec['paths'][path][method] = operation]. *)
Definition add_endpoint (paths : dict (dict json)) (e : endpoint) : dict (dict json) :=
  let '(path, method, operation) := e in
  let paths := if dict_mem path paths then paths else dict_set path [] paths in
  dict_set path (dict_set method operation (dict_get_default path [] paths)) paths.

Definition paths_value (paths : dict (dict json)) : json :=
  JObj (map (fun e => (fst e, JObj (snd e))) paths).

Section Formatting.

(** Python's text of a list or a dict, used when [info.title] is one. *)
Variable repr : json -> string.

Definition create_mini_spec (self : state) (endpoints : list endpoint)
    (name : string) (include_components : bool) : exc (dict json) :=
  info <- match dict_get "info" (spec self) with
          | Some i => copy i
          | None => Ok (JObj [("title", JStr "API"); ("version", JStr "1.0.0")])
          end ;;
  let mini_spec :=
    [("openapi", dict_get_default "openapi" (JStr "3.1.0") (spec self));
     ("info", info);
     ("paths", JObj [])] in
  let mini_spec :=
    if include_components && truthy (JObj (common_components self))
    then dict_set "components"
           (JObj (filter (fun e => truthy (snd e)) (common_components self)))
           mini_spec
    else mini_spec in
  mini_spec <- match dict_get "servers" (spec self) with
               | Some s => c <- copy s ;; Ok (dict_set "servers" c mini_spec)
               | None => Ok mini_spec
               end ;;
  mini_spec <- match dict_get "security" (spec self) with
               | Some s => c <- copy s ;; Ok (dict_set "security" c mini_spec)
               | None => Ok mini_spec
               end ;;
  mini_spec <- match dict_get "tags" (spec self) with
               | Some spec_tags =>
                   used_tags <- used_tags_of endpoints ;;
                   if truthy (JArr used_tags)
                   then kept <- filter_tags spec_tags used_tags ;;
                        Ok (dict_set "tags" (JArr kept) mini_spec)
                   else Ok mini_spec
               | None => Ok mini_spec
               end ;;
  let mini_spec :=
    dict_set "paths" (paths_value (fold_left add_endpoint endpoints [])) mini_spec in
  title <- get info "title" (JStr "API") ;;
  info <- setitem info "title" (JStr (format repr title +++ " - " +++ name)) ;;
  info <- setitem info "x-split-part" (JStr name) ;;
  info <- setitem info "x-split-timestamp" (st_mtime self) ;;
  Ok (dict_set "info" info mini_spec).

(** What a split run leaves behind: the documents handed to
    [SpecLoader.save_spec], with their file names and in the order of the
    calls, and the mapping it returns. *)
Record split_result : Type := {
  written : list (string * dict json);
  mapping : dict json
}.

(** [len(set(path for path, _, _ in endpoints))] *)
Definition path_count (endpoints : list endpoint) : nat :=
  List.length (nodup string_dec (map (fun e : endpoint => fst (fst e)) endpoints)).

Definition mapping_entry (filename label_key : string) (label : json)
    (endpoints : list endpoint) : json :=
  JObj [("name", JStr filename);
        (label_key, label);
        ("endpoint_count", JNum (Z.of_nat (List.length endpoints)));
        ("path_count", JNum (Z.of_nat (path_count endpoints)))].

Definition make_mapping (type : string) (files : list json) (self : state) : dict json :=
  [("type", JStr type); ("files", JArr files); ("source", JStr (spec_path self))].

(** What the loop of a split run has produced so far: the saved documents
    with their file names, and the entries of [mapping['files']]. *)
Definition output : Type := list (string * dict json) * list json.

(** Lines 223-237: one group of the tag split.  [tag.replace] exists on a
    [str] only. *)
Definition write_tag_group (self : state) (acc : output) (g : json * list endpoint)
  : exc output :=
  let (tag, endpoints) := g in
  match tag with
  | JStr t =>
      let safe_tag := str_replace_char " " "_" (str_replace_char "/" "_" t) in
      let filename := "spec_" +++ safe_tag +++ ".json" in
      mini_spec <- create_mini_spec self endpoints t true ;;
      Ok (fst acc ++ [(filename, mini_spec)],
          snd acc ++ [mapping_entry filename "tag" (JStr t) endpoints])
  | _ => Raise AttributeError
  end.

Definition split_by_tags (self : state) : exc split_result :=
  grouped <- group_endpoints_by_tag self ;;
  match grouped with
  | [] => Ok {| written := [];
                mapping := [("type", JStr "tag-based"); ("files", JArr [])] |}
  | _ =>
      r <- foldM (write_tag_group self) grouped ([], []) ;;
      Ok {| written := fst r; mapping := make_mapping "tag-based" (snd r) self |}
  end.

(** Lines 267-280: one group of the path-prefix split. *)
Definition write_group (self : state) (acc : output) (g : string * list endpoint)
  : exc output :=
  let (prefix, endpoints) := g in
  let filename := "spec_" +++ prefix +++ ".json" in
  mini_spec <- create_mini_spec self endpoints prefix true ;;
  Ok (fst acc ++ [(filename, mini_spec)],
      snd acc ++ [mapping_entry filename "prefix" (JStr prefix) endpoints]).

Definition split_by_path_prefix (self : state) (max_per_file : Z) : exc split_result :=
  grouped <- group_endpoints_by_path_prefix self max_per_file ;;
  match grouped with
  | [] => Ok {| written := [];
                mapping := [("type", JStr "path-based"); ("files", JArr [])] |}
  | _ =>
      r <- foldM (write_group self) grouped ([], []) ;;
      Ok {| written := fst r; mapping := make_mapping "path-based" (snd r) self |}
  end.

(** Lines 311-326: the part of the size split that starts at operation [i]. *)
Definition write_part (self : state) (all_endpoints : list endpoint)
    (operations_per_file : nat) (acc : output) (i : nat) : exc output :=
  let chunk := slice all_endpoints i (i + operations_per_file) in
  let part_num := i / operations_per_file + 1 in
  let filename := "spec_part" +++ format_03d part_num +++ ".json" in
  mini_spec <- create_mini_spec self chunk ("Part " +++ str_of_nat part_num) true ;;
  Ok (fst acc ++ [(filename, mini_spec)],
      snd acc ++ [mapping_entry filename "part" (JNum (Z.of_nat part_num)) chunk]).

Definition split_by_size (self : state) (operations_per_file : Z) : exc split_result :=
  all_endpoints <- get_operations (spec self) ;;
  match all_endpoints with
  | [] => Ok {| written := [];
                mapping := [("type", JStr "size-based"); ("files", JArr [])] |}
  | _ =>
      starts <- range_step (List.length all_endpoints) operations_per_file ;;
      r <- foldM (write_part self all_endpoints (Z.to_nat operations_per_file))
                 starts ([], []) ;;
      Ok {| written := fst r; mapping := make_mapping "size-based" (snd r) self |}
  end.

End Formatting.

End OpenAPISplitter.

(* ------------------------------------------------------------------ *)
(** ** merger.py *)

Module OpenAPIMerger.

Record statistics : Type := {
  files_processed : nat;
  paths_merged : nat;
  operations_merged : nat;
  component_conflicts : dict nat;
  path_conflicts : nat
}.

(** The merger object: [self.merged_spec] and [self.stats]. *)
Record state : Type := {
  merged_spec : dict json;
  stats : statistics
}.

Definition with_spec (self : state) (m : dict json) : state :=
  {| merged_spec := m; stats := stats self |}.

(** [__init__], for an input directory that exists. *)
Definition init : state :=
  {| merged_spec :=
       [("openapi", JStr "3.1.0");
        ("info", JObj [("title", JStr "Merged API"); ("version", JStr "1.0.0")]);
        ("paths", JObj []);
        ("components", JObj [])];
     stats :=
       {| files_processed := 0; paths_merged := 0; operations_merged := 0;
          component_conflicts := []; path_conflicts := 0 |} |}.

(** [title.split(sep)[0]] *)
Definition split_first (title : json) (sep : string) : exc string :=
  match title with
  | JStr s => Ok (hd "" (str_split sep s))
  | _ => Raise AttributeError
  end.

Definition split_indicators : list string := ["x-split-part"; "x-split-timestamp"].

Definition merge_info (self : state) (spec : dict json) : exc state :=
  match dict_get "info" spec with
  | None => Ok self
  | Some source_info =>
      if Nat.eqb (files_processed (stats self)) 0 then
        info <- copy source_info ;;
        info <- foldM (fun info key =>
                         b <- contains key info ;;
                         if b : bool then delitem info key else Ok info)
                      split_indicators info ;;
        title <- get info "title" (JStr "") ;;
        b <- contains " - " title ;;
        info <- (if b : bool
                 then t <- split_first title " - " ;; setitem info "title" (JStr t)
                 else Ok info) ;;
        Ok (with_spec self (dict_set "info" info (merged_spec self)))
      else
        info <- getitem (JObj (merged_spec self)) "info" ;;
        b1 <- contains "description" source_info ;;
        info <- (if b1 : bool
                 then b2 <- contains "description" info ;;
                      if b2 : bool then Ok info
                      else d <- getitem source_info "description" ;;
                           setitem info "description" d
                 else Ok info) ;;
        entries <- items source_info ;;
        info <- foldM (fun info (entry : string * json) =>
                         let (key, value) := entry in
                         if str_startswith "x-" key
                            && negb (existsb (String.eqb key) split_indicators)
                         then b <- contains key info ;;
                              if b : bool then Ok info else setitem info key value
                         else Ok info)
                      entries info ;;
        Ok (with_spec self (dict_set "info" info (merged_spec self)))
  end.

(** [existing_tags]: the tag names of the merged list, each with the position
    of the tag object it refers to. *)
Definition tag_index : Type := list (json * nat).

Fixpoint tag_index_set (name : json) (i : nat) (idx : tag_index) : tag_index :=
  match idx with
  | [] => [(name, i)]
  | (n, j) :: r =>
      if scalar_eq name n then (n, i) :: r else (n, j) :: tag_index_set name i r
  end.

Fixpoint tag_index_get (name : json) (idx : tag_index) : option nat :=
  match idx with
  | [] => None
  | (n, j) :: r => if scalar_eq name n then Some j else tag_index_get name r
  end.

(** [tag['name']] used as a dict key *)
Definition tag_name (tag : json) : exc json :=
  n <- getitem tag "name" ;;
  if hashable n then Ok n else Raise TypeError.

Fixpoint list_set {A : Type} (i : nat) (x : A) (l : list A) : list A :=
  match l, i with
  | [], _ => []
  | _ :: r, O => x :: r
  | y :: r, S i' => y :: list_set i' x r
  end.

(** Lines 145-150. *)
Definition merge_servers (current incoming : json) : exc json :=
  existing <- iter current ;;
  servers <- iter incoming ;;
  r <- foldM (fun (acc : json * list json) server =>
                if existsb (dumps_equal server) (snd acc) then Ok acc
                else cur <- append (fst acc) server ;;
                     Ok (cur, snd acc ++ [server]))
             servers (current, existing) ;;
  Ok (fst r).

(** Lines 153-160. *)
Definition merge_tags (current incoming : json) : exc json :=
  tags0 <- iter current ;;
  existing_tags <-
    foldM (fun idx (it : nat * json) =>
             n <- tag_name (snd it) ;; Ok (tag_index_set n (fst it) idx))
          (combine (seq 0 (List.length tags0)) tags0) [] ;;
  tags <- iter incoming ;;
  foldM (fun cur tag =>
           n <- tag_name tag ;;
           match tag_index_get n existing_tags with
           | None => append cur tag
           | Some i =>
               b1 <- contains "description" tag ;;
               if b1 : bool then
                 match cur with
                 | JArr l =>
                     match nth_error l i with
                     | Some existing =>
                         b2 <- contains "description" existing ;;
                         if b2 : bool then Ok cur
                         else d <- getitem tag "description" ;;
                              existing' <- setitem existing "description" d ;;
                              Ok (JArr (list_set i existing' l))
                     | None => Ok cur
                     end
                 | _ => Ok cur
                 end
               else Ok cur
           end)
        tags current.

Definition mergeable_props : list string :=
  ["servers"; "security"; "tags"; "externalDocs"].

Definition merge_root_properties (self : state) (spec : dict json) : exc state :=
  m <- foldM (fun m prop =>
                match dict_get prop spec with
                | None => Ok m
                | Some incoming =>
                    match dict_get prop m with
                    | None => c <- copy incoming ;; Ok (dict_set prop c m)
                    | Some current =>
                        if String.eqb prop "servers" then
                          c <- merge_servers current incoming ;; Ok (dict_set prop c m)
                        else if String.eqb prop "tags" then
                          c <- merge_tags current incoming ;; Ok (dict_set prop c m)
                        else Ok m
                    end
                end)
             mergeable_props (merged_spec self) ;;
  Ok (with_spec self m).

(** Lines 181-188, for one key of a path item. *)
Definition merge_operation (path : string) (self : state) (entry : string * json)
  : exc state :=
  let (method, operation) := entry in
  paths <- getitem (JObj (merged_spec self)) "paths" ;;
  item <- getitem paths path ;;
  b <- contains method item ;;
  item' <- setitem item method operation ;;
  paths' <- setitem paths path item' ;;
  let st := stats self in
  Ok {| merged_spec := dict_set "paths" paths' (merged_spec self);
        stats :=
          {| files_processed := files_processed st;
             paths_merged := paths_merged st;
             operations_merged :=
               (if existsb (String.eqb method) OperationCounter.HTTP_METHODS
                then S (operations_merged st) else operations_merged st);
             component_conflicts := component_conflicts st;
             path_conflicts :=
               (if b : bool then S (path_conflicts st) else path_conflicts st) |} |}.

(** Lines 173-188, for one entry of [spec['paths']]. *)
Definition merge_path (self : state) (entry : string * json) : exc state :=
  let (path, path_item) := entry in
  match path_item with
  | JObj d =>
      paths <- getitem (JObj (merged_spec self)) "paths" ;;
      b <- contains path paths ;;
      self <- (if b : bool then Ok self
               else paths' <- setitem paths path (JObj []) ;;
                    let st := stats self in
                    Ok {| merged_spec := dict_set "paths" paths' (merged_spec self);
                          stats :=
                            {| files_processed := files_processed st;
                               paths_merged := S (paths_merged st);
                               operations_merged := operations_merged st;
                               component_conflicts := component_conflicts st;
                               path_conflicts := path_conflicts st |} |}) ;;
      foldM (merge_operation path) d self
  | _ => Ok self
  end.

Definition merge_paths (self : state) (spec : dict json) : exc state :=
  match dict_get "paths" spec with
  | None => Ok self
  | Some paths =>
      entries <- items paths ;;
      foldM merge_path entries self
  end.

(** Lines 215-219. *)
Definition track_conflicts (conflicts : dict nat) (tracked : dict nat) : dict nat :=
  fold_left (fun tracked (c : string * nat) =>
               let (comp_type, count) := c in
               if Nat.ltb 0 count
               then dict_set comp_type (dict_get_default comp_type 0 tracked + count) tracked
               else tracked)
            conflicts tracked.

Definition target_loc : ComponentExtractor.loc := 0.
Definition source_loc : ComponentExtractor.loc := 1.

Definition merge_components (self : state) (spec : dict json)
    (conflict_strategy : string) : exc state :=
  match dict_get "components" spec with
  | None => Ok self
  | Some source_components =>
      let m := if dict_mem "components" (merged_spec self) then merged_spec self
               else dict_set "components" (JObj []) (merged_spec self) in
      target_components <- getitem (JObj m) "components" ;;
      let h : ComponentExtractor.heap :=
        fun l => if Nat.eqb l target_loc then target_components
                 else source_components in
      match ComponentExtractor.merge_components h target_loc source_loc
              conflict_strategy with
      | (h', Ok conflicts) =>
          let st := stats self in
          Ok {| merged_spec := dict_set "components" (h' target_loc) m;
                stats :=
                  {| files_processed := files_processed st;
                     paths_merged := paths_merged st;
                     operations_merged := operations_merged st;
                     component_conflicts :=
                       track_conflicts conflicts (component_conflicts st);
                     path_conflicts := path_conflicts st |} |}
      | (_, Raise e) => Raise e
      end
  end.

Definition clean_merged_spec (self : state) : exc state :=
  match dict_get "components" (merged_spec self) with
  | Some components =>
      entries <- items components ;;
      let empty_components :=
        map fst (filter (fun e => negb (truthy (snd e))) entries) in
      components' <- foldM delitem empty_components components ;;
      if truthy components'
      then Ok (with_spec self (dict_set "components" components' (merged_spec self)))
      else Ok (with_spec self (dict_del "components" (merged_spec self)))
  | None => Ok self
  end.

(** The format test of [SpecLoader.save_spec]. *)
Definition save_spec (format : string) : exc unit :=
  if String.eqb format "json" then Ok tt
  else if existsb (String.eqb format) ["yaml"; "yml"] then Ok tt
  else Raise (ValueError ("Unsupported format: " +++ format)).

(** Lines 273-285: one loaded file. *)
Definition merge_file (conflict_strategy : string) (self : state)
    (spec : dict json) : exc state :=
  let self :=
    if Nat.eqb (files_processed (stats self)) 0 then
      match dict_get "openapi" spec with
      | Some v => with_spec self (dict_set "openapi" v (merged_spec self))
      | None =>
          match dict_get "swagger" spec with
          | Some v => with_spec self (dict_set "swagger" v (merged_spec self))
          | None => self
          end
      end
    else self in
  self <- merge_info self spec ;;
  self <- merge_root_properties self spec ;;
  self <- merge_components self spec conflict_strategy ;;
  self <- merge_paths self spec ;;
  let st := stats self in
  Ok {| merged_spec := merged_spec self;
        stats :=
          {| files_processed := S (files_processed st);
             paths_merged := paths_merged st;
             operations_merged := operations_merged st;
             component_conflicts := component_conflicts st;
             path_conflicts := path_conflicts st |} |}.

(** [merge_all]: [spec_files] holds, for each file that [get_spec_files]
    lists, what [SpecLoader.load_spec] does with it.  The result is the
    merger after the run: [merged_spec] is the document given to
    [save_spec], [stats] the value returned. *)
Definition merge_all (self : state) (spec_files : list (exc (dict json)))
    (conflict_strategy output_format : string) : exc state :=
  match spec_files with
  | [] => Raise (ValueError "No spec files found to merge!")
  | _ =>
      self <- foldM (fun self (loaded : exc (dict json)) =>
                       match loaded with
                       | Raise _ => Ok self
                       | Ok spec => merge_file conflict_strategy self spec
                       end)
                    spec_files self ;;
      self <- clean_merged_spec self ;;
      _ <- save_spec output_format ;;
      Ok self
  end.

(** [validate_merged_spec] *)
Definition validate_merged_spec (self : state) : list string :=
  validate_spec_structure (merged_spec self).

End OpenAPIMerger.

(* ------------------------------------------------------------------ *)
(** ** analyzer.py *)

Module OpenAPIAnalyzer.

Record state : Type := {
  spec_path : string;
  spec : dict json
}.

(** [validate] *)
Definition validate (self : state) : dict json :=
  let issues := validate_spec_structure (spec self) in
  [("is_valid", JBool (Nat.eqb (List.length issues) 0));
   ("issue_count", JNum (Z.of_nat (List.length issues)));
   ("issues", JArr (map JStr issues))].

(** Lines 208-211: the names of the security schemes, when the document has
    some. *)
Definition security_schemes (spec : dict json) : exc (option (list json)) :=
  match dict_get "components" spec with
  | Some components =>
      b <- contains "securitySchemes" components ;;
      if b : bool
      then schemes <- getitem components "securitySchemes" ;;
           names <- keys schemes ;;
           Ok (Some names)
      else Ok None
  | None => Ok None
  end.

(** Lines 226-232: one operation, for the two counters. *)
Definition count_security (global_security : json) (operation : json)
    (counts : nat * nat) : nat * nat :=
  match operation with
  | JObj d =>
      if dict_mem "security" d then (S (fst counts), snd counts)
      else if truthy global_security then (S (fst counts), snd counts)
      else (fst counts, S (snd counts))
  | _ => counts
  end.

Definition analyze_security (self : state) : exc (dict json) :=
  schemes <- security_schemes (spec self) ;;
  let global_security := dict_get_default "security" (JArr []) (spec self) in
  let has_security :=
    match schemes with Some _ => true | None => false end
    || dict_mem "security" (spec self) in
  paths <- items (dict_get_default "paths" (JObj []) (spec self)) ;;
  let counts :=
    fold_left (fun counts (entry : string * json) =>
                 match snd entry with
                 | JObj d =>
                     fold_left (fun counts method =>
                                  match dict_get method d with
                                  | Some operation =>
                                      count_security global_security operation counts
                                  | None => counts
                                  end)
                               OperationCounter.HTTP_METHODS counts
                 | _ => counts
                 end)
              paths (0, 0) in
  Ok [("has_security", JBool has_security);
      ("security_schemes",
       JArr (match schemes with Some names => names | None => [] end));
      ("global_security", global_security);
      ("operations_with_security", JNum (Z.of_nat (fst counts)));
      ("operations_without_security", JNum (Z.of_nat (snd counts)))].

End OpenAPIAnalyzer.

(* ------------------------------------------------------------------ *)
(** ** Vocabulary of the statements *)

(** A component mapping: every component type it holds maps names to
    definitions. *)
Definition component_mapping (c : json) : Prop :=
  exists d, c = JObj d /\
    forall comp_type v,
      In comp_type ComponentExtractor.COMPONENT_TYPES ->
      dict_get comp_type d = Some v ->
      exists definitions, v = JObj definitions /\ dict_wf definitions.

(** The counts that [merge_components] starts from. *)
Definition no_conflicts : dict nat :=
  map (fun comp_type => (comp_type, 0)) ComponentExtractor.COMPONENT_TYPES.

Definition endpoint_path (e : OperationCounter.endpoint) : string := fst (fst e).
Definition endpoint_method (e : OperationCounter.endpoint) : string := snd (fst e).
Definition endpoint_operation (e : OperationCounter.endpoint) : json := snd e.

(** The [(path, method)] pairs of a list of operations. *)
Definition pairs (operations : list OperationCounter.endpoint) : list (string * string) :=
  map fst operations.

(** How many of the operations use [method]. *)
Definition count_method (method : string) (operations : list OperationCounter.endpoint) : nat :=
  List.length (filter (fun e => String.eqb (endpoint_method e) method) operations).

(** Position of the first [k] in [l] ([length l] when there is none). *)
Fixpoint index_of (k : string) (l : list string) : nat :=
  match l with
  | [] => 0
  | x :: r => if String.eqb k x then 0 else S (index_of k r)
  end.

(** Document order of paths, then canonical order of methods. *)
Definition endpoint_before (paths : dict json) (e1 e2 : OperationCounter.endpoint) : Prop :=
  index_of (endpoint_path e1) (dict_keys paths)
  < index_of (endpoint_path e2) (dict_keys paths)
  \/ (endpoint_path e1 = endpoint_path e2 /\
      index_of (endpoint_method e1) OperationCounter.HTTP_METHODS
      < index_of (endpoint_method e2) OperationCounter.HTTP_METHODS).

(** The keys that every merged document holds. *)
Definition has_required_keys (m : dict json) : Prop :=
  dict_mem "openapi" m = true /\ dict_mem "info" m = true /\ dict_mem "paths" m = true.

(** The document that [__init__] sets up, once [clean_merged_spec] has
    dropped its empty [components]. *)
Definition skeleton : dict json :=
  [("openapi", JStr "3.1.0");
   ("info", JObj [("title", JStr "Merged API"); ("version", JStr "1.0.0")]);
   ("paths", JObj [])].

(** The counter agrees with the list of operations read so far. *)
Definition counted (counts : dict nat) (operations : list OperationCounter.endpoint) : Prop :=
  dict_get "total" counts = Some (List.length operations) /\
  forall m, In m OperationCounter.HTTP_METHODS ->
            dict_get m counts = Some (count_method m operations).

(** A step of the merger does not remove the key [k]. *)
Definition keeps (k : string) (self self' : OpenAPIMerger.state) : Prop :=
  dict_mem k (OpenAPIMerger.merged_spec self) = true ->
  dict_mem k (OpenAPIMerger.merged_spec self') = true.

(** [m['paths']] is the mapping [mp] of path items. *)
Definition holds_paths (m : dict json) (mp : dict (dict json)) : Prop :=
  dict_get "paths" m = Some (OpenAPISplitter.paths_value mp).

(** [mp[p][k]], when both keys are there. *)
Definition lookup2 (mp : dict (dict json)) (p k : string) : option json :=
  match dict_get p mp with
  | Some d => dict_get k d
  | None => None
  end.

Definition is_some {A : Type} (o : option A) : bool :=
  match o with Some _ => true | None => false end.

Definition is_http_method (k : string) : bool :=
  existsb (String.eqb k) OperationCounter.HTTP_METHODS.

(** A key of a path item of a source file, with its path and its value. *)
Definition write : Type := string * string * json.
Definition write_path (w : write) : string := fst (fst w).
Definition write_key (w : write) : string := snd (fst w).

(** Every key of every mapping-valued path item of [sp], in the order in
    which [merge_paths] writes them. *)
Definition written_keys (sp : dict json) : list write :=
  flat_map (fun entry : string * json =>
              match snd entry with
              | JObj d => map (fun kv : string * json => (fst entry, fst kv, snd kv)) d
              | _ => []
              end) sp.

(** The paths of [sp] with a mapping-valued item that [mp] does not hold. *)
Definition new_paths (mp : dict (dict json)) (sp : dict json) : dict json :=
  filter (fun entry => is_dict (snd entry) && negb (dict_mem (fst entry) mp)) sp.

(** The keys of [sp] that [mp] holds already at the same path. *)
Definition duplicate_keys (mp : dict (dict json)) (sp : dict json) : list write :=
  filter (fun w => is_some (lookup2 mp (write_path w) (write_key w))) (written_keys sp).

(** Those among them that are HTTP methods. *)
Definition duplicate_method_keys (mp : dict (dict json)) (sp : dict json) : list write :=
  filter (fun w => is_http_method (write_key w)) (duplicate_keys mp sp).

(** The keys of [sp] that are HTTP methods. *)
Definition method_writes (sp : dict json) : list write :=
  filter (fun w => is_http_method (write_key w)) (written_keys sp).

(** The dict invariant for a [paths] mapping and its path items. *)
Definition paths_wf (sp : dict json) : Prop :=
  dict_wf sp /\ forall p d, In (p, JObj d) sp -> dict_wf d.

(** [item] after every entry of [d] has been written into it. *)
Definition write_all (d item : dict json) : dict json :=
  fold_left (fun item kv => dict_set (fst kv) (snd kv) item) d item.

(** The path items [mp] after the path items of [sp] have been merged in. *)
Definition merged_with (mp : dict (dict json)) (sp : dict json) : dict (dict json) :=
  fold_left (fun mp (entry : string * json) =>
               match snd entry with
               | JObj d =>
                   dict_set (fst entry)
                     (write_all d (dict_get_default (fst entry) [] mp)) mp
               | _ => mp
               end) sp mp.

(** The three counters that [merge_paths] moves: [paths_merged],
    [operations_merged], [path_conflicts]. *)
Definition counters (self : OpenAPIMerger.state) : nat * nat * nat :=
  (OpenAPIMerger.paths_merged (OpenAPIMerger.stats self),
   OpenAPIMerger.operations_merged (OpenAPIMerger.stats self),
   OpenAPIMerger.path_conflicts (OpenAPIMerger.stats self)).

(** The dict invariant for a mapping of path items. *)
Definition mapping_wf (mp : dict (dict json)) : Prop :=
  dict_wf mp /\ forall p d, In (p, d) mp -> dict_wf d.

(** Values that have [.copy()]. *)
Definition copyable (v : json) : bool :=
  match v with JObj _ | JArr _ => true | _ => false end.

(** An operation of the data model: a mapping whose [tags], when present,
    is a list of scalars. *)
Definition operation_shape (operation : json) : bool :=
  match operation with
  | JObj d =>
      match dict_get "tags" d with
      | None => true
      | Some (JArr l) => forallb hashable l
      | Some _ => false
      end
  | _ => false
  end.

(** A tag definition: a mapping whose [name], when present, is a scalar. *)
Definition tag_shape (tag : json) : bool :=
  match tag with
  | JObj d => hashable (dict_get_default "name" JNull d)
  | _ => false
  end.

Definition tags_shape (v : json) : bool :=
  match v with JArr l => forallb tag_shape l | _ => false end.

Definition absent_or (f : json -> bool) (k : string) (spec : dict json) : bool :=
  match dict_get k spec with Some v => f v | None => true end.

(** The shape of a source document for which [create_mini_spec] raises
    nothing on [endpoints]: [info] is a mapping, [servers] and [security]
    are lists or mappings and, when the document defines [tags], they are
    tag definitions and the operations are operations of the data model. *)
Definition splittable (spec : dict json) (endpoints : list OperationCounter.endpoint) : bool :=
  absent_or is_dict "info" spec
  && absent_or copyable "servers" spec
  && absent_or copyable "security" spec
  && match dict_get "tags" spec with
     | None => true
     | Some t => tags_shape t && forallb (fun e => operation_shape (snd e)) endpoints
     end.

(** [info] of the source, or the default of [create_mini_spec]. *)
Definition source_info (spec : dict json) : dict json :=
  match dict_get "info" spec with
  | Some (JObj i) => i
  | _ => [("title", JStr "API"); ("version", JStr "1.0.0")]
  end.

(** [info] of a mini-document named [name]. *)
Definition split_info (repr : json -> string) (self : OpenAPISplitter.state)
    (name : string) : dict json :=
  let info := source_info (OpenAPISplitter.spec self) in
  dict_set "x-split-timestamp" (OpenAPISplitter.st_mtime self)
    (dict_set "x-split-part" (JStr name)
       (dict_set "title"
          (JStr (format repr (dict_get_default "title" (JStr "API") info)
                 +++ " - " +++ name))
          info)).

(** The four keys of a mini-document that the claims read. *)
Definition mini_spec_of (repr : json -> string) (self : OpenAPISplitter.state)
    (endpoints : list OperationCounter.endpoint) (name : string)
    (mini_spec : dict json) : Prop :=
  dict_get "openapi" mini_spec
  = Some (dict_get_default "openapi" (JStr "3.1.0") (OpenAPISplitter.spec self)) /\
  dict_get "swagger" mini_spec = None /\
  dict_get "info" mini_spec = Some (JObj (split_info repr self name)) /\
  dict_get "paths" mini_spec
  = Some (OpenAPISplitter.paths_value
            (fold_left OpenAPISplitter.add_endpoint endpoints [])).

(** The merge of the paths of some documents, in order, by a fresh merger. *)
Definition merge_paths_of (docs : list (dict json)) : exc OpenAPIMerger.state :=
  foldM OpenAPIMerger.merge_paths docs OpenAPIMerger.init.

Definition operation_is_dict (e : OperationCounter.endpoint) : bool := is_dict (snd e).

(** No two groups of the path-prefix split receive the same label. *)
Definition labels_distinct (self : OpenAPISplitter.state) (max_per_file : Z) : Prop :=
  exists grouped assignments,
    OpenAPISplitter.grouped_by_prefix self = Ok grouped /\
    OpenAPISplitter.final_assignments max_per_file grouped = Ok assignments /\
    NoDup (map fst assignments).

(** Order on [(path, method)] pairs: document order of paths, then canonical
    order of methods. *)
Definition pair_before (paths : dict json) (a b : string * string) : Prop :=
  index_of (fst a) (dict_keys paths) < index_of (fst b) (dict_keys paths)
  \/ (fst a = fst b /\
      index_of (snd a) OperationCounter.HTTP_METHODS
      < index_of (snd b) OperationCounter.HTTP_METHODS).

(** The file name and the mini-document of the part of a size split that
    starts at operation [i], for parts of [s] operations. *)
Definition part_of (repr : json -> string) (self : OpenAPISplitter.state)
    (operations : list OperationCounter.endpoint) (s i : nat)
    (f : string * dict json) : Prop :=
  fst f = "spec_part" +++ format_03d (i / s + 1) +++ ".json" /\
  mini_spec_of repr self (OpenAPISplitter.slice operations i (i + s))
    ("Part " +++ str_of_nat (i / s + 1)) (snd f).

(** A tag definition that the merger can index: a mapping with a scalar
    [name]. *)
Definition named_tag (tag : json) : bool :=
  match tag with
  | JObj d => match dict_get "name" d with Some n => hashable n | None => false end
  | _ => false
  end.

(** The component mapping [tc] holds, under each component type, a mapping
    of names whose definitions are those that [src] has for them. *)
Definition components_agree (tc src : dict json) : Prop :=
  forall t v, dict_get t tc = Some v ->
    exists td, v = JObj td /\
      forall n x, dict_get n td = Some x ->
        exists sd, dict_get t src = Some (JObj sd) /\ dict_get n sd = Some x.

(** What the merger reads of a file written by a split whose source has the
    servers [servers], the security [security] and the shared components
    [src]. *)
Definition merge_ready (servers security : option json) (src : dict json)
    (mini : dict json) : Prop :=
  (exists i title, dict_get "info" mini = Some (JObj i) /\
                   dict_get "title" i = Some (JStr title)) /\
  dict_get "servers" mini = servers /\
  dict_get "security" mini = security /\
  (dict_get "tags" mini = None \/
   exists kept, dict_get "tags" mini = Some (JArr kept) /\
                forallb named_tag kept = true) /\
  dict_get "externalDocs" mini = None /\
  (dict_get "components" mini = None \/ dict_get "components" mini = Some (JObj src)) /\
  exists q, dict_get "paths" mini = Some (OpenAPISplitter.paths_value q) /\ mapping_wf q.

(** What holds of the merged document between two such files. *)
Definition merge_inv (servers : option json) (src : dict json) (m : dict json) : Prop :=
  (exists i, dict_get "info" m = Some (JObj i)) /\
  (dict_get "servers" m = None \/ dict_get "servers" m = servers) /\
  (dict_get "tags" m = None \/
   exists l, dict_get "tags" m = Some (JArr l) /\ forallb named_tag l = true) /\
  (exists tc, dict_get "components" m = Some (JObj tc) /\
              components_agree tc src /\ dict_wf tc) /\
  exists mp, holds_paths m mp.

(** A document whose tag definitions, when it has any, all carry a scalar
    [name]: the merger indexes the tags of the files by name. *)
Definition mergeable (spec : dict json) : bool :=
  absent_or (fun v => match v with JArr l => forallb named_tag l | _ => false end)
            "tags" spec.

(** The components that every file of a split carries. *)
Definition shared_components (self : OpenAPISplitter.state) : dict json :=
  filter (fun e => truthy (snd e)) (OpenAPISplitter.common_components self).

(** The components that [__init__] took from the source are a well-formed
    component mapping. *)
Definition components_wf (self : OpenAPISplitter.state) : Prop :=
  dict_wf (OpenAPISplitter.common_components self) /\
  component_mapping (JObj (OpenAPISplitter.common_components self)).

(** The document of the merger lists exactly the [(path, method)] pairs of
    [target], each once. *)
Definition merged_pairs (self' : OpenAPIMerger.state)
    (target : list OperationCounter.endpoint) : Prop :=
  exists operations',
    OperationCounter.get_operations (OpenAPIMerger.merged_spec self') = Ok operations' /\
    Permutation (pairs operations') (pairs target).

(** What the merger needs of a file written by a split of [self]. *)
Definition split_ready (self : OpenAPISplitter.state) (mini : dict json) : Prop :=
  merge_ready (dict_get "servers" (OpenAPISplitter.spec self))
    (dict_get "security" (OpenAPISplitter.spec self)) (shared_components self) mini.

(** The round trip of a split result [r] of [self] whose groups hold the
    operations [target].  The paths of the written documents merge, by
    [merge_paths] applied to each in turn, into a document that lists exactly
    the pairs of [target].  And when at least one file was written, the tag
    definitions of the source are named, its shared components are well
    formed and the output format is supported, [merge_all] completes on the
    written documents, under every conflict strategy, with a document that
    lists exactly the pairs of [target]. *)
Definition round_trip (self : OpenAPISplitter.state) (r : OpenAPISplitter.split_result)
    (target : list OperationCounter.endpoint) : Prop :=
  (exists merged,
      merge_paths_of (map snd (OpenAPISplitter.written r)) = Ok merged /\
      merged_pairs merged target) /\
  (OpenAPISplitter.written r <> [] ->
   mergeable (OpenAPISplitter.spec self) = true ->
   components_wf self ->
   forall strategy output_format,
     OpenAPIMerger.save_spec output_format = Ok tt ->
     exists self',
       OpenAPIMerger.merge_all OpenAPIMerger.init
         (map Ok (map snd (OpenAPISplitter.written r))) strategy output_format
       = Ok self' /\
       merged_pairs self' target).

(** Every group holds at least one endpoint, and only endpoints whose path
    has the group's label as prefix. *)
Definition groups_labelled (g : dict (list OperationCounter.endpoint)) : Prop :=
  forall label l, In (label, l) g ->
    l <> [] /\
    forall e, In e l -> OpenAPISplitter.path_prefix (endpoint_path e) = label.

(** [c in s] for a character [c] *)
Fixpoint str_has (c : ascii) (s : string) : bool :=
  match s with
  | EmptyString => false
  | String a s' => Ascii.eqb a c || str_has c s'
  end.

(** The merged document holds as many paths as [paths_merged] says. *)
Definition paths_counted (self : OpenAPIMerger.state) : Prop :=
  exists mp, holds_paths (OpenAPIMerger.merged_spec self) mp /\
             OpenAPIMerger.paths_merged (OpenAPIMerger.stats self) = List.length mp.

(** [c[t][n]], when [c[t]] is a mapping that holds [n]. *)
Definition component (c : dict json) (t n : string) : option json :=
  match dict_get t c with
  | Some (JObj d) => dict_get n d
  | _ => None
  end.

(** The definition that a name ends with, from what the target held for it
    ([x]) and what the source holds ([y]): the target's when only the target
    has one or when the two texts are equal, the source's when only the
    source has one; when the texts differ, the source's under [keep_last] and
    the target's otherwise. *)
Definition resolve (strategy : string) (x y : option json) : option json :=
  match x, y with
  | Some x', Some y' =>
      if dumps_equal x' y' then x
      else if String.eqb strategy "keep_last" then y else x
  | Some _, None => x
  | None, _ => y
  end.

(** Whether the entry [e] of a source section differs in text from what the
    target section [td] holds under the same name. *)
Definition conflicts_with (td : dict json) (e : string * json) : bool :=
  match dict_get (fst e) td with
  | Some existing => negb (dumps_equal existing (snd e))
  | None => false
  end.

(** The entries of the section [t] of [src] that conflict with [tc]. *)
Definition conflicting (tc src : dict json) (t : string) : list (string * json) :=
  match dict_get t src with
  | Some (JObj sd) =>
      filter (conflicts_with (match dict_get t tc with Some (JObj td) => td | _ => [] end)) sd
  | _ => []
  end.

Definition conflict_message (t name : string) : string :=
  "Conflicting " +++ t +++ " '" +++ name +++ "'".

(** The operation carries a [security] key of its own. *)
Definition own_security (e : OperationCounter.endpoint) : bool :=
  match snd e with JObj d => dict_mem "security" d | _ => false end.

(** [components] as [analyze_security] can read it: a mapping whose
    [securitySchemes], when present, is a mapping. *)
Definition schemes_shape (components : json) : bool :=
  match components with
  | JObj c => absent_or is_dict "securitySchemes" c
  | _ => false
  end.

(** The tags of an operation of the data model. *)
Definition operation_tags (e : OperationCounter.endpoint) : list json :=
  match snd e with
  | JObj d => match dict_get "tags" d with Some (JArr l) => l | _ => [] end
  | _ => []
  end.

(** The operations that name [tag], in order, each as many times as its
    list of tags names it. *)
Definition tagged (tag : json) (operations : list OperationCounter.endpoint)
  : list OperationCounter.endpoint :=
  flat_map (fun e => map (fun _ => e) (filter (scalar_eq tag) (operation_tags e)))
           operations.

(** The mapping-valued operations that name no tag, in order. *)
Definition untagged (operations : list OperationCounter.endpoint)
  : list OperationCounter.endpoint :=
  filter (fun e => operation_is_dict e
                   && match operation_tags e with [] => true | _ => false end)
         operations.

(** A [defaultdict(list)] holds no key for a list that was never appended
    to. *)
Definition nonempty {A : Type} (l : list A) : option (list A) :=
  match l with [] => None | _ => Some l end.

(** The group that the tag split makes for [tag]: the operations without
    tags under [untagged] when there are some, the operations that name the
    tag otherwise; no group when there would be nothing in it. *)
Definition tag_group (tag : json) (operations : list OperationCounter.endpoint)
  : option (list OperationCounter.endpoint) :=
  match untagged operations with
  | [] => nonempty (tagged tag operations)
  | u => if scalar_eq tag (JStr "untagged") then Some u
         else nonempty (tagged tag operations)
  end.

(** Every mapping-valued operation is an operation of the data model. *)
Definition operations_shape (operations : list OperationCounter.endpoint) : bool :=
  forallb (fun e => implb (operation_is_dict e) (operation_shape (snd e))) operations.

(** No two keys of the groups are equal. *)
Fixpoint distinct_keys (g : OpenAPISplitter.tag_groups) : Prop :=
  match g with
  | [] => True
  | (k, _) :: r =>
      scalar_eq k k = true /\ OpenAPISplitter.tag_groups_get k r = None /\ distinct_keys r
  end.

(** The loop of lines 74-98 of the splitter as one loop over the operations. *)
Definition group_step (st : OpenAPISplitter.tag_groups * list OperationCounter.endpoint)
    (e : OperationCounter.endpoint)
  : exc (OpenAPISplitter.tag_groups * list OperationCounter.endpoint) :=
  OpenAPISplitter.group_operation_by_tag (fst (fst e)) (snd (fst e)) (snd e) st.

(** The groups [g] hold, for every tag, the list [L] of that tag. *)
Definition holds (g : OpenAPISplitter.tag_groups)
    (L : json -> list OperationCounter.endpoint) : Prop :=
  distinct_keys g /\ forall t, OpenAPISplitter.tag_groups_get t g = nonempty (L t).

(** [tag['name']] of a tag definition. *)
Definition name_of (tag : json) : json :=
  match tag with
  | JObj d => dict_get_default "name" JNull d
  | _ => JNull
  end.

(** The two tag definitions carry the same name. *)
Definition same_name (a b : json) : bool := scalar_eq (name_of a) (name_of b).

(** What [merge_tags] may make of a tag [old] of the merged list: it leaves
    it as it is or, when it has no [description], gives it the description
    of an incoming tag of the same name. *)
Definition described (incoming : list json) (old new : json) : Prop :=
  new = old \/
  exists d tag x,
    old = JObj d /\ dict_get "description" d = None /\
    In tag incoming /\ same_name tag old = true /\
    getitem tag "description" = Ok x /\
    new = JObj (dict_set "description" x d).

(** The position that [existing_tags] gives for the name [n] after the tags
    [its] have been entered, each with its position: that of the last tag
    of that name. *)
Definition last_named (n : json) (its : list (nat * json)) (start : option nat)
  : option nat :=
  fold_left (fun acc (it : nat * json) =>
               if scalar_eq n (name_of (snd it)) then Some (fst it) else acc)
            its start.

(** [isinstance(v, str)] *)
Definition is_str (v : json) : bool :=
  match v with JStr _ => true | _ => false end.

(** Every tag that an operation names is a string. *)
Definition string_tags (operations : list OperationCounter.endpoint) : bool :=
  forallb (fun e => forallb is_str (operation_tags e)) operations.

(** The file that the tag split writes for a tag. *)
Definition tag_file (tag : json) : string :=
  match tag with
  | JStr t => "spec_" +++ str_replace_char " " "_" (str_replace_char "/" "_" t) +++ ".json"
  | _ => ""
  end.

(** [m[k]] is a mapping. *)
Definition mapping_at (k : string) (m : dict json) : Prop :=
  exists d, dict_get k m = Some (JObj d).

(** The shape that the document of the merger keeps while files are merged
    into it. *)
Definition merged_shape (m : dict json) : Prop :=
  dict_wf m /\
  mapping_at "info" m /\ mapping_at "paths" m /\ mapping_at "components" m.

(** Values that have a [len]. *)
Definition sized (v : json) : bool :=
  match v with JObj _ | JArr _ | JStr _ => true | _ => false end.

(** [components] as [analyze_spec] can read it: a mapping whose [schemas],
    [responses] and [parameters], when present, have a length. *)
Definition components_sized (components : json) : bool :=
  match components with
  | JObj c =>
      absent_or sized "schemas" c && absent_or sized "responses" c
      && absent_or sized "parameters" c
  | _ => false
  end.

(** The methods that at least one of the operations uses, in the order of
    [HTTP_METHODS]. *)
Definition methods_used (operations : list OperationCounter.endpoint) : list string :=
  filter (fun m => Nat.ltb 0 (count_method m operations)) OperationCounter.HTTP_METHODS.

(* ------------------------------------------------------------------ *)
(** * Properties *)

(** Splits a hypothesis [x <- m ;; k = Ok r] on the outcome of [m]. *)
Ltac bind_inv H :=
  match type of H with
  | bind ?m _ = Ok _ =>
      let E := fresh "E" in
      destruct m eqn:E; cbn [bind] in H; [|discriminate H]
  end.

(** Runs [merge_components] on a store described by the equations [Hs],
    [Ht], [Hset] and a comparison of texts decided by [Hdiff]. *)
Ltac crunch_with Hs Ht Hdiff Hset :=
  repeat (progress (rewrite ?Hset, ?Hs, ?Ht, ?Hdiff);
          unfold ComponentExtractor.merge_one, ComponentExtractor.store_component;
          cbn).


(** ** Dictionaries *)

Section DictFacts.

Context {A : Type}.
Implicit Types (d : dict A) (k : string) (v : A).

Lemma dict_get_set k k' v d :
  dict_get k (dict_set k' v d) = if String.eqb k k' then Some v else dict_get k d.
Proof.
  induction d as [|[k0 v0] r IH]; simpl.
  - destruct (String.eqb k k'); reflexivity.
  - destruct (String.eqb k' k0) eqn:E; simpl.
    + apply String.eqb_eq in E; subst k0.
      destruct (String.eqb k k'); reflexivity.
    + destruct (String.eqb k k0) eqn:E0.
      * apply String.eqb_eq in E0; subst k0.
        rewrite String.eqb_sym, E. reflexivity.
      * apply IH.
Qed.

Lemma dict_get_set_same k v d : dict_get k (dict_set k v d) = Some v.
Proof. rewrite dict_get_set, String.eqb_refl. reflexivity. Qed.

Lemma dict_get_set_other k k' v d :
  k <> k' -> dict_get k (dict_set k' v d) = dict_get k d.
Proof.
  intros H. rewrite dict_get_set.
  destruct (String.eqb k k') eqn:E; [apply String.eqb_eq in E; contradiction | reflexivity].
Qed.

Lemma dict_mem_set k k' v d :
  dict_mem k (dict_set k' v d) = String.eqb k k' || dict_mem k d.
Proof.
  unfold dict_mem. rewrite dict_get_set.
  destruct (String.eqb k k'); reflexivity.
Qed.

Lemma dict_mem_set_keep k k' v d :
  dict_mem k d = true -> dict_mem k (dict_set k' v d) = true.
Proof. intros H. rewrite dict_mem_set, H. apply orb_true_r. Qed.

Lemma dict_get_del_other k k' d :
  k <> k' -> dict_get k (dict_del k' d) = dict_get k d.
Proof.
  intros H. induction d as [|[k0 v0] r IH]; simpl; [reflexivity|].
  destruct (String.eqb k' k0) eqn:E; simpl.
  - apply String.eqb_eq in E; subst k0.
    destruct (String.eqb k k') eqn:E0; [apply String.eqb_eq in E0; contradiction | reflexivity].
  - rewrite IH. reflexivity.
Qed.

Lemma dict_mem_In k d : dict_mem k d = true <-> In k (dict_keys d).
Proof.
  unfold dict_mem. induction d as [|[k0 v0] r IH]; simpl.
  - split; [discriminate | tauto].
  - destruct (String.eqb k k0) eqn:E.
    + apply String.eqb_eq in E. subst. split; auto.
    + rewrite IH. split; [auto | intros [H|H]; [subst; rewrite String.eqb_refl in E; discriminate | exact H]].
Qed.

Lemma dict_get_In k v d : dict_get k d = Some v -> In (k, v) d.
Proof.
  induction d as [|[k0 v0] r IH]; simpl; [discriminate|].
  destruct (String.eqb k k0) eqn:E.
  - apply String.eqb_eq in E. intros [= ->]. subst. auto.
  - auto.
Qed.

Lemma dict_wf_In_get k v d : dict_wf d -> In (k, v) d -> dict_get k d = Some v.
Proof.
  unfold dict_wf. induction d as [|[k0 v0] r IH]; simpl; [tauto|].
  intros Hnd [H|H]; inversion Hnd; subst.
  - injection H as -> ->. rewrite String.eqb_refl. reflexivity.
  - destruct (String.eqb k k0) eqn:E.
    + apply String.eqb_eq in E. subst k0. exfalso. apply H2.
      change (In (fst (k, v)) (map fst r)). apply in_map. exact H.
    + apply IH; assumption.
Qed.

Lemma dict_wf_nth_get i k v d :
  dict_wf d -> nth_error d i = Some (k, v) -> dict_get k d = Some v.
Proof. intros Hwf H. apply dict_wf_In_get; [exact Hwf | eapply nth_error_In; exact H]. Qed.

Lemma dict_keys_set k v d :
  dict_keys (dict_set k v d) = if dict_mem k d then dict_keys d else dict_keys d ++ [k].
Proof.
  unfold dict_mem, dict_keys. induction d as [|[k0 v0] r IH]; simpl; [reflexivity|].
  destruct (String.eqb k k0) eqn:E; simpl; [reflexivity|].
  rewrite IH. destruct (dict_get k r); reflexivity.
Qed.

Lemma dict_wf_set k v d : dict_wf d -> dict_wf (dict_set k v d).
Proof.
  unfold dict_wf. intros H. rewrite dict_keys_set.
  destruct (dict_mem k d) eqn:E; [exact H|].
  apply NoDup_app; [exact H | repeat constructor; simpl; tauto |].
  intros x Hx [<-|[]]. apply dict_mem_In in Hx. congruence.
Qed.

End DictFacts.

(** ** Equality of [json.dumps] texts *)

Lemma json_eqb_refl : forall a : json, json_eqb a a = true.
Proof.
  fix IH 1. intros [ | b | n | s | l | d]; simpl.
  - reflexivity.
  - destruct b; reflexivity.
  - apply Z.eqb_refl.
  - apply String.eqb_refl.
  - induction l as [|x l IHl]; [reflexivity|].
    rewrite IH, IHl. reflexivity.
  - induction d as [|[k x] d IHd]; [reflexivity|].
    rewrite String.eqb_refl, IH, IHd. reflexivity.
Qed.

Lemma dumps_equal_refl (a : json) : dumps_equal a a = true.
Proof. apply json_eqb_refl. Qed.

(** ** [ComponentExtractor.merge_components] *)

Section MergeSame.

Import ComponentExtractor.

Variables (h : heap) (c : loc) (strategy : string) (d : dict json).
Hypothesis Hc : h c = JObj d.

Lemma merge_one_same comp_type definitions name definition conflicts :
  dict_get comp_type d = Some (JObj definitions) ->
  dict_get name definitions = Some definition ->
  merge_one strategy comp_type name definition c h conflicts = (h, Ok conflicts).
Proof.
  intros Hct Hname. unfold merge_one. rewrite Hc. simpl.
  rewrite Hct. simpl. unfold dict_mem. rewrite Hname. simpl.
  rewrite dumps_equal_refl. reflexivity.
Qed.

Lemma merge_items_same comp_type definitions positions conflicts :
  dict_get comp_type d = Some (JObj definitions) ->
  dict_wf definitions ->
  merge_items positions (List.length definitions) strategy comp_type c c h conflicts
  = (h, Ok conflicts).
Proof.
  intros Hct Hwf. induction positions as [|i rest IH]; simpl;
    rewrite Hc; simpl; rewrite Hct; simpl; rewrite Nat.eqb_refl; simpl.
  - reflexivity.
  - destruct (nth_error definitions i) as [[name definition]|] eqn:E; [|reflexivity].
    rewrite (merge_one_same comp_type definitions name definition conflicts Hct
               (dict_wf_nth_get _ _ _ _ Hwf E)).
    exact IH.
Qed.

Lemma merge_type_same comp_type conflicts :
  component_mapping (h c) ->
  In comp_type COMPONENT_TYPES ->
  merge_type strategy c c h conflicts comp_type = (h, Ok conflicts).
Proof.
  intros [d' [Hd' Hshape]] Hin.
  assert (d' = d) by congruence. subst d'.
  unfold merge_type. rewrite Hc. simpl. unfold dict_mem.
  destruct (dict_get comp_type d) as [v|] eqn:E; [|reflexivity].
  destruct (Hshape comp_type v Hin E) as [definitions [-> Hwf]].
  simpl. rewrite Hc. simpl. rewrite E. simpl.
  apply merge_items_same; assumption.
Qed.

Lemma merge_types_same comp_types conflicts :
  component_mapping (h c) ->
  incl comp_types COMPONENT_TYPES ->
  merge_types comp_types strategy c c h conflicts = (h, Ok conflicts).
Proof.
  intros Hshape. revert conflicts.
  induction comp_types as [|comp_type rest IH]; intros conflicts Hincl; simpl.
  - reflexivity.
  - rewrite merge_type_same; [| exact Hshape | apply Hincl; left; reflexivity].
    apply IH. intros x Hx. apply Hincl. right. exact Hx.
Qed.

End MergeSame.

(** C7. Merging a component mapping into itself, the same object passed as
    target and as source, returns zero conflicts for every component type,
    raises nothing and leaves the store as it was, whatever the conflict
    strategy. *)
Theorem merge_components_idempotent
    (h : ComponentExtractor.heap) (c : ComponentExtractor.loc) (strategy : string) :
  component_mapping (h c) ->
  ComponentExtractor.merge_components h c c strategy = (h, Ok no_conflicts).
Proof.
  intros Hshape. destruct Hshape as [d [Hd Hty]].
  unfold ComponentExtractor.merge_components.
  apply merge_types_same with (d := d).
  - exact Hd.
  - exists d. split; assumption.
  - apply incl_refl.
Qed.

Lemma merge_components_idempotent_witness :
  let h : ComponentExtractor.heap :=
    fun _ => JObj [("schemas", JObj [("A", JNum 1); ("B", JStr "b")]);
                   ("responses", JObj [])] in
  component_mapping (h 0) /\
  ComponentExtractor.merge_components h 0 0 "error" = (h, Ok no_conflicts).
Proof.
  intros h.
  assert (Hshape : component_mapping (h 0)).
  { eexists. split; [reflexivity|].
    intros comp_type v Hin Hget. simpl in Hin.
    repeat (destruct Hin as [<-|Hin]; [simpl in Hget; try discriminate|]);
      try contradiction.
    - injection Hget as <-. eexists. split; [reflexivity|].
      unfold dict_wf; simpl. repeat constructor; simpl; intuition discriminate.
    - injection Hget as <-. eexists. split; [reflexivity|].
      unfold dict_wf; simpl. constructor. }
  split; [exact Hshape|].
  apply (merge_components_idempotent h 0 "error" Hshape).
Defined.


Section MergeDistinct.

Import ComponentExtractor.

Variables (h : heap) (target source : loc) (strategy : string).

Lemma merge_type_absent comp_type conflicts :
  contains comp_type (h source) = Ok false ->
  merge_type strategy target source h conflicts comp_type = (h, Ok conflicts).
Proof. intros H. unfold merge_type. rewrite H. reflexivity. Qed.

Lemma merge_types_absent comp_types conflicts :
  (forall comp_type, In comp_type comp_types ->
                     contains comp_type (h source) = Ok false) ->
  merge_types comp_types strategy target source h conflicts = (h, Ok conflicts).
Proof.
  induction comp_types as [|comp_type rest IH]; intros H; simpl.
  - reflexivity.
  - rewrite merge_type_absent by (apply H; left; reflexivity).
    apply IH. intros x Hx. apply H. right. exact Hx.
Qed.

End MergeDistinct.

(** C2. With target [{schemas: {A: X}}], source [{schemas: {A: Y}}] and
    differing [json.dumps] texts of [X] and [Y]: [keep_first] leaves [A = X]
    in the target and returns the count 1 for schemas; [keep_last] ends with
    [A = Y] and returns the count 1; [error] raises before anything is
    written, so the store is the one before the call. *)
Theorem merge_components_conflict_policy
    (h : ComponentExtractor.heap) (target source : ComponentExtractor.loc)
    (X Y : json) :
  target <> source ->
  dumps_equal X Y = false ->
  h target = JObj [("schemas", JObj [("A", X)])] ->
  h source = JObj [("schemas", JObj [("A", Y)])] ->
  (exists h',
      ComponentExtractor.merge_components h target source "keep_first"
      = (h', Ok (dict_set "schemas" 1 no_conflicts)) /\
      h' target = JObj [("schemas", JObj [("A", X)])]) /\
  (exists h',
      ComponentExtractor.merge_components h target source "keep_last"
      = (h', Ok (dict_set "schemas" 1 no_conflicts)) /\
      h' target = JObj [("schemas", JObj [("A", Y)])]) /\
  (exists h',
      ComponentExtractor.merge_components h target source "error"
      = (h', Raise (ValueError "Conflicting schemas 'A'")) /\
      h' target = JObj [("schemas", JObj [("A", X)])]).
Proof.
  intros Hneq Hdiff Ht Hs.
  assert (Hst : Nat.eqb source target = false)
    by (apply Nat.eqb_neq; congruence).
  assert (Hrest : forall h' : ComponentExtractor.heap,
             h' source = h source ->
             forall comp_type,
               In comp_type (tl ComponentExtractor.COMPONENT_TYPES) ->
               contains comp_type (h' source) = Ok false).
  { intros h' E comp_type Hin. rewrite E, Hs. simpl in Hin.
    repeat (destruct Hin as [<-|Hin]; [reflexivity|]). contradiction. }
  assert (Hcons : forall strategy,
             ComponentExtractor.merge_components h target source strategy
             = match ComponentExtractor.merge_type strategy target source h
                       no_conflicts "schemas" with
               | (h', Ok conflicts') =>
                   ComponentExtractor.merge_types
                     (tl ComponentExtractor.COMPONENT_TYPES)
                     strategy target source h' conflicts'
               | (h', Raise e) => (h', Raise e)
               end) by reflexivity.
  assert (Hset : forall v, ComponentExtractor.heap_set h target v source = h source).
  { intros v. unfold ComponentExtractor.heap_set. rewrite Hst. reflexivity. }
  repeat split.
  - exists h. split; [|exact Ht].
    rewrite Hcons.
    assert (E : ComponentExtractor.merge_type "keep_first" target source h
                  no_conflicts "schemas"
                = (h, Ok (dict_set "schemas" 1 no_conflicts))).
    { unfold ComponentExtractor.merge_type.
      crunch_with Hs Ht Hdiff Hset. reflexivity. }
    rewrite E. apply merge_types_absent. apply Hrest. reflexivity.
  - eexists. split.
    + rewrite Hcons.
      assert (E : ComponentExtractor.merge_type "keep_last" target source h
                    no_conflicts "schemas"
                  = (ComponentExtractor.heap_set h target
                       (JObj [("schemas", JObj [("A", Y)])]),
                     Ok (dict_set "schemas" 1 no_conflicts))).
      { unfold ComponentExtractor.merge_type.
        crunch_with Hs Ht Hdiff Hset. reflexivity. }
      rewrite E. apply merge_types_absent. apply Hrest. apply Hset.
    + unfold ComponentExtractor.heap_set. rewrite Nat.eqb_refl. reflexivity.
  - exists h. split; [|exact Ht].
    rewrite Hcons.
    assert (E : ComponentExtractor.merge_type "error" target source h
                  no_conflicts "schemas"
                = (h, Raise (ValueError "Conflicting schemas 'A'"))).
    { unfold ComponentExtractor.merge_type.
      crunch_with Hs Ht Hdiff Hset. reflexivity. }
    rewrite E. reflexivity.
Qed.

Lemma merge_components_conflict_policy_witness :
  let X := JObj [("type", JStr "string")] in
  let Y := JObj [("type", JStr "integer")] in
  let h : ComponentExtractor.heap :=
    fun l => if Nat.eqb l 0 then JObj [("schemas", JObj [("A", X)])]
             else JObj [("schemas", JObj [("A", Y)])] in
  (exists h',
      ComponentExtractor.merge_components h 0 1 "keep_first"
      = (h', Ok (dict_set "schemas" 1 no_conflicts)) /\
      h' 0 = JObj [("schemas", JObj [("A", X)])]) /\
  (exists h',
      ComponentExtractor.merge_components h 0 1 "keep_last"
      = (h', Ok (dict_set "schemas" 1 no_conflicts)) /\
      h' 0 = JObj [("schemas", JObj [("A", Y)])]) /\
  (exists h',
      ComponentExtractor.merge_components h 0 1 "error"
      = (h', Raise (ValueError "Conflicting schemas 'A'")) /\
      h' 0 = JObj [("schemas", JObj [("A", X)])]).
Proof.
  intros X Y h.
  apply (merge_components_conflict_policy h 0 1 X Y).
  - discriminate.
  - reflexivity.
  - reflexivity.
  - reflexivity.
Defined.

(** ** [OperationCounter] *)

Section Counting.

Import OperationCounter.

Lemma http_method_not_total m : In m HTTP_METHODS -> String.eqb m "total" = false.
Proof.
  simpl. intros H.
  repeat (destruct H as [<-|H]; [reflexivity|]). contradiction.
Qed.

Lemma dict_get_incr k k' (counts : dict nat) :
  dict_get k (incr k' counts)
  = if String.eqb k k' then Some (S (dict_get_default k' 0 counts))
    else dict_get k counts.
Proof. unfold incr. apply dict_get_set. Qed.

Lemma count_method_app m (l1 l2 : list endpoint) :
  count_method m (l1 ++ l2) = count_method m l1 + count_method m l2.
Proof. unfold count_method. rewrite filter_app, length_app. reflexivity. Qed.

Lemma counted_step counts operations path m operation :
  In m HTTP_METHODS ->
  counted counts operations ->
  counted (incr "total" (incr m counts)) (operations ++ [(path, m, operation)]).
Proof.
  intros Hm [Htotal Hper]. split.
  - rewrite dict_get_incr. simpl.
    unfold dict_get_default. rewrite dict_get_incr.
    rewrite (String.eqb_sym "total" m), (http_method_not_total m Hm), Htotal.
    rewrite length_app. simpl. f_equal. lia.
  - intros m' Hm'. rewrite dict_get_incr, (http_method_not_total m' Hm').
    rewrite dict_get_incr, count_method_app.
    replace (count_method m' [(path, m, operation)])
      with (if String.eqb m' m then 1 else 0)
      by (unfold count_method; simpl; unfold endpoint_method; simpl;
          rewrite (String.eqb_sym m m'); destruct (String.eqb m' m); reflexivity).
    destruct (String.eqb m' m) eqn:E.
    + apply String.eqb_eq in E. subst m'.
      unfold dict_get_default. rewrite (Hper m Hm). simpl. f_equal. lia.
    + rewrite (Hper m' Hm'). simpl. f_equal. lia.
Qed.

Lemma counted_methods path d methods counts operations :
  incl methods HTTP_METHODS ->
  counted counts operations ->
  counted
    (fold_left (fun counts method =>
                  if dict_mem method d then incr "total" (incr method counts)
                  else counts) methods counts)
    (operations ++
     flat_map (fun method =>
                 match dict_get method d with
                 | Some operation => [(path, method, operation)]
                 | None => []
                 end) methods).
Proof.
  revert counts operations.
  induction methods as [|m rest IH]; intros counts operations Hincl H; simpl.
  - rewrite app_nil_r. exact H.
  - assert (Hm : In m HTTP_METHODS) by (apply Hincl; left; reflexivity).
    assert (Hrest : incl rest HTTP_METHODS)
      by (intros x Hx; apply Hincl; right; exact Hx).
    unfold dict_mem. destruct (dict_get m d) as [operation|] eqn:E.
    + rewrite app_assoc. apply IH; [exact Hrest|].
      apply counted_step; assumption.
    + apply IH; assumption.
Qed.

Lemma counted_path_item path path_item counts operations :
  counted counts operations ->
  counted (count_path_item counts path_item)
          (operations ++ path_item_operations path path_item).
Proof.
  intros H.
  destruct path_item as [ | | | | |d]; try (simpl; rewrite app_nil_r; exact H).
  unfold count_path_item, path_item_operations.
  apply counted_methods; [apply incl_refl | exact H].
Qed.

Lemma counted_paths (paths : dict json) counts operations :
  counted counts operations ->
  counted
    (fold_left (fun counts entry => count_path_item counts (snd entry)) paths counts)
    (operations ++
     flat_map (fun entry => path_item_operations (fst entry) (snd entry)) paths).
Proof.
  revert counts operations.
  induction paths as [|[path path_item] rest IH]; intros counts operations H; simpl.
  - rewrite app_nil_r. exact H.
  - rewrite app_assoc. apply IH. apply counted_path_item. exact H.
Qed.

Lemma path_item_operations_In path path_item e :
  In e (path_item_operations path path_item) ->
  exists d, path_item = JObj d /\ endpoint_path e = path /\
            In (endpoint_method e) HTTP_METHODS /\
            dict_get (endpoint_method e) d = Some (endpoint_operation e).
Proof.
  destruct path_item as [ | | | | |d]; try (simpl; contradiction).
  unfold path_item_operations.
  intros H. exists d. split; [reflexivity|].
  apply in_flat_map in H. destruct H as [m [Hm H]].
  destruct (dict_get m d) as [operation|] eqn:E; [|contradiction].
  destruct H as [<-|[]]. simpl. auto.
Qed.

Lemma operations_methods (paths : dict json) e :
  In e (flat_map (fun entry => path_item_operations (fst entry) (snd entry)) paths) ->
  In (endpoint_method e) HTTP_METHODS.
Proof.
  intros H. apply in_flat_map in H. destruct H as [entry [_ H]].
  apply path_item_operations_In in H. destruct H as [d [_ [_ [H _]]]]. exact H.
Qed.

Lemma list_sum_map_add {A : Type} (f g : A -> nat) (l : list A) :
  list_sum (map (fun x => f x + g x) l) = list_sum (map f l) + list_sum (map g l).
Proof. induction l as [|x l IH]; simpl; [reflexivity | rewrite IH; lia]. Qed.

Lemma sum_count_method (operations : list endpoint) :
  (forall e, In e operations -> In (endpoint_method e) HTTP_METHODS) ->
  list_sum (map (fun m => count_method m operations) HTTP_METHODS)
  = List.length operations.
Proof.
  induction operations as [|e rest IH]; intros H.
  - reflexivity.
  - assert (Hsplit : forall m, count_method m (e :: rest)
                               = (if String.eqb (endpoint_method e) m then 1 else 0)
                                 + count_method m rest).
    { intros m. unfold count_method. simpl.
      destruct (String.eqb (endpoint_method e) m); reflexivity. }
    rewrite (map_ext _ _ Hsplit), list_sum_map_add, IH
      by (intros x Hx; apply H; right; exact Hx).
    assert (He : In (endpoint_method e) HTTP_METHODS) by (apply H; left; reflexivity).
    simpl in He.
    repeat (destruct He as [<-|He]; [reflexivity|]). contradiction.
Qed.

End Counting.

(** C9. [count_operations] and [get_operations] fail together (when [paths]
    is not a mapping) and otherwise agree: the total is the length of the
    list of operations and the sum of the eight per-method counts, and each
    per-method count is the number of listed operations with that method. *)
Theorem count_operations_agrees (spec : dict json) :
  match OperationCounter.count_operations spec,
        OperationCounter.get_operations spec with
  | Ok counts, Ok operations =>
      dict_get "total" counts = Some (List.length operations) /\
      list_sum (map (fun m => dict_get_default m 0 counts)
                    OperationCounter.HTTP_METHODS)
      = List.length operations /\
      forall m, In m OperationCounter.HTTP_METHODS ->
                dict_get m counts = Some (count_method m operations)
  | Raise e, Raise e' => e = e'
  | _, _ => False
  end.
Proof.
  unfold OperationCounter.count_operations, OperationCounter.get_operations.
  destruct (items (dict_get_default "paths" (JObj []) spec)) as [paths|e];
    cbn [bind]; [|reflexivity].
  assert (H0 : counted
                 (dict_set "total" 0
                    (map (fun method => (method, 0)) OperationCounter.HTTP_METHODS))
                 []).
  { split; [reflexivity|]. intros m Hm. simpl in Hm.
    repeat (destruct Hm as [<-|Hm]; [reflexivity|]). contradiction. }
  pose proof (counted_paths paths _ _ H0) as Hc. cbn [app] in Hc.
  destruct Hc as [Htotal Hper].
  split; [exact Htotal|]. split; [|exact Hper].
  rewrite <- (sum_count_method _ (operations_methods paths)).
  f_equal. apply map_ext_in. intros m Hm.
  unfold dict_get_default. rewrite (Hper m Hm). reflexivity.
Qed.

(** ** Order of [get_operations] *)

Section Order.

Import OperationCounter.

Lemma index_of_app_notin k (pre l : list string) :
  ~ In k pre -> index_of k (pre ++ l) = List.length pre + index_of k l.
Proof.
  induction pre as [|x pre IH]; intros H; simpl; [reflexivity|].
  destruct (String.eqb k x) eqn:E.
  - apply String.eqb_eq in E. subst. exfalso. apply H. left. reflexivity.
  - rewrite IH; [reflexivity|]. intros Hin. apply H. right. exact Hin.
Qed.

Lemma index_of_head k l : index_of k (k :: l) = 0.
Proof. simpl. rewrite String.eqb_refl. reflexivity. Qed.

(** In a list without repetition the positions grow along the list. *)
Lemma index_of_sorted (pre suf : list string) :
  NoDup (pre ++ suf) ->
  StronglySorted (fun a b => index_of a (pre ++ suf) < index_of b (pre ++ suf)) suf.
Proof.
  revert pre. induction suf as [|x suf IH]; intros pre Hnd; constructor.
  - specialize (IH (pre ++ [x])). rewrite <- app_assoc in IH. apply IH. exact Hnd.
  - apply Forall_forall. intros y Hy.
    apply NoDup_remove_2 in Hnd as Hx.
    assert (Hxpre : ~ In x pre) by (intros H; apply Hx; apply in_or_app; auto).
    assert (Hyx : y <> x).
    { intros ->. apply NoDup_app_remove_l in Hnd. inversion Hnd; contradiction. }
    assert (Hypre : ~ In y pre).
    { intros H. clear IH Hx.
      induction pre as [|p pre IHp]; [contradiction|].
      simpl in Hnd. inversion Hnd as [|? ? Hp Hnd']; subst.
      destruct H as [->|H].
      - apply Hp. apply in_or_app. right. right. exact Hy.
      - apply IHp; [exact Hnd' | | exact H].
        intros Hin. apply Hxpre. right. exact Hin. }
    rewrite !index_of_app_notin by assumption.
    rewrite index_of_head. simpl.
    destruct (String.eqb y x) eqn:E; [apply String.eqb_eq in E; contradiction | lia].
Qed.

Lemma StronglySorted_app {A : Type} (R : A -> A -> Prop) (l1 l2 : list A) :
  StronglySorted R l1 -> StronglySorted R l2 ->
  (forall x y, In x l1 -> In y l2 -> R x y) ->
  StronglySorted R (l1 ++ l2).
Proof.
  induction l1 as [|a l1 IH]; intros H1 H2 H12; simpl; [exact H2|].
  inversion H1 as [|? ? Hs Hf]; subst. constructor.
  - apply IH; [exact Hs | exact H2 |]. intros x y Hx Hy. apply H12; [right|]; assumption.
  - apply Forall_app. split; [exact Hf|].
    apply Forall_forall. intros y Hy. apply H12; [left; reflexivity | exact Hy].
Qed.

(** Blocks produced from a list that grows in [rank] come out in order. *)
Lemma flat_map_sorted {A B : Type} (rank : A -> nat) (R : B -> B -> Prop)
    (f : A -> list B) (l : list A) :
  StronglySorted (fun a a' => rank a < rank a') l ->
  (forall a a' b b', In a l -> In a' l -> In b (f a) -> In b' (f a') ->
                     rank a < rank a' -> R b b') ->
  (forall a, In a l -> StronglySorted R (f a)) ->
  StronglySorted R (flat_map f l).
Proof.
  intros Hsorted HR Hblock.
  induction l as [|a l IH]; simpl; [constructor|].
  inversion Hsorted as [|? ? Hs Hf]; subst.
  apply StronglySorted_app.
  - apply Hblock. left. reflexivity.
  - apply IH; [exact Hs | | ].
    + intros a1 a2 b1 b2 H1 H2. apply HR; right; assumption.
    + intros a' Ha'. apply Hblock. right. exact Ha'.
  - intros x y Hx Hy. apply in_flat_map in Hy. destruct Hy as [a' [Ha' Hy]].
    apply (HR a a'); [left; reflexivity | right; exact Ha' | exact Hx | exact Hy |].
    rewrite Forall_forall in Hf. apply Hf. exact Ha'.
Qed.

Lemma StronglySorted_map {A B : Type} (g : A -> B) (R : B -> B -> Prop) (l : list A) :
  StronglySorted R (map g l) -> StronglySorted (fun a a' => R (g a) (g a')) l.
Proof.
  induction l as [|a l IH]; simpl; intros H; [constructor|].
  inversion H as [|? ? Hs Hf]; subst. constructor; [apply IH; exact Hs|].
  rewrite Forall_forall in *. intros x Hx. apply Hf. apply in_map. exact Hx.
Qed.

Lemma HTTP_METHODS_NoDup : NoDup HTTP_METHODS.
Proof.
  unfold HTTP_METHODS.
  repeat (constructor; [simpl; intuition discriminate|]). constructor.
Qed.

Lemma path_item_operations_sorted (paths : dict json) path path_item :
  StronglySorted (endpoint_before paths) (path_item_operations path path_item).
Proof.
  destruct path_item as [ | | | | |d]; try (simpl; constructor).
  unfold path_item_operations.
  apply flat_map_sorted with (rank := fun m => index_of m HTTP_METHODS).
  - apply (index_of_sorted [] HTTP_METHODS). apply HTTP_METHODS_NoDup.
  - intros m m' e e' _ _ He He' Hlt.
    destruct (dict_get m d); [|contradiction].
    destruct (dict_get m' d); [|contradiction].
    destruct He as [<-|[]]. destruct He' as [<-|[]].
    right. split; [reflexivity | exact Hlt].
  - intros m _. destruct (dict_get m d); repeat constructor.
Qed.

Lemma operations_sorted (paths : dict json) :
  dict_wf paths ->
  StronglySorted (endpoint_before paths)
    (flat_map (fun entry => path_item_operations (fst entry) (snd entry)) paths).
Proof.
  intros Hwf.
  apply flat_map_sorted
    with (rank := fun entry : string * json => index_of (fst entry) (dict_keys paths)).
  - apply StronglySorted_map with (g := fst)
      (R := fun a b => index_of a (dict_keys paths) < index_of b (dict_keys paths)).
    apply (index_of_sorted [] (dict_keys paths)). exact Hwf.
  - intros a a' e e' _ _ He He' Hlt.
    apply path_item_operations_In in He. destruct He as [_ [_ [Hp _]]].
    apply path_item_operations_In in He'. destruct He' as [_ [_ [Hp' _]]].
    left. rewrite Hp, Hp'. exact Hlt.
  - intros a _. apply path_item_operations_sorted.
Qed.

Lemma operations_In (paths : dict json) p m operation :
  dict_wf paths ->
  In (p, m, operation)
     (flat_map (fun entry => path_item_operations (fst entry) (snd entry)) paths)
  <-> exists d, dict_get p paths = Some (JObj d) /\ In m HTTP_METHODS /\
                dict_get m d = Some operation.
Proof.
  intros Hwf. rewrite in_flat_map. split.
  - intros [[path path_item] [Hentry He]].
    apply path_item_operations_In in He.
    destruct He as [d [Hd [Hp [Hm Hget]]]]. simpl in Hd, Hp. subst.
    exists d. split; [|split; assumption].
    apply dict_wf_In_get; assumption.
  - intros [d [Hp [Hm Hget]]]. exists (p, JObj d). split.
    + apply dict_get_In. exact Hp.
    + unfold path_item_operations. simpl fst. simpl snd.
      apply in_flat_map. exists m. split; [exact Hm|].
      rewrite Hget. left. reflexivity.
Qed.

End Order.

(** C8. When [paths] is a mapping (or absent), [get_operations] returns the
    operations of the mapping-valued path items and no others, paths in
    document order and, inside a path, methods in the order of
    [HTTP_METHODS] whatever their order in the path item.  A path item that
    is not a mapping contributes nothing and raises nothing. *)
Theorem get_operations_order (spec paths : dict json) :
  dict_get_default "paths" (JObj []) spec = JObj paths ->
  dict_wf paths ->
  exists operations,
    OperationCounter.get_operations spec = Ok operations /\
    (forall p m operation,
        In (p, m, operation) operations <->
        exists d, dict_get p paths = Some (JObj d) /\
                  In m OperationCounter.HTTP_METHODS /\
                  dict_get m d = Some operation) /\
    StronglySorted (endpoint_before paths) operations.
Proof.
  intros Hpaths Hwf. unfold OperationCounter.get_operations.
  rewrite Hpaths. cbn [items bind]. eexists. split; [reflexivity|]. split.
  - intros p m operation. apply operations_In. exact Hwf.
  - apply operations_sorted. exact Hwf.
Qed.

Lemma get_operations_order_witness :
  let spec :=
    [("paths", JObj [("/pets", JObj [("post", JStr "create"); ("get", JStr "list")]);
                     ("/broken", JStr "not a mapping");
                     ("/pets/{id}", JObj [("delete", JNull); ("parameters", JArr [])])])] in
  OperationCounter.get_operations spec
  = Ok [("/pets", "get", JStr "list"); ("/pets", "post", JStr "create");
        ("/pets/{id}", "delete", JNull)] /\
  exists paths operations,
    dict_get_default "paths" (JObj []) spec = JObj paths /\
    OperationCounter.get_operations spec = Ok operations /\
    StronglySorted (endpoint_before paths) operations.
Proof.
  intros spec. split; [reflexivity|].
  destruct (get_operations_order spec
              [("/pets", JObj [("post", JStr "create"); ("get", JStr "list")]);
               ("/broken", JStr "not a mapping");
               ("/pets/{id}", JObj [("delete", JNull); ("parameters", JArr [])])])
    as [operations [Hget [_ Hsorted]]].
  - reflexivity.
  - unfold dict_wf. simpl.
    repeat (constructor; [simpl; intuition discriminate|]). constructor.
  - eexists. exists operations. split; [reflexivity|]. split; assumption.
Defined.

(** ** Loops that may raise *)

Lemma foldM_invariant {A S : Type} (P : S -> Prop) (f : S -> A -> exc S)
    (l : list A) (s s' : S) :
  (forall s a s', P s -> f s a = Ok s' -> P s') ->
  P s -> foldM f l s = Ok s' -> P s'.
Proof.
  intros Hstep. revert s. induction l as [|a l IH]; simpl; intros s Hs H.
  - injection H as <-. exact Hs.
  - destruct (f s a) as [s1|e] eqn:E; simpl in H; [|discriminate].
    apply (IH s1); [eapply Hstep; eassumption | exact H].
Qed.

(** ** [OpenAPIMerger]: keys that are never removed *)

Section KeyKept.

Import OpenAPIMerger.

Variable k : string.

Lemma merge_info_keeps self spec self' :
  merge_info self spec = Ok self' -> keeps k self self'.
Proof.
  unfold merge_info, keeps. intros H Hk.
  destruct (dict_get "info" spec) as [source_info|]; [|injection H as <-; exact Hk].
  destruct (Nat.eqb (files_processed (stats self)) 0).
  - repeat bind_inv H. injection H as <-. simpl. apply dict_mem_set_keep. exact Hk.
  - repeat bind_inv H. injection H as <-. simpl. apply dict_mem_set_keep. exact Hk.
Qed.

Lemma merge_root_properties_keeps self spec self' :
  merge_root_properties self spec = Ok self' -> keeps k self self'.
Proof.
  unfold merge_root_properties, keeps. intros H Hk.
  bind_inv H. injection H as <-. simpl.
  revert E. apply (foldM_invariant (fun m => dict_mem k m = true)); [|exact Hk].
  intros m prop m' Hm Hstep.
  destruct (dict_get prop spec) as [incoming|]; [|injection Hstep as <-; exact Hm].
  destruct (dict_get prop m) as [current|].
  - destruct (String.eqb prop "servers").
    + bind_inv Hstep. injection Hstep as <-. apply dict_mem_set_keep. exact Hm.
    + destruct (String.eqb prop "tags").
      * bind_inv Hstep. injection Hstep as <-. apply dict_mem_set_keep. exact Hm.
      * injection Hstep as <-. exact Hm.
  - bind_inv Hstep. injection Hstep as <-. apply dict_mem_set_keep. exact Hm.
Qed.

Lemma merge_components_keeps self spec strategy self' :
  merge_components self spec strategy = Ok self' -> keeps k self self'.
Proof.
  unfold merge_components, keeps. intros H Hk.
  destruct (dict_get "components" spec) as [source_components|];
    [|injection H as <-; exact Hk].
  bind_inv H.
  destruct (ComponentExtractor.merge_components _ _ _ _) as [h' [conflicts|e]];
    [|discriminate].
  injection H as <-. simpl. apply dict_mem_set_keep.
  destruct (dict_mem "components" (merged_spec self));
    [exact Hk | apply dict_mem_set_keep; exact Hk].
Qed.

Lemma merge_operation_keeps path self entry self' :
  merge_operation path self entry = Ok self' -> keeps k self self'.
Proof.
  unfold merge_operation, keeps. destruct entry as [method operation].
  intros H Hk. repeat bind_inv H. injection H as <-. simpl.
  apply dict_mem_set_keep. exact Hk.
Qed.

Lemma merge_path_keeps self entry self' :
  merge_path self entry = Ok self' -> keeps k self self'.
Proof.
  unfold merge_path, keeps. destruct entry as [path path_item].
  intros H Hk.
  destruct path_item as [ | | | | |d]; try (injection H as <-; exact Hk).
  do 3 bind_inv H.
  revert H. apply (foldM_invariant (fun s => dict_mem k (merged_spec s) = true)).
  - intros s e s' Hs Hstep. eapply merge_operation_keeps; eassumption.
  - destruct a0.
    + injection E1 as <-. exact Hk.
    + bind_inv E1. injection E1 as <-. simpl. apply dict_mem_set_keep. exact Hk.
Qed.

Lemma merge_paths_keeps self spec self' :
  merge_paths self spec = Ok self' -> keeps k self self'.
Proof.
  unfold merge_paths, keeps. intros H Hk.
  destruct (dict_get "paths" spec) as [paths|]; [|injection H as <-; exact Hk].
  bind_inv H. revert H.
  apply (foldM_invariant (fun s => dict_mem k (merged_spec s) = true)); [|exact Hk].
  intros s e s' Hs Hstep. eapply merge_path_keeps; eassumption.
Qed.

Lemma merge_file_keeps strategy self spec self' :
  merge_file strategy self spec = Ok self' -> keeps k self self'.
Proof.
  unfold merge_file, keeps. intros H Hk.
  repeat bind_inv H. injection H as <-. simpl.
  eapply merge_paths_keeps; [eassumption|].
  eapply merge_components_keeps; [eassumption|].
  eapply merge_root_properties_keeps; [eassumption|].
  eapply merge_info_keeps; [eassumption|].
  destruct (Nat.eqb (files_processed (stats self)) 0); [|exact Hk].
  destruct (dict_get "openapi" spec);
    [simpl; apply dict_mem_set_keep; exact Hk|].
  destruct (dict_get "swagger" spec);
    [simpl; apply dict_mem_set_keep; exact Hk | exact Hk].
Qed.

Lemma clean_merged_spec_keeps self self' :
  k <> "components" ->
  clean_merged_spec self = Ok self' -> keeps k self self'.
Proof.
  unfold clean_merged_spec, keeps. intros Hne H Hk.
  destruct (dict_get "components" (merged_spec self)) as [components|];
    [|injection H as <-; exact Hk].
  do 2 bind_inv H.
  destruct (truthy a0); injection H as <-; simpl.
  - apply dict_mem_set_keep. exact Hk.
  - unfold dict_mem. rewrite dict_get_del_other by exact Hne. exact Hk.
Qed.

Lemma merge_all_keeps self spec_files strategy output_format self' :
  k <> "components" ->
  merge_all self spec_files strategy output_format = Ok self' -> keeps k self self'.
Proof.
  unfold merge_all, keeps. intros Hne H Hk.
  destruct spec_files as [|f files]; [discriminate|].
  do 3 bind_inv H. injection H as <-.
  eapply clean_merged_spec_keeps; [exact Hne | eassumption |].
  revert E.
  apply (foldM_invariant (fun s => dict_mem k (merged_spec s) = true)); [|exact Hk].
  intros s loaded s' Hs Hstep. destruct loaded as [spec|e].
  - eapply merge_file_keeps; eassumption.
  - injection Hstep as <-. exact Hs.
Qed.

End KeyKept.

Lemma merge_all_files_fail (self : OpenAPIMerger.state)
    (spec_files : list (exc (dict json))) (strategy : string) :
  Forall (fun loaded => exists e, loaded = Raise e) spec_files ->
  foldM (fun self (loaded : exc (dict json)) =>
           match loaded with
           | Raise _ => Ok self
           | Ok spec => OpenAPIMerger.merge_file strategy self spec
           end) spec_files self = Ok self.
Proof.
  induction 1 as [|loaded files [e ->] _ IH]; simpl; [reflexivity | exact IH].
Qed.

(** C10. Whatever [merge_all] writes holds the keys [openapi], [info] and
    [paths].  When there are files and every one fails to load, [merge_all]
    raises nothing for a supported output format, writes the initial
    document without its empty [components], and returns the initial
    statistics, in which [files_processed] is 0. *)
Theorem merge_all_required_keys
    (spec_files : list (exc (dict json))) (strategy output_format : string) :
  (forall self',
      OpenAPIMerger.merge_all OpenAPIMerger.init spec_files strategy output_format
      = Ok self' ->
      has_required_keys (OpenAPIMerger.merged_spec self')) /\
  (spec_files <> [] ->
   Forall (fun loaded => exists e, loaded = Raise e) spec_files ->
   OpenAPIMerger.save_spec output_format = Ok tt ->
   OpenAPIMerger.merge_all OpenAPIMerger.init spec_files strategy output_format
   = Ok {| OpenAPIMerger.merged_spec := skeleton;
           OpenAPIMerger.stats := OpenAPIMerger.stats OpenAPIMerger.init |}).
Proof.
  split.
  - intros self' H. repeat split.
    + apply (merge_all_keeps "openapi" _ _ _ _ _ ltac:(discriminate) H). reflexivity.
    + apply (merge_all_keeps "info" _ _ _ _ _ ltac:(discriminate) H). reflexivity.
    + apply (merge_all_keeps "paths" _ _ _ _ _ ltac:(discriminate) H). reflexivity.
  - intros Hne Hfail Hsave. unfold OpenAPIMerger.merge_all.
    destruct spec_files as [|f files]; [contradiction|].
    rewrite merge_all_files_fail by exact Hfail. cbn [bind].
    change (OpenAPIMerger.clean_merged_spec OpenAPIMerger.init)
      with (Ok {| OpenAPIMerger.merged_spec := skeleton;
                  OpenAPIMerger.stats := OpenAPIMerger.stats OpenAPIMerger.init |}).
    cbn [bind]. rewrite Hsave. reflexivity.
Qed.

Lemma merge_all_required_keys_witness :
  let spec_files : list (exc (dict json)) :=
    [Raise (ValueError "Failed to parse spec_a.json"); Raise (ValueError "Invalid spec")] in
  OpenAPIMerger.merge_all OpenAPIMerger.init spec_files "keep_first" "json"
  = Ok {| OpenAPIMerger.merged_spec := skeleton;
          OpenAPIMerger.stats := OpenAPIMerger.stats OpenAPIMerger.init |} /\
  has_required_keys skeleton /\
  OpenAPIMerger.files_processed (OpenAPIMerger.stats OpenAPIMerger.init) = 0.
Proof.
  intros spec_files.
  destruct (merge_all_required_keys spec_files "keep_first" "json") as [Hkeys Hfail].
  assert (Hrun : OpenAPIMerger.merge_all OpenAPIMerger.init spec_files "keep_first" "json"
                 = Ok {| OpenAPIMerger.merged_spec := skeleton;
                         OpenAPIMerger.stats := OpenAPIMerger.stats OpenAPIMerger.init |}).
  { apply Hfail.
    - discriminate.
    - repeat constructor; eexists; reflexivity.
    - reflexivity. }
  split; [exact Hrun|]. split; [|reflexivity].
  apply (Hkeys _ Hrun).
Defined.

(** ** [OpenAPIMerger.merge_paths] *)

Section MapValues.

Context {A B : Type} (g : A -> B).

Lemma dict_get_map_values k (d : dict A) :
  dict_get k (map (fun e => (fst e, g (snd e))) d) = option_map g (dict_get k d).
Proof.
  induction d as [|[k0 v0] r IH]; simpl; [reflexivity|].
  destruct (String.eqb k k0); [reflexivity | exact IH].
Qed.

Lemma dict_set_map_values k v (d : dict A) :
  dict_set k (g v) (map (fun e => (fst e, g (snd e))) d)
  = map (fun e => (fst e, g (snd e))) (dict_set k v d).
Proof.
  induction d as [|[k0 v0] r IH]; simpl; [reflexivity|].
  destruct (String.eqb k k0); simpl; [reflexivity | rewrite IH; reflexivity].
Qed.

End MapValues.

Lemma dict_set_set {A : Type} k (v v' : A) (d : dict A) :
  dict_set k v (dict_set k v' d) = dict_set k v d.
Proof.
  induction d as [|[k0 v0] r IH]; simpl.
  - rewrite String.eqb_refl. reflexivity.
  - destruct (String.eqb k k0) eqn:E; simpl; rewrite E; [reflexivity|].
    rewrite IH. reflexivity.
Qed.

Lemma dict_set_get_same {A : Type} k (v : A) (d : dict A) :
  dict_get k d = Some v -> dict_set k v d = d.
Proof.
  induction d as [|[k0 v0] r IH]; simpl; [discriminate|].
  destruct (String.eqb k k0) eqn:E.
  - intros [= ->]. reflexivity.
  - intros H. rewrite IH by exact H. reflexivity.
Qed.

Lemma dict_keys_notin_get {A : Type} k (d : dict A) :
  ~ In k (dict_keys d) -> dict_get k d = None.
Proof.
  intros H. destruct (dict_get k d) eqn:E; [|reflexivity].
  exfalso. apply H. apply dict_mem_In. unfold dict_mem. rewrite E. reflexivity.
Qed.

Lemma filter_map_length {A B : Type} (f : B -> bool) (g : A -> B) (l : list A) :
  List.length (filter f (map g l)) = List.length (filter (fun x => f (g x)) l).
Proof.
  induction l as [|x l IH]; simpl; [reflexivity|].
  destruct (f (g x)); simpl; rewrite IH; reflexivity.
Qed.

Section MergePaths.

Import OpenAPIMerger.
Import OpenAPISplitter.

Lemma holds_paths_set m mp' :
  holds_paths (dict_set "paths" (paths_value mp') m) mp'.
Proof. unfold holds_paths. apply dict_get_set_same. Qed.

Lemma merge_operation_spec p self mp item k v :
  holds_paths (merged_spec self) mp ->
  dict_get p mp = Some item ->
  exists self',
    merge_operation p self (k, v) = Ok self' /\
    holds_paths (merged_spec self') (dict_set p (dict_set k v item) mp) /\
    counters self'
    = (paths_merged (stats self),
       operations_merged (stats self) + (if is_http_method k then 1 else 0),
       path_conflicts (stats self) + (if dict_mem k item then 1 else 0)).
Proof.
  intros Hm Hp. unfold merge_operation. cbn [getitem]. rewrite Hm. cbn [bind].
  unfold paths_value at 1. cbn [getitem].
  rewrite (dict_get_map_values JObj p mp), Hp.
  cbn [option_map bind contains setitem]. unfold paths_value.
  cbn [option_map bind contains setitem].
  rewrite (dict_set_map_values JObj). fold (paths_value (dict_set p (dict_set k v item) mp)).
  eexists. split; [reflexivity|]. split; [apply holds_paths_set|].
  unfold counters, is_http_method. cbn.
  destruct (String.eqb k "get" || _), (dict_mem k item); (f_equal; [f_equal|]; lia).
Qed.

Lemma merge_operations_spec p d :
  dict_wf d ->
  forall self mp item,
    holds_paths (merged_spec self) mp ->
    dict_get p mp = Some item ->
    exists self',
      foldM (merge_operation p) d self = Ok self' /\
      holds_paths (merged_spec self') (dict_set p (write_all d item) mp) /\
      counters self'
      = (paths_merged (stats self),
         operations_merged (stats self)
         + List.length (filter (fun kv => is_http_method (fst kv)) d),
         path_conflicts (stats self)
         + List.length (filter (fun kv => dict_mem (fst kv) item) d)).
Proof.
  unfold dict_wf.
  induction d as [|[k v] rest IH]; intros Hwf self mp item Hm Hp.
  - exists self. split; [reflexivity|]. split.
    + unfold write_all. simpl. rewrite dict_set_get_same by exact Hp. exact Hm.
    + unfold counters. simpl. rewrite !Nat.add_0_r. reflexivity.
  - inversion Hwf as [|? ? Hk Hrest]; subst.
    destruct (merge_operation_spec p self mp item k v Hm Hp) as [s1 [E1 [Hm1 Hc1]]].
    destruct (IH Hrest s1 _ (dict_set k v item) Hm1 (dict_get_set_same _ _ _))
      as [s2 [E2 [Hm2 Hc2]]].
    exists s2. split; [cbn [foldM]; rewrite E1; exact E2|]. split.
    + rewrite dict_set_set in Hm2. exact Hm2.
    + rewrite Hc2. unfold counters in Hc1. injection Hc1 as -> -> ->.
      assert (Hfilter : filter (fun kv : string * json => dict_mem (fst kv) (dict_set k v item)) rest
                        = filter (fun kv => dict_mem (fst kv) item) rest).
      { apply filter_ext_in. intros [k' v'] Hin. simpl. rewrite dict_mem_set.
        destruct (String.eqb k' k) eqn:E; [|reflexivity].
        apply String.eqb_eq in E. subst k'. exfalso. apply Hk.
        change (In (fst (k, v')) (map fst rest)). apply in_map. exact Hin. }
      rewrite Hfilter. simpl.
      destruct (is_http_method k), (dict_mem k item); simpl; (f_equal; [f_equal|]; lia).
Qed.

Lemma lookup2_default mp p k :
  dict_mem k (dict_get_default p [] mp) = is_some (lookup2 mp p k).
Proof.
  unfold lookup2, dict_get_default, dict_mem.
  destruct (dict_get p mp) as [d|]; [|reflexivity].
  destruct (dict_get k d); reflexivity.
Qed.

(** One entry of [spec['paths']]. *)
Lemma merge_path_spec self mp p path_item :
  holds_paths (merged_spec self) mp ->
  (forall d, path_item = JObj d -> dict_wf d) ->
  exists self',
    merge_path self (p, path_item) = Ok self' /\
    holds_paths (merged_spec self') (merged_with mp [(p, path_item)]) /\
    counters self'
    = (paths_merged (stats self) + List.length (new_paths mp [(p, path_item)]),
       operations_merged (stats self) + List.length (method_writes [(p, path_item)]),
       path_conflicts (stats self) + List.length (duplicate_keys mp [(p, path_item)])).
Proof.
  intros Hm Hwf. unfold merge_path.
  destruct path_item as [ | | | | |d];
    try (exists self; split; [reflexivity|]; split; [exact Hm|];
         unfold counters; cbn; rewrite !Nat.add_0_r; reflexivity).
  specialize (Hwf d eq_refl).
  cbn [getitem]. rewrite Hm. cbn [bind]. unfold paths_value at 1. cbn [contains bind].
  assert (Hmem : dict_mem p (map (fun e : string * dict json => (fst e, JObj (snd e))) mp)
                 = dict_mem p mp).
  { unfold dict_mem. rewrite (dict_get_map_values JObj p mp).
    destruct (dict_get p mp); reflexivity. }
  rewrite Hmem.
  assert (Hcount :
            forall s0 mp0 item0 flag,
              holds_paths (merged_spec s0) mp0 ->
              dict_get p mp0 = Some item0 ->
              dict_set p (write_all d item0) mp0
              = merged_with mp [(p, JObj d)] ->
              item0 = dict_get_default p [] mp ->
              counters s0
              = (paths_merged (stats self) + flag,
                 operations_merged (stats self), path_conflicts (stats self)) ->
              flag = List.length (new_paths mp [(p, JObj d)]) ->
              exists self',
                foldM (merge_operation p) d s0 = Ok self' /\
                holds_paths (merged_spec self') (merged_with mp [(p, JObj d)]) /\
                counters self'
                = (paths_merged (stats self) + List.length (new_paths mp [(p, JObj d)]),
                   operations_merged (stats self)
                   + List.length (method_writes [(p, JObj d)]),
                   path_conflicts (stats self)
                   + List.length (duplicate_keys mp [(p, JObj d)]))).
  { intros s0 mp0 item0 flag Hm0 Hp0 Hres Hitem Hc0 Hflag.
    destruct (merge_operations_spec p d Hwf s0 mp0 item0 Hm0 Hp0) as [s1 [E1 [Hm1 Hc1]]].
    exists s1. split; [exact E1|]. split; [rewrite <- Hres; exact Hm1|].
    rewrite Hc1. unfold counters in Hc0. injection Hc0 as -> -> ->. subst flag.
    unfold method_writes, duplicate_keys, written_keys. cbn [flat_map snd fst].
    rewrite !app_nil_r, !filter_map_length. cbn [write_key write_path fst snd].
    rewrite (filter_ext (fun kv : string * json => dict_mem (fst kv) item0)
               (fun x => is_some (lookup2 mp p (fst x)))); [reflexivity|].
    intros [k v]. cbn [fst]. rewrite Hitem. apply lookup2_default. }
  destruct (dict_mem p mp) eqn:Hp.
  - cbn [bind].
    unfold dict_mem in Hp. destruct (dict_get p mp) as [item|] eqn:Hget; [|discriminate].
    apply (Hcount self mp item 0).
    + exact Hm.
    + exact Hget.
    + unfold merged_with. cbn [fold_left fst snd].
      unfold dict_get_default. rewrite Hget. reflexivity.
    + unfold dict_get_default. rewrite Hget. reflexivity.
    + unfold counters. rewrite Nat.add_0_r. reflexivity.
    + unfold new_paths. cbn. unfold dict_mem. rewrite Hget. reflexivity.
  - unfold paths_value. cbn [setitem bind]. rewrite (dict_set_map_values JObj p [] mp).
    fold (paths_value (dict_set p [] mp)).
    unfold dict_mem in Hp. destruct (dict_get p mp) as [item|] eqn:Hget; [discriminate|].
    apply (Hcount _ (dict_set p [] mp) [] 1).
    + apply holds_paths_set.
    + apply dict_get_set_same.
    + unfold merged_with. cbn [fold_left fst snd].
      unfold dict_get_default. rewrite Hget. apply dict_set_set.
    + unfold dict_get_default. rewrite Hget. reflexivity.
    + unfold counters. cbn. f_equal. f_equal. lia.
    + unfold new_paths. cbn. unfold dict_mem. rewrite Hget. reflexivity.
Qed.

Lemma merged_with_cons mp entry sp :
  merged_with mp (entry :: sp) = merged_with (merged_with mp [entry]) sp.
Proof. reflexivity. Qed.

Lemma merged_with_one_frame mp p path_item p' :
  p' <> p -> dict_get p' (merged_with mp [(p, path_item)]) = dict_get p' mp.
Proof.
  intros H. unfold merged_with. cbn [fold_left fst snd].
  destruct path_item; try reflexivity. apply dict_get_set_other. exact H.
Qed.

Lemma written_keys_cons entry sp :
  written_keys (entry :: sp) = written_keys [entry] ++ written_keys sp.
Proof. unfold written_keys. cbn [flat_map]. rewrite app_nil_r. reflexivity. Qed.

Lemma written_keys_path sp w :
  In w (written_keys sp) -> In (write_path w) (dict_keys sp).
Proof.
  unfold written_keys. intros H. apply in_flat_map in H.
  destruct H as [[p path_item] [Hentry H]]. cbn [fst snd] in H.
  destruct path_item; try contradiction.
  apply in_map_iff in H. destruct H as [kv [<- _]].
  change (In (fst (p, JObj entries)) (map fst sp)). apply in_map. exact Hentry.
Qed.

Lemma paths_wf_tail entry sp : paths_wf (entry :: sp) -> paths_wf sp.
Proof.
  intros [Hwf Hitems]. split.
  - unfold dict_wf in *. simpl in Hwf. inversion Hwf. assumption.
  - intros p d H. apply (Hitems p d). right. exact H.
Qed.

Lemma paths_wf_head p path_item sp :
  paths_wf ((p, path_item) :: sp) ->
  ~ In p (dict_keys sp) /\ forall d, path_item = JObj d -> dict_wf d.
Proof.
  intros [Hwf Hitems]. split.
  - unfold dict_wf in Hwf. simpl in Hwf. inversion Hwf. assumption.
  - intros d ->. apply (Hitems p d). left. reflexivity.
Qed.

(** The loop of [merge_paths] over the entries of [spec['paths']]. *)
Lemma merge_entries_spec sp :
  paths_wf sp ->
  forall self mp,
    holds_paths (merged_spec self) mp ->
    exists self',
      foldM merge_path sp self = Ok self' /\
      holds_paths (merged_spec self') (merged_with mp sp) /\
      counters self'
      = (paths_merged (stats self) + List.length (new_paths mp sp),
         operations_merged (stats self) + List.length (method_writes sp),
         path_conflicts (stats self) + List.length (duplicate_keys mp sp)).
Proof.
  induction sp as [|[p path_item] rest IH]; intros Hwf self mp Hm.
  - exists self. split; [reflexivity|]. split; [exact Hm|].
    unfold counters. cbn. rewrite !Nat.add_0_r. reflexivity.
  - destruct (paths_wf_head _ _ _ Hwf) as [Hp Hitem].
    destruct (merge_path_spec self mp p path_item Hm Hitem) as [s1 [E1 [Hm1 Hc1]]].
    destruct (IH (paths_wf_tail _ _ Hwf) s1 _ Hm1) as [s2 [E2 [Hm2 Hc2]]].
    exists s2. split; [cbn [foldM]; rewrite E1; exact E2|]. split.
    + rewrite merged_with_cons. exact Hm2.
    + rewrite Hc2. unfold counters in Hc1. injection Hc1 as -> -> ->.
      assert (Hnew : new_paths (merged_with mp [(p, path_item)]) rest = new_paths mp rest).
      { unfold new_paths. apply filter_ext_in. intros [p' item'] Hin. cbn [fst snd].
        f_equal. f_equal. unfold dict_mem. rewrite merged_with_one_frame; [reflexivity|].
        intros ->. apply Hp. change (In (fst (p, item')) (map fst rest)).
        apply in_map. exact Hin. }
      assert (Hdup : duplicate_keys (merged_with mp [(p, path_item)]) rest
                     = duplicate_keys mp rest).
      { unfold duplicate_keys. apply filter_ext_in. intros w Hin.
        unfold lookup2. rewrite merged_with_one_frame; [reflexivity|].
        intros Heq. apply Hp. rewrite <- Heq. apply written_keys_path. exact Hin. }
      rewrite Hnew, Hdup.
      unfold method_writes, duplicate_keys.
      rewrite (written_keys_cons (p, path_item) rest), !filter_app, !length_app.
      unfold new_paths. cbn [filter].
      cbn [fst snd].
      destruct (is_dict path_item && negb (dict_mem p mp));
        cbn [List.length]; (f_equal; [f_equal|]; lia).
Qed.

Lemma write_all_frame d item k :
  ~ In k (dict_keys d) -> dict_get k (write_all d item) = dict_get k item.
Proof.
  unfold write_all. revert item.
  induction d as [|[k0 v0] rest IH]; intros item H; simpl; [reflexivity|].
  simpl in H. rewrite IH by tauto. apply dict_get_set_other.
  intros ->. apply H. left. reflexivity.
Qed.

Lemma write_all_get d item k v :
  dict_wf d -> In (k, v) d -> dict_get k (write_all d item) = Some v.
Proof.
  unfold write_all, dict_wf. revert item.
  induction d as [|[k0 v0] rest IH]; intros item Hwf H; simpl; [contradiction|].
  simpl in Hwf. inversion Hwf as [|? ? Hk Hrest]; subst.
  destruct H as [[= -> ->]|H].
  - change (fold_left _ rest ?i) with (write_all rest i).
    rewrite write_all_frame by exact Hk. apply dict_get_set_same.
  - apply IH; assumption.
Qed.

Lemma merged_with_frame sp mp p :
  ~ In p (dict_keys sp) -> dict_get p (merged_with mp sp) = dict_get p mp.
Proof.
  revert mp. induction sp as [|[p0 item0] rest IH]; intros mp H; [reflexivity|].
  rewrite merged_with_cons. simpl in H. rewrite IH by tauto.
  apply merged_with_one_frame. intros ->. apply H. left. reflexivity.
Qed.

(** Last write wins: after the merge, every key of the source holds the
    source's value. *)
Lemma merged_with_lookup sp :
  paths_wf sp ->
  forall mp p k v,
    In (p, k, v) (written_keys sp) -> lookup2 (merged_with mp sp) p k = Some v.
Proof.
  induction sp as [|[p0 item0] rest IH]; intros Hwf mp p k v H; [contradiction|].
  destruct (paths_wf_head _ _ _ Hwf) as [Hp0 Hitem].
  rewrite written_keys_cons in H. apply in_app_or in H. destruct H as [H|H].
  - unfold written_keys in H. cbn [flat_map fst snd] in H. rewrite app_nil_r in H.
    destruct item0 as [ | | | | |d]; try contradiction.
    apply in_map_iff in H. destruct H as [[k' v'] [[= <- <- <-] Hin]].
    rewrite merged_with_cons. unfold lookup2.
    rewrite merged_with_frame by exact Hp0.
    unfold merged_with. cbn [fold_left fst snd]. rewrite dict_get_set_same.
    apply write_all_get; [apply Hitem; reflexivity | exact Hin].
  - rewrite merged_with_cons. apply IH; [eapply paths_wf_tail; exact Hwf | exact H].
Qed.

(** Keys that the source does not hold keep their value. *)
Lemma merged_with_other sp mp p k :
  ~ In (p, k) (map fst (written_keys sp)) ->
  lookup2 (merged_with mp sp) p k = lookup2 mp p k.
Proof.
  revert mp. induction sp as [|[p0 item0] rest IH]; intros mp H; [reflexivity|].
  rewrite written_keys_cons, map_app in H.
  rewrite merged_with_cons, IH by (intros Hin; apply H; apply in_or_app; auto).
  unfold lookup2. destruct (String.eqb p p0) eqn:E.
  - apply String.eqb_eq in E. subst p0.
    unfold merged_with. cbn [fold_left fst snd].
    destruct item0 as [ | | | | |d]; try reflexivity.
    rewrite dict_get_set_same, write_all_frame.
    + unfold dict_get_default. destruct (dict_get p mp); reflexivity.
    + intros Hin. apply H. apply in_or_app. left.
      unfold written_keys. cbn [flat_map fst snd]. rewrite app_nil_r, map_map.
      cbn [fst]. apply in_map_iff in Hin. destruct Hin as [[k' v'] [<- Hin]].
      apply in_map_iff. exists (k', v'). split; [reflexivity | exact Hin].
  - rewrite merged_with_one_frame; [reflexivity|].
    intros ->. rewrite String.eqb_refl in E. discriminate.
Qed.

End MergePaths.

Lemma merged_with_mem sp mp p :
  dict_mem p (merged_with mp sp)
  = dict_mem p mp || existsb (fun e => String.eqb p (fst e) && is_dict (snd e)) sp.
Proof.
  revert mp. induction sp as [|[p0 item0] rest IH]; intros mp.
  - simpl. rewrite orb_false_r. reflexivity.
  - rewrite merged_with_cons, IH. cbn [existsb fst snd]. rewrite orb_assoc. f_equal.
    unfold merged_with. cbn [fold_left fst snd].
    destruct item0; cbn [is_dict]; rewrite ?andb_false_r, ?orb_false_r; try reflexivity.
    rewrite dict_mem_set, andb_true_r. apply orb_comm.
Qed.

(** C3, as the code has it.  Merging the paths of a source file creates an
    entry for each path with a mapping-valued item that the target lacks and
    counts it in [paths_merged]; writes every key of these items over what
    the target holds; counts in [path_conflicts] every such key that the
    target already holds at that path, HTTP method or not; and counts in
    [operations_merged] every such key that is one of the eight HTTP
    methods.  No conflict strategy takes part. *)
Theorem merge_paths_counts
    (self : OpenAPIMerger.state) (spec : dict json)
    (mp : dict (dict json)) (sp : dict json) :
  holds_paths (OpenAPIMerger.merged_spec self) mp ->
  dict_get "paths" spec = Some (JObj sp) ->
  paths_wf sp ->
  exists self',
    OpenAPIMerger.merge_paths self spec = Ok self' /\
    holds_paths (OpenAPIMerger.merged_spec self') (merged_with mp sp) /\
    (forall p, dict_mem p (merged_with mp sp)
               = dict_mem p mp
                 || existsb (fun e => String.eqb p (fst e) && is_dict (snd e)) sp) /\
    OpenAPIMerger.paths_merged (OpenAPIMerger.stats self')
    = OpenAPIMerger.paths_merged (OpenAPIMerger.stats self)
      + List.length (new_paths mp sp) /\
    (forall p k v, In (p, k, v) (written_keys sp) ->
                   lookup2 (merged_with mp sp) p k = Some v) /\
    (forall p k, ~ In (p, k) (map fst (written_keys sp)) ->
                 lookup2 (merged_with mp sp) p k = lookup2 mp p k) /\
    OpenAPIMerger.path_conflicts (OpenAPIMerger.stats self')
    = OpenAPIMerger.path_conflicts (OpenAPIMerger.stats self)
      + List.length (duplicate_keys mp sp) /\
    OpenAPIMerger.operations_merged (OpenAPIMerger.stats self')
    = OpenAPIMerger.operations_merged (OpenAPIMerger.stats self)
      + List.length (method_writes sp).
Proof.
  intros Hm Hspec Hwf.
  destruct (merge_entries_spec sp Hwf self mp Hm) as [self' [E [Hm' Hc]]].
  exists self'. unfold OpenAPIMerger.merge_paths. rewrite Hspec. cbn [items bind].
  unfold counters in Hc. injection Hc as Hpm Hom Hpc.
  repeat split; try assumption.
  - intros p. apply merged_with_mem.
  - intros p k v. apply merged_with_lookup. exact Hwf.
  - intros p k. apply merged_with_other.
Qed.

Lemma merge_paths_counts_witness :
  let first := [("paths", JObj [("/pets", JObj [("get", JStr "list pets")])])] in
  let sp := [("/pets", JObj [("get", JStr "list pets again"); ("post", JStr "add pet")]);
             ("/owners", JObj [("get", JStr "list owners")])] in
  let second := [("paths", JObj sp)] in
  exists s1 s2 mp,
    OpenAPIMerger.merge_paths OpenAPIMerger.init first = Ok s1 /\
    holds_paths (OpenAPIMerger.merged_spec s1) mp /\
    OpenAPIMerger.merge_paths s1 second = Ok s2 /\
    counters s2 = (2, 4, 1) /\
    lookup2 (merged_with mp sp) "/pets" "get" = Some (JStr "list pets again").
Proof.
  intros first sp second.
  pose (s1 := {| OpenAPIMerger.merged_spec :=
                   dict_set "paths"
                     (OpenAPISplitter.paths_value [("/pets", [("get", JStr "list pets")])])
                     (OpenAPIMerger.merged_spec OpenAPIMerger.init);
                 OpenAPIMerger.stats :=
                   {| OpenAPIMerger.files_processed := 0;
                      OpenAPIMerger.paths_merged := 1;
                      OpenAPIMerger.operations_merged := 1;
                      OpenAPIMerger.component_conflicts := [];
                      OpenAPIMerger.path_conflicts := 0 |} |}).
  destruct (merge_paths_counts s1 second [("/pets", [("get", JStr "list pets")])] sp)
    as [s2 [E [_ [_ [Hpm [Hlast [_ [Hpc Hom]]]]]]]].
  - reflexivity.
  - reflexivity.
  - split.
    + unfold dict_wf. simpl. repeat (constructor; [simpl; intuition discriminate|]).
      constructor.
    + intros p d [H|[H|[]]]; injection H as <- <-; unfold dict_wf; simpl;
        repeat (constructor; [simpl; intuition discriminate|]); constructor.
  - exists s1, s2, [("/pets", [("get", JStr "list pets")])].
    split; [reflexivity|]. split; [reflexivity|].
    split; [exact E|]. split.
    + unfold counters. rewrite Hpm, Hpc, Hom. reflexivity.
    + apply Hlast. simpl. auto.
Defined.

(** C3, counterexample to the claim as stated.  Last clause: a key that is
    no HTTP method ([parameters]) and that both files hold at the same path
    raises [path_conflicts], although no HTTP-method key is duplicated.
    First clause: a path that the target lacks and whose item is not a
    mapping gets no entry and is not counted in [paths_merged]. *)
Lemma merge_paths_conflicts_not_only_methods :
  (
  let first :=
    [("paths", JObj [("/pets", JObj [("parameters", JArr [JStr "limit"]);
                                     ("get", JStr "list pets")])])] in
  let sp := [("/pets", JObj [("parameters", JArr [JStr "offset"]);
                             ("post", JStr "add pet")])] in
  let second := [("paths", JObj sp)] in
  let mp := [("/pets", [("parameters", JArr [JStr "limit"]); ("get", JStr "list pets")])] in
  exists s1 s2,
    OpenAPIMerger.merge_paths OpenAPIMerger.init first = Ok s1 /\
    holds_paths (OpenAPIMerger.merged_spec s1) mp /\
    paths_wf sp /\
    OpenAPIMerger.merge_paths s1 second = Ok s2 /\
    duplicate_method_keys mp sp = [] /\
    OpenAPIMerger.path_conflicts (OpenAPIMerger.stats s2)
    <> OpenAPIMerger.path_conflicts (OpenAPIMerger.stats s1)
       + List.length (duplicate_method_keys mp sp)
  ) /\ (
  let sp := [("/pets", JStr "see /animals")] in
  let spec := [("paths", JObj sp)] in
  exists s,
    OpenAPIMerger.merge_paths OpenAPIMerger.init spec = Ok s /\
    holds_paths (OpenAPIMerger.merged_spec OpenAPIMerger.init) [] /\
    dict_mem "/pets" sp = true /\
    holds_paths (OpenAPIMerger.merged_spec s) [] /\
    OpenAPIMerger.paths_merged (OpenAPIMerger.stats s)
    = OpenAPIMerger.paths_merged (OpenAPIMerger.stats OpenAPIMerger.init)
  ).
Proof.
  split.
  - intros first sp second mp. eexists. eexists.
    split; [reflexivity|]. split; [reflexivity|]. split.
    { split.
      - unfold dict_wf. simpl. repeat (constructor; [simpl; intuition discriminate|]).
        constructor.
      - intros p d [H|[]]. injection H as <- <-. unfold dict_wf. simpl.
        repeat (constructor; [simpl; intuition discriminate|]). constructor. }
    split; [reflexivity|]. split; [reflexivity|].
    vm_compute. discriminate.
  - intros sp spec. eexists.
    split; [reflexivity|]. repeat split; reflexivity.
Qed.

(** ** [OpenAPISplitter.create_mini_spec] *)

Section MiniSpec.

Import OperationCounter.
Import OpenAPISplitter.

Lemma set_add_ok x used :
  hashable x = true -> exists used', set_add x used = Ok used'.
Proof.
  intros H. unfold set_add, set_mem. rewrite H. cbn [bind]. eexists. reflexivity.
Qed.

Lemma update_ok xs used :
  forallb hashable xs = true ->
  exists used', foldM (fun used_tags x => set_add x used_tags) xs used = Ok used'.
Proof.
  revert used. induction xs as [|x xs IH]; intros used H; simpl.
  - eexists. reflexivity.
  - simpl in H. apply andb_prop in H. destruct H as [Hx Hxs].
    destruct (set_add_ok x used Hx) as [used1 E]. rewrite E. cbn [bind].
    apply IH. exact Hxs.
Qed.

Lemma used_tags_from_ok endpoints used :
  forallb (fun e : endpoint => operation_shape (snd e)) endpoints = true ->
  exists used',
    foldM (fun used_tags (e : endpoint) =>
             let operation := snd e in
             b <- contains "tags" operation ;;
             if b : bool
             then t <- getitem operation "tags" ;;
                  xs <- iter t ;;
                  foldM (fun used_tags x => set_add x used_tags) xs used_tags
             else Ok used_tags)
          endpoints used = Ok used'.
Proof.
  revert used. induction endpoints as [|[[path method] operation] rest IH];
    intros used H; cbn [foldM].
  - eexists. reflexivity.
  - cbn [forallb snd] in H. apply andb_prop in H. destruct H as [Hop Hrest].
    cbn [snd]. destruct operation as [ | | | | |d]; try discriminate.
    cbn [contains bind]. unfold dict_mem. cbn [operation_shape] in Hop.
    cbn [getitem].
    destruct (dict_get "tags" d) as [t|]; cbn [bind].
    + destruct t as [ | | | |xs| ]; try discriminate. cbn [iter bind].
      destruct (update_ok xs used Hop) as [used1 E]. rewrite E. cbn [bind].
      apply IH. exact Hrest.
    + apply IH. exact Hrest.
Qed.

Lemma filter_tags_from_ok used tags kept :
  forallb tag_shape tags = true ->
  exists kept',
    foldM (fun kept tag =>
             name <- get tag "name" JNull ;;
             b <- set_mem name used ;;
             Ok (if b : bool then kept ++ [tag] else kept))
          tags kept = Ok kept'.
Proof.
  revert kept. induction tags as [|tag tags IH]; intros kept H; cbn [foldM].
  - eexists. reflexivity.
  - cbn [forallb] in H. apply andb_prop in H. destruct H as [Htag Htags].
    destruct tag as [ | | | | |d]; try discriminate.
    cbn [get bind]. cbn [tag_shape] in Htag. unfold set_mem. rewrite Htag. cbn [bind].
    apply IH. exact Htags.
Qed.

Lemma filter_tags_ok spec_tags used :
  tags_shape spec_tags = true -> exists kept, filter_tags spec_tags used = Ok kept.
Proof.
  unfold filter_tags. destruct spec_tags as [ | | | |tags| ]; try discriminate.
  cbn [tags_shape iter bind]. apply filter_tags_from_ok.
Qed.

Lemma absent_or_copy f k spec :
  (forall v, f v = true -> copyable v = true) ->
  absent_or f k spec = true ->
  forall m : dict json,
    match dict_get k spec with
    | Some s => c <- copy s ;; Ok (dict_set k c m)
    | None => Ok m
    end
    = Ok (match dict_get k spec with Some s => dict_set k s m | None => m end).
Proof.
  unfold absent_or. intros Hf H m. destruct (dict_get k spec) as [s|]; [|reflexivity].
  apply Hf in H. destruct s; try discriminate; reflexivity.
Qed.

Variable repr : json -> string.

(** On a splittable document [create_mini_spec] returns a mini-document, of
    which [mini_spec_of] gives the version, the info and the paths. *)
Lemma create_mini_spec_ok self endpoints name include_components :
  splittable (spec self) endpoints = true ->
  exists mini_spec,
    create_mini_spec repr self endpoints name include_components = Ok mini_spec /\
    mini_spec_of repr self endpoints name mini_spec.
Proof.
  unfold splittable. intros H.
  apply andb_prop in H. destruct H as [H Htags].
  apply andb_prop in H. destruct H as [H Hsecurity].
  apply andb_prop in H. destruct H as [Hinfo Hservers].
  unfold create_mini_spec.
  assert (Hi : match dict_get "info" (spec self) with
               | Some i => copy i
               | None => Ok (JObj [("title", JStr "API"); ("version", JStr "1.0.0")])
               end = Ok (JObj (source_info (spec self)))).
  { unfold source_info, absent_or in *. destruct (dict_get "info" (spec self)) as [i|];
      [|reflexivity]. destruct i; try discriminate. reflexivity. }
  rewrite Hi. cbn [bind].
  set (m0 := if include_components && truthy (JObj (common_components self))
             then dict_set "components" _ _ else _).
  rewrite (absent_or_copy copyable "servers" (spec self) (fun v Hv => Hv) Hservers m0).
  cbn [bind].
  set (m1 := match dict_get "servers" (spec self) with Some s => _ | None => _ end).
  rewrite (absent_or_copy copyable "security" (spec self) (fun v Hv => Hv) Hsecurity m1).
  cbn [bind].
  set (m2 := match dict_get "security" (spec self) with Some s => _ | None => _ end).
  assert (Ht : exists m3,
             match dict_get "tags" (spec self) with
             | Some spec_tags =>
                 used_tags <- used_tags_of endpoints ;;
                 if truthy (JArr used_tags)
                 then kept <- filter_tags spec_tags used_tags ;;
                      Ok (dict_set "tags" (JArr kept) m2)
                 else Ok m2
             | None => Ok m2
             end = Ok m3 /\
             (m3 = m2 \/ exists kept, m3 = dict_set "tags" (JArr kept) m2)).
  { destruct (dict_get "tags" (spec self)) as [spec_tags|];
      [|exists m2; split; [reflexivity | left; reflexivity]].
    apply andb_prop in Htags. destruct Htags as [Hshape Hops].
    destruct (used_tags_from_ok endpoints [] Hops) as [used E].
    change (used_tags_of endpoints = Ok used) in E. rewrite E. cbn [bind].
    destruct (truthy (JArr used));
      [|exists m2; split; [reflexivity | left; reflexivity]].
    destruct (filter_tags_ok spec_tags used Hshape) as [kept E'].
    rewrite E'. cbn [bind]. eexists. split; [reflexivity|].
    right. exists kept. reflexivity. }
  destruct Ht as [m3 [E3 Hm3]]. rewrite E3. cbn [bind get setitem].
  eexists. split; [reflexivity|].
  assert (Hkeep : forall k,
             k <> "components" -> k <> "servers" -> k <> "security" -> k <> "tags" ->
             dict_get k m3
             = dict_get k [("openapi", dict_get_default "openapi" (JStr "3.1.0") (spec self));
                           ("info", JObj (source_info (spec self)));
                           ("paths", JObj [])]).
  { intros k Hc Hs Hsec Htag.
    assert (E2 : dict_get k m3 = dict_get k m2).
    { destruct Hm3 as [->|[kept ->]]; [reflexivity | apply dict_get_set_other; exact Htag]. }
    rewrite E2. subst m2. 
    assert (E1 : forall m, dict_get k match dict_get "security" (spec self) with
                                      | Some s => dict_set "security" s m
                                      | None => m
                                      end = dict_get k m).
    { intros m. destruct (dict_get "security" (spec self));
        [apply dict_get_set_other; exact Hsec | reflexivity]. }
    rewrite E1. subst m1.
    assert (E0 : forall m, dict_get k match dict_get "servers" (spec self) with
                                      | Some s => dict_set "servers" s m
                                      | None => m
                                      end = dict_get k m).
    { intros m. destruct (dict_get "servers" (spec self));
        [apply dict_get_set_other; exact Hs | reflexivity]. }
    rewrite E0. subst m0.
    destruct (include_components && truthy (JObj (common_components self)));
      [apply dict_get_set_other; exact Hc | reflexivity]. }
  unfold mini_spec_of. repeat split.
  - rewrite !dict_get_set_other by discriminate. rewrite Hkeep by discriminate. reflexivity.
  - rewrite !dict_get_set_other by discriminate. rewrite Hkeep by discriminate. reflexivity.
  - rewrite dict_get_set_same. reflexivity.
  - rewrite dict_get_set_other by discriminate. rewrite dict_get_set_same. reflexivity.
Qed.

End MiniSpec.

(** ** The title suffix *)

Lemma append_assoc (a b c : string) : (a +++ b) +++ c = a +++ b +++ c.
Proof. induction a as [|x a IH]; simpl; [reflexivity | rewrite IH; reflexivity]. Qed.

Lemma append_empty_r (a : string) : a +++ "" = a.
Proof. induction a as [|x a IH]; simpl; [reflexivity | rewrite IH; reflexivity]. Qed.

Lemma prefix_append (sep rest : string) : prefix sep (sep +++ rest) = true.
Proof.
  induction sep as [|c sep IH]; simpl; [destruct rest; reflexivity|].
  destruct (ascii_dec c c); [exact IH | contradiction].
Qed.

Lemma str_contains_prefix (sep s : string) :
  prefix sep s = true -> str_contains sep s = true.
Proof. intros H. destruct s; cbn [str_contains]; rewrite H; reflexivity. Qed.

Lemma str_contains_append (sep a b : string) :
  str_contains sep (a +++ sep +++ b) = true.
Proof.
  induction a as [|c a IH].
  - change ("" +++ sep +++ b) with (sep +++ b).
    apply str_contains_prefix. apply prefix_append.
  - simpl. rewrite IH. apply orb_true_r.
Qed.

Lemma prefix_empty (s : string) : prefix "" s = true.
Proof. destruct s; reflexivity. Qed.

(** A separator cannot begin inside a title [T] when [T] followed by a space
    does not contain it. *)
Lemma separator_not_early (c : ascii) (T L : string) :
  prefix " - " (String c T +++ " ") = false ->
  prefix " - " (String c T +++ " - " +++ L) = false.
Proof.
  destruct T as [|d [|e T]]; cbn [String.append prefix]; rewrite ?prefix_empty;
    repeat match goal with
           | |- context [ascii_dec ?a ?b] => destruct (ascii_dec a b)
           end;
    try reflexivity; try discriminate; intros H; try exact H; try discriminate.
Qed.

Lemma split_go_title (T L cur : string) :
  str_contains " - " (T +++ " ") = false ->
  hd "" (split_go " - " (T +++ " - " +++ L) 0 cur) = cur +++ T.
Proof.
  revert cur. induction T as [|c T IH]; intros cur H.
  - rewrite append_empty_r. simpl. rewrite prefix_empty. reflexivity.
  - cbn [str_contains] in H. apply orb_false_elim in H. destruct H as [Hhere Hrest].
    change (String c T +++ " - " +++ L) with (String c (T +++ " - " +++ L)).
    cbn [split_go].
    change (String c (T +++ " - " +++ L)) with (String c T +++ " - " +++ L).
    rewrite (separator_not_early c T L Hhere).
    rewrite IH by exact Hrest. rewrite append_assoc. reflexivity.
Qed.

Lemma split_title (T L : string) :
  str_contains " - " (T +++ " ") = false ->
  hd "" (str_split " - " (T +++ " - " +++ L)) = T.
Proof. intros H. unfold str_split. rewrite split_go_title by exact H. reflexivity. Qed.

Lemma dict_get_del_same {A : Type} k (d : dict A) :
  dict_wf d -> dict_get k (dict_del k d) = None.
Proof.
  unfold dict_wf. induction d as [|[k0 v0] r IH]; intros H; simpl; [reflexivity|].
  simpl in H. inversion H as [|? ? Hk Hr]; subst.
  destruct (String.eqb k k0) eqn:E.
  - apply String.eqb_eq in E. subst k0.
    destruct (dict_get k r) eqn:G; [|reflexivity].
    exfalso. apply Hk. apply dict_mem_In. unfold dict_mem. rewrite G. reflexivity.
  - simpl. rewrite E. apply IH. exact Hr.
Qed.

Lemma dict_keys_del_incl {A : Type} k x (d : dict A) :
  In x (dict_keys (dict_del k d)) -> In x (dict_keys d).
Proof.
  induction d as [|[k1 v1] r IH]; simpl; [tauto|].
  destruct (String.eqb k k1); simpl; [tauto|].
  intros [H|H]; [left; exact H | right; apply IH; exact H].
Qed.

Lemma dict_wf_del {A : Type} k (d : dict A) : dict_wf d -> dict_wf (dict_del k d).
Proof.
  unfold dict_wf. induction d as [|[k0 v0] r IH]; intros H; simpl; [exact H|].
  simpl in H. inversion H as [|? ? Hk Hr]; subst.
  destruct (String.eqb k k0); [exact Hr|].
  simpl. constructor; [|apply IH; exact Hr].
  intros Hin. apply Hk. eapply dict_keys_del_incl. exact Hin.
Qed.

Section TitleRoundTrip.

Import OpenAPISplitter.
Import OpenAPIMerger.

Variable repr : json -> string.

Lemma merge_info_first (m info : dict json) (title : string) st :
  files_processed st = 0 ->
  dict_get "x-split-part" info <> None ->
  dict_get "x-split-timestamp" info <> None ->
  dict_get "title" info = Some (JStr title) ->
  str_contains " - " title = true ->
  forall spec,
    dict_get "info" spec = Some (JObj info) ->
    merge_info {| merged_spec := m; stats := st |} spec
    = Ok {| merged_spec :=
              dict_set "info"
                (JObj (dict_set "title" (JStr (hd "" (str_split " - " title)))
                         (dict_del "x-split-timestamp" (dict_del "x-split-part" info))))
                m;
            stats := st |}.
Proof.
  intros Hfirst Hpart Hstamp Htitle Hsep spec Hinfo.
  unfold merge_info. rewrite Hinfo. cbn [stats]. rewrite Hfirst.
  cbn [Nat.eqb copy bind split_indicators foldM contains].
  assert (E1 : dict_mem "x-split-part" info = true).
  { unfold dict_mem. destruct (dict_get "x-split-part" info); [reflexivity | contradiction]. }
  rewrite E1. cbn [delitem]. rewrite E1. cbn [bind contains].
  assert (E2 : dict_mem "x-split-timestamp" (dict_del "x-split-part" info) = true).
  { unfold dict_mem. rewrite dict_get_del_other by discriminate.
    destruct (dict_get "x-split-timestamp" info); [reflexivity | contradiction]. }
  rewrite E2. cbn [delitem]. rewrite E2. cbn [bind get].
  unfold dict_get_default. rewrite !dict_get_del_other by discriminate.
  rewrite Htitle. cbn [bind contains]. rewrite Hsep.
  cbn [split_first bind setitem]. reflexivity.
Qed.

End TitleRoundTrip.

(** C6, as the code has it.  For a source whose [info.title] is a string [T]
    such that [T] followed by a space does not contain [" - "] (so [T]
    neither contains the separator nor ends with [" -"]), the mini-document
    of a group labelled [L] has the title [T - L] and the two stamps, and
    merging it first gives back the title [T] and an [info] without the
    stamps. *)
Theorem title_suffix_round_trip
    (repr : json -> string) (self : OpenAPISplitter.state)
    (endpoints : list OperationCounter.endpoint) (L T : string) (info : dict json) :
  splittable (OpenAPISplitter.spec self) endpoints = true ->
  dict_get "info" (OpenAPISplitter.spec self) = Some (JObj info) ->
  dict_wf info ->
  dict_get "title" info = Some (JStr T) ->
  str_contains " - " (T +++ " ") = false ->
  exists mini_spec split merged self',
    OpenAPISplitter.create_mini_spec repr self endpoints L true = Ok mini_spec /\
    dict_get "info" mini_spec = Some (JObj split) /\
    dict_get "title" split = Some (JStr (T +++ " - " +++ L)) /\
    dict_get "x-split-part" split = Some (JStr L) /\
    dict_get "x-split-timestamp" split = Some (OpenAPISplitter.st_mtime self) /\
    OpenAPIMerger.merge_info OpenAPIMerger.init mini_spec = Ok self' /\
    dict_get "info" (OpenAPIMerger.merged_spec self') = Some (JObj merged) /\
    dict_get "title" merged = Some (JStr T) /\
    dict_get "x-split-part" merged = None /\
    dict_get "x-split-timestamp" merged = None /\
    forall k, k <> "title" -> k <> "x-split-part" -> k <> "x-split-timestamp" ->
              dict_get k merged = dict_get k info.
Proof.
  intros Hshape Hinfo Hwf Htitle Hsep.
  destruct (create_mini_spec_ok repr self endpoints L true Hshape)
    as [mini_spec [Hmini [_ [_ [Hmi _]]]]].
  assert (Hsrc : source_info (OpenAPISplitter.spec self) = info)
    by (unfold source_info; rewrite Hinfo; reflexivity).
  unfold split_info in Hmi. rewrite Hsrc in Hmi.
  unfold dict_get_default in Hmi. rewrite Htitle in Hmi. cbn [format] in Hmi.
  set (split := dict_set "x-split-timestamp" (OpenAPISplitter.st_mtime self)
                  (dict_set "x-split-part" (JStr L)
                     (dict_set "title" (JStr (T +++ " - " +++ L)) info))) in *.
  assert (Hs_title : dict_get "title" split = Some (JStr (T +++ " - " +++ L))).
  { subst split. rewrite !dict_get_set_other by discriminate. apply dict_get_set_same. }
  assert (Hs_part : dict_get "x-split-part" split = Some (JStr L)).
  { subst split. rewrite dict_get_set_other by discriminate. apply dict_get_set_same. }
  assert (Hs_stamp : dict_get "x-split-timestamp" split
                     = Some (OpenAPISplitter.st_mtime self)).
  { subst split. apply dict_get_set_same. }
  assert (Hs_wf : dict_wf split) by (subst split; repeat apply dict_wf_set; exact Hwf).
  pose proof (merge_info_first
                (OpenAPIMerger.merged_spec OpenAPIMerger.init) split
                (T +++ " - " +++ L)
                (OpenAPIMerger.stats OpenAPIMerger.init) eq_refl
                ltac:(rewrite Hs_part; discriminate)
                ltac:(rewrite Hs_stamp; discriminate)
                Hs_title (str_contains_append " - " T L) mini_spec Hmi) as Hmerge.
  rewrite (split_title T L Hsep) in Hmerge.
  exists mini_spec, split. eexists. eexists.
  split; [exact Hmini|]. split; [exact Hmi|].
  split; [exact Hs_title|]. split; [exact Hs_part|]. split; [exact Hs_stamp|].
  split; [exact Hmerge|]. split; [apply dict_get_set_same|].
  split; [apply dict_get_set_same|]. split; [|split].
  - rewrite dict_get_set_other, dict_get_del_other by discriminate.
    apply dict_get_del_same. exact Hs_wf.
  - rewrite dict_get_set_other by discriminate.
    apply dict_get_del_same. apply dict_wf_del. exact Hs_wf.
  - intros k Hk1 Hk2 Hk3.
    rewrite dict_get_set_other, !dict_get_del_other by assumption.
    subst split. rewrite !dict_get_set_other by assumption. reflexivity.
Qed.

Lemma title_suffix_round_trip_witness :
  let doc := [("openapi", JStr "3.0.3");
              ("info", JObj [("title", JStr "Pet Store"); ("version", JStr "1.0.0")]);
              ("tags", JArr [JObj [("name", JStr "pets")]; JObj [("name", JStr "owners")]]);
              ("paths", JObj [("/pets", JObj [("get", JObj [("tags", JArr [JStr "pets"])])])])] in
  let self := {| OpenAPISplitter.spec_path := "api.json";
                 OpenAPISplitter.spec := doc;
                 OpenAPISplitter.common_components := [];
                 OpenAPISplitter.st_mtime := JNum 1700000000 |} in
  let endpoints := [("/pets", "get", JObj [("tags", JArr [JStr "pets"])])] in
  exists mini_spec split merged self',
    OpenAPISplitter.create_mini_spec (fun _ => "") self endpoints "pets" true
    = Ok mini_spec /\
    dict_get "info" mini_spec = Some (JObj split) /\
    dict_get "title" split = Some (JStr "Pet Store - pets") /\
    OpenAPIMerger.merge_info OpenAPIMerger.init mini_spec = Ok self' /\
    dict_get "info" (OpenAPIMerger.merged_spec self') = Some (JObj merged) /\
    dict_get "title" merged = Some (JStr "Pet Store").
Proof.
  intros doc self endpoints.
  destruct (title_suffix_round_trip (fun _ => "") self endpoints "pets" "Pet Store"
              [("title", JStr "Pet Store"); ("version", JStr "1.0.0")])
    as [mini_spec [split [merged [self' H]]]].
  - reflexivity.
  - reflexivity.
  - unfold dict_wf. simpl. repeat (constructor; [simpl; intuition discriminate|]).
    constructor.
  - reflexivity.
  - reflexivity.
  - exists mini_spec, split, merged, self'. tauto.
Defined.

(** C6, counterexample to the claim as stated: the title ["Pets -"] does not
    contain [" - "], yet the suffix added by the split makes [" - "] begin
    inside it, and the merge cuts the title down to ["Pets"]. *)
Lemma title_round_trip_fails_on_trailing_dash :
  let doc := [("openapi", JStr "3.0.3");
              ("info", JObj [("title", JStr "Pets -"); ("version", JStr "1.0.0")]);
              ("paths", JObj [("/pets", JObj [("get", JObj [("tags", JArr [JStr "pets"])])])])] in
  let self := {| OpenAPISplitter.spec_path := "api.json";
                 OpenAPISplitter.spec := doc;
                 OpenAPISplitter.common_components := [];
                 OpenAPISplitter.st_mtime := JNum 1700000000 |} in
  let endpoints := [("/pets", "get", JObj [("tags", JArr [JStr "pets"])])] in
  str_contains " - " "Pets -" = false /\
  exists mini_spec split merged self',
    OpenAPISplitter.create_mini_spec (fun _ => "") self endpoints "pets" true
    = Ok mini_spec /\
    dict_get "info" mini_spec = Some (JObj split) /\
    dict_get "title" split = Some (JStr "Pets - - pets") /\
    OpenAPIMerger.merge_info OpenAPIMerger.init mini_spec = Ok self' /\
    dict_get "info" (OpenAPIMerger.merged_spec self') = Some (JObj merged) /\
    dict_get "title" merged = Some (JStr "Pets") /\
    dict_get "title" merged <> Some (JStr "Pets -").
Proof.
  intros doc self endpoints. split; [reflexivity|].
  eexists. eexists. eexists. eexists.
  split; [reflexivity|]. split; [reflexivity|]. split; [reflexivity|].
  split; [reflexivity|]. split; [reflexivity|]. split; [reflexivity|].
  discriminate.
Qed.

(** ** The version of a mini-document *)

Section MiniVersion.

Import OpenAPISplitter.

Variable repr : json -> string.

Lemma optional_copy_frame (k key : string) (source m m' : dict json) :
  k <> key ->
  match dict_get key source with
  | Some s => c <- copy s ;; Ok (dict_set key c m)
  | None => Ok m
  end = Ok m' ->
  dict_get k m' = dict_get k m.
Proof.
  intros Hk H. destruct (dict_get key source) as [s|].
  - bind_inv H. injection H as <-. apply dict_get_set_other. exact Hk.
  - injection H as <-. reflexivity.
Qed.

(** Whatever the source, a mini-document takes its [openapi] from the
    source's [openapi], or the default, and has no [swagger] key. *)
Lemma create_mini_spec_version self endpoints name include_components mini_spec :
  create_mini_spec repr self endpoints name include_components = Ok mini_spec ->
  dict_get "openapi" mini_spec
  = Some (dict_get_default "openapi" (JStr "3.1.0") (spec self)) /\
  dict_get "swagger" mini_spec = None.
Proof.
  unfold create_mini_spec. intros H.
  bind_inv H. bind_inv H. bind_inv H. bind_inv H.
  do 4 bind_inv H. injection H as <-.
  assert (Hframe : forall k,
             k <> "components" -> k <> "servers" -> k <> "security" -> k <> "tags" ->
             dict_get k a2
             = dict_get k [("openapi", dict_get_default "openapi" (JStr "3.1.0") (spec self));
                           ("info", a); ("paths", JObj [])]).
  { intros k Hc Hs Hsec Htag.
    assert (E23 : dict_get k a2 = dict_get k a1).
    { destruct (dict_get "tags" (spec self)) as [spec_tags|];
        [|injection E2 as <-; reflexivity].
      bind_inv E2.
      match type of E2 with
      | context [truthy ?x] => destruct (truthy x)
      end; [|injection E2 as <-; reflexivity].
      bind_inv E2. injection E2 as <-. apply dict_get_set_other. exact Htag. }
    rewrite E23.
    rewrite (optional_copy_frame k "security" _ _ _ Hsec E1).
    rewrite (optional_copy_frame k "servers" _ _ _ Hs E0).
    destruct (include_components && truthy (JObj (common_components self)));
      [apply dict_get_set_other; exact Hc | reflexivity]. }
  rewrite !dict_get_set_other by discriminate.
  rewrite !Hframe by discriminate. split; reflexivity.
Qed.

End MiniVersion.

(** C4.  A Swagger 2.0 document, which has a [swagger] key and no [openapi]
    key, is split into mini-documents that say [openapi: 3.1.0] and have no
    [swagger] key: the source's version is not carried over. *)
Theorem create_mini_spec_swagger_only (repr : json -> string) :
  let doc := [("swagger", JStr "2.0");
              ("info", JObj [("title", JStr "Pet Store"); ("version", JStr "1.0.0")]);
              ("paths", JObj [("/pets", JObj [("get", JObj [])])])] in
  exists self mini_spec,
    OpenAPISplitter.init "api.json" doc (JNum 1700000000) = Ok self /\
    OperationCounter.get_operations doc = Ok [("/pets", "get", JObj [])] /\
    OpenAPISplitter.create_mini_spec repr self [("/pets", "get", JObj [])] "Part 1" true
    = Ok mini_spec /\
    dict_get "openapi" mini_spec = Some (JStr "3.1.0") /\
    dict_get "swagger" mini_spec = None.
Proof.
  intros doc. eexists. eexists.
  split; [reflexivity|]. split; [reflexivity|]. split; [reflexivity|].
  split; reflexivity.
Qed.

(** ** Operations of a document and of the documents built from them *)

Section Listing.

Import OperationCounter.
Import OpenAPISplitter.

Lemma StronglySorted_NoDup {A : Type} (R : A -> A -> Prop) (l : list A) :
  (forall x, ~ R x x) -> StronglySorted R l -> NoDup l.
Proof.
  intros Hirr. induction 1 as [|a l Hs IH Hf]; constructor; [|exact IH].
  intros Hin. rewrite Forall_forall in Hf. apply (Hirr a). apply Hf. exact Hin.
Qed.

Lemma StronglySorted_map_image {A B : Type} (g : A -> B) (R : B -> B -> Prop) (l : list A) :
  StronglySorted (fun a a' => R (g a) (g a')) l -> StronglySorted R (map g l).
Proof.
  induction 1 as [|a l Hs IH Hf]; simpl; constructor; [exact IH|].
  rewrite Forall_forall in *. intros y Hy. apply in_map_iff in Hy.
  destruct Hy as [x [<- Hx]]. apply Hf. exact Hx.
Qed.

Lemma pair_before_irrefl paths a : ~ pair_before paths a a.
Proof. unfold pair_before. intros [H|[_ H]]; lia. Qed.

(** No (path, method) pair is listed twice. *)
Lemma operations_pairs_NoDup (sp : dict json) :
  dict_wf sp ->
  NoDup (pairs (flat_map (fun entry => path_item_operations (fst entry) (snd entry)) sp)).
Proof.
  intros Hwf. apply (StronglySorted_NoDup (pair_before sp)).
  - apply pair_before_irrefl.
  - unfold pairs. apply StronglySorted_map_image.
    exact (operations_sorted sp Hwf).
Qed.

Lemma lookup2_add_endpoint q p m o p' m' :
  lookup2 (add_endpoint q (p, m, o)) p' m'
  = if String.eqb p' p && String.eqb m' m then Some o else lookup2 q p' m'.
Proof.
  unfold add_endpoint, lookup2. rewrite dict_get_set.
  destruct (String.eqb p' p) eqn:Ep; cbn [andb].
  - apply String.eqb_eq in Ep. subst p'. rewrite dict_get_set.
    destruct (String.eqb m' m); [reflexivity|].
    unfold dict_get_default, dict_mem.
    destruct (dict_get p q) as [item|] eqn:E.
    + rewrite E. reflexivity.
    + rewrite dict_get_set_same. reflexivity.
  - unfold dict_mem. destruct (dict_get p q); [reflexivity|].
    rewrite dict_get_set, Ep. reflexivity.
Qed.

Lemma lookup2_add_endpoints es q p m :
  is_some (lookup2 (fold_left add_endpoint es q) p m) = true
  <-> In (p, m) (pairs es) \/ is_some (lookup2 q p m) = true.
Proof.
  unfold pairs.
  revert q. induction es as [|[[p0 m0] o0] es IH]; intros q; cbn [fold_left map fst In].
  - tauto.
  - rewrite IH, lookup2_add_endpoint.
    destruct (String.eqb p p0) eqn:Ep, (String.eqb m m0) eqn:Em; cbn [andb];
      try (apply String.eqb_eq in Ep); try (apply String.eqb_eq in Em); subst.
    + simpl. tauto.
    + apply String.eqb_neq in Em. split; [tauto|].
      intros [[H|H]|H]; auto. exfalso. congruence.
    + apply String.eqb_neq in Ep. split; [tauto|].
      intros [[H|H]|H]; auto. exfalso. congruence.
    + apply String.eqb_neq in Ep. split; [tauto|].
      intros [[H|H]|H]; auto. exfalso. congruence.
Qed.

Lemma In_dict_set {A : Type} k (v : A) k' v' (d : dict A) :
  In (k, v) (dict_set k' v' d) -> (k = k' /\ v = v') \/ In (k, v) d.
Proof.
  induction d as [|[k0 v0] r IH]; simpl.
  - intros [[= <- <-]|[]]. left. split; reflexivity.
  - destruct (String.eqb k' k0) eqn:E; simpl.
    + apply String.eqb_eq in E. subst k0. intros [[= <- <-]|H]; auto.
    + intros [H|H]; auto. destruct (IH H); auto.
Qed.

Lemma mapping_wf_set mp p d :
  mapping_wf mp -> dict_wf d -> mapping_wf (dict_set p d mp).
Proof.
  intros [Hwf Hitems] Hd. split; [apply dict_wf_set; exact Hwf|].
  intros p' d' H. apply In_dict_set in H. destruct H as [[_ ->]|H];
    [exact Hd | apply (Hitems p' d'); exact H].
Qed.

Lemma mapping_wf_get mp p d : mapping_wf mp -> dict_get p mp = Some d -> dict_wf d.
Proof. intros [_ Hitems] H. apply (Hitems p d). apply dict_get_In. exact H. Qed.

Lemma dict_wf_nil {A : Type} : dict_wf (@nil (string * A)).
Proof. constructor. Qed.

Lemma mapping_wf_default mp p : mapping_wf mp -> dict_wf (dict_get_default p [] mp).
Proof.
  intros H. unfold dict_get_default. destruct (dict_get p mp) eqn:E;
    [eapply mapping_wf_get; eassumption | apply dict_wf_nil].
Qed.

Lemma mapping_wf_add_endpoint q e : mapping_wf q -> mapping_wf (add_endpoint q e).
Proof.
  destruct e as [[p m] o]. intros H. unfold add_endpoint.
  assert (H' : mapping_wf (if dict_mem p q then q else dict_set p [] q))
    by (destruct (dict_mem p q); [exact H | apply mapping_wf_set; [exact H | apply dict_wf_nil]]).
  apply mapping_wf_set; [exact H'|].
  apply dict_wf_set. apply mapping_wf_default. exact H'.
Qed.

Lemma mapping_wf_add_endpoints es q :
  mapping_wf q -> mapping_wf (fold_left add_endpoint es q).
Proof.
  revert q. induction es as [|e es IH]; intros q H; simpl; [exact H|].
  apply IH. apply mapping_wf_add_endpoint. exact H.
Qed.

Lemma mapping_wf_nil : mapping_wf [].
Proof. split; [apply dict_wf_nil | intros p d []]. Qed.

(** The JSON entries of a mapping of path items. *)
Lemma paths_wf_entries (q : dict (dict json)) :
  mapping_wf q -> paths_wf (map (fun e => (fst e, JObj (snd e))) q).
Proof.
  intros [Hwf Hitems]. split.
  - unfold dict_wf, dict_keys in *. rewrite map_map. simpl. exact Hwf.
  - intros p d H. apply in_map_iff in H. destruct H as [[p' d'] [[= <- <-] H]].
    apply (Hitems p' d'). exact H.
Qed.

Lemma written_keys_entries (q : dict (dict json)) p k :
  mapping_wf q ->
  In (p, k) (map fst (written_keys (map (fun e => (fst e, JObj (snd e))) q)))
  <-> is_some (lookup2 q p k) = true.
Proof.
  intros Hq. unfold written_keys. rewrite flat_map_concat_map, map_map.
  cbn [fst snd]. rewrite <- flat_map_concat_map. split.
  - intros H. apply in_map_iff in H. destruct H as [[[p' k'] v] [[= -> ->] H]].
    apply in_flat_map in H. destruct H as [[p' d] [Hentry H]].
    apply in_map_iff in H. destruct H as [[k' v'] [[= -> -> ->] H]].
    unfold lookup2. destruct Hq as [Hwf Hitems].
    rewrite (dict_wf_In_get _ _ _ Hwf Hentry).
    rewrite (dict_wf_In_get _ _ _ (Hitems _ _ Hentry) H). reflexivity.
  - unfold lookup2. destruct (dict_get p q) as [d|] eqn:Ep; [|discriminate].
    destruct (dict_get k d) as [v|] eqn:Ek; [|discriminate]. intros _.
    apply in_map_iff. exists (p, k, v). split; [reflexivity|].
    apply in_flat_map. exists (p, d). split; [apply dict_get_In; exact Ep|].
    apply in_map_iff. exists (k, v). split; [reflexivity | apply dict_get_In; exact Ek].
Qed.

End Listing.

Section MergeDocuments.

Import OperationCounter.
Import OpenAPISplitter.
Import OpenAPIMerger.

Lemma operations_of_mapping (doc : dict json) (mp : dict (dict json)) :
  dict_get "paths" doc = Some (paths_value mp) ->
  mapping_wf mp ->
  exists operations,
    get_operations doc = Ok operations /\
    NoDup (pairs operations) /\
    forall p m, In (p, m) (pairs operations)
                <-> In m HTTP_METHODS /\ is_some (lookup2 mp p m) = true.
Proof.
  intros Hdoc Hmp. unfold get_operations, dict_get_default. rewrite Hdoc.
  unfold paths_value. cbn [items bind]. eexists. split; [reflexivity|].
  pose proof (paths_wf_entries mp Hmp) as [Hwf _].
  split; [apply operations_pairs_NoDup; exact Hwf|].
  intros p m. unfold pairs. rewrite in_map_iff. split.
  - intros [[[p' m'] o] [[= -> ->] H]].
    apply (operations_In _ p m o Hwf) in H. destruct H as [d [Hp [Hm Hget]]].
    rewrite (dict_get_map_values JObj p mp) in Hp.
    split; [exact Hm|]. unfold lookup2.
    destruct (dict_get p mp) as [d'|]; [|discriminate].
    injection Hp as ->. rewrite Hget. reflexivity.
  - intros [Hm H]. unfold lookup2 in H.
    destruct (dict_get p mp) as [d|] eqn:Ep; [|discriminate].
    destruct (dict_get m d) as [o|] eqn:Em; [|discriminate].
    exists (p, m, o). split; [reflexivity|].
    apply (operations_In _ p m o Hwf). exists d. split; [|split; assumption].
    rewrite (dict_get_map_values JObj p mp), Ep. reflexivity.
Qed.

Lemma dict_wf_write_all d item : dict_wf item -> dict_wf (write_all d item).
Proof.
  unfold write_all. revert item. induction d as [|[k v] d IH]; intros item H; simpl;
    [exact H | apply IH; apply dict_wf_set; exact H].
Qed.

Lemma merged_with_wf sp mp : mapping_wf mp -> mapping_wf (merged_with mp sp).
Proof.
  revert mp. induction sp as [|[p path_item] sp IH]; intros mp H; [exact H|].
  rewrite merged_with_cons. apply IH.
  unfold merged_with. cbn [fold_left fst snd]. destruct path_item; try exact H.
  apply mapping_wf_set; [exact H|]. apply dict_wf_write_all.
  apply mapping_wf_default. exact H.
Qed.

Lemma merged_with_is_some sp mp p k :
  paths_wf sp ->
  is_some (lookup2 (merged_with mp sp) p k) = true
  <-> In (p, k) (map fst (written_keys sp)) \/ is_some (lookup2 mp p k) = true.
Proof.
  intros Hwf.
  destruct (in_dec (fun a b : string * string =>
                      ltac:(decide equality; apply string_dec) : {a = b} + {a <> b})
                   (p, k) (map fst (written_keys sp))) as [Hin|Hout].
  - split; [auto|]. intros _. apply in_map_iff in Hin.
    destruct Hin as [[[p' k'] v] [[= -> ->] Hin]].
    rewrite (merged_with_lookup sp Hwf mp p k v Hin). reflexivity.
  - rewrite (merged_with_other sp mp p k Hout). tauto.
Qed.

Lemma merge_paths_ok self mp spec sp :
  holds_paths (merged_spec self) mp ->
  dict_get "paths" spec = Some (JObj sp) ->
  paths_wf sp ->
  exists self',
    merge_paths self spec = Ok self' /\
    holds_paths (merged_spec self') (merged_with mp sp).
Proof.
  intros Hm Hspec Hwf.
  destruct (merge_entries_spec sp Hwf self mp Hm) as [self' [E [Hm' _]]].
  exists self'. unfold merge_paths. rewrite Hspec. cbn [items bind].
  split; assumption.
Qed.

(** Merging the paths of documents built from groups of endpoints gives the
    (path, key) pairs of all the groups, on top of what was there. *)
Lemma merge_documents_paths groups minis :
  Forall2 (fun g mini =>
             dict_get "paths" mini
             = Some (paths_value (fold_left add_endpoint g [])))
          groups minis ->
  forall self mp,
    holds_paths (merged_spec self) mp ->
    mapping_wf mp ->
    exists self' mp',
      foldM merge_paths minis self = Ok self' /\
      holds_paths (merged_spec self') mp' /\
      mapping_wf mp' /\
      forall p k, is_some (lookup2 mp' p k) = true
                  <-> In (p, k) (pairs (concat groups))
                      \/ is_some (lookup2 mp p k) = true.
Proof.
  induction 1 as [|g mini groups minis Hmini _ IH]; intros self mp Hm Hmp.
  - exists self, mp. split; [reflexivity|]. split; [exact Hm|]. split; [exact Hmp|].
    intros p k. simpl. tauto.
  - set (q := fold_left add_endpoint g []) in *.
    assert (Hq : mapping_wf q)
      by (apply mapping_wf_add_endpoints; apply mapping_wf_nil).
    destruct (merge_paths_ok self mp mini _ Hm Hmini (paths_wf_entries q Hq))
      as [s1 [E1 Hm1]].
    destruct (IH s1 _ Hm1 (merged_with_wf _ mp Hmp)) as [s2 [mp2 [E2 [Hm2 [Hwf2 Hiff]]]]].
    exists s2, mp2. split; [cbn [foldM]; rewrite E1; exact E2|].
    split; [exact Hm2|]. split; [exact Hwf2|].
    intros p k. rewrite Hiff.
    rewrite (merged_with_is_some _ mp p k (paths_wf_entries q Hq)).
    rewrite (written_keys_entries q p k Hq).
    unfold q at 1. rewrite lookup2_add_endpoints.
    cbn [concat]. unfold pairs. rewrite map_app, in_app_iff.
    unfold lookup2 at 1. cbn. split; intros H; intuition discriminate.
Qed.

End MergeDocuments.

(** ** [merge_all] and the paths *)

Section MergeAllPaths.

Import OperationCounter.
Import OpenAPISplitter.
Import OpenAPIMerger.

Lemma foldM_frame {A S B : Type} (view : S -> B) (f : S -> A -> exc S)
    (l : list A) (s s' : S) :
  (forall s a s', In a l -> f s a = Ok s' -> view s' = view s) ->
  foldM f l s = Ok s' -> view s' = view s.
Proof.
  revert s. induction l as [|a l IH]; simpl; intros s Hstep H.
  - injection H as <-. reflexivity.
  - destruct (f s a) as [s1|e] eqn:E; simpl in H; [|discriminate].
    rewrite (IH s1 (fun s a s' Ha => Hstep s a s' (or_intror Ha)) H).
    eapply Hstep; [left; reflexivity | exact E].
Qed.

Lemma merge_info_paths self spec self' :
  merge_info self spec = Ok self' ->
  dict_get "paths" (merged_spec self') = dict_get "paths" (merged_spec self).
Proof.
  unfold merge_info. intros H.
  destruct (dict_get "info" spec) as [source_info|]; [|injection H as <-; reflexivity].
  destruct (Nat.eqb (files_processed (stats self)) 0);
    repeat bind_inv H; injection H as <-; apply dict_get_set_other; discriminate.
Qed.

Lemma merge_root_properties_paths self spec self' :
  merge_root_properties self spec = Ok self' ->
  dict_get "paths" (merged_spec self') = dict_get "paths" (merged_spec self).
Proof.
  unfold merge_root_properties. intros H. bind_inv H. injection H as <-.
  cbn [merged_spec with_spec]. revert E.
  apply (foldM_frame (fun m : dict json => dict_get "paths" m)).
  intros m prop m' Hin Hstep.
  assert (Hset : forall c, dict_get "paths" (dict_set prop c m) = dict_get "paths" m).
  { intros c. apply dict_get_set_other. intros <-. simpl in Hin.
    repeat (destruct Hin as [Hin|Hin]; [discriminate|]). contradiction. }
  destruct (dict_get prop spec) as [incoming|]; [|injection Hstep as <-; reflexivity].
  destruct (dict_get prop m) as [current|].
  - destruct (String.eqb prop "servers").
    + bind_inv Hstep. injection Hstep as <-. apply Hset.
    + destruct (String.eqb prop "tags").
      * bind_inv Hstep. injection Hstep as <-. apply Hset.
      * injection Hstep as <-. reflexivity.
  - bind_inv Hstep. injection Hstep as <-. apply Hset.
Qed.

Lemma merge_components_paths self spec strategy self' :
  merge_components self spec strategy = Ok self' ->
  dict_get "paths" (merged_spec self') = dict_get "paths" (merged_spec self).
Proof.
  unfold merge_components. intros H.
  destruct (dict_get "components" spec) as [source_components|];
    [|injection H as <-; reflexivity].
  bind_inv H.
  destruct (ComponentExtractor.merge_components _ _ _ _) as [h' [conflicts|e]];
    [|discriminate].
  injection H as <-. cbn [merged_spec].
  rewrite dict_get_set_other by discriminate.
  destruct (dict_mem "components" (merged_spec self));
    [reflexivity | apply dict_get_set_other; discriminate].
Qed.

Lemma clean_merged_spec_paths self self' :
  clean_merged_spec self = Ok self' ->
  dict_get "paths" (merged_spec self') = dict_get "paths" (merged_spec self).
Proof.
  unfold clean_merged_spec. intros H.
  destruct (dict_get "components" (merged_spec self)) as [components|];
    [|injection H as <-; reflexivity].
  do 2 bind_inv H.
  match type of H with context [truthy ?x] => destruct (truthy x) end;
    injection H as <-; cbn [merged_spec with_spec];
    [apply dict_get_set_other | apply dict_get_del_other]; discriminate.
Qed.

(** A file whose paths are those of a group of endpoints. *)
Lemma merge_file_paths strategy self mp mini g self' :
  holds_paths (merged_spec self) mp ->
  dict_get "paths" mini = Some (paths_value (fold_left add_endpoint g [])) ->
  merge_file strategy self mini = Ok self' ->
  holds_paths (merged_spec self')
    (merged_with mp (map (fun e => (fst e, JObj (snd e))) (fold_left add_endpoint g []))).
Proof.
  intros Hm Hmini H. unfold merge_file in H.
  do 4 bind_inv H. injection H as <-. cbn [merged_spec].
  assert (Hmid : holds_paths (merged_spec a1) mp).
  { unfold holds_paths in *.
    rewrite (merge_components_paths _ _ _ _ E1), (merge_root_properties_paths _ _ _ E0),
      (merge_info_paths _ _ _ E).
    destruct (Nat.eqb (files_processed (stats self)) 0); [|exact Hm].
    destruct (dict_get "openapi" mini);
      [cbn [merged_spec with_spec]; rewrite dict_get_set_other by discriminate; exact Hm|].
    destruct (dict_get "swagger" mini);
      [cbn [merged_spec with_spec]; rewrite dict_get_set_other by discriminate; exact Hm
      | exact Hm]. }
  destruct (merge_paths_ok a1 mp mini _ Hmid Hmini
              (paths_wf_entries _ (mapping_wf_add_endpoints g [] mapping_wf_nil)))
    as [s [Es Hs]].
  rewrite Es in E2. injection E2 as <-. exact Hs.
Qed.

(** Whenever [merge_all] completes on such files, its document lists the
    pairs of the groups. *)
Lemma merge_all_of_groups groups minis (target : list endpoint) strategy output_format self' :
  Forall2 (fun g mini =>
             dict_get "paths" mini
             = Some (paths_value (fold_left add_endpoint g [])))
          groups minis ->
  NoDup (pairs target) ->
  (forall e, In e target -> In (endpoint_method e) HTTP_METHODS) ->
  (forall x, In x (pairs (concat groups)) <-> In x (pairs target)) ->
  merge_all init (map Ok minis) strategy output_format = Ok self' ->
  exists operations',
    get_operations (merged_spec self') = Ok operations' /\
    Permutation (pairs operations') (pairs target).
Proof.
  intros Hminis Hnd Hmethods Hsame Hrun.
  assert (Hloop : forall self mp s1,
             holds_paths (merged_spec self) mp -> mapping_wf mp ->
             foldM (fun self (loaded : exc (dict json)) =>
                      match loaded with
                      | Raise _ => Ok self
                      | Ok spec => merge_file strategy self spec
                      end) (map Ok minis) self = Ok s1 ->
             exists mp',
               holds_paths (merged_spec s1) mp' /\ mapping_wf mp' /\
               forall p k, is_some (lookup2 mp' p k) = true
                           <-> In (p, k) (pairs (concat groups))
                               \/ is_some (lookup2 mp p k) = true).
  { clear Hrun Hsame. induction Hminis as [|g mini groups minis Hmini _ IH];
      intros self mp s1 Hm Hwf H.
    - injection H as <-. exists mp. split; [exact Hm|]. split; [exact Hwf|].
      intros p k. simpl. tauto.
    - cbn [map foldM] in H. bind_inv H.
      set (q := fold_left add_endpoint g []) in *.
      assert (Hq : mapping_wf q)
        by (apply mapping_wf_add_endpoints; apply mapping_wf_nil).
      pose proof (merge_file_paths strategy self mp mini g a Hm Hmini E) as Hm1.
      fold q in Hm1.
      destruct (IH a _ s1 Hm1 (merged_with_wf _ mp Hwf) H) as [mp' [Hm' [Hwf' Hiff]]].
      exists mp'. split; [exact Hm'|]. split; [exact Hwf'|].
      intros p k. rewrite Hiff.
      rewrite (merged_with_is_some _ mp p k (paths_wf_entries q Hq)).
      rewrite (written_keys_entries q p k Hq).
      unfold q at 1. rewrite lookup2_add_endpoints.
      cbn [concat]. unfold pairs. rewrite map_app, in_app_iff.
      unfold lookup2 at 1. cbn. split; intros H0; intuition discriminate. }
  unfold merge_all in Hrun.
  destruct minis as [|mini0 minis0]; [discriminate|].
  cbn [map] in Hrun. do 3 bind_inv Hrun. injection Hrun as <-.
  destruct (Hloop init [] a eq_refl mapping_wf_nil E) as [mp [Hm [Hwf Hiff]]].
  assert (Hm' : holds_paths (merged_spec a0) mp)
    by (unfold holds_paths; rewrite (clean_merged_spec_paths _ _ E0); exact Hm).
  destruct (operations_of_mapping _ mp Hm' Hwf) as [operations' [Eo [Hnd' Hin]]].
  exists operations'. split; [exact Eo|].
  apply NoDup_Permutation; [exact Hnd' | exact Hnd |].
  intros [p m]. rewrite Hin, Hiff, Hsame. split.
  - intros [_ [H|H]]; [exact H | discriminate].
  - intros H. split; [|left; exact H].
    unfold pairs in H. apply in_map_iff in H. destruct H as [e [He Hin']].
    specialize (Hmethods e Hin'). unfold endpoint_method in Hmethods.
    rewrite He in Hmethods. exact Hmethods.
Qed.

End MergeAllPaths.

(** ** Chunks *)

Section Chunks.

Import OpenAPISplitter.

Context {A : Type}.

Lemma firstn_then_firstn (a b : nat) (l : list A) :
  firstn a l ++ firstn b (skipn a l) = firstn (a + b) l.
Proof.
  revert l. induction a as [|a IH]; intros l; [reflexivity|].
  destruct l as [|x l]; simpl.
  - rewrite firstn_nil. reflexivity.
  - rewrite IH. reflexivity.
Qed.

Lemma slice_step (l : list A) (i s : nat) : slice l i (i + s) = firstn s (skipn i l).
Proof. unfold slice. replace (i + s - i) with s by lia. reflexivity. Qed.

Lemma chunks_concat (l : list A) (s c : nat) :
  concat (map (fun i => slice l i (i + s)) (map (fun k => k * s) (seq 0 c)))
  = firstn (c * s) l.
Proof.
  induction c as [|c IH]; [reflexivity|].
  rewrite seq_S, !map_app, concat_app, IH. cbn [map concat Nat.add].
  rewrite app_nil_r, slice_step, firstn_then_firstn. f_equal. lia.
Qed.

Lemma ceil_covers (len s : nat) : 1 <= s -> len <= (len + s - 1) / s * s.
Proof.
  intros Hs.
  pose proof (Nat.div_mod_eq (len + s - 1) s) as Hdiv.
  pose proof (Nat.mod_upper_bound (len + s - 1) s ltac:(lia)) as Hmod.
  nia.
Qed.

(** Consecutive slices of width [step] put together give the list back. *)
Lemma range_step_chunks (l : list A) (step : Z) :
  (1 <= step)%Z ->
  exists starts,
    range_step (List.length l) step = Ok starts /\
    concat (map (fun i => slice l i (i + Z.to_nat step)) starts) = l.
Proof.
  intros Hstep. unfold range_step.
  destruct (step =? 0)%Z eqn:E0; [apply Z.eqb_eq in E0; lia|].
  destruct (step <? 0)%Z eqn:E1; [apply Z.ltb_lt in E1; lia|].
  eexists. split; [reflexivity|].
  rewrite chunks_concat. apply firstn_all2. apply ceil_covers. lia.
Qed.

Lemma slice_incl (l : list A) (i j : nat) : incl (slice l i j) l.
Proof.
  unfold slice. intros x Hx.
  rewrite <- (firstn_skipn i l). apply in_or_app. right.
  rewrite <- (firstn_skipn (j - i) (skipn i l)). apply in_or_app. left. exact Hx.
Qed.

Lemma NoDup_firstn (n : nat) (l : list A) : NoDup l -> NoDup (firstn n l).
Proof.
  intros H. rewrite <- (firstn_skipn n l) in H. eapply NoDup_app_remove_r. exact H.
Qed.

Lemma NoDup_skipn (n : nat) (l : list A) : NoDup l -> NoDup (skipn n l).
Proof.
  intros H. rewrite <- (firstn_skipn n l) in H. eapply NoDup_app_remove_l. exact H.
Qed.

End Chunks.

Lemma pairs_slice (l : list OperationCounter.endpoint) (i j : nat) :
  pairs (OpenAPISplitter.slice l i j) = OpenAPISplitter.slice (pairs l) i j.
Proof. unfold pairs, OpenAPISplitter.slice. rewrite <- firstn_map, <- skipn_map. reflexivity. Qed.

(** ** [split_by_size] *)

Section SplitBySize.

Import OperationCounter.
Import OpenAPISplitter.

Variable repr : json -> string.

Lemma splittable_incl spec (l l' : list endpoint) :
  incl l' l -> splittable spec l = true -> splittable spec l' = true.
Proof.
  unfold splittable. intros Hincl H.
  apply andb_prop in H. destruct H as [H Htags]. rewrite H. cbn [andb].
  destruct (dict_get "tags" spec) as [t|]; [|reflexivity].
  apply andb_prop in Htags. destruct Htags as [Ht Hops]. rewrite Ht. cbn [andb].
  rewrite forallb_forall in *. intros e He. apply Hops. apply Hincl. exact He.
Qed.

Lemma write_parts_ok self operations s starts :
  (forall i, In i starts ->
             splittable (spec self) (slice operations i (i + s)) = true) ->
  forall acc,
  exists files,
    foldM (write_part repr self operations s) starts acc
    = Ok (fst acc ++ files,
          snd acc ++
          map (fun i =>
                 mapping_entry ("spec_part" +++ format_03d (i / s + 1) +++ ".json")
                   "part" (JNum (Z.of_nat (i / s + 1)))
                   (slice operations i (i + s))) starts) /\
    Forall2 (part_of repr self operations s) starts files.
Proof.
  induction starts as [|i starts IH]; intros Hshape acc.
  - exists []. cbn [foldM map]. rewrite !app_nil_r. split; [|constructor].
    destruct acc; reflexivity.
  - destruct (create_mini_spec_ok repr self (slice operations i (i + s))
                ("Part " +++ str_of_nat (i / s + 1)) true
                (Hshape i (or_introl eq_refl))) as [mini_spec [E Hmini]].
    cbn [foldM]. unfold write_part at 1. rewrite E. cbn [bind].
    destruct (IH (fun j Hj => Hshape j (or_intror Hj))
                 (fst acc ++ [("spec_part" +++ format_03d (i / s + 1) +++ ".json", mini_spec)],
                  snd acc ++ [mapping_entry
                                ("spec_part" +++ format_03d (i / s + 1) +++ ".json")
                                "part" (JNum (Z.of_nat (i / s + 1)))
                                (slice operations i (i + s))]))
      as [files [E' Hfiles]].
    exists (("spec_part" +++ format_03d (i / s + 1) +++ ".json", mini_spec) :: files).
    rewrite E'. cbn [fst snd map]. rewrite <- !app_assoc. split; [reflexivity|].
    constructor; [split; [reflexivity | exact Hmini] | exact Hfiles].
Qed.

Lemma parts_paths self operations s starts files :
  Forall2 (part_of repr self operations s) starts files ->
  Forall2 (fun g mini =>
             dict_get "paths" mini
             = Some (paths_value (fold_left add_endpoint g [])))
          (map (fun i => slice operations i (i + s)) starts) (map snd files).
Proof.
  induction 1 as [|i f starts files [_ [_ [_ [_ Hpaths]]]] _ IH]; simpl; constructor;
    assumption.
Qed.

End SplitBySize.

(** ** [merge_all] completes on the files of a split *)

Section MergeRoot.

Import OpenAPIMerger.

Lemma merge_servers_same (v : json) :
  copyable v = true -> merge_servers v v = Ok v.
Proof.
  intros Hv. unfold merge_servers.
  assert (Hiter : exists l, iter v = Ok l)
    by (destruct v; try discriminate; eexists; reflexivity).
  destruct Hiter as [l El]. rewrite El. cbn [bind].
  assert (Hloop : forall servers,
             incl servers l ->
             foldM (fun (acc : json * list json) server =>
                      if existsb (dumps_equal server) (snd acc) then Ok acc
                      else cur <- append (fst acc) server ;;
                           Ok (cur, snd acc ++ [server]))
                   servers (v, l) = Ok (v, l)).
  { induction servers as [|s servers IH]; intros Hincl; cbn [foldM]; [reflexivity|].
    cbn [snd].
    assert (Hs : existsb (dumps_equal s) l = true).
    { apply existsb_exists. exists s. split; [apply Hincl; left; reflexivity|].
      apply dumps_equal_refl. }
    rewrite Hs. cbn [bind]. apply IH. intros x Hx. apply Hincl. right. exact Hx. }
  rewrite (Hloop l (incl_refl l)). reflexivity.
Qed.

Lemma tag_name_ok tag :
  named_tag tag = true -> exists n, tag_name tag = Ok n.
Proof.
  unfold named_tag, tag_name. destruct tag as [ | | | | |d]; try discriminate.
  cbn [getitem]. destruct (dict_get "name" d) as [n|]; [|discriminate].
  intros H. cbn [bind]. rewrite H. eexists. reflexivity.
Qed.

Lemma tag_index_ok (l : list json) :
  forallb named_tag l = true ->
  forall (positions : list nat) idx,
    exists idx',
      foldM (fun idx (it : nat * json) =>
               n <- tag_name (snd it) ;; Ok (tag_index_set n (fst it) idx))
            (combine positions l) idx = Ok idx'.
Proof.
  induction l as [|tag l IH]; intros H positions idx.
  - destruct positions; eexists; reflexivity.
  - cbn [forallb] in H. apply andb_prop in H. destruct H as [Ht Hl].
    destruct positions as [|i positions]; [eexists; reflexivity|].
    cbn [combine foldM snd fst]. destruct (tag_name_ok tag Ht) as [n En].
    rewrite En. cbn [bind]. apply IH. exact Hl.
Qed.

Lemma forallb_list_set {A : Type} (f : A -> bool) i x (l : list A) :
  f x = true -> forallb f l = true -> forallb f (list_set i x l) = true.
Proof.
  intros Hx. revert i. induction l as [|y l IH]; intros i H; [destruct i; reflexivity|].
  cbn [forallb] in H. apply andb_prop in H. destruct H as [Hy Hl].
  destruct i; cbn [list_set forallb]; [rewrite Hx, Hl; reflexivity|].
  rewrite Hy, (IH i Hl). reflexivity.
Qed.

Lemma nth_error_forallb {A : Type} (f : A -> bool) i x (l : list A) :
  forallb f l = true -> nth_error l i = Some x -> f x = true.
Proof.
  intros H Hn. apply nth_error_In in Hn. rewrite forallb_forall in H. apply H. exact Hn.
Qed.

Lemma merge_tags_ok (l incoming : list json) :
  forallb named_tag l = true ->
  forallb named_tag incoming = true ->
  exists l', merge_tags (JArr l) (JArr incoming) = Ok (JArr l') /\
             forallb named_tag l' = true.
Proof.
  intros Hl Hin. unfold merge_tags. cbn [iter bind].
  destruct (tag_index_ok l Hl (seq 0 (List.length l)) []) as [idx Eidx].
  rewrite Eidx. cbn [bind]. clear Eidx. revert l Hl.
  induction incoming as [|tag incoming IH]; intros l Hl; cbn [foldM].
  - exists l. split; [reflexivity | exact Hl].
  - cbn [forallb] in Hin. apply andb_prop in Hin. destruct Hin as [Ht Hrest].
    destruct (tag_name_ok tag Ht) as [n En]. rewrite En. cbn [bind].
    destruct (tag_index_get n idx) as [i|].
    + pose proof Ht as Ht'. unfold named_tag in Ht'.
      destruct tag as [ | | | | |d]; try discriminate.
      cbn [contains bind]. destruct (dict_mem "description" d) eqn:Ed.
      * destruct (nth_error l i) as [existing|] eqn:En'.
        -- pose proof (nth_error_forallb _ _ _ _ Hl En') as He.
           pose proof He as He'. unfold named_tag in He'.
           destruct existing as [ | | | | |ex]; try discriminate.
           cbn [contains bind]. destruct (dict_mem "description" ex).
           ++ apply IH; assumption.
           ++ cbn [getitem]. unfold dict_mem in Ed.
              destruct (dict_get "description" d) as [desc|]; [|discriminate].
              cbn [bind setitem]. apply IH; [exact Hrest|].
              apply forallb_list_set; [|exact Hl].
              unfold named_tag. rewrite dict_get_set_other by discriminate. exact He'.
        -- apply IH; assumption.
      * apply IH; assumption.
    + cbn [append bind]. apply IH; [exact Hrest|].
      rewrite forallb_app, Hl. cbn [forallb]. rewrite Ht. reflexivity.
Qed.

End MergeRoot.

Section MergeAgreeing.

Import ComponentExtractor.

Variables (strategy : string) (target source : loc) (src : dict json).
Hypothesis Hdiff : target <> source.

Lemma heap_set_target h v : heap_set h target v target = v.
Proof. unfold heap_set. rewrite Nat.eqb_refl. reflexivity. Qed.

Lemma heap_set_source h v : heap_set h target v source = h source.
Proof.
  unfold heap_set. destruct (Nat.eqb source target) eqn:E; [|reflexivity].
  apply Nat.eqb_eq in E. symmetry in E. contradiction.
Qed.

Lemma components_agree_set tc t td :
  components_agree tc src ->
  (forall n x, dict_get n td = Some x ->
     exists sd, dict_get t src = Some (JObj sd) /\ dict_get n sd = Some x) ->
  components_agree (dict_set t (JObj td) tc) src.
Proof.
  intros Ha Htd t' v. rewrite dict_get_set.
  destruct (String.eqb t' t) eqn:E.
  - apply String.eqb_eq in E. subst t'. intros [= <-]. exists td. split; [reflexivity|].
    exact Htd.
  - apply Ha.
Qed.

Lemma merge_items_agree t sd positions :
  dict_get t src = Some (JObj sd) -> dict_wf sd ->
  forall h conflicts tc,
    h source = JObj src -> h target = JObj tc ->
    components_agree tc src -> dict_wf tc -> dict_mem t tc = true ->
    exists h' conflicts' tc',
      merge_items positions (List.length sd) strategy t target source h conflicts
      = (h', Ok conflicts') /\
      h' source = JObj src /\ h' target = JObj tc' /\
      components_agree tc' src /\ dict_wf tc'.
Proof.
  intros Hsd Hwf. induction positions as [|i positions IH];
    intros h conflicts tc Hs Ht Ha Htc Hmem; cbn [merge_items];
    rewrite Hs; cbn [getitem]; rewrite Hsd; cbn [bind items];
    rewrite Nat.eqb_refl; cbn [negb].
  - exists h, conflicts, tc. repeat split; assumption.
  - destruct (nth_error sd i) as [[name definition]|] eqn:En;
      [|exists h, conflicts, tc; repeat split; assumption].
    assert (Hdef : dict_get name sd = Some definition)
      by (apply dict_wf_In_get; [exact Hwf | eapply nth_error_In; exact En]).
    unfold merge_one. rewrite Ht. cbn [getitem].
    unfold dict_mem in Hmem. destruct (dict_get t tc) as [v|] eqn:Etc; [|discriminate].
    destruct (Ha t v Etc) as [td [-> Htd]].
    cbn [bind contains]. destruct (dict_mem name td) eqn:Ename.
    + cbn [getitem]. unfold dict_mem in Ename.
      destruct (dict_get name td) as [existing|] eqn:Eex; [|discriminate].
      destruct (Htd name existing Eex) as [sd' [Hsd' Hx]].
      rewrite Hsd in Hsd'. injection Hsd' as <-.
      rewrite Hdef in Hx. injection Hx as <-.
      rewrite dumps_equal_refl.
      apply (IH h conflicts tc); try assumption. unfold dict_mem. rewrite Etc. reflexivity.
    + unfold store_component. rewrite Ht. cbn [getitem]. rewrite Etc.
      cbn [bind setitem].
      apply (IH _ conflicts (dict_set t (JObj (dict_set name definition td)) tc)).
      * rewrite heap_set_source. exact Hs.
      * apply heap_set_target.
      * apply components_agree_set; [exact Ha|].
        intros n x. rewrite dict_get_set.
        destruct (String.eqb n name) eqn:E.
        -- apply String.eqb_eq in E. subst n. intros [= <-].
           exists sd. split; assumption.
        -- apply Htd.
      * apply dict_wf_set. exact Htc.
      * unfold dict_mem. rewrite dict_get_set_same. reflexivity.
Qed.

Hypothesis Hsrc : component_mapping (JObj src).

Lemma merge_type_agree t :
  In t COMPONENT_TYPES ->
  forall h conflicts tc,
    h source = JObj src -> h target = JObj tc ->
    components_agree tc src -> dict_wf tc ->
    exists h' conflicts' tc',
      merge_type strategy target source h conflicts t = (h', Ok conflicts') /\
      h' source = JObj src /\ h' target = JObj tc' /\
      components_agree tc' src /\ dict_wf tc'.
Proof.
  intros Hin h conflicts tc Hs Ht Ha Htc. unfold merge_type.
  rewrite Hs. cbn [contains]. unfold dict_mem at 1.
  destruct (dict_get t src) as [v|] eqn:Ev;
    [|exists h, conflicts, tc; repeat split; assumption].
  destruct Hsrc as [d [[= <-] Hd]].
  destruct (Hd t v Hin Ev) as [sd [-> Hwf]].
  rewrite Ht. cbn [contains bind]. destruct (dict_mem t tc) eqn:Emem.
  - rewrite Hs. cbn [getitem]. rewrite Ev. cbn [bind items].
    apply (merge_items_agree t sd _ Ev Hwf h conflicts tc); assumption.
  - cbn [setitem bind]. rewrite heap_set_source, Hs. cbn [getitem]. rewrite Ev.
    cbn [bind items].
    apply (merge_items_agree t sd _ Ev Hwf _ conflicts (dict_set t (JObj []) tc)).
    + rewrite heap_set_source. exact Hs.
    + apply heap_set_target.
    + apply components_agree_set; [exact Ha|]. intros n x. discriminate.
    + apply dict_wf_set. exact Htc.
    + unfold dict_mem. rewrite dict_get_set_same. reflexivity.
Qed.

Lemma merge_types_agree comp_types :
  incl comp_types COMPONENT_TYPES ->
  forall h conflicts tc,
    h source = JObj src -> h target = JObj tc ->
    components_agree tc src -> dict_wf tc ->
    exists h' conflicts' tc',
      merge_types comp_types strategy target source h conflicts = (h', Ok conflicts') /\
      h' source = JObj src /\ h' target = JObj tc' /\
      components_agree tc' src /\ dict_wf tc'.
Proof.
  induction comp_types as [|t rest IH]; intros Hincl h conflicts tc Hs Ht Ha Htc;
    cbn [merge_types].
  - exists h, conflicts, tc. repeat split; assumption.
  - destruct (merge_type_agree t (Hincl t (or_introl eq_refl)) h conflicts tc Hs Ht Ha Htc)
      as [h1 [c1 [tc1 [E [Hs1 [Ht1 [Ha1 Htc1]]]]]]].
    rewrite E. apply (IH (fun x Hx => Hincl x (or_intror Hx)) h1 c1 tc1); assumption.
Qed.

(** Merging [src] into a target that agrees with it raises nothing, whatever
    the strategy, and the target still agrees with [src]. *)
Lemma merge_components_agree h tc :
  h source = JObj src -> h target = JObj tc ->
  components_agree tc src -> dict_wf tc ->
  exists h' conflicts tc',
    merge_components h target source strategy = (h', Ok conflicts) /\
    h' target = JObj tc' /\ components_agree tc' src /\ dict_wf tc'.
Proof.
  intros Hs Ht Ha Htc. unfold merge_components.
  destruct (merge_types_agree COMPONENT_TYPES (incl_refl _) h
              (map (fun comp_type => (comp_type, 0)) COMPONENT_TYPES) tc Hs Ht Ha Htc)
    as [h' [c [tc' [E [_ [Ht' [Ha' Htc']]]]]]].
  exists h', c, tc'. repeat split; assumption.
Qed.

End MergeAgreeing.

Section MergeTotal.

Import OpenAPISplitter.
Import OpenAPIMerger.

Variables (servers security : option json) (src : dict json).
Hypothesis Hservers : forall v, servers = Some v -> copyable v = true.
Hypothesis Hsecurity : forall v, security = Some v -> copyable v = true.
Hypothesis Hsrc : component_mapping (JObj src).

Lemma merge_inv_init : merge_inv servers src (merged_spec init).
Proof.
  unfold merge_inv, init. cbn [merged_spec]. split; [eexists; reflexivity|].
  split; [left; reflexivity|]. split; [left; reflexivity|]. split.
  - exists []. split; [reflexivity|]. split; [intros t v; discriminate | constructor].
  - exists []. reflexivity.
Qed.

Lemma merge_inv_frame m m' :
  (forall k, In k ["info"; "servers"; "tags"; "components"; "paths"] ->
             dict_get k m' = dict_get k m) ->
  merge_inv servers src m -> merge_inv servers src m'.
Proof.
  intros H. unfold merge_inv, holds_paths.
  rewrite !H by (simpl; tauto). tauto.
Qed.

Lemma delete_indicators_ok (i : dict json) :
  exists i',
    foldM (fun info key =>
             b <- contains key info ;;
             if b : bool then delitem info key else Ok info)
          split_indicators (JObj i) = Ok (JObj i') /\
    dict_get "title" i' = dict_get "title" i.
Proof.
  cbn [split_indicators foldM contains bind].
  destruct (dict_mem "x-split-part" i) eqn:E1.
  - cbn [delitem]. rewrite E1. cbn [bind contains].
    destruct (dict_mem "x-split-timestamp" (dict_del "x-split-part" i)) eqn:E2.
    + cbn [delitem]. rewrite E2. cbn [bind]. eexists. split; [reflexivity|].
      rewrite !dict_get_del_other by discriminate. reflexivity.
    + cbn [bind]. eexists. split; [reflexivity|].
      rewrite !dict_get_del_other by discriminate. reflexivity.
  - cbn [bind contains]. destruct (dict_mem "x-split-timestamp" i) eqn:E2.
    + cbn [delitem]. rewrite E2. cbn [bind]. eexists. split; [reflexivity|].
      rewrite !dict_get_del_other by discriminate. reflexivity.
    + cbn [bind]. eexists. split; [reflexivity|]. reflexivity.
Qed.

Lemma merge_extensions_ok (entries : dict json) (info : dict json) :
  exists info',
    foldM (fun info (entry : string * json) =>
             let (key, value) := entry in
             if str_startswith "x-" key
                && negb (existsb (String.eqb key) split_indicators)
             then b <- contains key info ;;
                  if b : bool then Ok info else setitem info key value
             else Ok info)
          entries (JObj info) = Ok (JObj info').
Proof.
  revert info. induction entries as [|[key value] entries IH]; intros info; cbn [foldM].
  - eexists. reflexivity.
  - destruct (str_startswith "x-" key && negb (existsb (String.eqb key) split_indicators)).
    + cbn [contains bind]. destruct (dict_mem key info); cbn [setitem bind]; apply IH.
    + cbn [bind]. apply IH.
Qed.

Lemma merge_info_ok self mini :
  (exists i, dict_get "info" (merged_spec self) = Some (JObj i)) ->
  (exists i title, dict_get "info" mini = Some (JObj i) /\
                   dict_get "title" i = Some (JStr title)) ->
  exists self' i',
    merge_info self mini = Ok self' /\
    merged_spec self' = dict_set "info" (JObj i') (merged_spec self).
Proof.
  intros [mi Hmi] [i [title [Hi Htitle]]]. unfold merge_info. rewrite Hi.
  destruct (Nat.eqb (files_processed (stats self)) 0).
  - cbn [copy bind]. destruct (delete_indicators_ok i) as [i' [E Ht]].
    rewrite E. cbn [bind get]. unfold dict_get_default. rewrite Ht, Htitle.
    cbn [contains bind]. destruct (str_contains " - " title).
    + cbn [split_first bind setitem]. eexists. eexists. split; reflexivity.
    + cbn [bind]. eexists. eexists. split; reflexivity.
  - cbn [getitem]. rewrite Hmi. cbn [bind contains].
    assert (Htail : forall info1,
               exists self' i',
                 (info <- foldM (fun info (entry : string * json) =>
                                   let (key, value) := entry in
                                   if str_startswith "x-" key
                                      && negb (existsb (String.eqb key) split_indicators)
                                   then b <- contains key info ;;
                                        if b : bool then Ok info else setitem info key value
                                   else Ok info)
                                i (JObj info1) ;;
                  Ok (with_spec self (dict_set "info" info (merged_spec self)))) = Ok self' /\
                 merged_spec self' = dict_set "info" (JObj i') (merged_spec self)).
    { intros info1. destruct (merge_extensions_ok i info1) as [info2 E2].
      rewrite E2. cbn [bind]. eexists. eexists. split; reflexivity. }
    destruct (dict_mem "description" i) eqn:Ed; cbn [bind items]; [|apply Htail].
    destruct (dict_mem "description" mi); cbn [bind items]; [apply Htail|].
    cbn [getitem]. unfold dict_mem in Ed.
    destruct (dict_get "description" i); [|discriminate].
    cbn [bind setitem items]. apply Htail.
Qed.

Lemma merge_root_properties_ok self mini :
  (dict_get "servers" (merged_spec self) = None \/
   dict_get "servers" (merged_spec self) = servers) ->
  (dict_get "tags" (merged_spec self) = None \/
   exists l, dict_get "tags" (merged_spec self) = Some (JArr l) /\
             forallb named_tag l = true) ->
  dict_get "servers" mini = servers ->
  dict_get "security" mini = security ->
  (dict_get "tags" mini = None \/
   exists kept, dict_get "tags" mini = Some (JArr kept) /\
                forallb named_tag kept = true) ->
  dict_get "externalDocs" mini = None ->
  exists self',
    merge_root_properties self mini = Ok self' /\
    (dict_get "servers" (merged_spec self') = None \/
     dict_get "servers" (merged_spec self') = servers) /\
    (dict_get "tags" (merged_spec self') = None \/
     exists l, dict_get "tags" (merged_spec self') = Some (JArr l) /\
               forallb named_tag l = true) /\
    forall k, ~ In k mergeable_props ->
              dict_get k (merged_spec self') = dict_get k (merged_spec self).
Proof.
  intros Hs Ht Hms Hmsec Hmt Hmx. unfold merge_root_properties.
  match goal with |- context [foldM ?f mergeable_props _] => set (step := f) end.
  assert (S1 : forall m,
             (dict_get "servers" m = None \/ dict_get "servers" m = servers) ->
             step m "servers"
             = Ok (match servers with Some v => dict_set "servers" v m | None => m end)).
  { intros m Hm. unfold step. rewrite Hms. destruct servers as [v|] eqn:Ev; [|reflexivity].
    pose proof (Hservers v eq_refl) as Hv.
    destruct Hm as [-> | ->].
    - destruct v; try discriminate; reflexivity.
    - cbn [String.eqb Ascii.eqb Bool.eqb]. rewrite (merge_servers_same v Hv). reflexivity. }
  assert (S2 : forall m, exists m',
             step m "security" = Ok m' /\
             forall k, k <> "security" -> dict_get k m' = dict_get k m).
  { intros m. unfold step. rewrite Hmsec. destruct security as [v|] eqn:Ev;
      [|exists m; split; reflexivity].
    pose proof (Hsecurity v eq_refl) as Hv.
    destruct (dict_get "security" m).
    - cbn [String.eqb Ascii.eqb Bool.eqb]. exists m. split; reflexivity.
    - exists (dict_set "security" v m). split.
      + destruct v; try discriminate; reflexivity.
      + intros k Hk. apply dict_get_set_other. exact Hk. }
  assert (S3 : forall m,
             (dict_get "tags" m = None \/
              exists l, dict_get "tags" m = Some (JArr l) /\ forallb named_tag l = true) ->
             exists m',
               step m "tags" = Ok m' /\
               (dict_get "tags" m' = None \/
                exists l, dict_get "tags" m' = Some (JArr l) /\
                          forallb named_tag l = true) /\
               forall k, k <> "tags" -> dict_get k m' = dict_get k m).
  { intros m Hm. unfold step. destruct Hmt as [-> | [kept [-> Hkept]]].
    - exists m. split; [reflexivity|]. split; [exact Hm | reflexivity].
    - destruct Hm as [-> | [l [-> Hl]]].
      + cbn [copy bind]. eexists. split; [reflexivity|]. split.
        * right. exists kept. split; [apply dict_get_set_same | exact Hkept].
        * intros k Hk. apply dict_get_set_other. exact Hk.
      + cbn [String.eqb Ascii.eqb Bool.eqb].
        destruct (merge_tags_ok l kept Hl Hkept) as [l' [E Hl']]. rewrite E. cbn [bind].
        eexists. split; [reflexivity|]. split.
        * right. exists l'. split; [apply dict_get_set_same | exact Hl'].
        * intros k Hk. apply dict_get_set_other. exact Hk. }
  assert (S4 : forall m, step m "externalDocs" = Ok m).
  { intros m. unfold step. rewrite Hmx. reflexivity. }
  cbn [mergeable_props foldM]. rewrite (S1 _ Hs). cbn [bind].
  set (m1 := match servers with Some v => _ | None => _ end).
  assert (F1 : forall k, k <> "servers" -> dict_get k m1 = dict_get k (merged_spec self)).
  { intros k Hk. subst m1. destruct servers; [apply dict_get_set_other; exact Hk | reflexivity]. }
  assert (Hs1 : dict_get "servers" m1 = None \/ dict_get "servers" m1 = servers).
  { subst m1. destruct servers as [v|]; [right; apply dict_get_set_same | exact Hs]. }
  destruct (S2 m1) as [m2 [E2 F2]]. rewrite E2. cbn [bind].
  destruct (S3 m2) as [m3 [E3 [Ht3 F3]]].
  { rewrite F2, F1 by discriminate. exact Ht. }
  rewrite E3. cbn [bind]. rewrite S4. cbn [bind].
  eexists. split; [reflexivity|]. cbn [merged_spec with_spec]. split; [|split].
  - rewrite F3, F2 by discriminate. exact Hs1.
  - exact Ht3.
  - intros k Hk. cbn [mergeable_props In] in Hk.
    rewrite F3, F2, F1; [reflexivity | | |]; intros ->; tauto.
Qed.

Lemma merge_components_ok self mini strategy :
  (exists tc, dict_get "components" (merged_spec self) = Some (JObj tc) /\
              components_agree tc src /\ dict_wf tc) ->
  (dict_get "components" mini = None \/ dict_get "components" mini = Some (JObj src)) ->
  exists self',
    merge_components self mini strategy = Ok self' /\
    (exists tc, dict_get "components" (merged_spec self') = Some (JObj tc) /\
                components_agree tc src /\ dict_wf tc) /\
    forall k, k <> "components" ->
              dict_get k (merged_spec self') = dict_get k (merged_spec self).
Proof.
  intros [tc [Htc [Ha Hwf]]] Hmini. unfold merge_components.
  destruct Hmini as [-> | ->].
  - exists self. split; [reflexivity|]. split; [|reflexivity].
    exists tc. repeat split; assumption.
  - unfold dict_mem. rewrite Htc. cbn [getitem]. rewrite Htc. cbn [bind].
    set (h := fun l : ComponentExtractor.loc =>
                if Nat.eqb l target_loc then JObj tc else JObj src).
    destruct (merge_components_agree strategy target_loc source_loc src
                ltac:(discriminate) Hsrc h tc eq_refl eq_refl Ha Hwf)
      as [h' [conflicts [tc' [E [Ht' [Ha' Hwf']]]]]].
    rewrite E. eexists. split; [reflexivity|]. cbn [merged_spec]. split.
    + exists tc'. rewrite Ht'. split; [apply dict_get_set_same|]. split; assumption.
    + intros k Hk. apply dict_get_set_other. exact Hk.
Qed.

Lemma merge_operation_frame k path self entry self' :
  k <> "paths" ->
  merge_operation path self entry = Ok self' ->
  dict_get k (merged_spec self') = dict_get k (merged_spec self).
Proof.
  unfold merge_operation. destruct entry as [method operation].
  intros Hk H. repeat bind_inv H. injection H as <-. cbn [merged_spec].
  apply dict_get_set_other. exact Hk.
Qed.

Lemma merge_path_frame k self entry self' :
  k <> "paths" ->
  merge_path self entry = Ok self' ->
  dict_get k (merged_spec self') = dict_get k (merged_spec self).
Proof.
  unfold merge_path. destruct entry as [path path_item]. intros Hk H.
  destruct path_item as [ | | | | |d]; try (injection H as <-; reflexivity).
  do 3 bind_inv H.
  rewrite (foldM_frame (fun s => dict_get k (merged_spec s)) _ _ _ _
             (fun s e s' _ Hstep => merge_operation_frame k path s e s' Hk Hstep) H).
  destruct a0.
  - injection E1 as <-. reflexivity.
  - bind_inv E1. injection E1 as <-. cbn [merged_spec].
    apply dict_get_set_other. exact Hk.
Qed.

Lemma merge_paths_frame k self spec self' :
  k <> "paths" ->
  merge_paths self spec = Ok self' ->
  dict_get k (merged_spec self') = dict_get k (merged_spec self).
Proof.
  unfold merge_paths. intros Hk H.
  destruct (dict_get "paths" spec) as [paths|]; [|injection H as <-; reflexivity].
  bind_inv H.
  apply (foldM_frame (fun s => dict_get k (merged_spec s)) _ _ _ _
           (fun s e s' _ Hstep => merge_path_frame k s e s' Hk Hstep) H).
Qed.

(** One file of a split, merged into a document that the earlier files of
    the same split have built. *)
Lemma merge_file_ok strategy self mini :
  merge_inv servers src (merged_spec self) ->
  merge_ready servers security src mini ->
  exists self',
    merge_file strategy self mini = Ok self' /\
    merge_inv servers src (merged_spec self').
Proof.
  intros Hinv [Hminfo [Hms [Hmsec [Hmt [Hmx [Hmc [q [Hmp Hq]]]]]]]].
  unfold merge_file.
  set (self0 := if Nat.eqb (files_processed (stats self)) 0 then _ else self).
  assert (H0 : merge_inv servers src (merged_spec self0)).
  { subst self0. destruct (Nat.eqb (files_processed (stats self)) 0); [|exact Hinv].
    destruct (dict_get "openapi" mini).
    - apply (merge_inv_frame (merged_spec self)); [|exact Hinv].
      intros k Hk. cbn [merged_spec with_spec]. apply dict_get_set_other.
      intros ->. simpl in Hk. intuition discriminate.
    - destruct (dict_get "swagger" mini); [|exact Hinv].
      apply (merge_inv_frame (merged_spec self)); [|exact Hinv].
      intros k Hk. cbn [merged_spec with_spec]. apply dict_get_set_other.
      intros ->. simpl in Hk. intuition discriminate. }
  clearbody self0. destruct H0 as [Hi [Hs [Ht [Hc [mp Hp]]]]].
  destruct (merge_info_ok self0 mini Hi Hminfo) as [s1 [i1 [E1 M1]]].
  rewrite E1. cbn [bind].
  assert (F1 : forall k, k <> "info" ->
                         dict_get k (merged_spec s1) = dict_get k (merged_spec self0)).
  { intros k Hk. rewrite M1. apply dict_get_set_other. exact Hk. }
  destruct (merge_root_properties_ok s1 mini) as [s2 [E2 [Hs2 [Ht2 F2]]]];
    try assumption; try (rewrite F1 by discriminate; assumption).
  rewrite E2. cbn [bind].
  destruct (merge_components_ok s2 mini strategy) as [s3 [E3 [Hc3 F3]]];
    [|exact Hmc|].
  { rewrite F2, F1; [exact Hc | discriminate | ].
    cbn [mergeable_props In]. intuition discriminate. }
  rewrite E3. cbn [bind].
  assert (Hp3 : holds_paths (merged_spec s3) mp).
  { unfold holds_paths. rewrite F3, F2, F1; [exact Hp | discriminate | | discriminate].
    cbn [mergeable_props In]. intuition discriminate. }
  destruct (merge_paths_ok s3 mp mini _ Hp3 Hmp (paths_wf_entries q Hq)) as [s4 [E4 Hp4]].
  rewrite E4. cbn [bind]. eexists. split; [reflexivity|]. cbn [merged_spec].
  pose proof (fun k Hk => merge_paths_frame k s3 mini s4 Hk E4) as F4.
  unfold merge_inv. split; [|split; [|split; [|split]]].
  - exists i1. rewrite F4, F3, F2 by
      (try discriminate; cbn [mergeable_props In]; intuition discriminate).
    rewrite M1. apply dict_get_set_same.
  - rewrite F4, F3 by discriminate. exact Hs2.
  - rewrite F4, F3 by discriminate. exact Ht2.
  - rewrite F4 by discriminate. exact Hc3.
  - eexists. exact Hp4.
Qed.

Lemma dict_keys_del_other {A : Type} k x (d : dict A) :
  x <> k -> In x (dict_keys d) -> In x (dict_keys (dict_del k d)).
Proof.
  intros Hne. induction d as [|[k' v] d IH]; simpl; [tauto|].
  destruct (String.eqb k k') eqn:E.
  - apply String.eqb_eq in E. subst k'. intros [H|H]; [congruence | exact H].
  - simpl. intros [H|H]; [left; exact H | right; apply IH; exact H].
Qed.

Lemma delitems_ok (ks : list string) :
  NoDup ks ->
  forall d : dict json,
    incl ks (dict_keys d) ->
    exists d', foldM delitem ks (JObj d) = Ok (JObj d').
Proof.
  induction 1 as [|k ks Hk _ IH]; intros d Hincl; cbn [foldM].
  - eexists. reflexivity.
  - cbn [delitem].
    assert (Hmem : dict_mem k d = true)
      by (apply dict_mem_In; apply Hincl; left; reflexivity).
    rewrite Hmem. cbn [bind]. apply IH. intros x Hx.
    apply dict_keys_del_other; [intros ->; contradiction|].
    apply Hincl. right. exact Hx.
Qed.

Lemma NoDup_keys_filter {A : Type} (f : string * A -> bool) (d : dict A) :
  dict_wf d -> NoDup (map fst (filter f d)).
Proof.
  unfold dict_wf, dict_keys. induction d as [|e d IH]; simpl; intros H; [constructor|].
  inversion H as [|? ? Hn Hd]; subst. destruct (f e); [|apply IH; exact Hd].
  simpl. constructor; [|apply IH; exact Hd].
  intros Hin. apply Hn. apply in_map_iff in Hin. destruct Hin as [x [Hx Hin]].
  apply filter_In in Hin. apply in_map_iff. exists x. split; [exact Hx | apply Hin].
Qed.

Lemma clean_merged_spec_ok self :
  (exists tc, dict_get "components" (merged_spec self) = Some (JObj tc) /\ dict_wf tc) ->
  exists self', clean_merged_spec self = Ok self'.
Proof.
  intros [tc [Htc Hwf]]. unfold clean_merged_spec. rewrite Htc. cbn [items bind].
  destruct (delitems_ok (map fst (filter (fun e => negb (truthy (snd e))) tc))
              (NoDup_keys_filter _ tc Hwf) tc) as [d' E].
  { intros x Hx. apply in_map_iff in Hx. destruct Hx as [e [<- He]].
    apply filter_In in He. apply in_map. apply He. }
  rewrite E. cbn [bind]. destruct (truthy (JObj d')); eexists; reflexivity.
Qed.

(** [merge_all] completes on the files of a split. *)
Lemma merge_all_ok minis strategy output_format :
  minis <> [] ->
  Forall (merge_ready servers security src) minis ->
  save_spec output_format = Ok tt ->
  exists self', merge_all init (map Ok minis) strategy output_format = Ok self'.
Proof.
  intros Hne Hminis Hsave.
  assert (Hloop : forall self,
             merge_inv servers src (merged_spec self) ->
             exists s1,
               foldM (fun self (loaded : exc (dict json)) =>
                        match loaded with
                        | Raise _ => Ok self
                        | Ok spec => merge_file strategy self spec
                        end) (map Ok minis) self = Ok s1 /\
               merge_inv servers src (merged_spec s1)).
  { clear Hne. induction Hminis as [|mini minis Hmini _ IH]; intros self Hinv.
    - exists self. split; [reflexivity | exact Hinv].
    - cbn [map foldM]. destruct (merge_file_ok strategy self mini Hinv Hmini) as [s [E Hs]].
      rewrite E. cbn [bind]. apply IH. exact Hs. }
  destruct (Hloop init merge_inv_init) as [s1 [E1 [_ [_ [_ [[tc [Htc [_ Hwf]]] _]]]]]].
  unfold merge_all. destruct minis as [|mini0 minis0]; [contradiction|].
  cbn [map] in *. rewrite E1. cbn [bind].
  destruct (clean_merged_spec_ok s1) as [s2 E2]; [exists tc; split; assumption|].
  rewrite E2. cbn [bind]. rewrite Hsave. cbn [bind]. eexists. reflexivity.
Qed.

End MergeTotal.

Section MiniParts.

Import OperationCounter.
Import OpenAPISplitter.

Variable repr : json -> string.

Lemma filter_tags_named used tags :
  forallb named_tag tags = true ->
  forall kept kept',
    forallb named_tag kept = true ->
    foldM (fun kept tag =>
             name <- get tag "name" JNull ;;
             b <- set_mem name used ;;
             Ok (if b : bool then kept ++ [tag] else kept))
          tags kept = Ok kept' ->
    forallb named_tag kept' = true.
Proof.
  induction tags as [|tag tags IH]; intros H kept kept' Hk E; cbn [foldM] in E.
  - injection E as <-. exact Hk.
  - cbn [forallb] in H. apply andb_prop in H. destruct H as [Ht Hts].
    bind_inv E. apply (IH Hts a kept'); [|exact E].
    do 2 bind_inv E0. injection E0 as <-.
    match goal with |- context [if ?b then _ else _] => destruct b end; [|exact Hk].
    rewrite forallb_app, Hk. cbn [forallb]. rewrite Ht. reflexivity.
Qed.

Lemma copy_same v c : copy v = Ok c -> c = v.
Proof. destruct v; intros H; try discriminate; injection H as <-; reflexivity. Qed.

Lemma optional_copy_get (key : string) (source m m' : dict json) :
  dict_get key m = None ->
  match dict_get key source with
  | Some s => c <- copy s ;; Ok (dict_set key c m)
  | None => Ok m
  end = Ok m' ->
  dict_get key m' = dict_get key source.
Proof.
  intros Hm H. destruct (dict_get key source) as [s|].
  - bind_inv H. injection H as <-. rewrite (copy_same _ _ E). apply dict_get_set_same.
  - injection H as <-. exact Hm.
Qed.

Lemma create_mini_spec_ready self endpoints name mini :
  splittable (spec self) endpoints = true ->
  mergeable (spec self) = true ->
  create_mini_spec repr self endpoints name true = Ok mini ->
  merge_ready (dict_get "servers" (spec self)) (dict_get "security" (spec self))
    (shared_components self) mini.
Proof.
  intros Hsplit Hmerge Hrun.
  destruct (create_mini_spec_ok repr self endpoints name true Hsplit)
    as [mini' [E [_ [_ [Hinfo Hpaths]]]]].
  rewrite Hrun in E. injection E as <-.
  unfold create_mini_spec in Hrun. cbn [andb] in Hrun.
  do 8 bind_inv Hrun. injection Hrun as <-.
  set (m0 := if truthy (JObj (common_components self)) then _ else _) in *.
  assert (Hm0 : forall k, k <> "components" ->
                          dict_get k m0
                          = dict_get k [("openapi", dict_get_default "openapi" (JStr "3.1.0")
                                                      (spec self));
                                        ("info", a); ("paths", JObj [])]).
  { intros k Hk. subst m0. destruct (truthy (JObj (common_components self)));
      [apply dict_get_set_other; exact Hk | reflexivity]. }
  assert (E23 : forall k, k <> "tags" -> dict_get k a2 = dict_get k a1).
  { intros k Hk. destruct (dict_get "tags" (spec self)) as [spec_tags|];
      [|injection E2 as <-; reflexivity].
    bind_inv E2.
    match type of E2 with
    | context [truthy ?x] => destruct (truthy x)
    end; [|injection E2 as <-; reflexivity].
    bind_inv E2. injection E2 as <-. apply dict_get_set_other. exact Hk. }
  unfold merge_ready. split; [|split; [|split; [|split; [|split; [|split]]]]].
  - eexists. eexists. split; [exact Hinfo|]. unfold split_info.
    rewrite !dict_get_set_other by discriminate. apply dict_get_set_same.
  - rewrite !dict_get_set_other, E23 by discriminate.
    rewrite (optional_copy_frame "servers" "security" _ _ _ ltac:(discriminate) E1).
    apply (optional_copy_get "servers" _ _ _ (Hm0 "servers" ltac:(discriminate)) E0).
  - rewrite !dict_get_set_other, E23 by discriminate.
    apply (fun H => optional_copy_get "security" _ _ _ H E1).
    rewrite (optional_copy_frame "security" "servers" _ _ _ ltac:(discriminate) E0).
    apply Hm0. discriminate.
  - rewrite !dict_get_set_other by discriminate.
    assert (Ha1 : dict_get "tags" a1 = None).
    { rewrite (optional_copy_frame "tags" "security" _ _ _ ltac:(discriminate) E1).
      rewrite (optional_copy_frame "tags" "servers" _ _ _ ltac:(discriminate) E0).
      apply Hm0. discriminate. }
    unfold mergeable, absent_or in Hmerge.
    destruct (dict_get "tags" (spec self)) as [spec_tags|];
      [|injection E2 as <-; left; exact Ha1].
    bind_inv E2.
    match type of E2 with
    | context [truthy ?x] => destruct (truthy x)
    end; [|injection E2 as <-; left; exact Ha1].
    bind_inv E2. injection E2 as <-. right. eexists.
    split; [apply dict_get_set_same|].
    destruct spec_tags as [ | | | |tags| ]; try discriminate.
    match goal with
    | Hkept : filter_tags _ _ = Ok _ |- _ =>
        unfold filter_tags in Hkept; cbn [iter bind] in Hkept;
        apply (filter_tags_named _ _ Hmerge [] _ eq_refl Hkept)
    end.
  - rewrite !dict_get_set_other, E23 by discriminate.
    rewrite (optional_copy_frame "externalDocs" "security" _ _ _ ltac:(discriminate) E1).
    rewrite (optional_copy_frame "externalDocs" "servers" _ _ _ ltac:(discriminate) E0).
    apply Hm0. discriminate.
  - rewrite !dict_get_set_other, E23 by discriminate.
    rewrite (optional_copy_frame "components" "security" _ _ _ ltac:(discriminate) E1).
    rewrite (optional_copy_frame "components" "servers" _ _ _ ltac:(discriminate) E0).
    subst m0. destruct (truthy (JObj (common_components self)));
      [right; apply dict_get_set_same | left; reflexivity].
  - eexists. split; [exact Hpaths|]. apply mapping_wf_add_endpoints. apply mapping_wf_nil.
Qed.

End MiniParts.

Lemma foldM_invariant_In {A S : Type} (P : S -> Prop) (f : S -> A -> exc S)
    (l : list A) (s s' : S) :
  (forall s a s', In a l -> P s -> f s a = Ok s' -> P s') ->
  P s -> foldM f l s = Ok s' -> P s'.
Proof.
  revert s. induction l as [|a l IH]; simpl; intros s Hstep Hs H.
  - injection H as <-. exact Hs.
  - destruct (f s a) as [s1|e] eqn:E; simpl in H; [|discriminate].
    apply (IH s1); [| |exact H].
    + intros s2 b s3 Hb. apply Hstep. right. exact Hb.
    + apply (Hstep s a s1); [left; reflexivity | exact Hs | exact E].
Qed.

Lemma dict_get_filter {A : Type} (f : string * A -> bool) k v (d : dict A) :
  dict_wf d -> dict_get k (filter f d) = Some v -> dict_get k d = Some v.
Proof.
  intros Hwf H. apply dict_wf_In_get; [exact Hwf|].
  apply dict_get_In in H. apply filter_In in H. apply H.
Qed.

Section SplitReady.

Import OperationCounter.
Import OpenAPISplitter.

Variable repr : json -> string.
Variable self : state.

Hypothesis Hmerge : mergeable (spec self) = true.

Lemma write_parts_ready operations s starts acc r :
  splittable (spec self) operations = true ->
  foldM (write_part repr self operations s) starts acc = Ok r ->
  Forall (split_ready self) (map snd (fst acc)) -> Forall (split_ready self) (map snd (fst r)).
Proof.
  intros Hshape H Hacc. revert H.
  apply (foldM_invariant (fun acc : output => Forall (split_ready self) (map snd (fst acc))));
    [|exact Hacc].
  intros acc1 i acc2 H1 Hstep. unfold write_part in Hstep. bind_inv Hstep.
  injection Hstep as <-. cbn [fst]. rewrite map_app. apply Forall_app.
  split; [exact H1|]. constructor; [|constructor]. cbn [snd].
  eapply create_mini_spec_ready; [|exact Hmerge | exact E].
  apply (splittable_incl _ _ _ (slice_incl operations i _) Hshape).
Qed.

Lemma write_groups_ready (groups : dict (list endpoint)) acc r :
  (forall g, In g groups -> splittable (spec self) (snd g) = true) ->
  foldM (write_group repr self) groups acc = Ok r ->
  Forall (split_ready self) (map snd (fst acc)) -> Forall (split_ready self) (map snd (fst r)).
Proof.
  intros Hshape H Hacc. revert H.
  apply (foldM_invariant_In (fun acc : output => Forall (split_ready self) (map snd (fst acc))));
    [|exact Hacc].
  intros acc1 [prefix endpoints] acc2 Hin H1 Hstep. unfold write_group in Hstep.
  bind_inv Hstep. injection Hstep as <-. cbn [fst]. rewrite map_app. apply Forall_app.
  split; [exact H1|]. constructor; [|constructor]. cbn [snd].
  eapply create_mini_spec_ready; [|exact Hmerge | exact E].
  apply (Hshape _ Hin).
Qed.

Hypothesis Hcomponents : components_wf self.

Lemma shared_components_mapping : component_mapping (JObj (shared_components self)).
Proof.
  destruct Hcomponents as [Hwf [d [[= <-] Hd]]].
  exists (shared_components self). split; [reflexivity|].
  intros t v Hin Hget. apply (Hd t v Hin).
  apply (dict_get_filter _ _ _ _ Hwf Hget).
Qed.

(** The files of a split merge, by [merge_all], into a document that lists
    the pairs of the groups they were made from. *)
Lemma merge_all_of_split groups minis (target : list endpoint) l strategy output_format :
  splittable (spec self) l = true ->
  Forall2 (fun g mini =>
             dict_get "paths" mini
             = Some (paths_value (fold_left add_endpoint g [])))
          groups minis ->
  Forall (split_ready self) minis ->
  minis <> [] ->
  NoDup (pairs target) ->
  (forall e, In e target -> In (endpoint_method e) HTTP_METHODS) ->
  (forall x, In x (pairs (concat groups)) <-> In x (pairs target)) ->
  OpenAPIMerger.save_spec output_format = Ok tt ->
  exists self',
    OpenAPIMerger.merge_all OpenAPIMerger.init (map Ok minis) strategy output_format
    = Ok self' /\
    merged_pairs self' target.
Proof.
  intros Hshape Hminis Hready Hne Hnd Hmethods Hsame Hsave.
  unfold splittable in Hshape.
  apply andb_prop in Hshape. destruct Hshape as [Hshape _].
  apply andb_prop in Hshape. destruct Hshape as [Hshape Hsecurity].
  apply andb_prop in Hshape. destruct Hshape as [_ Hservers].
  destruct (merge_all_ok (dict_get "servers" (spec self)) (dict_get "security" (spec self))
              (shared_components self)
              ltac:(intros v Hv; unfold absent_or in Hservers; rewrite Hv in Hservers;
                    exact Hservers)
              ltac:(intros v Hv; unfold absent_or in Hsecurity; rewrite Hv in Hsecurity;
                    exact Hsecurity)
              shared_components_mapping minis strategy output_format Hne Hready Hsave)
    as [self' E].
  exists self'. split; [exact E|].
  apply (merge_all_of_groups groups minis target strategy output_format self'
           Hminis Hnd Hmethods Hsame E).
Qed.

End SplitReady.

(** ** Round trip *)

Section RoundTrip.

Import OperationCounter.
Import OpenAPISplitter.

Variable repr : json -> string.

(** Documents built from groups of endpoints merge into a document that
    lists the pairs of a target list, when the groups hold its pairs. *)
Lemma round_trip_of_groups groups minis (target : list endpoint) :
  Forall2 (fun g mini =>
             dict_get "paths" mini
             = Some (paths_value (fold_left add_endpoint g [])))
          groups minis ->
  NoDup (pairs target) ->
  (forall e, In e target -> In (endpoint_method e) HTTP_METHODS) ->
  (forall x, In x (pairs (concat groups)) <-> In x (pairs target)) ->
  exists merged operations',
    merge_paths_of minis = Ok merged /\
    get_operations (OpenAPIMerger.merged_spec merged) = Ok operations' /\
    Permutation (pairs operations') (pairs target).
Proof.
  intros Hminis Hnd Hmethods Hsame.
  destruct (merge_documents_paths groups minis Hminis OpenAPIMerger.init []
              eq_refl mapping_wf_nil) as [merged [mp [E [Hm [Hwf Hiff]]]]].
  destruct (operations_of_mapping _ mp Hm Hwf) as [operations' [Eo [Hnd' Hin]]].
  exists merged, operations'. split; [exact E|]. split; [exact Eo|].
  apply NoDup_Permutation; [exact Hnd' | exact Hnd |].
  intros [p m]. rewrite Hin, Hiff, Hsame. split.
  - intros [_ [H|H]]; [exact H | discriminate].
  - intros H. split; [|left; exact H].
    unfold pairs in H. apply in_map_iff in H. destruct H as [e [He Hin']].
    specialize (Hmethods e Hin'). unfold endpoint_method in Hmethods.
    rewrite He in Hmethods. exact Hmethods.
Qed.

Lemma size_round_trip self sp operations n :
  dict_get_default "paths" (JObj []) (spec self) = JObj sp ->
  dict_wf sp ->
  get_operations (spec self) = Ok operations ->
  splittable (spec self) operations = true ->
  (1 <= n)%Z ->
  exists r, split_by_size repr self n = Ok r /\ round_trip self r operations.
Proof.
  intros Hsp Hwf Hops Hshape Hn.
  assert (Hlist : operations
                  = flat_map (fun entry => path_item_operations (fst entry) (snd entry)) sp).
  { unfold get_operations in Hops. rewrite Hsp in Hops. cbn [items bind] in Hops.
    injection Hops as <-. reflexivity. }
  assert (Hnd : NoDup (pairs operations))
    by (rewrite Hlist; apply operations_pairs_NoDup; exact Hwf).
  assert (Hmethods : forall e, In e operations -> In (endpoint_method e) HTTP_METHODS)
    by (rewrite Hlist; apply operations_methods).
  unfold split_by_size. rewrite Hops. cbn [bind].
  destruct (range_step_chunks operations n Hn) as [starts [Estarts Hconcat]].
  destruct (write_parts_ok repr self operations (Z.to_nat n) starts
              (fun i _ => splittable_incl _ _ _ (slice_incl operations i _) Hshape)
              ([], [])) as [files [Efiles Hfiles]].
  destruct (round_trip_of_groups
              (map (fun i => slice operations i (i + Z.to_nat n)) starts)
              (map snd files) operations
              (parts_paths repr self operations (Z.to_nat n) starts files Hfiles)
              Hnd Hmethods ltac:(rewrite Hconcat; tauto))
    as [merged [operations' [Em [Eo Hperm]]]].
  destruct operations as [|e rest] eqn:Eops.
  - exists {| written := [];
              mapping := [("type", JStr "size-based"); ("files", JArr [])] |}.
    split; [reflexivity|]. split.
    + exists OpenAPIMerger.init. split; [reflexivity|].
      exists []. split; [reflexivity | constructor].
    + intros Hne. contradiction Hne. reflexivity.
  - rewrite <- Eops in *. rewrite Estarts. cbn [bind]. rewrite Efiles. cbn [bind fst snd app].
    eexists. split; [reflexivity|]. cbn [written]. split.
    + exists merged. split; [exact Em|]. exists operations'. split; assumption.
    + intros Hne Hmerge Hcomponents strategy output_format Hsave.
      cbn [written] in Hne.
      apply (merge_all_of_split self Hcomponents
               (map (fun i => slice operations i (i + Z.to_nat n)) starts)
               (map snd files) operations operations strategy output_format Hshape
               (parts_paths repr self operations (Z.to_nat n) starts files Hfiles)).
      * apply (write_parts_ready repr self Hmerge operations (Z.to_nat n) starts
                 ([], []) _ Hshape Efiles). constructor.
      * destruct files; [contradiction Hne; reflexivity | discriminate].
      * exact Hnd.
      * exact Hmethods.
      * rewrite Hconcat. tauto.
      * exact Hsave.
Qed.

End RoundTrip.

(** ** [group_endpoints_by_path_prefix] *)

Section PathGroups.

Import OperationCounter.
Import OpenAPISplitter.

Variable repr : json -> string.

Lemma dict_get_default_cons_other {A : Type} k k0 (v0 default : A) (r : dict A) :
  String.eqb k k0 = false ->
  dict_get_default k default ((k0, v0) :: r) = dict_get_default k default r.
Proof. intros E. unfold dict_get_default. simpl. rewrite E. reflexivity. Qed.

Lemma group_append_concat {A : Type} k (x : A) (g : dict (list A)) :
  Permutation (concat (map snd (group_append k x g))) (concat (map snd g) ++ [x]).
Proof.
  unfold group_append. induction g as [|[k0 v0] r IH].
  - reflexivity.
  - cbn [dict_set]. destruct (String.eqb k k0) eqn:E.
    + unfold dict_get_default. cbn [dict_get]. rewrite E. cbn [map snd concat].
      rewrite <- !app_assoc. apply Permutation_app_head. apply Permutation_app_comm.
    + rewrite dict_get_default_cons_other by exact E.
      cbn [map snd concat]. rewrite <- app_assoc. apply Permutation_app_head. exact IH.
Qed.

Lemma group_methods_concat path d methods (g : dict (list endpoint)) :
  Permutation
    (concat (map snd
       (fold_left (fun grouped method =>
                     match dict_get method d with
                     | Some operation =>
                         if is_dict operation
                         then group_append (path_prefix path) (path, method, operation) grouped
                         else grouped
                     | None => grouped
                     end) methods g)))
    (concat (map snd g) ++
     filter operation_is_dict
       (flat_map (fun method =>
                    match dict_get method d with
                    | Some operation => [(path, method, operation)]
                    | None => []
                    end) methods)).
Proof.
  revert g. induction methods as [|m methods IH]; intros g; cbn [fold_left flat_map].
  - rewrite app_nil_r. reflexivity.
  - rewrite IH, filter_app. destruct (dict_get m d) as [operation|]; [|reflexivity].
    cbn [filter]. unfold operation_is_dict at 2. cbn [snd].
    destruct (is_dict operation); [|reflexivity].
    rewrite (group_append_concat _ _ g), <- app_assoc. reflexivity.
Qed.

Lemma grouped_concat (sp : dict json) (g : dict (list endpoint)) :
  Permutation
    (concat (map snd (fold_left group_path_item sp g)))
    (concat (map snd g) ++
     filter operation_is_dict
       (flat_map (fun entry => path_item_operations (fst entry) (snd entry)) sp)).
Proof.
  revert g. induction sp as [|[path path_item] sp IH]; intros g; cbn [fold_left flat_map].
  - rewrite app_nil_r. reflexivity.
  - rewrite IH, filter_app, app_assoc. apply Permutation_app_tail.
    cbn [fst snd]. unfold group_path_item, path_item_operations.
    destruct path_item; try (cbn [filter]; rewrite app_nil_r; reflexivity).
    apply group_methods_concat.
Qed.

Lemma chunk_group_concat n prefix (endpoints : list endpoint) :
  (1 <= n)%Z ->
  exists a, chunk_group n (prefix, endpoints) = Ok a /\
            concat (map snd a) = endpoints.
Proof.
  intros Hn. unfold chunk_group.
  destruct (n <? Z.of_nat (List.length endpoints))%Z.
  - destruct (range_step_chunks endpoints n Hn) as [starts [E Hconcat]].
    rewrite E. cbn [bind]. eexists. split; [reflexivity|].
    rewrite map_map. cbn [snd]. exact Hconcat.
  - eexists. split; [reflexivity|]. cbn. apply app_nil_r.
Qed.

Lemma final_assignments_concat n (grouped : dict (list endpoint)) :
  (1 <= n)%Z ->
  forall acc,
  exists a,
    foldM (fun assignments entry =>
             a <- chunk_group n entry ;; Ok (assignments ++ a)) grouped acc = Ok a /\
    concat (map snd a) = concat (map snd acc) ++ concat (map snd grouped).
Proof.
  intros Hn. induction grouped as [|[prefix endpoints] grouped IH]; intros acc.
  - exists acc. split; [reflexivity|]. cbn. rewrite app_nil_r. reflexivity.
  - destruct (chunk_group_concat n prefix endpoints Hn) as [a [Ea Ha]].
    cbn [foldM]. rewrite Ea. cbn [bind].
    destruct (IH (acc ++ a)) as [a' [Ea' Ha']].
    exists a'. split; [exact Ea'|].
    rewrite Ha', map_app, concat_app, Ha. cbn [map snd concat].
    rewrite app_assoc. reflexivity.
Qed.

Lemma dict_set_new {A : Type} k (v : A) (d : dict A) :
  ~ In k (dict_keys d) -> dict_set k v d = d ++ [(k, v)].
Proof.
  induction d as [|[k0 v0] r IH]; intros H; simpl; [reflexivity|].
  simpl in H. destruct (String.eqb k k0) eqn:E.
  - apply String.eqb_eq in E. subst. exfalso. apply H. left. reflexivity.
  - rewrite IH by tauto. reflexivity.
Qed.

(** Assignments under distinct labels leave one group per assignment. *)
Lemma distinct_assignments {A : Type} (a acc : dict A) :
  NoDup (map fst (acc ++ a)) ->
  fold_left (fun final_groups x => dict_set (fst x) (snd x) final_groups) a acc
  = acc ++ a.
Proof.
  revert acc. induction a as [|[k v] a IH]; intros acc H; cbn [fold_left fst snd].
  - rewrite app_nil_r. reflexivity.
  - rewrite dict_set_new.
    + rewrite IH; rewrite <- app_assoc; [reflexivity | exact H].
    + rewrite map_app in H. cbn [map fst] in H.
      apply NoDup_remove_2 in H. intros Hin. apply H. apply in_or_app. left. exact Hin.
Qed.

Lemma write_groups_ok self (groups : dict (list endpoint)) :
  (forall g, In g groups -> splittable (spec self) (snd g) = true) ->
  forall acc,
  exists files entries,
    foldM (write_group repr self) groups acc = Ok (fst acc ++ files, snd acc ++ entries) /\
    Forall2 (fun g mini =>
               dict_get "paths" mini
               = Some (paths_value (fold_left add_endpoint g [])))
            (map snd groups) (map snd files).
Proof.
  induction groups as [|[prefix endpoints] groups IH]; intros Hshape acc.
  - exists [], []. cbn [foldM map]. rewrite !app_nil_r. split; [|constructor].
    destruct acc; reflexivity.
  - destruct (create_mini_spec_ok repr self endpoints prefix true
                (Hshape (prefix, endpoints) (or_introl eq_refl)))
      as [mini_spec [E [_ [_ [_ Hpaths]]]]].
    cbn [foldM]. unfold write_group at 1. rewrite E. cbn [bind].
    destruct (IH (fun g Hg => Hshape g (or_intror Hg))
                 (fst acc ++ [("spec_" +++ prefix +++ ".json", mini_spec)],
                  snd acc ++ [mapping_entry ("spec_" +++ prefix +++ ".json")
                                "prefix" (JStr prefix) endpoints]))
      as [files [entries [E' Hfiles]]].
    eexists (_ :: files), (_ :: entries).
    rewrite E'. cbn [fst snd map]. rewrite <- !app_assoc. split; [reflexivity|].
    constructor; [exact Hpaths | exact Hfiles].
Qed.

Lemma path_round_trip self sp operations n :
  dict_get_default "paths" (JObj []) (spec self) = JObj sp ->
  dict_wf sp ->
  get_operations (spec self) = Ok operations ->
  splittable (spec self) (filter operation_is_dict operations) = true ->
  (1 <= n)%Z ->
  labels_distinct self n ->
  exists r,
    split_by_path_prefix repr self n = Ok r /\
    round_trip self r (filter operation_is_dict operations).
Proof.
  intros Hsp Hwf Hops Hshape Hn [grouped [assignments [Eg [Ea Hlabels]]]].
  assert (Hlist : operations
                  = flat_map (fun entry => path_item_operations (fst entry) (snd entry)) sp).
  { unfold get_operations in Hops. rewrite Hsp in Hops. cbn [items bind] in Hops.
    injection Hops as <-. reflexivity. }
  assert (Hgrouped : grouped = fold_left group_path_item sp []).
  { unfold grouped_by_prefix in Eg. rewrite Hsp in Eg. cbn [items bind] in Eg.
    injection Eg as <-. reflexivity. }
  assert (Hperm : Permutation (concat (map snd assignments))
                              (filter operation_is_dict operations)).
  { destruct (final_assignments_concat n grouped Hn []) as [a [Ea' Ha]].
    unfold final_assignments in Ea. rewrite Ea in Ea'. injection Ea' as <-.
    rewrite Ha, Hgrouped, Hlist. cbn [map concat app]. apply (grouped_concat sp []). }
  assert (Hnd : NoDup (pairs (filter operation_is_dict operations))).
  { assert (H : NoDup (pairs operations))
      by (rewrite Hlist; apply operations_pairs_NoDup; exact Hwf).
    clear -H. induction operations as [|e l IH]; [constructor|].
    cbn [pairs map] in H. inversion H as [|? ? Hx Hl]; subst.
    cbn [filter]. destruct (operation_is_dict e); [|apply IH; exact Hl].
    cbn [pairs map]. constructor; [|apply IH; exact Hl].
    intros Hin. apply Hx. unfold pairs in *. apply in_map_iff in Hin.
    destruct Hin as [e' [He' Hin]]. apply filter_In in Hin.
    apply in_map_iff. exists e'. tauto. }
  assert (Hmethods : forall e, In e (filter operation_is_dict operations) ->
                               In (endpoint_method e) HTTP_METHODS).
  { intros e He. apply filter_In in He. destruct He as [He _].
    rewrite Hlist in He. eapply operations_methods. exact He. }
  assert (Hfinal : group_endpoints_by_path_prefix self n = Ok assignments).
  { unfold group_endpoints_by_path_prefix. rewrite Eg. cbn [bind]. rewrite Ea.
    cbn [bind]. rewrite (distinct_assignments assignments []) by exact Hlabels.
    reflexivity. }
  assert (Hgroups : forall g, In g assignments ->
                               splittable (spec self) (snd g) = true).
  { intros g Hg. apply (splittable_incl _ _ _) with (2 := Hshape).
    intros e He. apply (Permutation_in _ Hperm).
    apply in_concat. exists (snd g). split; [apply in_map; exact Hg | exact He]. }
  destruct (write_groups_ok self assignments Hgroups ([], []))
    as [files [entries [Ef Hfiles]]].
  assert (Hsame : forall x, In x (pairs (concat (map snd assignments)))
                            <-> In x (pairs (filter operation_is_dict operations))).
  { intros x; unfold pairs; split; intros Hx;
      apply in_map_iff in Hx; destruct Hx as [e [<- He]]; apply in_map;
      [apply (Permutation_in _ Hperm) |
       apply (Permutation_in _ (Permutation_sym Hperm))]; exact He. }
  destruct (round_trip_of_groups (map snd assignments) (map snd files)
              (filter operation_is_dict operations) Hfiles Hnd Hmethods Hsame)
    as [merged [operations' [Em [Eo Hp]]]].
  assert (Hall : files <> [] ->
                 mergeable (spec self) = true -> components_wf self ->
                 forall strategy output_format,
                   OpenAPIMerger.save_spec output_format = Ok tt ->
                   exists self',
                     OpenAPIMerger.merge_all OpenAPIMerger.init (map Ok (map snd files))
                       strategy output_format = Ok self' /\
                     merged_pairs self' (filter operation_is_dict operations)).
  { intros Hne Hmerge Hcomponents strategy output_format Hsave.
    apply (merge_all_of_split self Hcomponents
             (map snd assignments) (map snd files)
             (filter operation_is_dict operations) (filter operation_is_dict operations)
             strategy output_format Hshape Hfiles).
    - apply (write_groups_ready repr self Hmerge assignments ([], []) _ Hgroups Ef).
      constructor.
    - destruct files; [contradiction Hne; reflexivity | discriminate].
    - exact Hnd.
    - exact Hmethods.
    - exact Hsame.
    - exact Hsave. }
  assert (Hpaths : exists merged0,
             merge_paths_of (map snd files) = Ok merged0 /\
             merged_pairs merged0 (filter operation_is_dict operations)).
  { exists merged. split; [exact Em|]. exists operations'. split; assumption. }
  unfold split_by_path_prefix. rewrite Hfinal. cbn [bind].
  destruct assignments as [|a0 rest] eqn:Eas.
  - eexists. split; [reflexivity|]. cbn [written map].
    assert (Hnone : files = [])
      by (destruct files; [reflexivity | inversion Hfiles]).
    subst files. split; [exact Hpaths | exact Hall].
  - rewrite <- Eas in *. rewrite Ef. cbn [bind fst snd app].
    eexists. split; [reflexivity|]. cbn [written]. split; [exact Hpaths | exact Hall].
Qed.

End PathGroups.


(** C1, as the code has it.  For a document whose [paths] is a mapping and
    that [create_mini_spec] accepts, with at least one operation per file:
    the size-based split followed by the merge of all the mini-documents
    gives a document with exactly the [(path, method)] pairs of the source,
    each once; the path-prefix split followed by the merge gives exactly
    the pairs of the source whose operation is a mapping, each once,
    provided no two groups receive the same label.  The merge is that of
    the paths of the written documents and, when a file was written and the
    merger accepts the tags and components of the source, the whole of
    [merge_all], which then completes under every conflict strategy
    ([round_trip]). *)
Theorem split_merge_round_trip
    (repr : json -> string) (self : OpenAPISplitter.state)
    (sp : dict json) (operations : list OperationCounter.endpoint) (n : Z) :
  dict_get_default "paths" (JObj []) (OpenAPISplitter.spec self) = JObj sp ->
  dict_wf sp ->
  OperationCounter.get_operations (OpenAPISplitter.spec self) = Ok operations ->
  (1 <= n)%Z ->
  (splittable (OpenAPISplitter.spec self) operations = true ->
   exists r,
     OpenAPISplitter.split_by_size repr self n = Ok r /\
     round_trip self r operations) /\
  (splittable (OpenAPISplitter.spec self) (filter operation_is_dict operations) = true ->
   labels_distinct self n ->
   exists r,
     OpenAPISplitter.split_by_path_prefix repr self n = Ok r /\
     round_trip self r (filter operation_is_dict operations)).
Proof.
  intros Hsp Hwf Hops Hn. split.
  - intros Hshape. apply (size_round_trip repr self sp operations n); assumption.
  - intros Hshape Hlabels. apply (path_round_trip repr self sp operations n); assumption.
Qed.

Lemma split_merge_round_trip_witness :
  let sp := [("/pets", JObj [("post", JObj [("tags", JArr [JStr "pets"])]);
                             ("get", JObj [("tags", JArr [JStr "pets"])])]);
             ("/pets/{id}", JObj [("get", JObj []); ("delete", JObj [])]);
             ("/owners", JObj [("get", JObj [("tags", JArr [JStr "owners"])])])] in
  let pet := JObj [("type", JStr "object")] in
  let doc := [("openapi", JStr "3.0.3");
              ("info", JObj [("title", JStr "Pet Store"); ("version", JStr "1.0.0")]);
              ("servers", JArr [JObj [("url", JStr "https://pets.example")]]);
              ("tags", JArr [JObj [("name", JStr "pets")];
                             JObj [("name", JStr "owners")]]);
              ("paths", JObj sp);
              ("components", JObj [("schemas", JObj [("Pet", pet)])])] in
  let self := {| OpenAPISplitter.spec_path := "api.json";
                 OpenAPISplitter.spec := doc;
                 OpenAPISplitter.common_components :=
                   [("schemas", JObj [("Pet", pet)]); ("responses", JObj [])];
                 OpenAPISplitter.st_mtime := JNum 1700000000 |} in
  let operations := [("/pets", "get", JObj [("tags", JArr [JStr "pets"])]);
                     ("/pets", "post", JObj [("tags", JArr [JStr "pets"])]);
                     ("/pets/{id}", "get", JObj []);
                     ("/pets/{id}", "delete", JObj []);
                     ("/owners", "get", JObj [("tags", JArr [JStr "owners"])])] in
  (exists r merged self',
      OpenAPISplitter.split_by_size (fun _ => "") self 2 = Ok r /\
      List.length (OpenAPISplitter.written r) = 3 /\
      merge_paths_of (map snd (OpenAPISplitter.written r)) = Ok merged /\
      merged_pairs merged operations /\
      OpenAPIMerger.merge_all OpenAPIMerger.init
        (map Ok (map snd (OpenAPISplitter.written r))) "error" "json" = Ok self' /\
      merged_pairs self' operations) /\
  (exists r merged self',
      OpenAPISplitter.split_by_path_prefix (fun _ => "") self 2 = Ok r /\
      List.length (OpenAPISplitter.written r) = 3 /\
      merge_paths_of (map snd (OpenAPISplitter.written r)) = Ok merged /\
      merged_pairs merged operations /\
      OpenAPIMerger.merge_all OpenAPIMerger.init
        (map Ok (map snd (OpenAPISplitter.written r))) "keep_first" "yaml" = Ok self' /\
      merged_pairs self' operations).
Proof.
  intros sp pet doc self operations.
  assert (Hcomponents : components_wf self).
  { split.
    - unfold dict_wf. simpl. repeat (constructor; [simpl; intuition discriminate|]).
      constructor.
    - eexists. split; [reflexivity|]. intros comp_type v _.
      simpl. destruct (String.eqb comp_type "schemas").
      + intros [= <-]. eexists. split; [reflexivity|].
        unfold dict_wf. simpl. repeat (constructor; [simpl; intuition discriminate|]).
        constructor.
      + destruct (String.eqb comp_type "responses"); [|discriminate].
        intros [= <-]. eexists. split; [reflexivity | constructor]. }
  destruct (split_merge_round_trip (fun _ => "") self sp operations 2)
    as [Hsize Hpath].
  - reflexivity.
  - unfold dict_wf. simpl. repeat (constructor; [simpl; intuition discriminate|]).
    constructor.
  - reflexivity.
  - lia.
  - split.
    + destruct (Hsize eq_refl) as [r [Er [[merged [Em Hm]] Hall]]].
      assert (Hlen : List.length (OpenAPISplitter.written r) = 3).
      { vm_compute in Er. injection Er as <-. reflexivity. }
      destruct (Hall ltac:(intros Hnil; rewrite Hnil in Hlen; discriminate Hlen)
                     eq_refl Hcomponents "error" "json" eq_refl) as [self' [Es Hs]].
      exists r, merged, self'. tauto.
    + destruct (Hpath eq_refl) as [r [Er [[merged [Em Hm]] Hall]]].
      * eexists. eexists. split; [reflexivity|]. split; [reflexivity|].
        simpl. repeat (constructor; [simpl; intuition discriminate|]). constructor.
      * assert (Hlen : List.length (OpenAPISplitter.written r) = 3).
        { vm_compute in Er. injection Er as <-. reflexivity. }
        destruct (Hall ltac:(intros Hnil; rewrite Hnil in Hlen; discriminate Hlen)
                       eq_refl Hcomponents "keep_first" "yaml" eq_refl) as [self' [Es Hs]].
        exists r, merged, self'. tauto.
Defined.

(** C1, counterexamples to the claim as stated, both for the path-prefix
    split.  In the first document the operation [GET /status] is a string,
    not a mapping: it is left out of every group.  In the second the group
    [a] is cut into [a_part1] and [a_part2] and the path [/a_part1] has the
    group label [a_part1] too: the later assignment replaces the earlier
    group and [GET /a] is lost. *)
Lemma path_split_round_trip_fails :
  let self1 :=
    {| OpenAPISplitter.spec_path := "api.json";
       OpenAPISplitter.spec :=
         [("openapi", JStr "3.0.3");
          ("paths", JObj [("/status", JObj [("get", JStr "TODO")]);
                          ("/pets", JObj [("get", JObj [])])])];
       OpenAPISplitter.common_components := [];
       OpenAPISplitter.st_mtime := JNum 1700000000 |} in
  let self2 :=
    {| OpenAPISplitter.spec_path := "api.json";
       OpenAPISplitter.spec :=
         [("openapi", JStr "3.0.3");
          ("paths", JObj [("/a", JObj [("get", JObj []); ("post", JObj [])]);
                          ("/a_part1", JObj [("get", JObj [])])])];
       OpenAPISplitter.common_components := [];
       OpenAPISplitter.st_mtime := JNum 1700000000 |} in
  (exists operations r merged operations',
      OperationCounter.get_operations (OpenAPISplitter.spec self1) = Ok operations /\
      OpenAPISplitter.split_by_path_prefix (fun _ => "") self1 50 = Ok r /\
      merge_paths_of (map snd (OpenAPISplitter.written r)) = Ok merged /\
      OperationCounter.get_operations (OpenAPIMerger.merged_spec merged)
      = Ok operations' /\
      pairs operations = [("/status", "get"); ("/pets", "get")] /\
      pairs operations' = [("/pets", "get")] /\
      ~ Permutation (pairs operations') (pairs operations)) /\
  (exists operations r merged operations',
      OperationCounter.get_operations (OpenAPISplitter.spec self2) = Ok operations /\
      OpenAPISplitter.split_by_path_prefix (fun _ => "") self2 1 = Ok r /\
      merge_paths_of (map snd (OpenAPISplitter.written r)) = Ok merged /\
      OperationCounter.get_operations (OpenAPIMerger.merged_spec merged)
      = Ok operations' /\
      pairs operations = [("/a", "get"); ("/a", "post"); ("/a_part1", "get")] /\
      pairs operations' = [("/a_part1", "get"); ("/a", "post")] /\
      ~ Permutation (pairs operations') (pairs operations)).
Proof.
  intros self1 self2. split.
  - eexists. eexists. eexists. eexists.
    split; [reflexivity|]. split; [reflexivity|]. split; [reflexivity|].
    split; [reflexivity|]. split; [reflexivity|]. split; [reflexivity|].
    intros H. apply Permutation_length in H. discriminate H.
  - eexists. eexists. eexists. eexists.
    split; [reflexivity|]. split; [reflexivity|]. split; [reflexivity|].
    split; [reflexivity|]. split; [reflexivity|]. split; [reflexivity|].
    intros H. apply Permutation_length in H. discriminate H.
Qed.

(** ** The 75 / 30 boundary *)

Section Boundary.

Import OperationCounter.
Import OpenAPISplitter.

(** The operations of a document built from a group of endpoints. *)
Lemma mini_operations (mini : dict json) (g : list endpoint) :
  dict_get "paths" mini = Some (paths_value (fold_left add_endpoint g [])) ->
  NoDup (pairs g) ->
  (forall e, In e g -> In (endpoint_method e) HTTP_METHODS) ->
  exists operations,
    get_operations mini = Ok operations /\ Permutation (pairs operations) (pairs g).
Proof.
  intros Hmini Hnd Hmethods.
  destruct (operations_of_mapping mini _ Hmini
              (mapping_wf_add_endpoints g [] mapping_wf_nil))
    as [operations [E [Hnd' Hin]]].
  exists operations. split; [exact E|].
  apply NoDup_Permutation; [exact Hnd' | exact Hnd |].
  intros [p m]. rewrite Hin, lookup2_add_endpoints. split.
  - intros [_ [H|H]]; [exact H | discriminate].
  - intros H. split; [|left; exact H].
    unfold pairs in H. apply in_map_iff in H. destruct H as [e [He Hin']].
    specialize (Hmethods e Hin'). unfold endpoint_method in Hmethods.
    rewrite He in Hmethods. exact Hmethods.
Qed.

Lemma slice_operations (mini : dict json) (operations : list endpoint) (i j : nat) :
  NoDup (pairs operations) ->
  (forall e, In e operations -> In (endpoint_method e) HTTP_METHODS) ->
  dict_get "paths" mini
  = Some (paths_value (fold_left add_endpoint (slice operations i j) [])) ->
  exists listed,
    get_operations mini = Ok listed /\
    List.length listed = List.length (slice operations i j).
Proof.
  intros Hnd Hmethods Hmini.
  destruct (mini_operations mini (slice operations i j) Hmini) as [listed [E Hperm]].
  - rewrite pairs_slice. unfold slice. apply NoDup_firstn, NoDup_skipn. exact Hnd.
  - intros e He. apply Hmethods. eapply slice_incl. exact He.
  - exists listed. split; [exact E|].
    apply Permutation_length in Hperm. unfold pairs in Hperm.
    rewrite !length_map in Hperm. exact Hperm.
Qed.

Lemma split_by_size_loop (repr : json -> string) self operations n :
  get_operations (spec self) = Ok operations ->
  operations <> [] ->
  split_by_size repr self n
  = (starts <- range_step (List.length operations) n ;;
     r <- foldM (write_part repr self operations (Z.to_nat n)) starts ([], []) ;;
     Ok {| written := fst r; mapping := make_mapping "size-based" (snd r) self |}).
Proof.
  intros H Hne. unfold split_by_size. rewrite H. cbn [bind].
  destruct operations; [contradiction | reflexivity].
Qed.

End Boundary.

(** C5.  A source with exactly 75 operations, split by size with 30
    operations per file, gives three files named [spec_part001.json],
    [spec_part002.json] and [spec_part003.json]; their documents are built
    from the operations 0-29, 30-59 and 60-74 of the source and list 30, 30
    and 15 operations, and the mapping records these counts under the part
    numbers 1, 2 and 3. *)
Theorem split_by_size_boundary
    (repr : json -> string) (self : OpenAPISplitter.state)
    (sp : dict json) (operations : list OperationCounter.endpoint) :
  dict_get_default "paths" (JObj []) (OpenAPISplitter.spec self) = JObj sp ->
  dict_wf sp ->
  OperationCounter.get_operations (OpenAPISplitter.spec self) = Ok operations ->
  splittable (OpenAPISplitter.spec self) operations = true ->
  List.length operations = 75 ->
  exists m1 m2 m3 c1 c2 c3 o1 o2 o3,
    OpenAPISplitter.split_by_size repr self 30
    = Ok {| OpenAPISplitter.written :=
              [("spec_part001.json", m1); ("spec_part002.json", m2);
               ("spec_part003.json", m3)];
            OpenAPISplitter.mapping :=
              OpenAPISplitter.make_mapping "size-based"
                [OpenAPISplitter.mapping_entry "spec_part001.json" "part" (JNum 1) c1;
                 OpenAPISplitter.mapping_entry "spec_part002.json" "part" (JNum 2) c2;
                 OpenAPISplitter.mapping_entry "spec_part003.json" "part" (JNum 3) c3]
                self |} /\
    operations = c1 ++ c2 ++ c3 /\
    List.length c1 = 30 /\ List.length c2 = 30 /\ List.length c3 = 15 /\
    mini_spec_of repr self c1 "Part 1" m1 /\
    mini_spec_of repr self c2 "Part 2" m2 /\
    mini_spec_of repr self c3 "Part 3" m3 /\
    OperationCounter.get_operations m1 = Ok o1 /\ List.length o1 = 30 /\
    OperationCounter.get_operations m2 = Ok o2 /\ List.length o2 = 30 /\
    OperationCounter.get_operations m3 = Ok o3 /\ List.length o3 = 15.
Proof.
  intros Hsp Hwf Hops Hshape Hlen.
  assert (Hlist : operations
                  = flat_map (fun entry =>
                                OperationCounter.path_item_operations
                                  (fst entry) (snd entry)) sp).
  { unfold OperationCounter.get_operations in Hops. rewrite Hsp in Hops.
    cbn [items bind] in Hops. injection Hops as <-. reflexivity. }
  assert (Hnd : NoDup (pairs operations))
    by (rewrite Hlist; apply operations_pairs_NoDup; exact Hwf).
  assert (Hmethods : forall e, In e operations ->
                               In (endpoint_method e) OperationCounter.HTTP_METHODS)
    by (rewrite Hlist; apply operations_methods).
  clear Hlist.
  destruct (write_parts_ok repr self operations 30 [0; 30; 60]
              (fun i _ => splittable_incl _ _ _
                            (slice_incl operations i _) Hshape)
              ([], [])) as [files [Efiles Hfiles]].
  inversion Hfiles as [|i1 f1 l1 fs1 [Hn1 Hm1] Hrest1]; subst.
  inversion Hrest1 as [|i2 f2 l2 fs2 [Hn2 Hm2] Hrest2]; subst.
  inversion Hrest2 as [|i3 f3 l3 fs3 [Hn3 Hm3] Hrest3]; subst.
  inversion Hrest3; subst.
  destruct f1 as [n1 m1], f2 as [n2 m2], f3 as [n3 m3].
  cbn [fst snd] in *.
  change ("spec_part" +++ format_03d (0 / 30 + 1) +++ ".json")
    with "spec_part001.json" in *.
  change ("spec_part" +++ format_03d (30 / 30 + 1) +++ ".json")
    with "spec_part002.json" in *.
  change ("spec_part" +++ format_03d (60 / 30 + 1) +++ ".json")
    with "spec_part003.json" in *.
  change ("Part " +++ str_of_nat (0 / 30 + 1)) with "Part 1" in *.
  change ("Part " +++ str_of_nat (30 / 30 + 1)) with "Part 2" in *.
  change ("Part " +++ str_of_nat (60 / 30 + 1)) with "Part 3" in *.
  subst n1 n2 n3.
  set (c1 := OpenAPISplitter.slice operations 0 (0 + 30)) in *.
  set (c2 := OpenAPISplitter.slice operations 30 (30 + 30)) in *.
  set (c3 := OpenAPISplitter.slice operations 60 (60 + 30)) in *.
  assert (L1 : List.length c1 = 30)
    by (subst c1; unfold OpenAPISplitter.slice;
        rewrite length_firstn, length_skipn; lia).
  assert (L2 : List.length c2 = 30)
    by (subst c2; unfold OpenAPISplitter.slice;
        rewrite length_firstn, length_skipn; lia).
  assert (L3 : List.length c3 = 15)
    by (subst c3; unfold OpenAPISplitter.slice;
        rewrite length_firstn, length_skipn; lia).
  destruct (slice_operations m1 operations 0 (0 + 30) Hnd Hmethods
              (proj2 (proj2 (proj2 Hm1)))) as [o1 [E1 Lo1]].
  destruct (slice_operations m2 operations 30 (30 + 30) Hnd Hmethods
              (proj2 (proj2 (proj2 Hm2)))) as [o2 [E2 Lo2]].
  destruct (slice_operations m3 operations 60 (60 + 30) Hnd Hmethods
              (proj2 (proj2 (proj2 Hm3)))) as [o3 [E3 Lo3]].
  exists m1, m2, m3, c1, c2, c3, o1, o2, o3.
  split.
  { rewrite (split_by_size_loop repr self operations 30 Hops)
      by (intros ->; discriminate Hlen).
    rewrite Hlen.
    change (OpenAPISplitter.range_step 75 30) with (@Ok (list nat) [0; 30; 60]).
    cbn [bind]. change (Z.to_nat 30) with 30.
    rewrite Efiles. reflexivity. }
  split.
  { pose proof (chunks_concat operations 30 3) as Hc.
    cbn [seq map concat Nat.mul Nat.add] in Hc. rewrite app_nil_r in Hc.
    rewrite firstn_all2 in Hc by lia. symmetry. exact Hc. }
  fold c1 in Lo1. fold c2 in Lo2. fold c3 in Lo3.
  repeat split; try assumption; try apply Hm1; try apply Hm2; try apply Hm3; congruence.
Qed.

Lemma split_by_size_boundary_witness :
  let every_method :=
    JObj (map (fun m => (m, JObj [("tags", JArr [JStr "bulk"])]))
              OperationCounter.HTTP_METHODS) in
  let sp := [("/a", every_method); ("/b", every_method); ("/c", every_method);
             ("/d", every_method); ("/e", every_method); ("/f", every_method);
             ("/g", every_method); ("/h", every_method); ("/i", every_method);
             ("/j", JObj [("get", JObj []); ("post", JObj []); ("put", JObj [])])] in
  let doc := [("openapi", JStr "3.0.3");
              ("info", JObj [("title", JStr "Bulk API"); ("version", JStr "1.0.0")]);
              ("paths", JObj sp)] in
  let self := {| OpenAPISplitter.spec_path := "api.json";
                 OpenAPISplitter.spec := doc;
                 OpenAPISplitter.common_components := [];
                 OpenAPISplitter.st_mtime := JNum 1700000000 |} in
  exists r m1 m2 m3 o1 o2 o3,
    OpenAPISplitter.split_by_size (fun _ => "") self 30 = Ok r /\
    OpenAPISplitter.written r
    = [("spec_part001.json", m1); ("spec_part002.json", m2);
       ("spec_part003.json", m3)] /\
    OperationCounter.get_operations m1 = Ok o1 /\ List.length o1 = 30 /\
    OperationCounter.get_operations m2 = Ok o2 /\ List.length o2 = 30 /\
    OperationCounter.get_operations m3 = Ok o3 /\ List.length o3 = 15.
Proof.
  intros every_method sp doc self.
  destruct (split_by_size_boundary (fun _ => "") self sp
              (flat_map (fun entry =>
                           OperationCounter.path_item_operations (fst entry) (snd entry))
                        sp))
    as [m1 [m2 [m3 [c1 [c2 [c3 [o1 [o2 [o3 H]]]]]]]]].
  - reflexivity.
  - unfold dict_wf. simpl. repeat (constructor; [simpl; intuition discriminate|]).
    constructor.
  - reflexivity.
  - reflexivity.
  - reflexivity.
  - eexists. exists m1, m2, m3, o1, o2, o3.
    destruct H as [Hrun [_ [_ [_ [_ [_ [_ [_ H]]]]]]]].
    split; [exact Hrun|]. split; [reflexivity | exact H].
Defined.

(* ------------------------------------------------------------------ *)
(** * Further properties of the code *)

(** Discharges [dict_wf] of a dict written out in full. *)
Ltac wf_keys :=
  unfold dict_wf; simpl; repeat (constructor; [simpl; intuition discriminate|]);
  constructor.

(** ** [validate_spec_structure] *)

Lemma validate_spec_structure_nil (spec : dict json) :
  validate_spec_structure spec = [] <->
  (dict_mem "openapi" spec || dict_mem "swagger" spec = true) /\
  (exists info, dict_get "info" spec = Some (JObj info) /\
                dict_mem "title" info = true /\ dict_mem "version" info = true) /\
  (exists paths, dict_get "paths" spec = Some (JObj paths) /\ paths <> []) /\
  (forall c, dict_get "components" spec = Some c -> is_dict c = true).
Proof.
  unfold validate_spec_structure. split.
  - intros H.
    apply app_eq_nil in H. destruct H as [Hv H].
    apply app_eq_nil in H. destruct H as [Hi H].
    apply app_eq_nil in H. destruct H as [Hp Hc].
    split; [destruct (dict_mem "openapi" spec || dict_mem "swagger" spec);
            [reflexivity | discriminate]|].
    split.
    { destruct (dict_get "info" spec) as [[ | | | | |info]|]; try discriminate.
      exists info. split; [reflexivity|].
      apply app_eq_nil in Hi. destruct Hi as [Ht Hver].
      split; [destruct (dict_mem "title" info) | destruct (dict_mem "version" info)];
        (reflexivity || discriminate). }
    split.
    { destruct (dict_get "paths" spec) as [[ | | | | |paths]|]; try discriminate.
      exists paths. split; [reflexivity|]. intros ->. discriminate. }
    intros c Hget. rewrite Hget in Hc. destruct c; (reflexivity || discriminate).
  - intros [Hv [[info [Hi [Ht Hver]]] [[paths [Hp Hne]] Hc]]].
    rewrite Hv, Hi, Ht, Hver, Hp. cbn [app].
    assert (Htruthy : truthy (JObj paths) = true)
      by (destruct paths; [contradiction | reflexivity]).
    rewrite Htruthy. cbn [app].
    destruct (dict_get "components" spec) as [c|]; [|reflexivity].
    specialize (Hc c eq_refl). destruct c; (reflexivity || discriminate).
Qed.

(** X1. [validate] of the analyzer reports [is_valid] exactly for a document
    that has a version key ([openapi] or [swagger]), an [info] mapping with
    [title] and [version], a non-empty [paths] mapping and, when it has
    [components], a mapping there; it never lists more than five issues. *)
Theorem validate_is_valid_iff (self : OpenAPIAnalyzer.state) :
  let spec := OpenAPIAnalyzer.spec self in
  List.length (validate_spec_structure spec) <= 5 /\
  (dict_get "is_valid" (OpenAPIAnalyzer.validate self) = Some (JBool true) <->
   (dict_mem "openapi" spec || dict_mem "swagger" spec = true) /\
   (exists info, dict_get "info" spec = Some (JObj info) /\
                 dict_mem "title" info = true /\ dict_mem "version" info = true) /\
   (exists paths, dict_get "paths" spec = Some (JObj paths) /\ paths <> []) /\
   (forall c, dict_get "components" spec = Some c -> is_dict c = true)).
Proof.
  intros spec. split.
  - unfold validate_spec_structure. rewrite !length_app.
    destruct (dict_mem "openapi" spec || dict_mem "swagger" spec);
      destruct (dict_get "info" spec) as [[ | | | | |info]|];
      try destruct (dict_mem "title" info); try destruct (dict_mem "version" info);
      destruct (dict_get "paths" spec) as [[ | | | | |paths]|];
      try destruct (truthy (JObj paths));
      destruct (dict_get "components" spec) as [[ | | | | |c]|];
      cbn [List.length app Nat.add]; lia.
  - rewrite <- validate_spec_structure_nil.
    unfold OpenAPIAnalyzer.validate. fold spec.
    cbn [dict_get String.eqb Ascii.eqb Bool.eqb].
    destruct (validate_spec_structure spec); cbn [List.length Nat.eqb]; split; intros H;
      (reflexivity || discriminate).
Qed.

Section MiniValid.

Import OperationCounter.
Import OpenAPISplitter.

Variable repr : json -> string.

Lemma create_mini_spec_components self endpoints name include_components mini :
  create_mini_spec repr self endpoints name include_components = Ok mini ->
  forall c, dict_get "components" mini = Some c -> is_dict c = true.
Proof.
  unfold create_mini_spec. intros H c.
  do 8 bind_inv H. injection H as <-.
  rewrite !dict_get_set_other by discriminate.
  assert (E23 : dict_get "components" a2 = dict_get "components" a1).
  { destruct (dict_get "tags" (spec self)) as [spec_tags|];
      [|injection E2 as <-; reflexivity].
    bind_inv E2.
    match type of E2 with
    | context [truthy ?x] => destruct (truthy x)
    end; [|injection E2 as <-; reflexivity].
    bind_inv E2. injection E2 as <-. apply dict_get_set_other. discriminate. }
  rewrite E23.
  rewrite (optional_copy_frame "components" "security" _ _ _ ltac:(discriminate) E1).
  rewrite (optional_copy_frame "components" "servers" _ _ _ ltac:(discriminate) E0).
  destruct (include_components && truthy (JObj (common_components self))).
  - rewrite dict_get_set_same. intros [= <-]. reflexivity.
  - cbn. discriminate.
Qed.

Lemma add_endpoints_nonempty (endpoints : list endpoint) q :
  endpoints <> [] \/ q <> [] -> fold_left add_endpoint endpoints q <> [].
Proof.
  revert q. induction endpoints as [|[[p m] o] rest IH]; intros q H.
  - destruct H as [H|H]; [contradiction | exact H].
  - cbn [fold_left]. apply IH. right. unfold add_endpoint.
    destruct (dict_mem p q); intros Hnil.
    + destruct q as [|[k v] q]; [|cbn in Hnil; destruct (String.eqb p k); discriminate].
      discriminate.
    + destruct (dict_set p [] q) as [|[k v] q'] eqn:E;
        [destruct q as [|[k' v'] q]; cbn in E; [|destruct (String.eqb p k')]; discriminate|].
      cbn in Hnil. destruct (String.eqb p k); discriminate.
Qed.

(** X2. Every mini-document that [create_mini_spec] builds from at least one
    endpoint passes [validate_spec_structure] with no issue, provided the
    [info] of the source, when it has one, carries a [version]: the
    mini-document always has an [openapi] key, a titled [info], non-empty
    [paths] and, if any, a [components] mapping. *)
Theorem create_mini_spec_valid
    (self : state) (endpoints : list endpoint) (name : string)
    (include_components : bool) :
  splittable (spec self) endpoints = true ->
  endpoints <> [] ->
  (forall info, dict_get "info" (spec self) = Some (JObj info) ->
                dict_mem "version" info = true) ->
  exists mini,
    create_mini_spec repr self endpoints name include_components = Ok mini /\
    validate_spec_structure mini = [].
Proof.
  intros Hshape Hne Hversion.
  destruct (create_mini_spec_ok repr self endpoints name include_components Hshape)
    as [mini [E [Hopenapi [_ [Hinfo Hpaths]]]]].
  exists mini. split; [exact E|]. apply validate_spec_structure_nil.
  split; [unfold dict_mem; rewrite Hopenapi; reflexivity|].
  split.
  { eexists. split; [exact Hinfo|]. unfold split_info, dict_mem.
    split; [rewrite !dict_get_set_other by discriminate; rewrite dict_get_set_same;
            reflexivity|].
    rewrite !dict_get_set_other by discriminate.
    unfold source_info.
    destruct (dict_get "info" (spec self)) as [[ | | | | |info]|] eqn:Ei; try reflexivity.
    apply (Hversion info eq_refl). }
  split.
  { eexists. split; [exact Hpaths|]. intros Hnil.
    apply map_eq_nil in Hnil. revert Hnil. apply add_endpoints_nonempty. left. exact Hne. }
  apply (create_mini_spec_components self endpoints name include_components mini E).
Qed.

End MiniValid.

Lemma create_mini_spec_valid_witness :
  let self := {| OpenAPISplitter.spec_path := "api.json";
                 OpenAPISplitter.spec :=
                   [("swagger", JStr "2.0");
                    ("info", JObj [("title", JStr "Pet Store"); ("version", JStr "1.0.0")]);
                    ("paths", JObj [("/pets", JObj [("get", JObj [])])])];
                 OpenAPISplitter.common_components := [("schemas", JObj [])];
                 OpenAPISplitter.st_mtime := JNum 1700000000 |} in
  exists mini,
    OpenAPISplitter.create_mini_spec (fun _ => "") self [("/pets", "get", JObj [])]
      "Part 1" true = Ok mini /\
    validate_spec_structure mini = [].
Proof.
  intros self.
  apply (create_mini_spec_valid (fun _ => "") self [("/pets", "get", JObj [])] "Part 1" true).
  - reflexivity.
  - discriminate.
  - intros info [= <-]. reflexivity.
Defined.

(** ** [ComponentExtractor.extract_components] *)

Section Extract.

Import ComponentExtractor.

Variable c : dict json.

Lemma extract_loop_ok (ts : list string) :
  (forall t v, In t ts -> dict_get t c = Some v -> copyable v = true) ->
  forall acc,
  incl ts (dict_keys acc) ->
  exists r,
    foldM (fun components comp_type =>
             b <- contains comp_type (JObj c) ;;
             if b : bool
             then v <- getitem (JObj c) comp_type ;;
                  v' <- copy v ;;
                  Ok (dict_set comp_type v' components)
             else Ok components) ts acc = Ok r /\
    dict_keys r = dict_keys acc /\
    forall t,
      dict_get t r
      = if existsb (String.eqb t) ts
        then match dict_get t c with Some v => Some v | None => dict_get t acc end
        else dict_get t acc.
Proof.
  induction ts as [|t0 ts IH]; intros Hcopy acc Hincl; cbn [foldM].
  - exists acc. split; [reflexivity|]. split; reflexivity.
  - cbn [contains bind getitem]. unfold dict_mem.
    destruct (dict_get t0 c) as [v|] eqn:Ev; cbn [bind].
    + pose proof (Hcopy t0 v (or_introl eq_refl) Ev) as Hv.
      assert (Ecopy : copy v = Ok v) by (destruct v; try discriminate; reflexivity).
      rewrite Ecopy. cbn [bind].
      destruct (IH (fun t v Ht => Hcopy t v (or_intror Ht)) (dict_set t0 v acc))
        as [r [E [Hk Hget]]].
      { intros x Hx. rewrite dict_keys_set.
        destruct (dict_mem t0 acc); [|apply in_or_app; left];
          apply Hincl; right; exact Hx. }
      exists r. split; [exact E|]. split.
      * rewrite Hk. rewrite dict_keys_set.
        assert (Hm : dict_mem t0 acc = true)
          by (apply dict_mem_In; apply Hincl; left; reflexivity).
        rewrite Hm. reflexivity.
      * intros t. rewrite Hget. cbn [existsb]. rewrite dict_get_set.
        destruct (String.eqb t t0) eqn:Et.
        -- apply String.eqb_eq in Et. subst t0. rewrite Ev. cbn [orb].
           destruct (existsb (String.eqb t) ts); reflexivity.
        -- cbn [orb]. reflexivity.
    + destruct (IH (fun t v Ht => Hcopy t v (or_intror Ht)) acc
                  (fun x Hx => Hincl x (or_intror Hx))) as [r [E [Hk Hget]]].
      exists r. split; [exact E|]. split; [exact Hk|].
      intros t. rewrite Hget. cbn [existsb].
      destruct (String.eqb t t0) eqn:Et; [|reflexivity].
      apply String.eqb_eq in Et. subst t0. rewrite Ev. cbn [orb].
      destruct (existsb (String.eqb t) ts); reflexivity.
Qed.

Lemma extract_loop_raises (ts : list string) t v :
  In t ts -> dict_get t c = Some v -> copyable v = false ->
  forall acc,
    foldM (fun components comp_type =>
             b <- contains comp_type (JObj c) ;;
             if b : bool
             then v <- getitem (JObj c) comp_type ;;
                  v' <- copy v ;;
                  Ok (dict_set comp_type v' components)
             else Ok components) ts acc = Raise AttributeError.
Proof.
  intros Hin Hv Hscalar. induction ts as [|t0 ts IH]; intros acc; [contradiction|].
  cbn [foldM contains bind getitem]. unfold dict_mem.
  destruct (dict_get t0 c) as [v0|] eqn:Ev; cbn [bind].
  - destruct (copy v0) as [v0'|e] eqn:Ec; cbn [bind].
    + destruct Hin as [<-|Hin]; [|apply IH; exact Hin].
      rewrite Hv in Ev. injection Ev as <-.
      destruct v; discriminate.
    + destruct v0; try discriminate; injection Ec as <-; reflexivity.
  - destruct Hin as [<-|Hin]; [congruence | apply IH; exact Hin].
Qed.

End Extract.

(** X3. [extract_components] returns the nine component types, always in
    the order of [COMPONENT_TYPES], each with the section that the document
    holds for it or an empty mapping; sections under other keys are left
    out, and a document without [components] gives nine empty mappings.  It
    raises [AttributeError] as soon as a section of one of the nine types is
    a scalar. *)
Theorem extract_components_sections (spec : dict json) :
  (dict_get "components" spec = None ->
   ComponentExtractor.extract_components spec
   = Ok (map (fun t => (t, JObj [])) ComponentExtractor.COMPONENT_TYPES)) /\
  (forall c,
     dict_get "components" spec = Some (JObj c) ->
     (forall t v, In t ComponentExtractor.COMPONENT_TYPES ->
                  dict_get t c = Some v -> copyable v = true) ->
     exists components,
       ComponentExtractor.extract_components spec = Ok components /\
       dict_keys components = ComponentExtractor.COMPONENT_TYPES /\
       (forall t, In t ComponentExtractor.COMPONENT_TYPES ->
                  dict_get t components = Some (dict_get_default t (JObj []) c)) /\
       (forall t, ~ In t ComponentExtractor.COMPONENT_TYPES ->
                  dict_get t components = None)) /\
  (forall c t v,
     dict_get "components" spec = Some (JObj c) ->
     In t ComponentExtractor.COMPONENT_TYPES ->
     dict_get t c = Some v -> copyable v = false ->
     ComponentExtractor.extract_components spec = Raise AttributeError).
Proof.
  split; [|split].
  - intros H. unfold ComponentExtractor.extract_components. rewrite H. reflexivity.
  - intros c Hc Hcopy. unfold ComponentExtractor.extract_components. rewrite Hc.
    destruct (extract_loop_ok c ComponentExtractor.COMPONENT_TYPES Hcopy
                (map (fun t => (t, JObj [])) ComponentExtractor.COMPONENT_TYPES))
      as [r [E [Hk Hget]]].
    { unfold dict_keys. rewrite map_map. cbn [fst]. rewrite map_id. apply incl_refl. }
    exists r. split; [exact E|]. split.
    + rewrite Hk. unfold dict_keys. rewrite map_map. cbn [fst]. apply map_id.
    + split.
      * intros t Ht. rewrite Hget.
        assert (Hex : existsb (String.eqb t) ComponentExtractor.COMPONENT_TYPES = true).
        { apply existsb_exists. exists t. split; [exact Ht | apply String.eqb_refl]. }
        rewrite Hex. unfold dict_get_default.
        destruct (dict_get t c); [reflexivity|].
        apply dict_wf_In_get.
        -- unfold dict_wf, dict_keys. rewrite map_map. cbn [fst]. rewrite map_id.
           cbn. repeat (constructor; [simpl; intuition discriminate|]). constructor.
        -- apply in_map_iff. exists t. split; [reflexivity | exact Ht].
      * intros t Ht. rewrite Hget.
        assert (Hex : existsb (String.eqb t) ComponentExtractor.COMPONENT_TYPES = false).
        { destruct (existsb (String.eqb t) ComponentExtractor.COMPONENT_TYPES) eqn:Ex;
            [|reflexivity].
          apply existsb_exists in Ex. destruct Ex as [x [Hx Ex]].
          apply String.eqb_eq in Ex. subst x. contradiction. }
        rewrite Hex.
        destruct (dict_get t (map (fun t0 => (t0, JObj [])) ComponentExtractor.COMPONENT_TYPES))
          eqn:Eg; [|reflexivity].
        apply dict_get_In in Eg. apply in_map_iff in Eg.
        destruct Eg as [x [[= <- _] Hx]]. contradiction.
  - intros c t v Hc Ht Hv Hscalar. unfold ComponentExtractor.extract_components.
    rewrite Hc. apply (extract_loop_raises c _ t v Ht Hv Hscalar).
Qed.

Lemma extract_components_sections_witness :
  let c := [("schemas", JObj [("Pet", JObj [("type", JStr "object")])])] in
  let spec := [("openapi", JStr "3.0.3"); ("components", JObj c)] in
  exists components,
    ComponentExtractor.extract_components spec = Ok components /\
    dict_keys components = ComponentExtractor.COMPONENT_TYPES /\
    dict_get "schemas" components
    = Some (JObj [("Pet", JObj [("type", JStr "object")])]) /\
    dict_get "responses" components = Some (JObj []).
Proof.
  intros c spec.
  destruct (proj1 (proj2 (extract_components_sections spec)) c eq_refl)
    as [components [E [Hk [Hget _]]]].
  - intros t v _ H. simpl in H. destruct (String.eqb t "schemas"); [|discriminate].
    injection H as <-. reflexivity.
  - exists components. split; [exact E|]. split; [exact Hk|]. split.
    + apply (Hget "schemas"). simpl. tauto.
    + apply (Hget "responses"). simpl. tauto.
Defined.

(** ** [OpenAPIMerger.clean_merged_spec] *)

Section Clean.

Import OpenAPIMerger.

Lemma dict_del_app_notin {A : Type} k v (pre rest : dict A) :
  ~ In k (dict_keys pre) ->
  dict_del k (pre ++ (k, v) :: rest) = pre ++ rest.
Proof.
  induction pre as [|[k0 v0] pre IH]; cbn [app dict_del dict_keys map fst In]; intros H.
  - rewrite String.eqb_refl. reflexivity.
  - destruct (String.eqb k k0) eqn:E.
    + apply String.eqb_eq in E. subst k0. exfalso. apply H. left. reflexivity.
    + rewrite IH; [reflexivity|]. intros Hin. apply H. right. exact Hin.
Qed.

Lemma delete_empty_sections (rest pre : dict json) :
  dict_wf (pre ++ rest) ->
  foldM delitem (map fst (filter (fun e => negb (truthy (snd e))) rest)) (JObj (pre ++ rest))
  = Ok (JObj (pre ++ filter (fun e => truthy (snd e)) rest)).
Proof.
  revert pre. induction rest as [|[k v] rest IH]; intros pre Hwf; cbn [filter map foldM snd].
  - reflexivity.
  - destruct (truthy v) eqn:Ev; cbn [negb map fst foldM].
    + specialize (IH (pre ++ [(k, v)])). rewrite <- !app_assoc in IH.
      cbn [app] in IH. apply IH. exact Hwf.
    + assert (Hk : ~ In k (dict_keys pre)).
      { unfold dict_wf, dict_keys in *. rewrite map_app in Hwf. cbn [map fst] in Hwf.
        apply NoDup_remove_2 in Hwf. intros Hin. apply Hwf. apply in_or_app. left.
        exact Hin. }
      cbn [delitem].
      assert (Hmem : dict_mem k (pre ++ (k, v) :: rest) = true).
      { apply dict_mem_In. unfold dict_keys. rewrite map_app. apply in_or_app. right.
        left. reflexivity. }
      rewrite Hmem. cbn [bind]. rewrite (dict_del_app_notin k v pre rest Hk).
      apply IH. unfold dict_wf, dict_keys in *. rewrite map_app in *. cbn [map fst] in Hwf.
      apply NoDup_remove_1 in Hwf. exact Hwf.
Qed.

(** X4. [clean_merged_spec] removes exactly the empty component sections,
    keeping the others in their order; when none is left the [components]
    key itself is removed.  Nothing else of the document, and nothing of the
    statistics, changes.  So the cleaned document never holds an empty
    [components] mapping nor an empty section. *)
Theorem clean_merged_spec_sections (self : state) (sections : dict json) :
  dict_wf (merged_spec self) ->
  dict_get "components" (merged_spec self) = Some (JObj sections) ->
  dict_wf sections ->
  let kept := filter (fun e => truthy (snd e)) sections in
  exists self',
    clean_merged_spec self = Ok self' /\
    stats self' = stats self /\
    dict_get "components" (merged_spec self')
    = match kept with [] => None | _ => Some (JObj kept) end /\
    forall k, k <> "components" ->
              dict_get k (merged_spec self') = dict_get k (merged_spec self).
Proof.
  intros Hm Hc Hwf kept. unfold clean_merged_spec. rewrite Hc. cbn [items bind].
  pose proof (delete_empty_sections sections [] Hwf) as E. cbn [app] in E.
  rewrite E. cbn [bind]. fold kept.
  destruct kept as [|e kept'] eqn:Ek; cbn [truthy].
  - eexists. split; [reflexivity|]. cbn [stats merged_spec with_spec].
    split; [reflexivity|]. split.
    + apply dict_get_del_same. exact Hm.
    + intros k Hk. apply dict_get_del_other. exact Hk.
  - eexists. split; [reflexivity|]. cbn [stats merged_spec with_spec].
    split; [reflexivity|]. split; [apply dict_get_set_same|].
    intros k Hk. apply dict_get_set_other. exact Hk.
Qed.

End Clean.

Lemma clean_merged_spec_sections_witness :
  let sections := [("schemas", JObj []);
                   ("responses", JObj [("NotFound", JObj [])]);
                   ("parameters", JObj [])] in
  let self := OpenAPIMerger.with_spec OpenAPIMerger.init
                (dict_set "components" (JObj sections)
                   (OpenAPIMerger.merged_spec OpenAPIMerger.init)) in
  exists self',
    OpenAPIMerger.clean_merged_spec self = Ok self' /\
    dict_get "components" (OpenAPIMerger.merged_spec self')
    = Some (JObj [("responses", JObj [("NotFound", JObj [])])]).
Proof.
  intros sections self.
  destruct (clean_merged_spec_sections self sections) as [self' [E [_ [Hc _]]]].
  - wf_keys.
  - reflexivity.
  - wf_keys.
  - exists self'. split; [exact E | exact Hc].
Defined.

(** ** [split_by_size]: the parts in general, and the edges *)

Section SizeParts.

Import OperationCounter.
Import OpenAPISplitter.

Variable repr : json -> string.

Lemma Forall2_map_l {A B C : Type} (f : A -> B) (R : B -> C -> Prop) l l' :
  Forall2 R (map f l) l' <-> Forall2 (fun a c => R (f a) c) l l'.
Proof.
  revert l'. induction l as [|a l IH]; intros l'; split; intros H.
  - inversion H. constructor.
  - inversion H. constructor.
  - cbn [map] in H. inversion H; subst. constructor; [assumption | apply IH; assumption].
  - inversion H; subst. cbn [map]. constructor; [assumption | apply IH; assumption].
Qed.

Lemma slice_length {A : Type} (l : list A) (i s : nat) :
  List.length (slice l i (i + s)) = Nat.min s (List.length l - i).
Proof.
  unfold slice. replace (i + s - i) with s by lia.
  rewrite length_firstn, length_skipn. reflexivity.
Qed.

(** X5. [split_by_size] with [n >= 1] operations per file cuts the [N >= 1]
    operations of the source, in the order of [get_operations], into
    [ceil(N / n)] consecutive parts: part [k] (from 0) holds the operations
    [k*n .. k*n + n - 1], is written as [spec_part{k+1:03d}.json] under the
    name [Part {k+1}], and has between 1 and [n] operations; the parts put
    together are the operations of the source, and the mapping lists one
    entry per part in the same order. *)
Theorem split_by_size_parts
    (self : state) (operations : list endpoint) (n : Z) :
  get_operations (spec self) = Ok operations ->
  operations <> [] ->
  splittable (spec self) operations = true ->
  (1 <= n)%Z ->
  let s := Z.to_nat n in
  let count := (List.length operations + s - 1) / s in
  let part k := slice operations (k * s) (k * s + s) in
  exists files,
    split_by_size repr self n
    = Ok {| written := files;
            mapping :=
              make_mapping "size-based"
                (map (fun k => mapping_entry ("spec_part" +++ format_03d (k + 1) +++ ".json")
                                 "part" (JNum (Z.of_nat (k + 1))) (part k))
                     (seq 0 count))
                self |} /\
    Forall2 (fun k f =>
               fst f = "spec_part" +++ format_03d (k + 1) +++ ".json" /\
               mini_spec_of repr self (part k) ("Part " +++ str_of_nat (k + 1)) (snd f))
            (seq 0 count) files /\
    concat (map part (seq 0 count)) = operations /\
    forall k, k < count ->
              1 <= List.length (part k) <= s /\
              List.length (part k) = Nat.min s (List.length operations - k * s).
Proof.
  intros Hops Hne Hshape Hn s count part.
  assert (Hs : 1 <= s) by (subst s; lia).
  rewrite (split_by_size_loop repr self operations n Hops Hne).
  destruct (range_step_chunks operations n Hn) as [starts [Estarts Hconcat]].
  assert (Hstarts : starts = map (fun k => k * s) (seq 0 count)).
  { unfold range_step in Estarts.
    destruct (n =? 0)%Z eqn:E0; [apply Z.eqb_eq in E0; lia|].
    destruct (n <? 0)%Z eqn:E1; [apply Z.ltb_lt in E1; lia|].
    injection Estarts as <-. reflexivity. }
  rewrite Estarts. cbn [bind].
  destruct (write_parts_ok repr self operations s starts
              (fun i _ => splittable_incl _ _ _ (slice_incl operations i _) Hshape)
              ([], [])) as [files [Efiles Hfiles]].
  fold s. rewrite Efiles. cbn [bind fst snd app].
  assert (Hdiv : forall k, k * s / s = k) by (intros k; apply Nat.div_mul; lia).
  exists files. split; [|split; [|split]].
  - rewrite Hstarts, map_map. do 3 f_equal. apply map_ext. intros k.
    rewrite Hdiv. reflexivity.
  - rewrite Hstarts in Hfiles.
    apply (Forall2_map_l (fun k => k * s) (part_of repr self operations s)) in Hfiles.
    revert Hfiles. apply Forall2_impl. intros k f [Hname Hmini].
    rewrite Hdiv in Hname, Hmini. split; assumption.
  - rewrite Hstarts, map_map in Hconcat. exact Hconcat.
  - intros k Hk. subst part. cbn beta. rewrite slice_length.
    assert (Hlt : k * s < List.length operations).
    { subst count.
      assert (H1 : k + 1 <= (List.length operations + s - 1) / s) by lia.
      pose proof (Nat.div_mod_eq (List.length operations + s - 1) s) as Hd.
      pose proof (Nat.mod_upper_bound (List.length operations + s - 1) s ltac:(lia)) as Hm.
      nia. }
    split; lia.
Qed.

(** X6. The edges of [split_by_size].  A source without operations gives no
    file and a mapping without [source], whatever [operations_per_file] is.
    With operations: zero per file raises [ValueError]; a negative number
    raises nothing, writes no file and returns a mapping with no entry, so
    every operation is dropped silently.  A [paths] that is not a mapping
    raises [AttributeError]. *)
Theorem split_by_size_edges (self : state) (n : Z) :
  (get_operations (spec self) = Ok [] ->
   split_by_size repr self n
   = Ok {| written := [];
           mapping := [("type", JStr "size-based"); ("files", JArr [])] |}) /\
  (forall operations,
     get_operations (spec self) = Ok operations -> operations <> [] ->
     (n = 0%Z ->
      split_by_size repr self n
      = Raise (ValueError "range() arg 3 must not be zero")) /\
     ((n < 0)%Z ->
      split_by_size repr self n
      = Ok {| written := [];
              mapping := [("type", JStr "size-based"); ("files", JArr []);
                          ("source", JStr (spec_path self))] |})) /\
  (forall paths,
     dict_get "paths" (spec self) = Some paths -> is_dict paths = false ->
     split_by_size repr self n = Raise AttributeError).
Proof.
  split; [|split].
  - intros H. unfold split_by_size. rewrite H. reflexivity.
  - intros operations Hops Hne.
    rewrite (split_by_size_loop repr self operations n Hops Hne). split.
    + intros ->. reflexivity.
    + intros Hneg. unfold range_step.
      destruct (n =? 0)%Z eqn:E0; [apply Z.eqb_eq in E0; lia|].
      apply Z.ltb_lt in Hneg. rewrite Hneg. reflexivity.
  - intros paths Hp Hd. unfold split_by_size, get_operations, dict_get_default.
    rewrite Hp. destruct paths; try discriminate; reflexivity.
Qed.

End SizeParts.

Lemma split_by_size_edges_witness :
  let self := {| OpenAPISplitter.spec_path := "api.json";
                 OpenAPISplitter.spec :=
                   [("openapi", JStr "3.0.3");
                    ("paths", JObj [("/pets", JObj [("get", JObj [])])])];
                 OpenAPISplitter.common_components := [];
                 OpenAPISplitter.st_mtime := JNum 1700000000 |} in
  OpenAPISplitter.split_by_size (fun _ => "") self 0
  = Raise (ValueError "range() arg 3 must not be zero") /\
  OpenAPISplitter.split_by_size (fun _ => "") self (-3)
  = Ok {| OpenAPISplitter.written := [];
          OpenAPISplitter.mapping :=
            [("type", JStr "size-based"); ("files", JArr []);
             ("source", JStr "api.json")] |}.
Proof.
  intros self. split.
  - apply (proj1 (proj2 (split_by_size_edges (fun _ => "") self 0))
             [("/pets", "get", JObj [])]); [reflexivity | discriminate | reflexivity].
  - apply (proj1 (proj2 (split_by_size_edges (fun _ => "") self (-3)))
             [("/pets", "get", JObj [])]); [reflexivity | discriminate | lia].
Defined.

Lemma split_by_size_parts_witness :
  let self := {| OpenAPISplitter.spec_path := "api.json";
                 OpenAPISplitter.spec :=
                   [("openapi", JStr "3.0.3");
                    ("info", JObj [("title", JStr "Pet Store"); ("version", JStr "1.0.0")]);
                    ("paths", JObj [("/pets", JObj [("get", JObj []); ("post", JObj [])]);
                                    ("/owners", JObj [("get", JObj [])])])];
                 OpenAPISplitter.common_components := [];
                 OpenAPISplitter.st_mtime := JNum 1700000000 |} in
  let operations := [("/pets", "get", JObj []); ("/pets", "post", JObj []);
                     ("/owners", "get", JObj [])] in
  exists files r,
    OpenAPISplitter.split_by_size (fun _ => "") self 2 = Ok r /\
    OpenAPISplitter.written r = files /\
    map fst files = ["spec_part001.json"; "spec_part002.json"] /\
    concat (map (fun k => OpenAPISplitter.slice operations (k * 2) (k * 2 + 2)) [0; 1])
    = operations.
Proof.
  intros self operations.
  destruct (split_by_size_parts (fun _ => "") self operations 2)
    as [files [E [Hfiles [Hconcat _]]]].
  - reflexivity.
  - discriminate.
  - reflexivity.
  - lia.
  - exists files. eexists. split; [exact E|]. split; [reflexivity|]. split; [|exact Hconcat].
    cbn in Hfiles. inversion Hfiles as [|k0 f0 ks fs [Hn0 _] Hrest]; subst.
    inversion Hrest as [|k1 f1 ks' fs' [Hn1 _] Hrest']; subst.
    inversion Hrest'; subst. cbn [map]. rewrite Hn0, Hn1. reflexivity.
Defined.

(** ** [group_endpoints_by_path_prefix]: the groups *)

Section PathGroupBounds.

Import OperationCounter.
Import OpenAPISplitter.

Lemma groups_labelled_append path method operation g :
  groups_labelled g ->
  groups_labelled (group_append (path_prefix path) (path, method, operation) g).
Proof.
  intros Hg label l Hin. unfold group_append in Hin.
  apply In_dict_set in Hin. destruct Hin as [[-> ->] | Hin]; [|apply Hg; exact Hin].
  split; [intros H; apply app_eq_nil in H; destruct H; discriminate|].
  intros e He. apply in_app_or in He. destruct He as [He | [<- | []]]; [|reflexivity].
  unfold dict_get_default in He.
  match type of He with
  | context [match ?x with _ => _ end] => destruct x as [l0|] eqn:E
  end; [|destruct He].
  apply dict_get_In in E. apply (proj2 (Hg _ _ E)). exact He.
Qed.

Lemma groups_labelled_item g entry :
  groups_labelled g -> groups_labelled (group_path_item g entry).
Proof.
  destruct entry as [path path_item]. unfold group_path_item.
  destruct path_item as [ | | | | |d]; try (intros H; exact H).
  generalize HTTP_METHODS. intros methods. revert g.
  induction methods as [|m methods IH]; intros g Hg; cbn [fold_left]; [exact Hg|].
  apply IH. destruct (dict_get m d) as [operation|]; [|exact Hg].
  destruct (is_dict operation); [|exact Hg].
  apply groups_labelled_append. exact Hg.
Qed.

Lemma groups_labelled_paths sp g :
  groups_labelled g -> groups_labelled (fold_left group_path_item sp g).
Proof.
  revert g. induction sp as [|entry sp IH]; intros g Hg; cbn [fold_left]; [exact Hg|].
  apply IH. apply groups_labelled_item. exact Hg.
Qed.

Lemma chunk_group_bounds n prefix (endpoints : list endpoint) a :
  (1 <= n)%Z ->
  endpoints <> [] ->
  chunk_group n (prefix, endpoints) = Ok a ->
  forall label chunk, In (label, chunk) a ->
    1 <= List.length chunk <= Z.to_nat n /\
    incl chunk endpoints /\
    (label = prefix \/ exists k, label = prefix +++ "_part" +++ str_of_nat k).
Proof.
  intros Hn Hne H label chunk Hin. unfold chunk_group in H.
  destruct (n <? Z.of_nat (List.length endpoints))%Z eqn:E.
  - unfold range_step in H.
    destruct (n =? 0)%Z eqn:E0; [apply Z.eqb_eq in E0; lia|].
    destruct (n <? 0)%Z eqn:E1; [apply Z.ltb_lt in E1; lia|].
    cbn [bind] in H. injection H as <-. rewrite map_map in Hin.
    apply in_map_iff in Hin. destruct Hin as [k [[= <- <-] Hk]].
    apply in_seq in Hk. set (s := Z.to_nat n) in *.
    assert (Hs : 1 <= s) by (subst s; lia).
    split; [|split].
    + rewrite slice_length.
      assert (Hlt : k * s < List.length endpoints).
      { assert (H1 : k + 1 <= (List.length endpoints + s - 1) / s) by lia.
        pose proof (Nat.div_mod_eq (List.length endpoints + s - 1) s) as Hd.
        pose proof (Nat.mod_upper_bound (List.length endpoints + s - 1) s ltac:(lia)) as Hm.
        nia. }
      lia.
    + apply slice_incl.
    + right. eexists. reflexivity.
  - injection H as <-. destruct Hin as [[= <- <-] | []].
    apply Z.ltb_ge in E. split; [|split; [apply incl_refl | left; reflexivity]].
    destruct endpoints; [contradiction|]. cbn [List.length] in *. lia.
Qed.

Lemma In_fold_dict_set {A : Type} (a acc : dict A) k v :
  In (k, v) (fold_left (fun final_groups x => dict_set (fst x) (snd x) final_groups) a acc) ->
  In (k, v) a \/ In (k, v) acc.
Proof.
  revert acc. induction a as [|[k0 v0] a IH]; intros acc H; cbn [fold_left fst snd] in H.
  - right. exact H.
  - apply IH in H. destruct H as [H|H]; [left; right; exact H|].
    apply In_dict_set in H. destruct H as [[-> ->]|H]; [left; left; reflexivity | right; exact H].
Qed.

Lemma dict_wf_fold_set {A : Type} (a acc : dict A) :
  dict_wf acc ->
  dict_wf (fold_left (fun final_groups x => dict_set (fst x) (snd x) final_groups) a acc).
Proof.
  revert acc. induction a as [|x a IH]; intros acc H; cbn [fold_left]; [exact H|].
  apply IH. apply dict_wf_set. exact H.
Qed.

(** X7. [group_endpoints_by_path_prefix] with [max_per_file >= 1] returns
    groups with pairwise distinct labels, each holding at least one and at
    most [max_per_file] endpoints; every endpoint of a group is an operation
    of the source that is a mapping, and the label of its group is the
    prefix of its path, alone or followed by [_part{K}]. *)
Theorem path_groups_bounded
    (self : state) (sp : dict json) (operations : list endpoint) (n : Z) :
  dict_get_default "paths" (JObj []) (spec self) = JObj sp ->
  get_operations (spec self) = Ok operations ->
  (1 <= n)%Z ->
  exists groups,
    group_endpoints_by_path_prefix self n = Ok groups /\
    dict_wf groups /\
    forall label endpoints, In (label, endpoints) groups ->
      1 <= List.length endpoints <= Z.to_nat n /\
      forall e, In e endpoints ->
        In e operations /\ operation_is_dict e = true /\
        (label = path_prefix (endpoint_path e) \/
         exists k, label = path_prefix (endpoint_path e) +++ "_part" +++ str_of_nat k).
Proof.
  intros Hsp Hops Hn.
  assert (Hlist : operations
                  = flat_map (fun entry => path_item_operations (fst entry) (snd entry)) sp).
  { unfold get_operations in Hops. rewrite Hsp in Hops. cbn [items bind] in Hops.
    injection Hops as <-. reflexivity. }
  unfold group_endpoints_by_path_prefix, grouped_by_prefix. rewrite Hsp. cbn [items bind].
  set (grouped := fold_left group_path_item sp []).
  assert (Hlab : groups_labelled grouped).
  { apply groups_labelled_paths. intros label l []. }
  assert (Hperm : Permutation (concat (map snd grouped))
                              (filter operation_is_dict operations)).
  { rewrite Hlist. apply (grouped_concat sp []). }
  assert (Hall : forall acc,
             (forall label chunk, In (label, chunk) acc ->
                exists prefix endpoints,
                  In (prefix, endpoints) grouped /\
                  1 <= List.length chunk <= Z.to_nat n /\ incl chunk endpoints /\
                  (label = prefix \/ exists k, label = prefix +++ "_part" +++ str_of_nat k)) ->
             forall groups,
             incl groups grouped ->
             exists a,
               foldM (fun assignments entry =>
                        a <- chunk_group n entry ;; Ok (assignments ++ a)) groups acc
               = Ok a /\
               forall label chunk, In (label, chunk) a ->
                 exists prefix endpoints,
                   In (prefix, endpoints) grouped /\
                   1 <= List.length chunk <= Z.to_nat n /\ incl chunk endpoints /\
                   (label = prefix \/ exists k, label = prefix +++ "_part" +++ str_of_nat k)).
  { intros acc Hacc groups. revert acc Hacc.
    induction groups as [|[prefix endpoints] groups IH]; intros acc Hacc Hincl; cbn [foldM].
    - exists acc. split; [reflexivity | exact Hacc].
    - destruct (chunk_group_concat n prefix endpoints Hn) as [a [Ea _]].
      rewrite Ea. cbn [bind]. apply IH.
      + intros label chunk Hin. apply in_app_or in Hin. destruct Hin as [Hin|Hin];
          [apply Hacc; exact Hin|].
        exists prefix, endpoints. split; [apply Hincl; left; reflexivity|].
        apply (chunk_group_bounds n prefix endpoints a Hn); [|exact Ea | exact Hin].
        apply (Hlab prefix endpoints). apply Hincl. left. reflexivity.
      + intros x Hx. apply Hincl. right. exact Hx. }
  destruct (Hall [] ltac:(intros label chunk []) grouped (incl_refl _)) as [a [Ea Ha]].
  unfold final_assignments. rewrite Ea. cbn [bind]. eexists. split; [reflexivity|].
  split; [apply dict_wf_fold_set; constructor|].
  intros label endpoints Hin. apply In_fold_dict_set in Hin.
  destruct Hin as [Hin | []].
  destruct (Ha label endpoints Hin) as [prefix [group [Hg [Hlen [Hincl Hlabel]]]]].
  split; [exact Hlen|]. intros e He. specialize (Hincl e He).
  assert (Hop : In e (filter operation_is_dict operations)).
  { apply (Permutation_in _ Hperm). apply in_concat. exists group. split; [|exact Hincl].
    apply in_map_iff. exists (prefix, group). split; [reflexivity | exact Hg]. }
  apply filter_In in Hop. destruct Hop as [Hop Hd].
  split; [exact Hop|]. split; [exact Hd|].
  rewrite (proj2 (Hlab prefix group Hg) e Hincl). exact Hlabel.
Qed.

End PathGroupBounds.

Lemma path_groups_bounded_witness :
  let sp := [("/pets", JObj [("get", JObj []); ("post", JObj [])]);
             ("/pets/{id}", JObj [("get", JObj [])]);
             ("/owners", JObj [("get", JStr "TODO")])] in
  let self := {| OpenAPISplitter.spec_path := "api.json";
                 OpenAPISplitter.spec := [("openapi", JStr "3.0.3"); ("paths", JObj sp)];
                 OpenAPISplitter.common_components := [];
                 OpenAPISplitter.st_mtime := JNum 1700000000 |} in
  exists groups,
    OpenAPISplitter.group_endpoints_by_path_prefix self 2 = Ok groups /\
    dict_wf groups /\
    forall label endpoints, In (label, endpoints) groups ->
                            1 <= List.length endpoints <= 2.
Proof.
  intros sp self.
  destruct (path_groups_bounded self sp
              [("/pets", "get", JObj []); ("/pets", "post", JObj []);
               ("/pets/{id}", "get", JObj []); ("/owners", "get", JStr "TODO")] 2)
    as [groups [E [Hwf Hall]]].
  - reflexivity.
  - reflexivity.
  - lia.
  - exists groups. split; [exact E|]. split; [exact Hwf|].
    intros label endpoints Hin. apply (Hall label endpoints Hin).
Defined.

(** ** [path_prefix]: the characters of a label *)

Section Labels.

Import OpenAPISplitter.

Lemma str_has_append c (a b : string) :
  str_has c (a +++ b) = str_has c a || str_has c b.
Proof.
  induction a as [|x a IH]; cbn [String.append str_has]; [reflexivity|].
  rewrite IH. apply orb_assoc.
Qed.

Lemma str_has_contains c (s : string) :
  str_contains (String c "") s = str_has c s.
Proof.
  induction s as [|a s IH]; [reflexivity|].
  cbn [str_contains str_has prefix]. rewrite IH.
  destruct (ascii_dec c a) as [->|Hne].
  - rewrite Ascii.eqb_refl.
    cbn [orb]. destruct s; reflexivity.
  - assert (E : Ascii.eqb a c = false)
      by (apply Ascii.eqb_neq; intros ->; apply Hne; reflexivity).
    rewrite E. reflexivity.
Qed.

Lemma str_has_remove c x (s : string) :
  str_has c (str_remove x s) = negb (Ascii.eqb c x) && str_has c s.
Proof.
  induction s as [|a s IH]; cbn [str_remove str_has]; [rewrite andb_false_r; reflexivity|].
  destruct (Ascii.eqb a x) eqn:Ea.
  - apply Ascii.eqb_eq in Ea. subst a. rewrite IH.
    rewrite (Ascii.eqb_sym x c). destruct (Ascii.eqb c x); reflexivity.
  - cbn [str_has]. rewrite IH. destruct (Ascii.eqb a c) eqn:Eac; [|reflexivity].
    apply Ascii.eqb_eq in Eac. subst a. rewrite Ea. reflexivity.
Qed.

Lemma split_first_piece c (s cur : string) :
  str_has c cur = false ->
  str_has c (hd "" (split_go (String c "") s 0 cur)) = false.
Proof.
  revert cur. induction s as [|a s IH]; intros cur Hcur; cbn [split_go hd]; [exact Hcur|].
  cbn [prefix]. destruct (ascii_dec c a) as [->|Hne].
  - destruct s; cbn [hd]; exact Hcur.
  - apply IH. rewrite str_has_append, Hcur. cbn [str_has orb].
    rewrite orb_false_r. apply Ascii.eqb_neq. intros ->. apply Hne. reflexivity.
Qed.

(** X8. The group label that [path_prefix] gives a path never contains
    [/], [{] or [}], so [spec_{label}.json] names a file of the output
    directory itself; the label of a path without a first segment is
    [root]. *)
Theorem path_prefix_characters (path : string) :
  str_has "/" (path_prefix path) = false /\
  str_has "{" (path_prefix path) = false /\
  str_has "}" (path_prefix path) = false /\
  (str_strip "/" path = "" -> path_prefix path = "root").
Proof.
  unfold path_prefix.
  set (parts := str_split "/" (str_strip "/" path)).
  assert (Hhd : str_has "/" (hd "" parts) = false)
    by (apply (split_first_piece "/"); reflexivity).
  set (prefix := match parts with
                 | p :: _ => if String.eqb p "" then "root" else p
                 | [] => "root"
                 end).
  assert (Hp : str_has "/" prefix = false).
  { subst prefix. destruct parts as [|p rest]; [reflexivity|].
    destruct (String.eqb p ""); [reflexivity | exact Hhd]. }
  split; [|split; [|split]].
  - rewrite !str_has_remove, Hp. reflexivity.
  - rewrite !str_has_remove. cbn [Ascii.eqb Bool.eqb negb andb]. reflexivity.
  - rewrite !str_has_remove. cbn [Ascii.eqb Bool.eqb negb andb]. reflexivity.
  - intros Hs. subst prefix parts. rewrite Hs. reflexivity.
Qed.

End Labels.

Lemma path_prefix_characters_witness :
  OpenAPISplitter.path_prefix "/" = "root" /\
  str_has "/" (OpenAPISplitter.path_prefix "/users/{id}/posts") = false.
Proof.
  split.
  - apply (proj2 (proj2 (proj2 (path_prefix_characters "/")))). reflexivity.
  - apply (proj1 (path_prefix_characters "/users/{id}/posts")).
Defined.

(** ** [merge_info]: first file and later files *)

Section MergeInfo.

Import OpenAPIMerger.

Lemma merge_extensions_fills (entries : dict json) :
  forall info : dict json,
  exists info',
    foldM (fun info (entry : string * json) =>
             let (key, value) := entry in
             if str_startswith "x-" key
                && negb (existsb (String.eqb key) split_indicators)
             then b <- contains key info ;;
                  if b : bool then Ok info else setitem info key value
             else Ok info)
          entries (JObj info) = Ok (JObj info') /\
    (forall k v, dict_get k info = Some v -> dict_get k info' = Some v) /\
    (forall k v, dict_get k info = None -> dict_get k info' = Some v ->
                 In (k, v) entries /\ str_startswith "x-" k = true /\
                 k <> "x-split-part" /\ k <> "x-split-timestamp").
Proof.
  induction entries as [|[key value] entries IH]; intros info; cbn [foldM].
  - exists info. split; [reflexivity|]. split; [tauto|]. intros k v H1 H2. congruence.
  - destruct (str_startswith "x-" key
              && negb (existsb (String.eqb key) split_indicators)) eqn:Ex.
    + cbn [contains bind]. destruct (dict_mem key info) eqn:Em; cbn [setitem bind].
      * destruct (IH info) as [info' [E [Hkeep Hnew]]]. exists info'.
        split; [exact E|]. split; [exact Hkeep|].
        intros k v H1 H2. destruct (Hnew k v H1 H2) as [Hin Hrest].
        split; [right; exact Hin | exact Hrest].
      * destruct (IH (dict_set key value info)) as [info' [E [Hkeep Hnew]]]. exists info'.
        split; [exact E|]. split.
        -- intros k v H. apply Hkeep. rewrite dict_get_set_other; [exact H|].
           intros ->. unfold dict_mem in Em. rewrite H in Em. discriminate.
        -- intros k v H1 H2. destruct (String.eqb k key) eqn:Ek.
           ++ apply String.eqb_eq in Ek. subst k.
              pose proof (Hkeep key value (dict_get_set_same key value info)) as H3.
              rewrite H3 in H2. injection H2 as <-.
              apply andb_prop in Ex. destruct Ex as [Hx Hs].
              split; [left; reflexivity|]. split; [exact Hx|].
              apply negb_true_iff in Hs. cbn [existsb split_indicators] in Hs.
              apply orb_false_elim in Hs. destruct Hs as [Hs1 Hs2].
              apply orb_false_elim in Hs2. destruct Hs2 as [Hs2 _].
              split; intros ->; discriminate.
           ++ assert (Hne : k <> key)
                by (intros ->; rewrite String.eqb_refl in Ek; discriminate).
              destruct (Hnew k v) as [Hin Hrest]; [|exact H2|].
              { rewrite dict_get_set_other by exact Hne. exact H1. }
              split; [right; exact Hin | exact Hrest].
    + cbn [bind]. destruct (IH info) as [info' [E [Hkeep Hnew]]]. exists info'.
      split; [exact E|]. split; [exact Hkeep|].
      intros k v H1 H2. destruct (Hnew k v H1 H2) as [Hin Hrest].
      split; [right; exact Hin | exact Hrest].
Qed.

(** X9. Once a file has been processed, [merge_info] never changes what
    the merged [info] holds: every key keeps its value, whatever the later
    file says.  It only adds keys that the merged [info] lacks, taken from
    the file's [info]: [description], and the [x-] extensions other than
    [x-split-part] and [x-split-timestamp].  The rest of the document and
    the statistics are untouched. *)
Theorem merge_info_later_files
    (self : state) (spec merged_info source_info : dict json) :
  files_processed (stats self) <> 0 ->
  dict_get "info" (merged_spec self) = Some (JObj merged_info) ->
  dict_get "info" spec = Some (JObj source_info) ->
  exists self' info',
    merge_info self spec = Ok self' /\
    stats self' = stats self /\
    merged_spec self' = dict_set "info" (JObj info') (merged_spec self) /\
    (forall k v, dict_get k merged_info = Some v -> dict_get k info' = Some v) /\
    (forall k v, dict_get k merged_info = None -> dict_get k info' = Some v ->
                 In (k, v) source_info /\
                 (k = "description" \/
                  (str_startswith "x-" k = true /\
                   k <> "x-split-part" /\ k <> "x-split-timestamp"))).
Proof.
  intros Hlater Hmi Hi. unfold merge_info. rewrite Hi.
  destruct (Nat.eqb (files_processed (stats self)) 0) eqn:E0;
    [apply Nat.eqb_eq in E0; contradiction|].
  cbn [getitem]. rewrite Hmi. cbn [bind contains].
  assert (Hdesc : exists info1,
             (if dict_mem "description" source_info
              then b2 <- Ok (dict_mem "description" merged_info) ;;
                   if b2 : bool then Ok (JObj merged_info)
                   else d <- getitem (JObj source_info) "description" ;;
                        setitem (JObj merged_info) "description" d
              else Ok (JObj merged_info)) = Ok (JObj info1) /\
             (forall k v, dict_get k merged_info = Some v -> dict_get k info1 = Some v) /\
             (forall k v, dict_get k merged_info = None -> dict_get k info1 = Some v ->
                          k = "description" /\ In (k, v) source_info)).
  { destruct (dict_mem "description" source_info) eqn:Ed.
    - cbn [bind]. destruct (dict_mem "description" merged_info) eqn:Em.
      + exists merged_info. split; [reflexivity|]. split; [tauto|].
        intros k v H1 H2. congruence.
      + cbn [getitem]. unfold dict_mem in Ed.
        destruct (dict_get "description" source_info) as [d|] eqn:Eg; [|discriminate].
        cbn [bind setitem]. eexists. split; [reflexivity|]. split.
        * intros k v H. rewrite dict_get_set_other; [exact H|].
          intros ->. unfold dict_mem in Em. rewrite H in Em. discriminate.
        * intros k v H1 H2. rewrite dict_get_set in H2.
          destruct (String.eqb k "description") eqn:Ek; [|congruence].
          apply String.eqb_eq in Ek. subst k. injection H2 as <-.
          split; [reflexivity | apply dict_get_In; exact Eg].
    - exists merged_info. split; [reflexivity|]. split; [tauto|].
      intros k v H1 H2. congruence. }
  destruct Hdesc as [info1 [E1 [Hkeep1 Hnew1]]].
  match goal with
  | |- context [bind ?m _] =>
      match m with
      | (if _ then _ else _) => change m with
          (if dict_mem "description" source_info
           then b2 <- Ok (dict_mem "description" merged_info) ;;
                if b2 : bool then Ok (JObj merged_info)
                else d <- getitem (JObj source_info) "description" ;;
                     setitem (JObj merged_info) "description" d
           else Ok (JObj merged_info))
      end
  end.
  rewrite E1. cbn [bind items].
  destruct (merge_extensions_fills source_info info1) as [info2 [E2 [Hkeep2 Hnew2]]].
  rewrite E2. cbn [bind]. eexists. exists info2. split; [reflexivity|].
  cbn [stats merged_spec with_spec]. split; [reflexivity|]. split; [reflexivity|]. split.
  - intros k v H. apply Hkeep2, Hkeep1, H.
  - intros k v H1 H2. destruct (dict_get k info1) as [v1|] eqn:Ev1.
    + pose proof (Hkeep2 k v1 Ev1) as H3. rewrite H3 in H2. injection H2 as <-.
      destruct (Hnew1 k v1 H1 Ev1) as [-> Hin]. split; [exact Hin | left; reflexivity].
    + destruct (Hnew2 k v Ev1 H2) as [Hin Hrest]. split; [exact Hin | right; exact Hrest].
Qed.

End MergeInfo.

Lemma merge_info_later_files_witness :
  let merged_info := [("title", JStr "Pet Store"); ("version", JStr "1.0.0")] in
  let source_info := [("title", JStr "Pet Store - owners"); ("version", JStr "2.0.0");
                      ("description", JStr "Owners of pets");
                      ("x-logo", JStr "logo.png");
                      ("x-split-part", JStr "owners")] in
  let self := {| OpenAPIMerger.merged_spec :=
                   [("openapi", JStr "3.0.3"); ("info", JObj merged_info);
                    ("paths", JObj [])];
                 OpenAPIMerger.stats :=
                   {| OpenAPIMerger.files_processed := 1;
                      OpenAPIMerger.paths_merged := 0;
                      OpenAPIMerger.operations_merged := 0;
                      OpenAPIMerger.component_conflicts := [];
                      OpenAPIMerger.path_conflicts := 0 |} |} in
  exists self' info',
    OpenAPIMerger.merge_info self [("info", JObj source_info)] = Ok self' /\
    dict_get "info" (OpenAPIMerger.merged_spec self') = Some (JObj info') /\
    dict_get "title" info' = Some (JStr "Pet Store") /\
    dict_get "version" info' = Some (JStr "1.0.0").
Proof.
  intros merged_info source_info self.
  destruct (merge_info_later_files self [("info", JObj source_info)] merged_info source_info)
    as [self' [info' [E [_ [Hm [Hkeep _]]]]]].
  - discriminate.
  - reflexivity.
  - reflexivity.
  - exists self', info'. split; [exact E|]. split; [rewrite Hm; reflexivity|].
    split; apply Hkeep; reflexivity.
Defined.

(** ** The statistics of [merge_all] *)

Section Statistics.

Import OpenAPIMerger.

Lemma new_paths_set mp p d sp :
  ~ In p (dict_keys sp) ->
  new_paths (dict_set p d mp) sp = new_paths mp sp.
Proof.
  intros Hp. unfold new_paths. apply filter_ext_in. intros [k v] Hin.
  cbn [fst snd]. rewrite dict_mem_set.
  destruct (String.eqb k p) eqn:E; [|reflexivity].
  apply String.eqb_eq in E. subst k. exfalso. apply Hp.
  apply in_map_iff. exists (p, v). split; [reflexivity | exact Hin].
Qed.

Lemma merged_with_length sp :
  dict_wf sp ->
  forall mp, List.length (merged_with mp sp) = List.length mp + List.length (new_paths mp sp).
Proof.
  induction sp as [|[p item] sp IH]; intros Hwf mp.
  - cbn. lia.
  - inversion Hwf as [|? ? Hp Hsp]; subst.
    rewrite merged_with_cons, (IH Hsp). unfold merged_with at 1 2.
    cbn [fold_left fst snd]. unfold new_paths at 2. cbn [filter fst snd].
    fold (new_paths mp sp).
    destruct item as [ | | | | |d]; cbn [is_dict andb]; try reflexivity.
    rewrite (new_paths_set mp p _ sp Hp).
    assert (Hlen : forall v, List.length (dict_set p v mp)
                             = if dict_mem p mp then List.length mp else S (List.length mp)).
    { intros v. rewrite <- !(length_map fst). change (map fst ?x) with (dict_keys x).
      rewrite dict_keys_set. destruct (dict_mem p mp); [reflexivity|].
      rewrite length_app. cbn. lia. }
    rewrite Hlen. destruct (dict_mem p mp); cbn [negb List.length]; lia.
Qed.

Lemma merge_info_stats self spec self' :
  merge_info self spec = Ok self' -> stats self' = stats self.
Proof.
  unfold merge_info. intros H.
  destruct (dict_get "info" spec); [|injection H as <-; reflexivity].
  destruct (Nat.eqb (files_processed (stats self)) 0);
    repeat bind_inv H; injection H as <-; reflexivity.
Qed.

Lemma merge_root_properties_stats self spec self' :
  merge_root_properties self spec = Ok self' -> stats self' = stats self.
Proof.
  unfold merge_root_properties. intros H. bind_inv H. injection H as <-. reflexivity.
Qed.

Lemma merge_components_stats self spec strategy self' :
  merge_components self spec strategy = Ok self' ->
  files_processed (stats self') = files_processed (stats self) /\
  paths_merged (stats self') = paths_merged (stats self).
Proof.
  unfold merge_components. intros H.
  destruct (dict_get "components" spec); [|injection H as <-; split; reflexivity].
  bind_inv H.
  destruct (ComponentExtractor.merge_components _ _ _ _) as [h' [conflicts|e]];
    [|discriminate].
  injection H as <-. split; reflexivity.
Qed.

Lemma merge_operation_files path self entry self' :
  merge_operation path self entry = Ok self' ->
  files_processed (stats self') = files_processed (stats self).
Proof.
  unfold merge_operation. destruct entry as [method operation]. intros H.
  repeat bind_inv H. injection H as <-. reflexivity.
Qed.

Lemma merge_path_files self entry self' :
  merge_path self entry = Ok self' ->
  files_processed (stats self') = files_processed (stats self).
Proof.
  unfold merge_path. destruct entry as [path path_item]. intros H.
  destruct path_item as [ | | | | |d]; try (injection H as <-; reflexivity).
  do 3 bind_inv H.
  rewrite (foldM_frame (fun s => files_processed (stats s)) _ _ _ _
             (fun s e s' _ Hstep => merge_operation_files path s e s' Hstep) H).
  destruct a0.
  - injection E1 as <-. reflexivity.
  - bind_inv E1. injection E1 as <-. reflexivity.
Qed.

Lemma merge_paths_files self spec self' :
  merge_paths self spec = Ok self' ->
  files_processed (stats self') = files_processed (stats self).
Proof.
  unfold merge_paths. intros H.
  destruct (dict_get "paths" spec); [|injection H as <-; reflexivity].
  bind_inv H.
  apply (foldM_frame (fun s => files_processed (stats s)) _ _ _ _
           (fun s e s' _ Hstep => merge_path_files s e s' Hstep) H).
Qed.

Lemma merge_file_statistics strategy self spec self' :
  (forall sp, dict_get "paths" spec = Some (JObj sp) -> paths_wf sp) ->
  merge_file strategy self spec = Ok self' ->
  paths_counted self ->
  paths_counted self' /\
  files_processed (stats self') = S (files_processed (stats self)).
Proof.
  intros Hwf H [mp [Hmp Hcount]]. unfold merge_file in H.
  set (self0 := if Nat.eqb (files_processed (stats self)) 0 then _ else self) in H.
  assert (H0 : stats self0 = stats self /\ holds_paths (merged_spec self0) mp).
  { subst self0. destruct (Nat.eqb (files_processed (stats self)) 0);
      [|split; [reflexivity | exact Hmp]].
    destruct (dict_get "openapi" spec).
    - split; [reflexivity|]. unfold holds_paths. cbn [merged_spec with_spec].
      rewrite dict_get_set_other by discriminate. exact Hmp.
    - destruct (dict_get "swagger" spec); [|split; [reflexivity | exact Hmp]].
      split; [reflexivity|]. unfold holds_paths. cbn [merged_spec with_spec].
      rewrite dict_get_set_other by discriminate. exact Hmp. }
  clearbody self0. destruct H0 as [Hs0 Hp0].
  do 4 bind_inv H. injection H as <-. cbn [stats merged_spec files_processed paths_merged].
  pose proof (merge_info_stats _ _ _ E) as S1.
  pose proof (merge_root_properties_stats _ _ _ E0) as S2.
  pose proof (merge_components_stats _ _ _ _ E1) as [S3f S3p].
  pose proof (merge_paths_files _ _ _ E2) as S4.
  assert (Hp3 : holds_paths (merged_spec a1) mp).
  { unfold holds_paths in *.
    rewrite (merge_components_paths _ _ _ _ E1), (merge_root_properties_paths _ _ _ E0),
      (merge_info_paths _ _ _ E). exact Hp0. }
  split; [|rewrite S4, S3f, S2, S1, Hs0; reflexivity].
  unfold paths_counted. cbn [merged_spec stats paths_merged].
  unfold merge_paths in E2.
  destruct (dict_get "paths" spec) as [paths|] eqn:Ep.
  - bind_inv E2. destruct paths as [ | | | | |sp]; try discriminate.
    injection E3 as <-.
    destruct (merge_entries_spec sp (Hwf sp eq_refl) a1 mp Hp3) as [s [Es [Hm Hc]]].
    rewrite Es in E2. injection E2 as <-.
    exists (merged_with mp sp). split; [exact Hm|].
    unfold counters in Hc. injection Hc as Hpm _ _.
    rewrite Hpm, (merged_with_length sp (proj1 (Hwf sp eq_refl))).
    rewrite S3p, S2, S1, Hs0, Hcount. reflexivity.
  - injection E2 as <-. exists mp. split; [exact Hp3|].
    rewrite S3p, S2, S1, Hs0. exact Hcount.
Qed.

(** X10. In the statistics that [merge_all] returns, [files_processed] is
    the number of files that loaded (a file that fails to load is not
    counted), and [paths_merged] is the number of paths of the merged
    document. *)
Theorem merge_all_statistics
    (spec_files : list (exc (dict json))) (strategy output_format : string)
    (self' : state) :
  (forall spec sp, In (Ok spec) spec_files ->
                   dict_get "paths" spec = Some (JObj sp) -> paths_wf sp) ->
  merge_all init spec_files strategy output_format = Ok self' ->
  files_processed (stats self')
  = List.length (filter (fun loaded => match loaded with Ok _ => true | Raise _ => false end)
                        spec_files) /\
  exists paths,
    dict_get "paths" (merged_spec self') = Some (JObj paths) /\
    paths_merged (stats self') = List.length paths.
Proof.
  intros Hwf H. unfold merge_all in H.
  destruct spec_files as [|f0 files0] eqn:Ef; [discriminate|]. rewrite <- Ef in *.
  do 3 bind_inv H. injection H as <-.
  assert (Hloop : forall files self s1,
             incl files spec_files ->
             paths_counted self ->
             foldM (fun self (loaded : exc (dict json)) =>
                      match loaded with
                      | Raise _ => Ok self
                      | Ok spec => merge_file strategy self spec
                      end) files self = Ok s1 ->
             paths_counted s1 /\
             files_processed (stats s1)
             = files_processed (stats self)
               + List.length (filter (fun loaded => match loaded with
                                                    | Ok _ => true | Raise _ => false
                                                    end) files)).
  { intros files. induction files as [|loaded files IH]; intros self s1 Hincl Hc Hrun.
    - injection Hrun as <-. split; [exact Hc | cbn; lia].
    - cbn [foldM] in Hrun. destruct loaded as [spec|e].
      + destruct (merge_file strategy self spec) as [s|e] eqn:Es; cbn [bind] in Hrun;
          [|discriminate].
        destruct (merge_file_statistics strategy self spec s) as [Hc1 Hf1];
          [intros sp; apply Hwf; apply Hincl; left; reflexivity | exact Es | exact Hc |].
        destruct (IH s s1 (fun x Hx => Hincl x (or_intror Hx)) Hc1 Hrun) as [Hc2 Hf2].
        split; [exact Hc2|]. rewrite Hf2, Hf1. cbn [filter List.length]. lia.
      + cbn [bind] in Hrun.
        apply (IH self s1 (fun x Hx => Hincl x (or_intror Hx)) Hc Hrun). }
  destruct (Hloop spec_files init a (incl_refl _)) as [[mp [Hmp Hcount]] Hfiles];
    [exists []; split; reflexivity | exact E |].
  assert (Hstats : stats a0 = stats a).
  { unfold clean_merged_spec in E0.
    destruct (dict_get "components" (merged_spec a)); [|injection E0 as <-; reflexivity].
    do 2 bind_inv E0.
    match type of E0 with context [truthy ?x] => destruct (truthy x) end;
      injection E0 as <-; reflexivity. }
  rewrite Hstats. split; [rewrite Hfiles; reflexivity|].
  eexists. split; [rewrite (clean_merged_spec_paths _ _ E0); exact Hmp|].
  rewrite length_map. exact Hcount.
Qed.

End Statistics.

Lemma merge_all_statistics_witness :
  let first := [("openapi", JStr "3.0.3");
                ("paths", JObj [("/pets", JObj [("get", JObj [])])])] in
  let second := [("paths", JObj [("/pets", JObj [("post", JObj [])]);
                                 ("/owners", JObj [("get", JObj [])])])] in
  let spec_files := [Ok first; Raise (ValueError "Failed to parse spec_b.json"); Ok second] in
  exists self' paths,
    OpenAPIMerger.merge_all OpenAPIMerger.init spec_files "keep_first" "json" = Ok self' /\
    OpenAPIMerger.files_processed (OpenAPIMerger.stats self') = 2 /\
    dict_get "paths" (OpenAPIMerger.merged_spec self') = Some (JObj paths) /\
    OpenAPIMerger.paths_merged (OpenAPIMerger.stats self') = List.length paths.
Proof.
  intros first second spec_files.
  assert (Hrun : exists s,
             OpenAPIMerger.merge_all OpenAPIMerger.init spec_files "keep_first" "json" = Ok s)
    by (eexists; vm_compute; reflexivity).
  destruct Hrun as [s Hrun].
  destruct (merge_all_statistics spec_files "keep_first" "json" s) as [Hf [paths [Hp Hc]]].
  - intros spec sp [H|[H|[H|[]]]]; try discriminate H; injection H as <-;
      intros [= <-]; (split; [wf_keys|]).
    + intros p d [Hin|[]]. injection Hin as <- <-. wf_keys.
    + intros p d [Hin|[Hin|[]]]; injection Hin as <- <-; wf_keys.
  - exact Hrun.
  - exists s, paths. split; [exact Hrun|]. split; [exact Hf|]. split; assumption.
Defined.

(** ** [ComponentExtractor.merge_components]: what every name ends with *)

Section MergePolicy.

Import ComponentExtractor.

Variables (strategy : string) (target source : loc) (src : dict json).
Hypothesis Hdiff : target <> source.

Lemma resolve_none_r x : resolve strategy x None = x.
Proof. destruct x; reflexivity. Qed.

Lemma dict_get_app_last {A : Type} n name (v : A) (l : dict A) :
  dict_get n (l ++ [(name, v)])
  = match dict_get n l with
    | Some x => Some x
    | None => if String.eqb n name then Some v else None
    end.
Proof.
  induction l as [|[k x] l IH]; cbn [app dict_get]; [reflexivity|].
  destruct (String.eqb n k); [reflexivity | exact IH].
Qed.

Lemma firstn_S_nth {A : Type} (l : list A) k e :
  nth_error l k = Some e -> firstn (S k) l = firstn k l ++ [e].
Proof.
  revert k. induction l as [|a l IH]; intros k H; [destruct k; discriminate|].
  destruct k; cbn in *; [injection H as <-; reflexivity|].
  f_equal. apply IH. exact H.
Qed.

Lemma skipn_nth {A : Type} (l : list A) k e :
  nth_error l k = Some e -> skipn k l = e :: skipn (S k) l.
Proof.
  revert k. induction l as [|a l IH]; intros k H; [destruct k; discriminate|].
  destruct k; cbn in *; [injection H as <-; reflexivity|].
  apply IH. exact H.
Qed.

Lemma firstn_fresh (sd : dict json) k name definition :
  dict_wf sd -> nth_error sd k = Some (name, definition) ->
  dict_get name (firstn k sd) = None.
Proof.
  intros Hwf Hn. apply dict_keys_notin_get. intros Hin.
  unfold dict_wf, dict_keys in *.
  rewrite <- (firstn_skipn k sd), (skipn_nth sd k _ Hn), map_app in Hwf.
  cbn [map fst] in Hwf. apply NoDup_remove_2 in Hwf. apply Hwf.
  apply in_or_app. left. exact Hin.
Qed.

Lemma merge_one_run t name definition h conflicts tc td c :
  h target = JObj tc -> dict_get t tc = Some (JObj td) ->
  dict_get t conflicts = Some c ->
  merge_one strategy t name definition target h conflicts
  = match dict_get name td with
    | Some existing =>
        if dumps_equal existing definition then (h, Ok conflicts)
        else if String.eqb strategy "error"
             then (h, Raise (ValueError (conflict_message t name)))
             else if String.eqb strategy "keep_last"
                  then (heap_set h target
                          (JObj (dict_set t (JObj (dict_set name definition td)) tc)),
                        Ok (dict_set t (S c) conflicts))
                  else (h, Ok (dict_set t (S c) conflicts))
    | None =>
        (heap_set h target (JObj (dict_set t (JObj (dict_set name definition td)) tc)),
         Ok conflicts)
    end.
Proof.
  intros Ht Htc Hc. unfold merge_one, store_component. rewrite Ht. cbn [getitem].
  rewrite Htc. cbn [bind contains]. unfold dict_mem.
  assert (Hincr : incr t conflicts = dict_set t (S c) conflicts)
    by (unfold incr, dict_get_default; rewrite Hc; reflexivity).
  destruct (dict_get name td) as [existing|] eqn:En.
  - cbn [getitem]. rewrite En. destruct (dumps_equal existing definition); [reflexivity|].
    rewrite Hincr. destruct (String.eqb strategy "error"); [reflexivity|].
    destruct (String.eqb strategy "keep_last"); [|reflexivity].
    cbn [bind setitem]. reflexivity.
  - cbn [bind setitem]. reflexivity.
Qed.

Section OneType.

Variables (t : string) (sd td0 : dict json).
Hypothesis Hsd : dict_get t src = Some (JObj sd).
Hypothesis Hwf : dict_wf sd.

Lemma merge_items_run m :
  forall k h conflicts tc td c,
    k + m = List.length sd ->
    h source = JObj src -> h target = JObj tc -> dict_get t tc = Some (JObj td) ->
    (forall n, dict_get n td
               = resolve strategy (dict_get n td0) (dict_get n (firstn k sd))) ->
    dict_get t conflicts = Some c ->
    let r := merge_items (seq k m) (List.length sd) strategy t target source h conflicts in
    (exists td',
        fst r target = JObj (dict_set t (JObj td') tc) /\
        fst r source = JObj src /\
        snd r = Ok (dict_set t (c + List.length (filter (conflicts_with td0) (skipn k sd)))
                      conflicts) /\
        (forall n, dict_get n td' = resolve strategy (dict_get n td0) (dict_get n sd)) /\
        (strategy = "error" -> filter (conflicts_with td0) (skipn k sd) = []))
    \/ (strategy = "error" /\
        exists name definition,
          In (name, definition) (filter (conflicts_with td0) (skipn k sd)) /\
          snd r = Raise (ValueError (conflict_message t name))).
Proof.
  induction m as [|m IH]; intros k h conflicts tc td c Hk Hs Ht Htc Hinv Hc r; subst r;
    cbn [seq merge_items]; rewrite Hs; cbn [getitem]; rewrite Hsd; cbn [bind items];
    rewrite Nat.eqb_refl; cbn [negb].
  - left. exists td. cbn [fst snd].
    assert (Hkl : k = List.length sd) by lia.
    rewrite Hkl, skipn_all. cbn [filter List.length]. rewrite Nat.add_0_r.
    rewrite (dict_set_get_same t (JObj td) tc Htc), (dict_set_get_same t c conflicts Hc).
    split; [exact Ht|]. split; [exact Hs|]. split; [reflexivity|]. split; [|reflexivity].
    intros n. rewrite Hinv, Hkl, firstn_all. reflexivity.
  - destruct (nth_error sd k) as [[name definition]|] eqn:En;
      [|apply nth_error_None in En; lia].
    pose proof (firstn_fresh sd k name definition Hwf En) as Hfresh.
    assert (Hname : dict_get name td = dict_get name td0)
      by (rewrite Hinv, Hfresh; apply resolve_none_r).
    assert (Hnext : forall n,
               dict_get n (firstn (S k) sd)
               = if String.eqb n name then Some definition else dict_get n (firstn k sd)).
    { intros n. rewrite (firstn_S_nth sd k _ En), dict_get_app_last.
      destruct (String.eqb n name) eqn:E.
      - apply String.eqb_eq in E. subst n. rewrite Hfresh. reflexivity.
      - destruct (dict_get n (firstn k sd)); reflexivity. }
    rewrite (skipn_nth sd k _ En). cbn [filter].
    assert (Hcw : conflicts_with td0 (name, definition)
                  = match dict_get name td0 with
                    | Some existing => negb (dumps_equal existing definition)
                    | None => false
                    end) by reflexivity.
    rewrite Hcw. clear Hcw.
    rewrite (merge_one_run t name definition h conflicts tc td c Ht Htc Hc), Hname.
    destruct (dict_get name td0) as [existing|] eqn:E0.
    + destruct (dumps_equal existing definition) eqn:Eq; cbn [negb].
      * cbn zeta. apply (IH (S k) h conflicts tc td c); try assumption; [lia|].
        intros n. rewrite Hnext. destruct (String.eqb n name) eqn:E.
        -- apply String.eqb_eq in E. subst n. rewrite Hname, E0. cbn [resolve].
           rewrite Eq. reflexivity.
        -- apply Hinv.
      * destruct (String.eqb strategy "error") eqn:Eerr.
        { right. apply String.eqb_eq in Eerr. split; [exact Eerr|].
          exists name, definition. split; [left; reflexivity | reflexivity]. }
        assert (Hnot : strategy <> "error")
          by (intros ->; discriminate).
        destruct (String.eqb strategy "keep_last") eqn:Elast.
        -- destruct (IH (S k)
                       (heap_set h target
                          (JObj (dict_set t (JObj (dict_set name definition td)) tc)))
                       (dict_set t (S c) conflicts)
                       (dict_set t (JObj (dict_set name definition td)) tc)
                       (dict_set name definition td) (S c))
             as [[td' [H1 [H2 [H3 [H4 H5]]]]] | [Herr _]];
             [lia | rewrite heap_set_source by exact Hdiff; exact Hs
             | apply heap_set_target | apply dict_get_set_same | | apply dict_get_set_same
             | | contradiction].
           { intros n. rewrite Hnext, dict_get_set. destruct (String.eqb n name) eqn:E.
             - apply String.eqb_eq in E. subst n. rewrite E0. cbn [resolve].
               rewrite Eq, Elast. reflexivity.
             - apply Hinv. }
           left. exists td'. rewrite dict_set_set in H1. rewrite dict_set_set in H3.
           split; [exact H1|]. split; [exact H2|]. split.
           ++ rewrite H3. cbn [List.length]. do 2 f_equal. lia.
           ++ split; [exact H4 | intros Herr; contradiction].
        -- destruct (IH (S k) h (dict_set t (S c) conflicts) tc td (S c))
             as [[td' [H1 [H2 [H3 [H4 H5]]]]] | [Herr _]];
             [lia | exact Hs | exact Ht | exact Htc | | apply dict_get_set_same
             | | contradiction].
           { intros n. rewrite Hnext. destruct (String.eqb n name) eqn:E.
             - apply String.eqb_eq in E. subst n. rewrite Hname, E0. cbn [resolve].
               rewrite Eq, Elast. reflexivity.
             - apply Hinv. }
           left. exists td'. rewrite dict_set_set in H3.
           split; [exact H1|]. split; [exact H2|]. split.
           ++ rewrite H3. cbn [List.length]. do 2 f_equal. lia.
           ++ split; [exact H4 | intros Herr; contradiction].
    + destruct (IH (S k)
                  (heap_set h target
                     (JObj (dict_set t (JObj (dict_set name definition td)) tc)))
                  conflicts
                  (dict_set t (JObj (dict_set name definition td)) tc)
                  (dict_set name definition td) c)
        as [[td' [H1 [H2 [H3 [H4 H5]]]]] | [Herr [n0 [d0 [Hin Hr]]]]];
        [lia | rewrite heap_set_source by exact Hdiff; exact Hs
        | apply heap_set_target | apply dict_get_set_same | | exact Hc | | ].
      { intros n. rewrite Hnext, dict_get_set. destruct (String.eqb n name) eqn:E.
        - apply String.eqb_eq in E. subst n. rewrite E0. reflexivity.
        - apply Hinv. }
      * left. exists td'. rewrite dict_set_set in H1.
        split; [exact H1|]. split; [exact H2|]. split; [exact H3|]. split; assumption.
      * right. split; [exact Herr|]. exists n0, d0. split; assumption.
Qed.

End OneType.

Hypothesis Hsrc : component_mapping (JObj src).

Lemma merge_type_run t :
  In t COMPONENT_TYPES ->
  forall h conflicts tc c,
    h source = JObj src -> h target = JObj tc ->
    (forall v, dict_get t tc = Some v -> exists td, v = JObj td) ->
    dict_get t conflicts = Some c ->
    let r := merge_type strategy target source h conflicts t in
    (exists tc',
        fst r target = JObj tc' /\
        fst r source = JObj src /\
        (forall t', t' <> t -> dict_get t' tc' = dict_get t' tc) /\
        (dict_mem t src = false -> dict_get t tc' = dict_get t tc) /\
        (dict_mem t src = true ->
         forall n, component tc' t n
                   = resolve strategy (component tc t n) (component src t n)) /\
        snd r = Ok (dict_set t (c + List.length (conflicting tc src t)) conflicts) /\
        (strategy = "error" -> conflicting tc src t = []))
    \/ (strategy = "error" /\
        exists name definition,
          In (name, definition) (conflicting tc src t) /\
          snd r = Raise (ValueError (conflict_message t name))).
Proof.
  intros Hin h conflicts tc c Hs Ht Hsec Hc r. subst r. unfold merge_type.
  rewrite Hs. cbn [contains].
  destruct (dict_get t src) as [v|] eqn:Ev.
  - destruct Hsrc as [d [[= <-] Hd]]. destruct (Hd t v Hin Ev) as [sd [-> Hwf]].
    assert (Hmem : dict_mem t src = true) by (unfold dict_mem; rewrite Ev; reflexivity).
    rewrite Hmem, Ht. cbn [contains bind].
    assert (Hcs : forall n, component src t n = dict_get n sd)
      by (intros n; unfold component; rewrite Ev; reflexivity).
    destruct (dict_mem t tc) eqn:Em.
    + unfold dict_mem in Em. destruct (dict_get t tc) as [v|] eqn:Etc; [|discriminate].
      destruct (Hsec v eq_refl) as [td0 ->].
      rewrite Hs. cbn [getitem]. rewrite Ev. cbn [bind items].
      assert (Hconf : conflicting tc src t = filter (conflicts_with td0) sd)
        by (unfold conflicting; rewrite Ev, Etc; reflexivity).
      destruct (merge_items_run t sd td0 Ev Hwf (List.length sd) 0 h conflicts tc td0 c)
        as [[td' [H1 [H2 [H3 [H4 H5]]]]] | [Herr [name [definition [Hn Hr]]]]];
        [reflexivity | exact Hs | exact Ht | exact Etc
        | intros n; cbn [firstn dict_get]; symmetry; apply resolve_none_r | exact Hc | |].
      * left. exists (dict_set t (JObj td') tc). cbn [skipn] in H3, H5.
        split; [exact H1|]. split; [exact H2|]. split.
        { intros t' Hne. apply dict_get_set_other. exact Hne. }
        split; [intros Hf; rewrite Hf in Hmem; discriminate|]. split.
        { intros _ n. unfold component at 1 2. rewrite dict_get_set_same, Etc, Hcs.
          apply H4. }
        rewrite Hconf. split; [exact H3 | exact H5].
      * right. split; [exact Herr|]. exists name, definition. rewrite Hconf.
        split; [exact Hn | exact Hr].
    + cbn [setitem bind]. rewrite heap_set_source by exact Hdiff.
      rewrite Hs. cbn [getitem]. rewrite Ev. cbn [bind items].
      unfold dict_mem in Em. destruct (dict_get t tc) as [v|] eqn:Etc; [discriminate|].
      assert (Hconf : conflicting tc src t = filter (conflicts_with []) sd)
        by (unfold conflicting; rewrite Ev, Etc; reflexivity).
      destruct (merge_items_run t sd [] Ev Hwf (List.length sd) 0
                  (heap_set h target (JObj (dict_set t (JObj []) tc))) conflicts
                  (dict_set t (JObj []) tc) [] c)
        as [[td' [H1 [H2 [H3 [H4 H5]]]]] | [Herr [name [definition [Hn Hr]]]]];
        [reflexivity | rewrite heap_set_source by exact Hdiff; exact Hs
        | apply heap_set_target | apply dict_get_set_same
        | intros n; reflexivity | exact Hc | |].
      * left. exists (dict_set t (JObj td') tc). cbn [skipn] in H3, H5.
        rewrite dict_set_set in H1.
        split; [exact H1|]. split; [exact H2|]. split.
        { intros t' Hne. apply dict_get_set_other. exact Hne. }
        split; [intros Hf; rewrite Hf in Hmem; discriminate|]. split.
        { intros _ n. unfold component at 1 2. rewrite dict_get_set_same, Etc, Hcs.
          apply H4. }
        rewrite Hconf. split; [exact H3 | exact H5].
      * right. split; [exact Herr|]. exists name, definition. rewrite Hconf.
        split; [exact Hn | exact Hr].
  - assert (Hmem : dict_mem t src = false) by (unfold dict_mem; rewrite Ev; reflexivity).
    rewrite Hmem. left. exists tc. cbn [fst snd].
    assert (Hconf : conflicting tc src t = [])
      by (unfold conflicting; rewrite Ev; reflexivity).
    split; [exact Ht|]. split; [exact Hs|]. split; [reflexivity|].
    split; [reflexivity|]. split; [discriminate|].
    rewrite Hconf. cbn [List.length]. rewrite Nat.add_0_r.
    rewrite (dict_set_get_same t c conflicts Hc). split; reflexivity.
Qed.

Lemma conflicting_frame tc tc' t :
  dict_get t tc' = dict_get t tc -> conflicting tc' src t = conflicting tc src t.
Proof. intros H. unfold conflicting. rewrite H. reflexivity. Qed.

Lemma component_frame tc tc' t n :
  dict_get t tc' = dict_get t tc -> component tc' t n = component tc t n.
Proof. intros H. unfold component. rewrite H. reflexivity. Qed.

Lemma merge_types_run ts :
  NoDup ts -> incl ts COMPONENT_TYPES ->
  forall h conflicts tc,
    h source = JObj src -> h target = JObj tc ->
    (forall t v, In t ts -> dict_get t tc = Some v -> exists td, v = JObj td) ->
    (forall t, In t ts -> exists c, dict_get t conflicts = Some c) ->
    let r := merge_types ts strategy target source h conflicts in
    (exists tc' conflicts',
        fst r target = JObj tc' /\
        fst r source = JObj src /\
        snd r = Ok conflicts' /\
        (forall t, ~ (In t ts /\ dict_mem t src = true) ->
                   dict_get t tc' = dict_get t tc) /\
        (forall t n, In t ts -> dict_mem t src = true ->
                     component tc' t n
                     = resolve strategy (component tc t n) (component src t n)) /\
        (forall t c, In t ts -> dict_get t conflicts = Some c ->
                     dict_get t conflicts'
                     = Some (c + List.length (conflicting tc src t))) /\
        (forall t, ~ In t ts -> dict_get t conflicts' = dict_get t conflicts) /\
        (strategy = "error" -> forall t, In t ts -> conflicting tc src t = []))
    \/ (strategy = "error" /\
        exists t name definition,
          In t ts /\ In (name, definition) (conflicting tc src t) /\
          snd r = Raise (ValueError (conflict_message t name))).
Proof.
  induction 1 as [|t0 ts Hnotin Hnd IH]; intros Hincl h conflicts tc Hs Ht Hsec Hcs r;
    subst r; cbn [merge_types].
  - left. exists tc, conflicts. cbn [fst snd].
    split; [exact Ht|]. split; [exact Hs|]. split; [reflexivity|].
    split; [reflexivity|]. split; [intros t n []|]. split; [intros t c []|].
    split; [reflexivity|]. intros _ t [].
  - destruct (Hcs t0 (or_introl eq_refl)) as [c0 Hc0].
    destruct (merge_type_run t0 (Hincl t0 (or_introl eq_refl)) h conflicts tc c0 Hs Ht
                (fun v => Hsec t0 v (or_introl eq_refl)) Hc0)
      as [[tc1 [H1 [H2 [H3 [H4 [H5 [H6 H7]]]]]]] | [Herr [name [definition [Hn Hr]]]]].
    + destruct (merge_type strategy target source h conflicts t0) as [h1 r1] eqn:E1.
      cbn [fst snd] in *. subst r1.
      assert (Hne : forall t, In t ts -> t <> t0)
        by (intros t Hin ->; contradiction).
      destruct (IH (fun x Hx => Hincl x (or_intror Hx)) h1
                  (dict_set t0 (c0 + List.length (conflicting tc src t0)) conflicts) tc1
                  H2 H1)
        as [[tc' [conflicts' [G1 [G2 [G3 [G4 [G5 [G6 [G8 G7]]]]]]]]]
           | [Herr [t [name [definition [Hin [Hn Hr]]]]]]].
      * intros t v Hin Hget. rewrite (H3 t (Hne t Hin)) in Hget.
        apply (Hsec t v (or_intror Hin) Hget).
      * intros t Hin. destruct (Hcs t (or_intror Hin)) as [c Hc]. exists c.
        rewrite dict_get_set_other by (apply Hne; exact Hin). exact Hc.
      * left. exists tc', conflicts'.
        split; [exact G1|]. split; [exact G2|]. split; [exact G3|]. split.
        { intros t Hno. rewrite G4 by (intros [Hin Hm]; apply Hno; split; [right|]; assumption).
          destruct (String.eqb t t0) eqn:E.
          - apply String.eqb_eq in E. subst t. apply H4.
            destruct (dict_mem t0 src) eqn:Em; [|reflexivity].
            exfalso. apply Hno. split; [left|]; reflexivity.
          - apply H3. intros ->. rewrite String.eqb_refl in E. discriminate. }
        split.
        { intros t n [<-|Hin] Hm.
          - rewrite <- (H5 Hm n). apply component_frame. apply G4.
            intros [Hin _]. contradiction.
          - rewrite (G5 t n Hin Hm). f_equal. apply component_frame.
            apply H3. apply Hne. exact Hin. }
        split.
        { intros t c [<-|Hin] Hc.
          - rewrite Hc in Hc0. injection Hc0 as <-.
            rewrite (G8 t0 Hnotin). apply dict_get_set_same.
          - rewrite (G6 t c Hin).
            + rewrite (conflicting_frame tc tc1 t (H3 t (Hne t Hin))). reflexivity.
            + rewrite dict_get_set_other by (apply Hne; exact Hin). exact Hc. }
        split.
        { intros t Hno. rewrite G8 by (intros Hin; apply Hno; right; exact Hin).
          apply dict_get_set_other. intros ->. apply Hno. left. reflexivity. }
        intros Herr t [<-|Hin]; [apply H7; exact Herr|].
        rewrite <- (conflicting_frame tc tc1 t (H3 t (Hne t Hin))).
        apply G7; assumption.
      * right. split; [exact Herr|]. exists t, name, definition.
        split; [right; exact Hin|]. split; [|exact Hr].
        rewrite <- (conflicting_frame tc tc1 t (H3 t (Hne t Hin))). exact Hn.
    + right. split; [exact Herr|]. exists t0, name, definition.
      split; [left; reflexivity|]. split; [exact Hn|].
      destruct (merge_type strategy target source h conflicts t0) as [h1 r1] eqn:E1.
      cbn [snd] in Hr. subst r1. reflexivity.
Qed.

End MergePolicy.

Lemma COMPONENT_TYPES_NoDup : NoDup ComponentExtractor.COMPONENT_TYPES.
Proof.
  unfold ComponentExtractor.COMPONENT_TYPES.
  repeat (constructor; [simpl; intuition discriminate|]). constructor.
Qed.

Lemma no_conflicts_get t :
  In t ComponentExtractor.COMPONENT_TYPES -> dict_get t no_conflicts = Some 0.
Proof.
  intros H. apply dict_wf_In_get.
  - unfold dict_wf, dict_keys, no_conflicts. rewrite map_map. cbn [fst]. rewrite map_id.
    apply COMPONENT_TYPES_NoDup.
  - unfold no_conflicts. apply in_map_iff. exists t. split; [reflexivity | exact H].
Qed.

(** X11. [merge_components] on two distinct objects that are component
    mappings.  Unless the strategy is [error] and some definition conflicts,
    it raises nothing and, in every section that the source has, each name
    ends with the definition that [resolve] gives: the target's own when the
    target had the name and the texts are equal or the strategy is not
    [keep_last], the source's otherwise; sections that the source lacks are
    untouched, the source is unchanged, and the count returned for a
    component type is the number of names of the source whose definition
    differs in text from the one the target held. *)
Theorem merge_components_resolves
    (h : ComponentExtractor.heap) (target source : ComponentExtractor.loc)
    (strategy : string) (tc src : dict json) :
  target <> source ->
  h target = JObj tc -> h source = JObj src ->
  component_mapping (JObj tc) -> component_mapping (JObj src) ->
  (strategy = "error" ->
   forall t, In t ComponentExtractor.COMPONENT_TYPES -> conflicting tc src t = []) ->
  exists h' tc' conflicts,
    ComponentExtractor.merge_components h target source strategy = (h', Ok conflicts) /\
    h' target = JObj tc' /\ h' source = JObj src /\
    (forall t n, In t ComponentExtractor.COMPONENT_TYPES -> dict_mem t src = true ->
                 component tc' t n
                 = resolve strategy (component tc t n) (component src t n)) /\
    (forall t, ~ (In t ComponentExtractor.COMPONENT_TYPES /\ dict_mem t src = true) ->
               dict_get t tc' = dict_get t tc) /\
    (forall t, In t ComponentExtractor.COMPONENT_TYPES ->
               dict_get t conflicts = Some (List.length (conflicting tc src t))).
Proof.
  intros Hdiff Ht Hs [d [[= <-] Htc]] Hsrc Hnone.
  unfold ComponentExtractor.merge_components.
  destruct (merge_types_run strategy target source src Hdiff Hsrc
              ComponentExtractor.COMPONENT_TYPES COMPONENT_TYPES_NoDup (incl_refl _)
              h no_conflicts tc Hs Ht)
    as [[tc' [conflicts' [G1 [G2 [G3 [G4 [G5 [G6 [G8 G7]]]]]]]]]
       | [Herr [t [name [definition [Hin [Hn _]]]]]]].
  - intros t v Hin Hget. destruct (Htc t v Hin Hget) as [td [-> _]]. exists td. reflexivity.
  - intros t Hin. exists 0. apply no_conflicts_get. exact Hin.
  - fold no_conflicts.
    destruct (ComponentExtractor.merge_types _ _ _ _ _ _) as [h' r]. cbn [fst snd] in *.
    subst r. exists h', tc', conflicts'. split; [reflexivity|].
    split; [exact G1|]. split; [exact G2|]. split; [exact G5|]. split; [exact G4|].
    intros t Hin. rewrite (G6 t 0 Hin (no_conflicts_get t Hin)). reflexivity.
  - rewrite (Hnone Herr t Hin) in Hn. destruct Hn.
Qed.

Lemma merge_components_resolves_witness :
  let X := JObj [("type", JStr "object")] in
  let Y := JObj [("type", JStr "string")] in
  let tc := [("schemas", JObj [("A", X)])] in
  let src := [("schemas", JObj [("A", Y); ("B", Y)])] in
  let h : ComponentExtractor.heap := fun l => if Nat.eqb l 0 then JObj tc else JObj src in
  exists h' tc' conflicts,
    ComponentExtractor.merge_components h 0 1 "keep_last" = (h', Ok conflicts) /\
    h' 0 = JObj tc' /\
    component tc' "schemas" "A" = Some Y /\
    component tc' "schemas" "B" = Some Y /\
    dict_get "schemas" conflicts = Some 1.
Proof.
  intros X Y tc src h.
  destruct (merge_components_resolves h 0 1 "keep_last" tc src)
    as [h' [tc' [conflicts [E [Ht [_ [Hres [_ Hc]]]]]]]].
  - discriminate.
  - reflexivity.
  - reflexivity.
  - eexists. split; [reflexivity|]. intros t v _ H. simpl in H.
    destruct (String.eqb t "schemas"); [|discriminate].
    injection H as <-. eexists. split; [reflexivity | wf_keys].
  - eexists. split; [reflexivity|]. intros t v _ H. simpl in H.
    destruct (String.eqb t "schemas"); [|discriminate].
    injection H as <-. eexists. split; [reflexivity | wf_keys].
  - discriminate.
  - exists h', tc', conflicts. split; [exact E|]. split; [exact Ht|].
    assert (Hin : In "schemas" ComponentExtractor.COMPONENT_TYPES) by (simpl; tauto).
    split; [rewrite (Hres "schemas" "A" Hin eq_refl); reflexivity|].
    split; [rewrite (Hres "schemas" "B" Hin eq_refl); reflexivity|].
    rewrite (Hc "schemas" Hin). reflexivity.
Defined.

(** X12. Under the strategy [error], [merge_components] on two distinct
    component mappings raises exactly when some name of the source has, in
    the target, a definition with a different text: it then raises
    [ValueError] with the message [Conflicting {type} '{name}'] of such a
    name. *)
Theorem merge_components_error_raises
    (h : ComponentExtractor.heap) (target source : ComponentExtractor.loc)
    (tc src : dict json) :
  target <> source ->
  h target = JObj tc -> h source = JObj src ->
  component_mapping (JObj tc) -> component_mapping (JObj src) ->
  ((exists t, In t ComponentExtractor.COMPONENT_TYPES /\ conflicting tc src t <> []) <->
   exists h' e, ComponentExtractor.merge_components h target source "error"
                = (h', Raise e)) /\
  (forall h' e,
     ComponentExtractor.merge_components h target source "error" = (h', Raise e) ->
     exists t name definition,
       In t ComponentExtractor.COMPONENT_TYPES /\
       In (name, definition) (conflicting tc src t) /\
       e = ValueError (conflict_message t name)).
Proof.
  intros Hdiff Ht Hs [d [[= <-] Htc]] Hsrc.
  assert (Hrun := merge_types_run "error" target source src Hdiff Hsrc
              ComponentExtractor.COMPONENT_TYPES COMPONENT_TYPES_NoDup (incl_refl _)
              h no_conflicts tc Hs Ht
              ltac:(intros t v Hin Hget; destruct (Htc t v Hin Hget) as [td [-> _]];
                    exists td; reflexivity)
              ltac:(intros t Hin; exists 0; apply no_conflicts_get; exact Hin)).
  cbn zeta in Hrun. unfold ComponentExtractor.merge_components. fold no_conflicts.
  destruct (ComponentExtractor.merge_types _ _ _ _ _ _) as [h1 r1]. cbn [fst snd] in Hrun.
  destruct Hrun as [[tc' [conflicts' [G1 [G2 [G3 [G4 [G5 [G6 [G8 G7]]]]]]]]]
                   | [_ [t [name [definition [Hin [Hn Hr]]]]]]].
  - subst r1. split.
    + split.
      * intros [t [Hin Hne]]. exfalso. apply Hne. apply (G7 eq_refl t Hin).
      * intros [h' [e He]]. discriminate He.
    + intros h' e He. discriminate He.
  - subst r1. split.
    + split.
      * intros _. exists h1. eexists. reflexivity.
      * intros _. exists t. split; [exact Hin|]. intros Hnil. rewrite Hnil in Hn.
        destruct Hn.
    + intros h' e [= <- <-]. exists t, name, definition.
      split; [exact Hin|]. split; [exact Hn | reflexivity].
Qed.

Lemma merge_components_error_raises_witness :
  let X := JObj [("type", JStr "object")] in
  let Y := JObj [("type", JStr "string")] in
  let tc := [("schemas", JObj [("A", X)])] in
  let src := [("schemas", JObj [("B", Y); ("A", Y)])] in
  let h : ComponentExtractor.heap := fun l => if Nat.eqb l 0 then JObj tc else JObj src in
  exists h' e,
    ComponentExtractor.merge_components h 0 1 "error" = (h', Raise e).
Proof.
  intros X Y tc src h.
  apply (proj1 (proj1 (merge_components_error_raises h 0 1 tc src
                         ltac:(discriminate) eq_refl eq_refl
                         ltac:(eexists; split; [reflexivity|]; intros t v _ H; simpl in H;
                               destruct (String.eqb t "schemas"); [|discriminate];
                               injection H as <-; eexists; split; [reflexivity | wf_keys])
                         ltac:(eexists; split; [reflexivity|]; intros t v _ H; simpl in H;
                               destruct (String.eqb t "schemas"); [|discriminate];
                               injection H as <-; eexists; split; [reflexivity | wf_keys])))).
  exists "schemas". split; [simpl; tauto | discriminate].
Defined.

(** ** [merge_root_properties]: servers *)




Section Servers.

Import OpenAPIMerger.



End Servers.


(** ** The security counters of the analyzer *)

Section Security.

Import OperationCounter OpenAPIAnalyzer.

Variable global_security : json.

Lemma count_security_methods (path : string) (d : dict json) (methods : list string)
    (counts : nat * nat) :
  fold_left (fun counts method =>
               match dict_get method d with
               | Some operation => count_security global_security operation counts
               | None => counts
               end) methods counts
  = fold_left (fun counts (e : endpoint) => count_security global_security (snd e) counts)
      (flat_map (fun method =>
                   match dict_get method d with
                   | Some operation => [(path, method, operation)]
                   | None => []
                   end) methods)
      counts.
Proof.
  revert counts. induction methods as [|m methods IH]; intros counts;
    cbn [fold_left flat_map]; [reflexivity|].
  rewrite fold_left_app. destruct (dict_get m d); cbn [fold_left snd]; apply IH.
Qed.

Lemma count_security_paths (paths : dict json) (counts : nat * nat) :
  fold_left (fun counts (entry : string * json) =>
               match snd entry with
               | JObj d =>
                   fold_left (fun counts method =>
                                match dict_get method d with
                                | Some operation =>
                                    count_security global_security operation counts
                                | None => counts
                                end)
                             HTTP_METHODS counts
               | _ => counts
               end) paths counts
  = fold_left (fun counts (e : endpoint) => count_security global_security (snd e) counts)
      (flat_map (fun entry => path_item_operations (fst entry) (snd entry)) paths)
      counts.
Proof.
  revert counts. induction paths as [|[path path_item] paths IH]; intros counts;
    cbn [fold_left flat_map fst snd]; [reflexivity|].
  rewrite fold_left_app, IH. f_equal.
  destruct path_item; try reflexivity.
  unfold path_item_operations. apply count_security_methods.
Qed.

Lemma count_security_total (operations : list endpoint) (counts : nat * nat) :
  let counts' :=
    fold_left (fun counts (e : endpoint) => count_security global_security (snd e) counts)
              operations counts in
  fst counts' + snd counts'
  = fst counts + snd counts + List.length (filter operation_is_dict operations) /\
  (if truthy global_security
   then snd counts' = snd counts
   else fst counts' = fst counts + List.length (filter own_security operations)).
Proof.
  revert counts. induction operations as [|[[p m] operation] operations IH];
    intros counts; cbn [fold_left filter snd].
  - cbn [List.length]. split; [lia|]. destruct (truthy global_security); lia.
  - specialize (IH (count_security global_security operation counts)).
    cbn zeta in IH. destruct IH as [IH1 IH2]. cbn zeta.
    unfold operation_is_dict, own_security in *. cbn [snd].
    unfold count_security in *.
    destruct operation as [ | | | | |d]; cbn [is_dict]; try (split; assumption).
    destruct (dict_mem "security" d); cbn [fst snd List.length] in *.
    + split; [lia|]. destruct (truthy global_security); lia.
    + destruct (truthy global_security); cbn [fst snd] in *; split; lia.
Qed.

End Security.

Section SecurityCounts.

Import OperationCounter OpenAPIAnalyzer.

(** X14.  [analyze_security], on a document whose [paths] is a mapping (or
    absent) and whose [components] is a mapping with a mapping of security
    schemes (either may be absent), returns a result in which the two
    counters add up to the number of mapping-valued operations that
    [get_operations] lists.  With a non-empty global [security] no operation
    counts as being without security; otherwise the operations with security
    are exactly those that carry a [security] key of their own, whatever its
    value.  [has_security] is true exactly when the document has a
    [security] key or security schemes. *)
Theorem analyze_security_counts (self : OpenAPIAnalyzer.state) :
  absent_or is_dict "paths" (spec self) = true ->
  absent_or schemes_shape "components" (spec self) = true ->
  exists analysis operations secured unsecured,
    analyze_security self = Ok analysis /\
    get_operations (spec self) = Ok operations /\
    dict_get "operations_with_security" analysis = Some (JNum (Z.of_nat secured)) /\
    dict_get "operations_without_security" analysis = Some (JNum (Z.of_nat unsecured)) /\
    secured + unsecured = List.length (filter operation_is_dict operations) /\
    (if truthy (dict_get_default "security" (JArr []) (spec self))
     then unsecured = 0
     else secured = List.length (filter own_security operations)) /\
    (dict_get "has_security" analysis = Some (JBool true) <->
     dict_mem "security" (spec self) = true \/
     exists c, dict_get "components" (spec self) = Some (JObj c) /\
               dict_mem "securitySchemes" c = true).
Proof.
  intros Hpaths Hcomp. unfold analyze_security, get_operations.
  assert (Hs : exists schemes,
             security_schemes (spec self) = Ok schemes /\
             ((match schemes with Some _ => true | None => false end) = true <->
              exists c, dict_get "components" (spec self) = Some (JObj c) /\
                        dict_mem "securitySchemes" c = true)).
  { unfold security_schemes. unfold absent_or in Hcomp.
    destruct (dict_get "components" (spec self)) as [c|].
    - unfold schemes_shape in Hcomp. destruct c as [ | | | | |c]; try discriminate.
      cbn [contains bind]. unfold absent_or in Hcomp. unfold dict_mem.
      destruct (dict_get "securitySchemes" c) as [s|] eqn:Es.
      + cbn [getitem]. rewrite Es. cbn [bind].
        destruct s as [ | | | | |s]; try discriminate. cbn [keys bind].
        eexists. split; [reflexivity|]. split; [|reflexivity].
        intros _. exists c. split; [reflexivity|]. unfold dict_mem. rewrite Es. reflexivity.
      + eexists. split; [reflexivity|]. split; [discriminate|].
        intros [c' [Ec' Hm]]. injection Ec' as <-. unfold dict_mem in Hm.
        rewrite Es in Hm. discriminate.
    - eexists. split; [reflexivity|]. split; [discriminate|].
      intros [c' [Ec' _]]. discriminate. }
  destruct Hs as [schemes [Es Hschemes]]. rewrite Es. cbn [bind].
  assert (Hp : exists paths,
             dict_get_default "paths" (JObj []) (spec self) = JObj paths).
  { unfold absent_or in Hpaths. unfold dict_get_default.
    destruct (dict_get "paths" (spec self)) as [p|]; [|eexists; reflexivity].
    destruct p; try discriminate. eexists; reflexivity. }
  destruct Hp as [paths Ep]. rewrite Ep. cbn [items bind].
  rewrite count_security_paths.
  pose proof (count_security_total
                (dict_get_default "security" (JArr []) (spec self))
                (flat_map (fun entry => path_item_operations (fst entry) (snd entry)) paths)
                (0, 0)) as Ht.
  cbn zeta in Ht. cbn [fst snd] in Ht. destruct Ht as [Hsum Hsplit].
  do 4 eexists. split; [reflexivity|]. split; [reflexivity|].
  split; [reflexivity|]. split; [reflexivity|].
  split; [exact Hsum|]. split; [exact Hsplit|].
  cbn [dict_get String.eqb Ascii.eqb Bool.eqb]. split.
  - intros H. injection H as H. apply orb_prop in H. destruct H as [H|H].
    + right. apply Hschemes. exact H.
    + left. exact H.
  - intros [H|H]; f_equal; f_equal; apply orb_true_iff.
    + right. exact H.
    + left. apply Hschemes. exact H.
Qed.

Lemma analyze_security_counts_witness :
  let self :=
    {| spec_path := "api.json";
       spec := [("openapi", JStr "3.0.0");
                ("paths",
                 JObj [("/a", JObj [("get", JObj [("security", JArr [])]);
                                    ("post", JObj []);
                                    ("put", JStr "x")])]);
                ("components", JObj [("securitySchemes", JObj [("key", JObj [])])])] |} in
  exists analysis operations secured unsecured,
    analyze_security self = Ok analysis /\
    get_operations (spec self) = Ok operations /\
    dict_get "operations_with_security" analysis = Some (JNum (Z.of_nat secured)) /\
    dict_get "operations_without_security" analysis = Some (JNum (Z.of_nat unsecured)) /\
    secured + unsecured = List.length (filter operation_is_dict operations) /\
    (if truthy (dict_get_default "security" (JArr []) (spec self))
     then unsecured = 0
     else secured = List.length (filter own_security operations)) /\
    (dict_get "has_security" analysis = Some (JBool true) <->
     dict_mem "security" (spec self) = true \/
     exists c, dict_get "components" (spec self) = Some (JObj c) /\
               dict_mem "securitySchemes" c = true).
Proof.
  intros self. apply (analyze_security_counts self); reflexivity.
Defined.

End SecurityCounts.

(** ** The groups of the tag split *)

Lemma scalar_eq_sym (a b : json) : scalar_eq a b = scalar_eq b a.
Proof.
  destruct a, b; cbn [scalar_eq]; try reflexivity.
  - destruct b, b0; reflexivity.
  - apply Z.eqb_sym.
  - apply Z.eqb_sym.
  - apply Z.eqb_sym.
  - apply String.eqb_sym.
Qed.

Lemma scalar_eq_trans (a b c : json) :
  scalar_eq a b = true -> scalar_eq b c = true -> scalar_eq a c = true.
Proof.
  destruct a, b, c; cbn [scalar_eq]; try discriminate; try reflexivity;
    rewrite ?Bool.eqb_true_iff, ?Z.eqb_eq, ?String.eqb_eq;
    try congruence;
    repeat match goal with b : bool |- _ => destruct b end; lia.
Qed.

Lemma scalar_eq_left (a b c : json) :
  scalar_eq a b = true -> scalar_eq c a = scalar_eq c b.
Proof.
  intros H. destruct (scalar_eq c a) eqn:E1, (scalar_eq c b) eqn:E2; try reflexivity.
  - rewrite (scalar_eq_trans c a b E1 H) in E2. discriminate.
  - rewrite scalar_eq_sym in H. rewrite (scalar_eq_trans c b a E2 H) in E1. discriminate.
Qed.

Lemma scalar_eq_hashable (a : json) : hashable a = true -> scalar_eq a a = true.
Proof.
  destruct a; cbn; try discriminate; intros _; try reflexivity.
  - destruct b; reflexivity.
  - apply Z.eqb_refl.
  - apply String.eqb_refl.
Qed.

Section TagGroups.

Import OperationCounter OpenAPISplitter.

Lemma tag_groups_get_set (t k : json) v (g : tag_groups) :
  tag_groups_get t (tag_groups_set k v g)
  = if scalar_eq t k then Some v else tag_groups_get t g.
Proof.
  induction g as [|[k' v'] g IH]; cbn [tag_groups_set tag_groups_get]; [reflexivity|].
  destruct (scalar_eq k k') eqn:Ek; cbn [tag_groups_get].
  - rewrite (scalar_eq_left _ _ t Ek). destruct (scalar_eq t k'); reflexivity.
  - rewrite IH. destruct (scalar_eq t k') eqn:Et; [|reflexivity].
    destruct (scalar_eq t k) eqn:Etk; [|reflexivity].
    rewrite scalar_eq_sym in Etk. rewrite (scalar_eq_trans k t k' Etk Et) in Ek.
    discriminate.
Qed.

Lemma distinct_keys_set (k : json) v (g : tag_groups) :
  scalar_eq k k = true -> distinct_keys g -> distinct_keys (tag_groups_set k v g).
Proof.
  intros Hk. induction g as [|[k' v'] g IH]; cbn [tag_groups_set distinct_keys].
  - intros _. repeat split. exact Hk.
  - intros [Hk' [Hnone Hg]]. destruct (scalar_eq k k') eqn:Ek; cbn [distinct_keys].
    + repeat split; assumption.
    + repeat split; [exact Hk'| |apply IH; exact Hg].
      rewrite tag_groups_get_set, scalar_eq_sym, Ek. exact Hnone.
Qed.

Lemma tag_groups_get_none (k : json) (g : tag_groups) :
  tag_groups_get k g = None ->
  forall k' l, In (k', l) g -> scalar_eq k k' = false.
Proof.
  induction g as [|[k0 l0] g IH]; cbn [tag_groups_get]; intros H k' l Hin; [destruct Hin|].
  destruct (scalar_eq k k0) eqn:E; [discriminate|].
  destruct Hin as [Heq|Hin]; [injection Heq as <- <-; exact E|].
  apply (IH H k' l Hin).
Qed.

Lemma distinct_keys_In (g : tag_groups) :
  distinct_keys g ->
  forall k l, In (k, l) g -> tag_groups_get k g = Some l.
Proof.
  induction g as [|[k0 l0] g IH]; intros Hd k l Hin; [destruct Hin|].
  cbn [distinct_keys] in Hd. destruct Hd as [Hk0 [Hnone Hg]]. cbn [tag_groups_get].
  destruct Hin as [Heq|Hin].
  - injection Heq as <- <-. rewrite Hk0. reflexivity.
  - rewrite scalar_eq_sym, (tag_groups_get_none _ _ Hnone k l Hin).
    apply IH; assumption.
Qed.

Lemma distinct_keys_NoDup (g : tag_groups) :
  distinct_keys g -> NoDup (map fst g).
Proof.
  induction g as [|[k0 l0] g IH]; cbn [distinct_keys map fst]; intros Hd; [constructor|].
  destruct Hd as [Hk0 [Hnone Hg]]. constructor; [|apply IH; exact Hg].
  intros Hin. apply in_map_iff in Hin. destruct Hin as [[k l] [Hk Hin]].
  cbn [fst] in Hk. subst k. rewrite (tag_groups_get_none _ _ Hnone k0 l Hin) in Hk0.
  discriminate.
Qed.

Lemma bind_Ok {A B : Type} (m : exc A) (k : A -> exc B) x r :
  m = Ok x -> k x = r -> bind m k = r.
Proof. intros -> <-. reflexivity. Qed.

Lemma foldM_app {A S : Type} (f : S -> A -> exc S) (l1 l2 : list A) (s : S) :
  foldM f (l1 ++ l2) s = (s' <- foldM f l1 s ;; foldM f l2 s').
Proof.
  revert s. induction l1 as [|x l1 IH]; intros s; cbn [app foldM bind]; [reflexivity|].
  destruct (f s x); cbn [bind]; [apply IH | reflexivity].
Qed.

Lemma group_methods (path : string) (d : dict json) (methods : list string) st :
  foldM (fun st method =>
           match dict_get method d with
           | Some operation => group_operation_by_tag path method operation st
           | None => Ok st
           end) methods st
  = foldM group_step
      (flat_map (fun method =>
                   match dict_get method d with
                   | Some operation => [(path, method, operation)]
                   | None => []
                   end) methods)
      st.
Proof.
  revert st. induction methods as [|m methods IH]; intros st;
    cbn [foldM flat_map]; [reflexivity|].
  rewrite foldM_app. destruct (dict_get m d) as [operation|]; cbn [foldM bind].
  - change (group_step st (path, m, operation))
      with (group_operation_by_tag path m operation st).
    destruct (group_operation_by_tag path m operation st); cbn [bind];
      [apply IH | reflexivity].
  - apply IH.
Qed.

Lemma group_paths (paths : dict json) st :
  foldM group_path_item_by_tag paths st
  = foldM group_step
      (flat_map (fun entry => path_item_operations (fst entry) (snd entry)) paths) st.
Proof.
  revert st. induction paths as [|[path path_item] paths IH]; intros st;
    cbn [foldM flat_map fst snd]; [reflexivity|].
  rewrite foldM_app.
  assert (E : group_path_item_by_tag st (path, path_item)
              = foldM group_step (path_item_operations path path_item) st).
  { unfold group_path_item_by_tag, path_item_operations.
    destruct path_item; try reflexivity. apply group_methods. }
  rewrite E. destruct (foldM group_step (path_item_operations path path_item) st);
    cbn [bind]; [apply IH | reflexivity].
Qed.

Lemma nonempty_default (l : list endpoint) :
  match nonempty l with Some l' => l' | None => [] end = l.
Proof. destruct l; reflexivity. Qed.

Lemma nonempty_snoc (l : list endpoint) x : nonempty (l ++ [x]) = Some (l ++ [x]).
Proof. destruct l; reflexivity. Qed.

Lemma tagged_app tag l1 l2 : tagged tag (l1 ++ l2) = tagged tag l1 ++ tagged tag l2.
Proof. unfold tagged. apply flat_map_app. Qed.

Lemma untagged_app l1 l2 : untagged (l1 ++ l2) = untagged l1 ++ untagged l2.
Proof. unfold untagged. apply filter_app. Qed.

Lemma append_tags (e : endpoint) (ts : list json) :
  forallb hashable ts = true ->
  forall (g : tag_groups) (L : json -> list endpoint),
    (forall t t', scalar_eq t t' = true -> L t = L t') ->
    holds g L ->
    exists g',
      foldM (fun g tag => tag_groups_append tag e g) ts g = Ok g' /\
      holds g' (fun t => L t ++ map (fun _ => e) (filter (scalar_eq t) ts)).
Proof.
  induction ts as [|tag ts IH]; intros Hts g L HL [Hd Hg]; cbn [foldM].
  - exists g. split; [reflexivity|]. split; [exact Hd|].
    intros t. cbn [filter map]. rewrite app_nil_r. apply Hg.
  - cbn [forallb] in Hts. apply andb_prop in Hts. destruct Hts as [Htag Hts].
    unfold tag_groups_append at 1. rewrite Htag. cbn [bind].
    rewrite Hg, nonempty_default.
    set (L' := fun t => L t ++ (if scalar_eq t tag then [e] else [])).
    destruct (IH Hts (tag_groups_set tag (L tag ++ [e]) g) L') as [g' [E [Hd' Hg']]].
    + intros t t' Ht. unfold L'. rewrite (HL t t' Ht).
      rewrite (scalar_eq_sym t tag), (scalar_eq_sym t' tag), (scalar_eq_left _ _ tag Ht).
      reflexivity.
    + split; [apply distinct_keys_set; [apply scalar_eq_hashable; exact Htag | exact Hd]|].
      intros t. rewrite tag_groups_get_set. unfold L'.
      destruct (scalar_eq t tag) eqn:Et.
      * rewrite (HL t tag Et). symmetry. apply nonempty_snoc.
      * rewrite app_nil_r. apply Hg.
    + exists g'. split; [exact E|]. split; [exact Hd'|].
      intros t. rewrite Hg'. unfold L'. cbn [filter].
      destruct (scalar_eq t tag); cbn [map]; rewrite <- app_assoc; reflexivity.
Qed.

Lemma tagged_equiv t t' l : scalar_eq t t' = true -> tagged t l = tagged t' l.
Proof.
  intros Ht. unfold tagged. apply flat_map_ext. intros e. f_equal.
  apply filter_ext. intros x.
  rewrite (scalar_eq_sym t x), (scalar_eq_sym t' x). apply scalar_eq_left. exact Ht.
Qed.

Lemma group_operations (operations : list endpoint) :
  operations_shape operations = true ->
  forall done g u,
    holds g (fun t => tagged t done) ->
    u = untagged done ->
    exists g',
      foldM group_step operations (g, u) = Ok (g', untagged (done ++ operations)) /\
      holds g' (fun t => tagged t (done ++ operations)).
Proof.
  induction operations as [|e operations IH]; intros Hs done g u Hg Hu; cbn [foldM].
  - rewrite app_nil_r. exists g. subst u. split; [reflexivity | exact Hg].
  - unfold operations_shape in Hs. cbn [forallb] in Hs. apply andb_prop in Hs.
    destruct Hs as [He Hs].
    assert (Hstep : exists g1,
               group_step (g, u) e = Ok (g1, untagged (done ++ [e])) /\
               holds g1 (fun t => tagged t (done ++ [e]))).
    { unfold group_step, group_operation_by_tag.
      destruct e as [[path method] operation]. cbn [fst snd].
      unfold operation_is_dict in He. cbn [snd] in He.
      destruct operation as [ | | | | |d];
        try (exists g; rewrite untagged_app; unfold untagged at 2;
             cbn [filter operation_is_dict snd is_dict andb]; rewrite app_nil_r;
             subst u; split; [reflexivity|];
             destruct Hg as [Hd Hg]; split; [exact Hd|];
             intros t; rewrite tagged_app; unfold tagged at 2;
             cbn [flat_map operation_tags snd filter map app]; rewrite app_nil_r;
             apply Hg).
      cbn [is_dict implb] in He. unfold operation_shape in He.
      unfold dict_get_default.
      destruct (dict_get "tags" d) as [tags|] eqn:Etags.
      - destruct tags as [ | | | |ts| ]; try discriminate.
        destruct ts as [|t0 ts].
        + cbn [truthy fst snd]. exists g. rewrite untagged_app. unfold untagged at 2.
          cbn [filter]. unfold operation_is_dict, operation_tags. cbn [snd is_dict andb].
          rewrite Etags. subst u. split; [reflexivity|].
          destruct Hg as [Hd Hg]. split; [exact Hd|].
          intros t. rewrite tagged_app. unfold tagged at 2.
          cbn [flat_map]. unfold operation_tags. cbn [snd]. rewrite Etags.
          cbn [filter map app]. rewrite app_nil_r. apply Hg.
        + cbn [truthy iter bind fst snd].
          destruct (append_tags (path, method, JObj d) (t0 :: ts) He g
                      (fun t => tagged t done)) as [g1 [E1 Hg1]].
          * intros t t' Ht. apply tagged_equiv. exact Ht.
          * exact Hg.
          * rewrite E1. cbn [bind]. exists g1. rewrite untagged_app.
            unfold untagged at 2. cbn [filter].
            unfold operation_is_dict, operation_tags. cbn [snd is_dict andb].
            rewrite Etags. rewrite app_nil_r. subst u. split; [reflexivity|].
            destruct Hg1 as [Hd1 Hg1]. split; [exact Hd1|].
            intros t. rewrite Hg1, tagged_app. unfold tagged at 3.
            cbn [flat_map]. unfold operation_tags. cbn [snd]. rewrite Etags.
            rewrite app_nil_r. reflexivity.
      - cbn [truthy fst snd]. exists g. rewrite untagged_app. unfold untagged at 2.
        cbn [filter]. unfold operation_is_dict, operation_tags. cbn [snd is_dict andb].
        rewrite Etags. subst u. split; [reflexivity|].
        destruct Hg as [Hd Hg]. split; [exact Hd|].
        intros t. rewrite tagged_app. unfold tagged at 2.
        cbn [flat_map]. unfold operation_tags. cbn [snd]. rewrite Etags.
        cbn [filter map app]. rewrite app_nil_r. apply Hg. }
    destruct Hstep as [g1 [E1 Hg1]]. rewrite E1. cbn [bind].
    destruct (IH Hs (done ++ [e]) g1 (untagged (done ++ [e])) Hg1 eq_refl)
      as [g' [E' Hg']].
    rewrite <- app_assoc in E', Hg'. cbn [app] in E', Hg'.
    exists g'. split; assumption.
Qed.

Lemma group_endpoints_by_tag_holds (self : state) (operations : list endpoint) :
  get_operations (spec self) = Ok operations ->
  operations_shape operations = true ->
  exists grouped,
    group_endpoints_by_tag self = Ok grouped /\
    distinct_keys grouped /\
    forall tag, tag_groups_get tag grouped = tag_group tag operations.
Proof.
  intros Hops Hshape. unfold get_operations in Hops. unfold group_endpoints_by_tag.
  destruct (items (dict_get_default "paths" (JObj []) (spec self))) as [paths|];
    cbn [bind] in *; [|discriminate].
  injection Hops as Hops. rewrite group_paths, Hops.
  destruct (group_operations operations Hshape [] [] [] (conj I (fun t => eq_refl)) eq_refl)
    as [g [E [Hd Hg]]].
  cbn [app] in E, Hg. unfold tag_group.
  destruct (untagged operations) as [|u0 u] eqn:Eu.
  - exists g. split; [eapply bind_Ok; [exact E | reflexivity]|].
    split; [exact Hd | exact Hg].
  - assert (Hd' : distinct_keys (tag_groups_set (JStr "untagged") (u0 :: u) g))
      by (apply distinct_keys_set; [reflexivity | exact Hd]).
    assert (Hg' : forall tag,
               tag_groups_get tag (tag_groups_set (JStr "untagged") (u0 :: u) g)
               = if scalar_eq tag (JStr "untagged") then Some (u0 :: u)
                 else nonempty (tagged tag operations)).
    { intros tag. rewrite tag_groups_get_set.
      destruct (scalar_eq tag (JStr "untagged")); [reflexivity | apply Hg]. }
    exists (tag_groups_set (JStr "untagged") (u0 :: u) g).
    split; [eapply bind_Ok; [exact E | reflexivity]|].
    split; [exact Hd' | exact Hg'].
Qed.

End TagGroups.

Section TagGroupsOf.

Import OperationCounter OpenAPISplitter.

(** X15.  [group_endpoints_by_tag], on a document whose mapping-valued
    operations carry, as [tags], lists of scalars (or nothing), returns
    groups with pairwise distinct tags in which the group of a tag holds, in
    the order of [get_operations], the operations that name the tag, once
    for each time they name it.  The operations without tags form the group
    [untagged]; when there is such an operation, the operations that name a
    tag [untagged] themselves are not in that group.  No group is empty, and
    values that are not mappings are in no group. *)
Theorem group_endpoints_by_tag_groups (self : OpenAPISplitter.state)
    (operations : list endpoint) :
  get_operations (spec self) = Ok operations ->
  operations_shape operations = true ->
  exists grouped,
    group_endpoints_by_tag self = Ok grouped /\
    NoDup (map fst grouped) /\
    (forall tag l, In (tag, l) grouped -> tag_groups_get tag grouped = Some l) /\
    forall tag, tag_groups_get tag grouped = tag_group tag operations.
Proof.
  intros Hops Hshape.
  destruct (group_endpoints_by_tag_holds self operations Hops Hshape)
    as [grouped [E [Hd Hg]]].
  exists grouped. split; [exact E|].
  split; [apply distinct_keys_NoDup; exact Hd|].
  split; [apply distinct_keys_In; exact Hd | exact Hg].
Qed.

Lemma group_endpoints_by_tag_groups_witness :
  let self :=
    {| spec_path := "api.json";
       spec := [("paths",
                 JObj [("/a", JObj [("get", JObj [("tags", JArr [JStr "untagged"])]);
                                    ("post", JObj [("tags", JArr [JStr "x"; JStr "x"])]);
                                    ("put", JObj [])])])];
       common_components := [];
       st_mtime := JNum 0 |} in
  let operations :=
    [("/a", "get", JObj [("tags", JArr [JStr "untagged"])]);
     ("/a", "post", JObj [("tags", JArr [JStr "x"; JStr "x"])]);
     ("/a", "put", JObj [])] in
  exists grouped,
    group_endpoints_by_tag self = Ok grouped /\
    NoDup (map fst grouped) /\
    (forall tag l, In (tag, l) grouped -> tag_groups_get tag grouped = Some l) /\
    forall tag, tag_groups_get tag grouped = tag_group tag operations.
Proof.
  intros self operations.
  apply (group_endpoints_by_tag_groups self operations); reflexivity.
Defined.

End TagGroupsOf.

(** ** Tags merged by name *)

Section Tags.

Import OpenAPIMerger.

Lemma tag_index_get_set (n m : json) i (idx : tag_index) :
  tag_index_get n (tag_index_set m i idx)
  = if scalar_eq n m then Some i else tag_index_get n idx.
Proof.
  induction idx as [|[k j] idx IH]; cbn [tag_index_set tag_index_get]; [reflexivity|].
  destruct (scalar_eq m k) eqn:Ek; cbn [tag_index_get].
  - rewrite (scalar_eq_left _ _ n Ek). destruct (scalar_eq n k); reflexivity.
  - rewrite IH. destruct (scalar_eq n k) eqn:En; [|reflexivity].
    destruct (scalar_eq n m) eqn:Enm; [|reflexivity].
    rewrite scalar_eq_sym in Enm. rewrite (scalar_eq_trans m n k Enm En) in Ek.
    discriminate.
Qed.

Lemma tag_name_named (tag : json) :
  named_tag tag = true -> tag_name tag = Ok (name_of tag).
Proof.
  unfold named_tag, tag_name, name_of, dict_get_default.
  destruct tag as [ | | | | |d]; try discriminate. cbn [getitem].
  destruct (dict_get "name" d) as [n|]; [|discriminate].
  intros H. cbn [bind]. rewrite H. reflexivity.
Qed.

Lemma tag_index_built (its : list (nat * json)) :
  forallb named_tag (map snd its) = true ->
  forall idx,
    exists idx',
      foldM (fun idx (it : nat * json) =>
               n <- tag_name (snd it) ;; Ok (tag_index_set n (fst it) idx))
            its idx = Ok idx' /\
      forall n, tag_index_get n idx' = last_named n its (tag_index_get n idx).
Proof.
  induction its as [|[i tag] its IH]; intros H idx; cbn [foldM].
  - exists idx. split; [reflexivity|]. intros n. reflexivity.
  - cbn [map forallb snd] in H. apply andb_prop in H. destruct H as [Ht Hrest].
    cbn [snd fst]. rewrite (tag_name_named tag Ht). cbn [bind].
    destruct (IH Hrest (tag_index_set (name_of tag) i idx)) as [idx' [E Hidx']].
    exists idx'. split; [exact E|]. intros n. rewrite Hidx', tag_index_get_set.
    unfold last_named. cbn [fold_left snd fst]. reflexivity.
Qed.

Lemma last_named_positions (n : json) (l : list json) :
  forall k start,
    match last_named n (combine (seq k (List.length l)) l) start with
    | Some i =>
        start = Some i \/
        exists t, k <= i /\ nth_error l (i - k) = Some t /\
                  scalar_eq n (name_of t) = true
    | None =>
        start = None /\ forall t, In t l -> scalar_eq n (name_of t) = false
    end.
Proof.
  unfold last_named. induction l as [|t l IH]; intros k start;
    cbn [List.length seq combine fold_left].
  - destruct start; [left; reflexivity | split; [reflexivity | intros t []]].
  - cbn [snd fst].
    specialize (IH (S k) (if scalar_eq n (name_of t) then Some k else start)).
    destruct (fold_left _ _ _) as [i|].
    + destruct IH as [IH|[t' [Hk [Hn Hm]]]].
      * destruct (scalar_eq n (name_of t)) eqn:Et.
        -- injection IH as <-. right. exists t. rewrite Nat.sub_diag.
           split; [lia|]. split; [reflexivity | exact Et].
        -- left. exact IH.
      * right. exists t'. split; [lia|]. split; [|exact Hm].
        replace (i - k) with (S (i - S k)) by lia. exact Hn.
    + destruct IH as [IH Hall]. destruct (scalar_eq n (name_of t)) eqn:Et; [discriminate|].
      split; [exact IH|]. intros t' [<-|Hin]; [exact Et | apply Hall; exact Hin].
Qed.

Lemma map_snd_positions {A : Type} (l : list A) k :
  map snd (combine (seq k (List.length l)) l) = l.
Proof.
  revert k. induction l as [|x l IH]; intros k; cbn [List.length seq combine map snd];
    [reflexivity|]. f_equal. apply IH.
Qed.

Lemma list_set_app {A : Type} i (x : A) l1 l2 :
  i < List.length l1 -> list_set i x (l1 ++ l2) = list_set i x l1 ++ l2.
Proof.
  revert i. induction l1 as [|y l1 IH]; intros i Hi; cbn [List.length] in Hi; [lia|].
  destruct i; cbn [app list_set]; [reflexivity|]. f_equal. apply IH. lia.
Qed.

Lemma Forall2_list_set {A B : Type} (R : A -> B -> Prop) l l' i a b b' :
  Forall2 R l l' ->
  nth_error l i = Some a -> nth_error l' i = Some b ->
  R a b' ->
  Forall2 R l (list_set i b' l').
Proof.
  intros H. revert i. induction H as [|x y l l' Hxy H IH]; intros i Ha Hb Hr.
  - destruct i; discriminate.
  - destruct i; cbn [nth_error list_set] in *.
    + injection Ha as ->. constructor; assumption.
    + constructor; [exact Hxy | apply IH; assumption].
Qed.

Lemma Forall2_nth_error {A B : Type} (R : A -> B -> Prop) l l' i b :
  Forall2 R l l' -> nth_error l' i = Some b ->
  exists a, nth_error l i = Some a /\ R a b.
Proof.
  intros H. revert i. induction H as [|x y l l' Hxy H IH]; intros i Hb.
  - destruct i; discriminate.
  - destruct i; cbn [nth_error] in *.
    + injection Hb as ->. exists x. split; [reflexivity | exact Hxy].
    + apply IH. exact Hb.
Qed.

Variable current : list json.
Variable incoming : list json.
Hypothesis Hcurrent : forallb named_tag current = true.
Hypothesis Hincoming : forallb named_tag incoming = true.

Variable existing_tags : tag_index.
Hypothesis Hindex :
  forall n, tag_index_get n existing_tags
            = last_named n (combine (seq 0 (List.length current)) current) None.

Lemma index_found (tag : json) i :
  tag_index_get (name_of tag) existing_tags = Some i ->
  exists t, nth_error current i = Some t /\ same_name tag t = true.
Proof.
  intros H. rewrite Hindex in H.
  pose proof (last_named_positions (name_of tag) current 0 None) as Hp.
  rewrite H in Hp. destruct Hp as [Hp|[t [_ [Hn Hm]]]]; [discriminate|].
  rewrite Nat.sub_0_r in Hn. exists t. split; assumption.
Qed.

Lemma index_missing (tag : json) :
  tag_index_get (name_of tag) existing_tags = None ->
  existsb (same_name tag) current = false.
Proof.
  intros H. rewrite Hindex in H.
  pose proof (last_named_positions (name_of tag) current 0 None) as Hp.
  rewrite H in Hp. destruct Hp as [_ Hall].
  destruct (existsb (same_name tag) current) eqn:E; [|reflexivity].
  apply existsb_exists in E. destruct E as [t [Hin Ht]].
  unfold same_name in Ht. rewrite (Hall t Hin) in Ht. discriminate.
Qed.

Lemma index_present (tag : json) i :
  tag_index_get (name_of tag) existing_tags = Some i ->
  existsb (same_name tag) current = true.
Proof.
  intros H. destruct (index_found tag i H) as [t [Hn Ht]].
  apply existsb_exists. exists t. split; [|exact Ht].
  apply nth_error_In in Hn. exact Hn.
Qed.

Lemma merge_tags_loop (rest : list json) :
  incl rest incoming ->
  forall kept added,
    Forall2 (described incoming) current kept ->
    exists kept',
      foldM (fun cur tag =>
               n <- tag_name tag ;;
               match tag_index_get n existing_tags with
               | None => append cur tag
               | Some i =>
                   b1 <- contains "description" tag ;;
                   if b1 : bool then
                     match cur with
                     | JArr l =>
                         match nth_error l i with
                         | Some existing =>
                             b2 <- contains "description" existing ;;
                             if b2 : bool then Ok cur
                             else d <- getitem tag "description" ;;
                                  existing' <- setitem existing "description" d ;;
                                  Ok (JArr (list_set i existing' l))
                         | None => Ok cur
                         end
                     | _ => Ok cur
                     end
                   else Ok cur
               end)
            rest (JArr (kept ++ added))
      = Ok (JArr (kept' ++ added
                  ++ filter (fun tag => negb (existsb (same_name tag) current)) rest)) /\
      Forall2 (described incoming) current kept'.
Proof.
  induction rest as [|tag rest IH]; intros Hincl kept added Hkept; cbn [foldM filter].
  - exists kept. rewrite app_nil_r. split; [reflexivity | exact Hkept].
  - assert (Hin : In tag incoming) by (apply Hincl; left; reflexivity).
    assert (Hrest : incl rest incoming)
      by (intros x Hx; apply Hincl; right; exact Hx).
    assert (Ht : named_tag tag = true)
      by (rewrite forallb_forall in Hincoming; apply Hincoming; exact Hin).
    rewrite (tag_name_named tag Ht). cbn [bind].
    destruct (tag_index_get (name_of tag) existing_tags) as [i|] eqn:Ei.
    + rewrite (index_present tag i Ei). cbn [negb].
      destruct (index_found tag i Ei) as [old [Hold Hsame]].
      pose proof Ht as Ht'. unfold named_tag in Ht'.
      destruct tag as [ | | | | |d]; try discriminate.
      cbn [contains bind]. unfold dict_mem.
      destruct (dict_get "description" d) as [x|] eqn:Ed; [|apply IH; assumption].
      destruct (nth_error (kept ++ added) i) as [existing|] eqn:En;
        [|apply IH; assumption].
      assert (Hlen : i < List.length kept).
      { rewrite <- (Forall2_length Hkept). apply nth_error_Some. rewrite Hold. discriminate. }
      rewrite nth_error_app1 in En by exact Hlen.
      destruct (Forall2_nth_error _ _ _ _ _ Hkept En) as [old' [Hold' Hdesc]].
      rewrite Hold in Hold'. injection Hold' as <-.
      assert (Hnamed : named_tag old = true).
      { apply (nth_error_forallb _ _ _ _ Hcurrent Hold). }
      destruct Hdesc as [->|[d0 [tag0 [x0 [-> [_ [_ [_ [_ ->]]]]]]]]].
      * unfold named_tag in Hnamed. destruct old as [ | | | | |od]; try discriminate.
        cbn [contains bind]. unfold dict_mem.
        destruct (dict_get "description" od) eqn:Eod; [apply IH; assumption|].
        cbn [getitem]. rewrite Ed. cbn [bind setitem].
        rewrite list_set_app by exact Hlen. apply IH; [exact Hrest|].
        apply (Forall2_list_set _ _ _ _ _ _ _ Hkept Hold En).
        right. exists od, (JObj d), x. repeat split; try assumption.
        cbn [getitem]. rewrite Ed. reflexivity.
      * cbn [contains bind]. unfold dict_mem. rewrite dict_get_set_same.
        apply IH; assumption.
    + rewrite (index_missing tag Ei). cbn [negb append bind].
      rewrite <- app_assoc.
      destruct (IH Hrest kept (added ++ [tag]) Hkept) as [kept' [E Hk']].
      exists kept'. rewrite <- app_assoc in E. cbn [app] in E. split; assumption.
Qed.

End Tags.

Section TagsMerged.

Import OpenAPIMerger.

(** X16.  [merge_tags] (lines 151-160 of [merge_root_properties]), on two
    lists of tag definitions with scalar names, keeps every tag of the merged
    list in its place, changed at most by receiving, when it had no
    [description], the description of an incoming tag of the same name; a
    description that is there is never replaced.  After them come the
    incoming tags whose name no tag of the merged list had, in their order:
    all of them, also when several of one file carry the same new name. *)
Theorem merge_tags_by_name (current incoming : list json) :
  forallb named_tag current = true ->
  forallb named_tag incoming = true ->
  exists kept,
    merge_tags (JArr current) (JArr incoming)
    = Ok (JArr (kept ++ filter (fun tag => negb (existsb (same_name tag) current))
                               incoming)) /\
    Forall2 (described incoming) current kept.
Proof.
  intros Hcurrent Hincoming. unfold merge_tags. cbn [iter bind].
  destruct (tag_index_built (combine (seq 0 (List.length current)) current)) with (idx := @nil (json * nat))
    as [idx [E Hidx]].
  { rewrite map_snd_positions. exact Hcurrent. }
  rewrite E. cbn [bind].
  assert (Hrefl : Forall2 (described incoming) current current).
  { clear. induction current; constructor; [left; reflexivity | assumption]. }
  destruct (merge_tags_loop current incoming Hcurrent Hincoming idx Hidx incoming
              (incl_refl _) current [] Hrefl) as [kept [E' Hkept]].
  rewrite app_nil_r in E'. cbn [app] in E'.
  exists kept. split; assumption.
Qed.

Lemma merge_tags_by_name_witness :
  let current := [JObj [("name", JStr "pets")];
                  JObj [("name", JStr "users"); ("description", JStr "People")]] in
  let incoming := [JObj [("name", JStr "pets"); ("description", JStr "Animals")];
                   JObj [("name", JStr "users"); ("description", JStr "Accounts")];
                   JObj [("name", JStr "orders")];
                   JObj [("name", JStr "orders")]] in
  exists kept,
    merge_tags (JArr current) (JArr incoming)
    = Ok (JArr (kept ++ filter (fun tag => negb (existsb (same_name tag) current))
                               incoming)) /\
    Forall2 (described incoming) current kept.
Proof.
  intros current incoming.
  apply (merge_tags_by_name current incoming); reflexivity.
Defined.

End TagsMerged.

(** ** The files of the tag split *)

Section TagSplit.

Import OperationCounter OpenAPISplitter.

Variable repr : json -> string.

Lemma scalar_eq_str (a b : json) :
  scalar_eq a b = true -> is_str a = is_str b.
Proof. destruct a, b; cbn; try discriminate; reflexivity. Qed.

Lemma tag_groups_get_In (k : json) (g : tag_groups) l :
  tag_groups_get k g = Some l ->
  exists k', In (k', l) g /\ scalar_eq k k' = true.
Proof.
  induction g as [|[k0 l0] g IH]; cbn [tag_groups_get]; [discriminate|].
  destruct (scalar_eq k k0) eqn:E.
  - intros [= <-]. exists k0. split; [left; reflexivity | exact E].
  - intros H. destruct (IH H) as [k' [Hin Hk']]. exists k'. split; [right|]; assumption.
Qed.

Lemma tagged_In tag (operations : list endpoint) e :
  In e (tagged tag operations) ->
  In e operations /\ exists t, In t (operation_tags e) /\ scalar_eq tag t = true.
Proof.
  unfold tagged. intros H. apply in_flat_map in H. destruct H as [e' [He' H]].
  apply in_map_iff in H. destruct H as [t [<- Ht]]. apply filter_In in Ht.
  split; [exact He'|]. exists t. exact Ht.
Qed.

Lemma tagged_nonempty tag (operations : list endpoint) e t :
  In e operations -> In t (operation_tags e) -> scalar_eq tag t = true ->
  tagged tag operations <> [].
Proof.
  intros He Ht Hs Hnil.
  assert (Hin : In e (tagged tag operations)).
  { unfold tagged. apply in_flat_map. exists e. split; [exact He|].
    apply in_map_iff. exists t. split; [reflexivity|]. apply filter_In. split; assumption. }
  rewrite Hnil in Hin. destruct Hin.
Qed.

Lemma operation_tags_dict (e : endpoint) t :
  In t (operation_tags e) -> operation_is_dict e = true.
Proof.
  unfold operation_tags, operation_is_dict. destruct (snd e); try (intros []).
  reflexivity.
Qed.

Lemma tag_group_incl tag (operations : list endpoint) l :
  tag_group tag operations = Some l ->
  incl l (filter operation_is_dict operations).
Proof.
  assert (Ht : forall l', nonempty (tagged tag operations) = Some l' ->
                          incl l' (filter operation_is_dict operations)).
  { intros l' H. unfold nonempty in H.
    destruct (tagged tag operations) as [|x r] eqn:E; [discriminate|]. injection H as <-.
    rewrite <- E. intros e He. apply tagged_In in He. destruct He as [He [t [Ht _]]].
    apply filter_In. split; [exact He | apply (operation_tags_dict e t Ht)]. }
  unfold tag_group. destruct (untagged operations) as [|u0 u] eqn:Eu; [apply Ht|].
  destruct (scalar_eq tag (JStr "untagged")); [|apply Ht].
  intros [= <-]. rewrite <- Eu. intros e He. unfold untagged in He.
  apply filter_In in He. destruct He as [He Hd]. apply andb_prop in Hd.
  apply filter_In. split; [exact He | apply Hd].
Qed.

Lemma tag_group_key_str tag (operations : list endpoint) l :
  string_tags operations = true ->
  tag_group tag operations = Some l -> is_str tag = true.
Proof.
  intros Hstr.
  assert (Ht : forall l', nonempty (tagged tag operations) = Some l' -> is_str tag = true).
  { intros l' H. unfold nonempty in H.
    destruct (tagged tag operations) as [|e r] eqn:E; [discriminate|].
    assert (He : In e (tagged tag operations)) by (rewrite E; left; reflexivity).
    apply tagged_In in He. destruct He as [He [t [Ht Hs]]].
    rewrite (scalar_eq_str _ _ Hs). unfold string_tags in Hstr.
    rewrite forallb_forall in Hstr. specialize (Hstr e He).
    rewrite forallb_forall in Hstr. apply Hstr. exact Ht. }
  unfold tag_group. destruct (untagged operations); [apply Ht|].
  destruct (scalar_eq tag (JStr "untagged")) eqn:E; [|apply Ht].
  intros _. apply (scalar_eq_str _ _ E).
Qed.

(** The loop of [split_by_tags] when every tag is a string. *)
Lemma write_tag_groups_ok self (groups : tag_groups) :
  (forall g, In g groups ->
             is_str (fst g) = true /\ splittable (spec self) (snd g) = true) ->
  forall acc,
  exists files,
    foldM (write_tag_group repr self) groups acc
    = Ok (fst acc ++ files,
          snd acc ++ map (fun g => mapping_entry (tag_file (fst g)) "tag" (fst g) (snd g))
                         groups) /\
    Forall2 (fun g f =>
               fst f = tag_file (fst g) /\
               exists t, fst g = JStr t /\ mini_spec_of repr self (snd g) t (snd f))
            groups files.
Proof.
  induction groups as [|[tag endpoints] groups IH]; intros Hg acc.
  - exists []. cbn [foldM map]. rewrite !app_nil_r. split; [|constructor].
    destruct acc; reflexivity.
  - destruct (Hg (tag, endpoints) (or_introl eq_refl)) as [Hstr Hshape].
    cbn [fst snd] in Hstr, Hshape. destruct tag as [ | | |t| | ]; try discriminate.
    destruct (create_mini_spec_ok repr self endpoints t true Hshape)
      as [mini_spec [E Hmini]].
    cbn [foldM]. unfold write_tag_group at 1. rewrite E. cbn [bind].
    match goal with
    | |- context [foldM _ groups ?a] =>
        destruct (IH (fun g Hin => Hg g (or_intror Hin)) a) as [files [E' Hfiles]]
    end.
    rewrite E'. cbn [fst snd map tag_file].
    eexists (_ :: files). rewrite <- !app_assoc. cbn [app]. split; [reflexivity|].
    constructor; [|exact Hfiles]. cbn [fst snd tag_file]. split; [reflexivity|].
    exists t. split; [reflexivity | exact Hmini].
Qed.

(** The loop of [split_by_tags] when some tag is not a string. *)
Lemma write_tag_groups_raise self (groups : tag_groups) :
  (forall g, In g groups -> splittable (spec self) (snd g) = true) ->
  (exists g, In g groups /\ is_str (fst g) = false) ->
  forall acc,
    foldM (write_tag_group repr self) groups acc = Raise AttributeError.
Proof.
  induction groups as [|[tag endpoints] groups IH]; intros Hg [g [Hin Hns]] acc;
    [destruct Hin|].
  cbn [foldM]. unfold write_tag_group at 1.
  destruct tag as [ | | |t| | ]; try reflexivity.
  destruct (create_mini_spec_ok repr self endpoints t true
              (Hg (JStr t, endpoints) (or_introl eq_refl))) as [mini_spec [E _]].
  rewrite E. cbn [bind]. apply IH.
  - intros g' Hg'. apply Hg. right. exact Hg'.
  - exists g. split; [|exact Hns]. destruct Hin as [<-|Hin]; [discriminate | exact Hin].
Qed.

End TagSplit.

Section TagSplitFiles.

Import OperationCounter OpenAPISplitter.

(** X17.  [split_by_tags] on a splittable document whose operations carry
    lists of scalars as [tags].  When every tag named is a string, it writes
    one document per group of [group_endpoints_by_tag], in the order of the
    groups: the document of the tag [t] is the mini-document of the group's
    operations under the name [t], in the file [spec_{t}.json] with [/] and
    spaces of [t] replaced by [_], and the mapping lists the groups in the
    same order.  When some operation names a tag that is not a string (a
    number, a boolean, null), it raises [AttributeError] and returns no
    mapping. *)
Theorem split_by_tags_files (repr : json -> string) (self : OpenAPISplitter.state)
    (operations : list endpoint) :
  get_operations (spec self) = Ok operations ->
  operations_shape operations = true ->
  splittable (spec self) (filter operation_is_dict operations) = true ->
  exists grouped,
    group_endpoints_by_tag self = Ok grouped /\
    if string_tags operations
    then exists files,
           split_by_tags repr self
           = Ok {| written := files;
                   mapping :=
                     match grouped with
                     | [] => [("type", JStr "tag-based"); ("files", JArr [])]
                     | _ =>
                         make_mapping "tag-based"
                           (map (fun g => mapping_entry (tag_file (fst g)) "tag"
                                            (fst g) (snd g)) grouped)
                           self
                     end |} /\
           Forall2 (fun g f =>
                      fst f = tag_file (fst g) /\
                      exists t, fst g = JStr t /\
                                mini_spec_of repr self (snd g) t (snd f))
                   grouped files
    else split_by_tags repr self = Raise AttributeError.
Proof.
  intros Hops Hshape Hsplit.
  destruct (group_endpoints_by_tag_holds self operations Hops Hshape)
    as [grouped [E [Hd Hg]]].
  exists grouped. split; [exact E|].
  assert (Hgroups : forall g, In g grouped -> splittable (spec self) (snd g) = true).
  { intros [tag l] Hin. cbn [snd].
    apply (splittable_incl _ _ _) with (2 := Hsplit).
    apply (tag_group_incl tag). rewrite <- Hg. apply distinct_keys_In; assumption. }
  unfold split_by_tags. rewrite E. cbn [bind].
  destruct (string_tags operations) eqn:Estr.
  - destruct (write_tag_groups_ok repr self grouped) with (acc := (@nil (string * dict json), @nil json))
      as [files [E' Hfiles]].
    { intros [tag l] Hin. split; [|apply Hgroups; exact Hin]. cbn [fst].
      apply (tag_group_key_str tag operations l Estr).
      rewrite <- Hg. apply distinct_keys_In; assumption. }
    cbn [fst snd app] in E'. exists files.
    destruct grouped as [|g0 grouped].
    + inversion Hfiles. split; [reflexivity | constructor].
    + rewrite E'. cbn [bind fst snd]. split; [reflexivity | exact Hfiles].
  - assert (Hbad : exists g, In g grouped /\ is_str (fst g) = false).
    { unfold string_tags in Estr.
      assert (Hex : exists e, In e operations /\
                              exists t, In t (operation_tags e) /\ is_str t = false).
      { clear -Estr. induction operations as [|e l IH]; [discriminate|].
        cbn [forallb] in Estr. apply andb_false_iff in Estr. destruct Estr as [He|Hl].
        - exists e. split; [left; reflexivity|].
          clear -He. induction (operation_tags e) as [|t ts IH]; [discriminate|].
          cbn [forallb] in He. apply andb_false_iff in He. destruct He as [Ht|Hts].
          + exists t. split; [left; reflexivity | exact Ht].
          + destruct (IH Hts) as [t' [Hin Ht']]. exists t'. split; [right|]; assumption.
        - destruct (IH Hl) as [e' [Hin H]]. exists e'. split; [right|]; assumption. }
      destruct Hex as [e [He [t [Ht Hns]]]].
      assert (Hhash : scalar_eq t t = true).
      { apply scalar_eq_hashable. unfold operations_shape in Hshape.
        rewrite forallb_forall in Hshape. specialize (Hshape e He).
        rewrite (operation_tags_dict e t Ht) in Hshape. cbn [implb] in Hshape.
        unfold operation_shape in Hshape. unfold operation_tags in Ht.
        destruct (snd e) as [ | | | | |d]; try discriminate.
        destruct (dict_get "tags" d) as [[ | | | |ts| ]|]; try discriminate;
          try (destruct Ht).
        rewrite forallb_forall in Hshape. apply Hshape. exact Ht. }
      pose proof (tagged_nonempty t operations e t He Ht Hhash) as Hne.
      assert (Hgroup : exists l, tag_groups_get t grouped = Some l).
      { rewrite Hg. unfold tag_group.
        assert (Hu : scalar_eq t (JStr "untagged") = false)
          by (destruct t; try reflexivity; discriminate).
        rewrite Hu. unfold nonempty.
        destruct (tagged t operations) as [|x r]; [contradiction|].
        destruct (untagged operations); eexists; reflexivity. }
      destruct Hgroup as [l Hl]. apply tag_groups_get_In in Hl.
      destruct Hl as [k [Hin Hk]]. exists (k, l). split; [exact Hin|].
      cbn [fst]. rewrite <- (scalar_eq_str _ _ Hk). exact Hns. }
    destruct grouped as [|g0 grouped]; [destruct Hbad as [g [[] _]]|].
    rewrite (write_tag_groups_raise repr self (g0 :: grouped) Hgroups Hbad).
    reflexivity.
Qed.

Lemma split_by_tags_files_witness :
  let repr := fun _ : json => "" in
  let self :=
    {| spec_path := "api.json";
       spec := [("openapi", JStr "3.0.0");
                ("paths",
                 JObj [("/a", JObj [("get", JObj [("tags", JArr [JStr "pet store"])]);
                                    ("post", JObj [("tags", JArr [JNum 1])])])])];
       common_components := [];
       st_mtime := JNum 0 |} in
  let operations :=
    [("/a", "get", JObj [("tags", JArr [JStr "pet store"])]);
     ("/a", "post", JObj [("tags", JArr [JNum 1])])] in
  exists grouped,
    group_endpoints_by_tag self = Ok grouped /\
    if string_tags operations
    then exists files,
           split_by_tags repr self
           = Ok {| written := files;
                   mapping :=
                     match grouped with
                     | [] => [("type", JStr "tag-based"); ("files", JArr [])]
                     | _ =>
                         make_mapping "tag-based"
                           (map (fun g => mapping_entry (tag_file (fst g)) "tag"
                                            (fst g) (snd g)) grouped)
                           self
                     end |} /\
           Forall2 (fun g f =>
                      fst f = tag_file (fst g) /\
                      exists t, fst g = JStr t /\
                                mini_spec_of repr self (snd g) t (snd f))
                   grouped files
    else split_by_tags repr self = Raise AttributeError.
Proof.
  intros repr self operations.
  apply (split_by_tags_files repr self operations); reflexivity.
Defined.

End TagSplitFiles.

(** ** The merged document and the validator *)

Section Validated.

Import OpenAPIMerger.

Lemma merge_store_dict comp_type name definition target h h' :
  ComponentExtractor.store_component comp_type name definition target h = Ok h' ->
  is_dict (h' target) = true.
Proof.
  unfold ComponentExtractor.store_component. intros H. do 3 bind_inv H.
  injection H as <-. unfold ComponentExtractor.heap_set. rewrite Nat.eqb_refl.
  destruct (h target); try discriminate. injection E1 as <-. reflexivity.
Qed.

Lemma merge_one_dict strategy comp_type name definition target h conflicts :
  is_dict (h target) = true ->
  is_dict (fst (ComponentExtractor.merge_one strategy comp_type name definition
                  target h conflicts) target) = true.
Proof.
  intros Hh. unfold ComponentExtractor.merge_one.
  destruct (tc <- getitem (h target) comp_type ;; b <- contains name tc ;; Ok (tc, b))
    as [[tc [|]]|e]; cbn [fst]; try exact Hh.
  - destruct (getitem tc name) as [existing|e]; cbn [fst]; [|exact Hh].
    destruct (dumps_equal existing definition); cbn [fst]; [exact Hh|].
    destruct (String.eqb strategy "error"); cbn [fst]; [exact Hh|].
    destruct (String.eqb strategy "keep_last"); cbn [fst]; [|exact Hh].
    destruct (ComponentExtractor.store_component comp_type name definition target h)
      as [h'|e] eqn:E; cbn [fst]; [|exact Hh].
    apply (merge_store_dict _ _ _ _ _ _ E).
  - destruct (ComponentExtractor.store_component comp_type name definition target h)
      as [h'|e] eqn:E; cbn [fst]; [|exact Hh].
    apply (merge_store_dict _ _ _ _ _ _ E).
Qed.

Lemma merge_items_dict positions len0 strategy comp_type target source :
  forall h conflicts,
    is_dict (h target) = true ->
    is_dict (fst (ComponentExtractor.merge_items positions len0 strategy comp_type
                    target source h conflicts) target) = true.
Proof.
  induction positions as [|i rest IH]; intros h conflicts Hh;
    cbn [ComponentExtractor.merge_items].
  - destruct (sv <- getitem (h source) comp_type ;; items sv) as [sd|e];
      cbn [fst]; [|exact Hh].
    destruct (negb (Nat.eqb (List.length sd) len0)); exact Hh.
  - destruct (sv <- getitem (h source) comp_type ;; items sv) as [sd|e];
      cbn [fst]; [|exact Hh].
    destruct (negb (Nat.eqb (List.length sd) len0)); cbn [fst]; [exact Hh|].
    destruct (nth_error sd i) as [[name definition]|]; cbn [fst]; [|exact Hh].
    pose proof (merge_one_dict strategy comp_type name definition target h conflicts Hh)
      as H1.
    destruct (ComponentExtractor.merge_one strategy comp_type name definition
                target h conflicts) as [h' [conflicts'|e]]; cbn [fst] in H1 |- *.
    + apply IH. exact H1.
    + exact H1.
Qed.

Lemma merge_type_dict strategy target source h conflicts comp_type :
  is_dict (h target) = true ->
  is_dict (fst (ComponentExtractor.merge_type strategy target source h conflicts
                  comp_type) target) = true.
Proof.
  intros Hh. unfold ComponentExtractor.merge_type.
  destruct (contains comp_type (h source)) as [[|]|e]; cbn [fst]; try exact Hh.
  destruct (h target) as [ | | | | |td] eqn:Et; try discriminate.
  cbn [contains bind]. destruct (dict_mem comp_type td); cbn [setitem bind].
  - destruct (sv <- getitem (h source) comp_type ;; items sv) as [sd|e]; cbn [fst];
      [|rewrite Et; reflexivity].
    apply merge_items_dict. rewrite Et. reflexivity.
  - set (h1 := ComponentExtractor.heap_set h target _).
    assert (H1 : is_dict (h1 target) = true).
    { subst h1. unfold ComponentExtractor.heap_set. rewrite Nat.eqb_refl. reflexivity. }
    destruct (sv <- getitem (h1 source) comp_type ;; items sv) as [sd|e]; cbn [fst];
      [|exact H1].
    apply merge_items_dict. exact H1.
Qed.

Lemma merge_types_dict comp_types strategy target source :
  forall h conflicts,
    is_dict (h target) = true ->
    is_dict (fst (ComponentExtractor.merge_types comp_types strategy target source
                    h conflicts) target) = true.
Proof.
  induction comp_types as [|comp_type rest IH]; intros h conflicts Hh;
    cbn [ComponentExtractor.merge_types]; [exact Hh|].
  pose proof (merge_type_dict strategy target source h conflicts comp_type Hh) as H1.
  destruct (ComponentExtractor.merge_type strategy target source h conflicts comp_type)
    as [h' [conflicts'|e]]; cbn [fst] in H1 |- *.
  - apply IH. exact H1.
  - exact H1.
Qed.

Lemma merge_info_frame k self spec self' :
  k <> "info" ->
  merge_info self spec = Ok self' ->
  dict_get k (merged_spec self') = dict_get k (merged_spec self).
Proof.
  unfold merge_info. intros Hk H.
  destruct (dict_get "info" spec) as [source_info|]; [|injection H as <-; reflexivity].
  destruct (Nat.eqb (files_processed (stats self)) 0);
    repeat bind_inv H; injection H as <-; apply dict_get_set_other; exact Hk.
Qed.

Lemma setitem_dict v k x v' : setitem v k x = Ok v' -> is_dict v' = true.
Proof. destruct v; try discriminate. intros [= <-]. reflexivity. Qed.

Lemma delitem_dict v k v' : delitem v k = Ok v' -> is_dict v' = true.
Proof.
  destruct v as [ | | | | |d]; try discriminate. cbn [delitem].
  destruct (dict_mem k d); [|discriminate]. intros [= <-]. reflexivity.
Qed.

Lemma merge_info_mapping self spec self' :
  merge_info self spec = Ok self' ->
  mapping_at "info" (merged_spec self) -> mapping_at "info" (merged_spec self').
Proof.
  unfold merge_info, mapping_at. intros H [i Hi].
  destruct (dict_get "info" spec) as [source_info|];
    [|injection H as <-; exists i; exact Hi].
  assert (Hres : forall info m,
             is_dict info = true ->
             exists d, dict_get "info" (merged_spec (with_spec self (dict_set "info" info m)))
                       = Some (JObj d)).
  { intros info m Hd. destruct info; try discriminate. eexists.
    cbn [merged_spec with_spec]. apply dict_get_set_same. }
  destruct (Nat.eqb (files_processed (stats self)) 0).
  - do 5 bind_inv H. injection H as <-. apply Hres.
    assert (Ha0 : is_dict a0 = true) by (destruct a0; try discriminate; reflexivity).
    destruct a2.
    + bind_inv E3. apply (setitem_dict _ _ _ _ E3).
    + injection E3 as <-. exact Ha0.
  - do 5 bind_inv H. injection H as <-. apply Hres.
    assert (Ha : is_dict a = true).
    { cbn [getitem] in E. rewrite Hi in E. injection E as <-. reflexivity. }
    assert (Ha1 : is_dict a1 = true).
    { destruct a0.
      - bind_inv E1. destruct a0.
        + injection E1 as <-. exact Ha.
        + bind_inv E1. apply (setitem_dict _ _ _ _ E1).
      - injection E1 as <-. exact Ha. }
    revert E3. apply (foldM_invariant (fun v => is_dict v = true)); [|exact Ha1].
    intros info [key value] info' Hinfo Hstep.
    destruct (str_startswith "x-" key && negb (existsb (String.eqb key) split_indicators));
      [|injection Hstep as <-; exact Hinfo].
    bind_inv Hstep. destruct a4.
    + injection Hstep as <-. exact Hinfo.
    + apply (setitem_dict _ _ _ _ Hstep).
Qed.

Lemma merge_root_properties_frame k self spec self' :
  ~ In k mergeable_props ->
  merge_root_properties self spec = Ok self' ->
  dict_get k (merged_spec self') = dict_get k (merged_spec self).
Proof.
  unfold merge_root_properties. intros Hk H. bind_inv H. injection H as <-.
  cbn [merged_spec with_spec]. revert E.
  apply (foldM_frame (fun m : dict json => dict_get k m)).
  intros m prop m' Hin Hstep.
  assert (Hset : forall c, dict_get k (dict_set prop c m) = dict_get k m).
  { intros c. apply dict_get_set_other. intros <-. apply Hk. exact Hin. }
  destruct (dict_get prop spec) as [incoming|]; [|injection Hstep as <-; reflexivity].
  destruct (dict_get prop m) as [current|].
  - destruct (String.eqb prop "servers").
    + bind_inv Hstep. injection Hstep as <-. apply Hset.
    + destruct (String.eqb prop "tags").
      * bind_inv Hstep. injection Hstep as <-. apply Hset.
      * injection Hstep as <-. reflexivity.
  - bind_inv Hstep. injection Hstep as <-. apply Hset.
Qed.

Lemma merge_components_frame k self spec strategy self' :
  k <> "components" ->
  merge_components self spec strategy = Ok self' ->
  dict_get k (merged_spec self') = dict_get k (merged_spec self).
Proof.
  unfold merge_components. intros Hk H.
  destruct (dict_get "components" spec) as [source_components|];
    [|injection H as <-; reflexivity].
  bind_inv H.
  destruct (ComponentExtractor.merge_components _ _ _ _) as [h' [conflicts|e]];
    [|discriminate].
  injection H as <-. cbn [merged_spec].
  rewrite dict_get_set_other by exact Hk.
  destruct (dict_mem "components" (merged_spec self));
    [reflexivity | apply dict_get_set_other; exact Hk].
Qed.

Lemma merge_components_mapping self spec strategy self' :
  merge_components self spec strategy = Ok self' ->
  mapping_at "components" (merged_spec self) ->
  mapping_at "components" (merged_spec self').
Proof.
  unfold merge_components, mapping_at. intros H [c Hc].
  destruct (dict_get "components" spec) as [source_components|];
    [|injection H as <-; exists c; exact Hc].
  unfold dict_mem in H. rewrite Hc in H. cbn [getitem] in H. rewrite Hc in H.
  cbn [bind] in H.
  match type of H with
  | context [ComponentExtractor.merge_components ?h ?t ?s ?st] =>
      pose proof (merge_types_dict ComponentExtractor.COMPONENT_TYPES st t s h
                    (map (fun comp_type => (comp_type, 0))
                         ComponentExtractor.COMPONENT_TYPES) eq_refl) as Hd;
      change (is_dict (fst (ComponentExtractor.merge_components h t s st) t) = true) in Hd;
      destruct (ComponentExtractor.merge_components h t s st) as [h' [conflicts|e]];
      [|discriminate]
  end.
  injection H as <-. cbn [merged_spec fst] in *.
  destruct (h' target_loc); try discriminate. eexists. apply dict_get_set_same.
Qed.

Lemma merge_operation_mapping path self entry self' :
  merge_operation path self entry = Ok self' -> mapping_at "paths" (merged_spec self').
Proof.
  unfold merge_operation, mapping_at. destruct entry as [method operation]. intros H.
  do 5 bind_inv H. injection H as <-. cbn [merged_spec].
  pose proof (setitem_dict _ _ _ _ E3) as Hd. destruct a3; try discriminate.
  eexists. apply dict_get_set_same.
Qed.

Lemma merge_path_mapping self entry self' :
  merge_path self entry = Ok self' ->
  mapping_at "paths" (merged_spec self) -> mapping_at "paths" (merged_spec self').
Proof.
  unfold merge_path. destruct entry as [path path_item]. intros H Hm.
  destruct path_item as [ | | | | |d]; try (injection H as <-; exact Hm).
  do 3 bind_inv H.
  assert (H1 : mapping_at "paths" (merged_spec a1)).
  { destruct a0.
    - injection E1 as <-. exact Hm.
    - bind_inv E1. injection E1 as <-. cbn [merged_spec]. unfold mapping_at.
      match goal with
      | Hset : setitem _ _ _ = Ok ?v |- _ =>
          pose proof (setitem_dict _ _ _ _ Hset) as Hd; destruct v; try discriminate
      end.
      eexists. apply dict_get_set_same. }
  revert H. apply (foldM_invariant (fun s => mapping_at "paths" (merged_spec s)));
    [|exact H1].
  intros s e s' _ Hstep. apply (merge_operation_mapping path s e s' Hstep).
Qed.

Lemma merge_paths_mapping self spec self' :
  merge_paths self spec = Ok self' ->
  mapping_at "paths" (merged_spec self) -> mapping_at "paths" (merged_spec self').
Proof.
  unfold merge_paths. intros H Hm.
  destruct (dict_get "paths" spec) as [paths|]; [|injection H as <-; exact Hm].
  bind_inv H. revert H.
  apply (foldM_invariant (fun s => mapping_at "paths" (merged_spec s))); [|exact Hm].
  intros s e s' Hs Hstep. apply (merge_path_mapping s e s' Hstep Hs).
Qed.

Lemma merge_info_wf self spec self' :
  merge_info self spec = Ok self' ->
  dict_wf (merged_spec self) -> dict_wf (merged_spec self').
Proof.
  unfold merge_info. intros H Hwf.
  destruct (dict_get "info" spec) as [source_info|]; [|injection H as <-; exact Hwf].
  destruct (Nat.eqb (files_processed (stats self)) 0);
    repeat bind_inv H; injection H as <-; apply dict_wf_set; exact Hwf.
Qed.

Lemma merge_root_properties_wf self spec self' :
  merge_root_properties self spec = Ok self' ->
  dict_wf (merged_spec self) -> dict_wf (merged_spec self').
Proof.
  unfold merge_root_properties. intros H Hwf. bind_inv H. injection H as <-.
  cbn [merged_spec with_spec]. revert E.
  apply (foldM_invariant (fun m : dict json => dict_wf m)); [|exact Hwf].
  intros m prop m' Hm Hstep.
  destruct (dict_get prop spec) as [incoming|]; [|injection Hstep as <-; exact Hm].
  destruct (dict_get prop m) as [current|].
  - destruct (String.eqb prop "servers").
    + bind_inv Hstep. injection Hstep as <-. apply dict_wf_set. exact Hm.
    + destruct (String.eqb prop "tags").
      * bind_inv Hstep. injection Hstep as <-. apply dict_wf_set. exact Hm.
      * injection Hstep as <-. exact Hm.
  - bind_inv Hstep. injection Hstep as <-. apply dict_wf_set. exact Hm.
Qed.

Lemma merge_components_wf self spec strategy self' :
  merge_components self spec strategy = Ok self' ->
  dict_wf (merged_spec self) -> dict_wf (merged_spec self').
Proof.
  unfold merge_components. intros H Hwf.
  destruct (dict_get "components" spec) as [source_components|];
    [|injection H as <-; exact Hwf].
  bind_inv H.
  destruct (ComponentExtractor.merge_components _ _ _ _) as [h' [conflicts|e]];
    [|discriminate].
  injection H as <-. cbn [merged_spec]. apply dict_wf_set.
  destruct (dict_mem "components" (merged_spec self)); [exact Hwf|].
  apply dict_wf_set. exact Hwf.
Qed.

Lemma merge_operation_wf path self entry self' :
  merge_operation path self entry = Ok self' ->
  dict_wf (merged_spec self) -> dict_wf (merged_spec self').
Proof.
  unfold merge_operation. destruct entry as [method operation]. intros H Hwf.
  do 5 bind_inv H. injection H as <-. cbn [merged_spec]. apply dict_wf_set. exact Hwf.
Qed.

Lemma merge_path_wf self entry self' :
  merge_path self entry = Ok self' ->
  dict_wf (merged_spec self) -> dict_wf (merged_spec self').
Proof.
  unfold merge_path. destruct entry as [path path_item]. intros H Hwf.
  destruct path_item as [ | | | | |d]; try (injection H as <-; exact Hwf).
  do 3 bind_inv H.
  assert (H1 : dict_wf (merged_spec a1)).
  { destruct a0.
    - injection E1 as <-. exact Hwf.
    - bind_inv E1. injection E1 as <-. cbn [merged_spec]. apply dict_wf_set. exact Hwf. }
  revert H. apply (foldM_invariant (fun s => dict_wf (merged_spec s))); [|exact H1].
  intros s e s' Hs Hstep. apply (merge_operation_wf path s e s' Hstep Hs).
Qed.

Lemma merge_paths_wf self spec self' :
  merge_paths self spec = Ok self' ->
  dict_wf (merged_spec self) -> dict_wf (merged_spec self').
Proof.
  unfold merge_paths. intros H Hwf.
  destruct (dict_get "paths" spec) as [paths|]; [|injection H as <-; exact Hwf].
  bind_inv H. revert H.
  apply (foldM_invariant (fun s => dict_wf (merged_spec s))); [|exact Hwf].
  intros s e s' Hs Hstep. apply (merge_path_wf s e s' Hstep Hs).
Qed.

Lemma merge_file_shape strategy self spec self' :
  merge_file strategy self spec = Ok self' ->
  merged_shape (merged_spec self) -> merged_shape (merged_spec self').
Proof.
  intros H [Hwf [Hi [Hp Hc]]]. unfold merge_file in H.
  set (self0 := if Nat.eqb (files_processed (stats self)) 0 then _ else self) in H.
  assert (Hwf0 : dict_wf (merged_spec self0)).
  { subst self0. destruct (Nat.eqb (files_processed (stats self)) 0); [|exact Hwf].
    destruct (dict_get "openapi" spec);
      [cbn [merged_spec with_spec]; apply dict_wf_set; exact Hwf|].
    destruct (dict_get "swagger" spec); [|exact Hwf].
    cbn [merged_spec with_spec]. apply dict_wf_set. exact Hwf. }
  assert (H0 : forall k, k <> "openapi" -> k <> "swagger" ->
                         dict_get k (merged_spec self0) = dict_get k (merged_spec self)).
  { intros k Ho Hs. subst self0.
    destruct (Nat.eqb (files_processed (stats self)) 0); [|reflexivity].
    destruct (dict_get "openapi" spec);
      [cbn [merged_spec with_spec]; apply dict_get_set_other; exact Ho|].
    destruct (dict_get "swagger" spec); [|reflexivity].
    cbn [merged_spec with_spec]. apply dict_get_set_other. exact Hs. }
  clearbody self0.
  assert (Hi0 : mapping_at "info" (merged_spec self0))
    by (unfold mapping_at; rewrite H0 by discriminate; exact Hi).
  assert (Hp0 : mapping_at "paths" (merged_spec self0))
    by (unfold mapping_at; rewrite H0 by discriminate; exact Hp).
  assert (Hc0 : mapping_at "components" (merged_spec self0))
    by (unfold mapping_at; rewrite H0 by discriminate; exact Hc).
  do 4 bind_inv H. injection H as <-. cbn [merged_spec].
  assert (Hnot : forall k, In k ["info"; "paths"; "components"] ->
                           ~ In k mergeable_props).
  { intros k Hk Hin. cbn in Hk, Hin.
    destruct Hk as [<-|[<-|[<-|[]]]];
      repeat (destruct Hin as [Hin|Hin]; [discriminate|]); exact Hin. }
  split; [|split; [|split]]; unfold mapping_at.
  - apply (merge_paths_wf _ _ _ E2), (merge_components_wf _ _ _ _ E1),
      (merge_root_properties_wf _ _ _ E0), (merge_info_wf _ _ _ E). exact Hwf0.
  - rewrite (merge_paths_frame "info" _ _ _ ltac:(discriminate) E2),
      (merge_components_frame "info" _ _ _ _ ltac:(discriminate) E1),
      (merge_root_properties_frame "info" _ _ _ (Hnot "info" ltac:(cbn; tauto)) E0).
    apply (merge_info_mapping _ _ _ E Hi0).
  - apply (merge_paths_mapping _ _ _ E2). unfold mapping_at.
    rewrite (merge_components_frame "paths" _ _ _ _ ltac:(discriminate) E1),
      (merge_root_properties_frame "paths" _ _ _ (Hnot "paths" ltac:(cbn; tauto)) E0),
      (merge_info_frame "paths" _ _ _ ltac:(discriminate) E).
    exact Hp0.
  - rewrite (merge_paths_frame "components" _ _ _ ltac:(discriminate) E2).
    apply (merge_components_mapping _ _ _ _ E1). unfold mapping_at.
    rewrite (merge_root_properties_frame "components" _ _ _
               (Hnot "components" ltac:(cbn; tauto)) E0),
      (merge_info_frame "components" _ _ _ ltac:(discriminate) E).
    exact Hc0.
Qed.

Lemma clean_merged_spec_frame k self self' :
  k <> "components" ->
  clean_merged_spec self = Ok self' ->
  dict_get k (merged_spec self') = dict_get k (merged_spec self).
Proof.
  unfold clean_merged_spec. intros Hk H.
  destruct (dict_get "components" (merged_spec self)) as [components|];
    [|injection H as <-; reflexivity].
  do 2 bind_inv H.
  match type of H with context [truthy ?x] => destruct (truthy x) end;
    injection H as <-; cbn [merged_spec with_spec];
    [apply dict_get_set_other | apply dict_get_del_other]; exact Hk.
Qed.

Lemma clean_merged_spec_mapping self self' :
  dict_wf (merged_spec self) ->
  clean_merged_spec self = Ok self' ->
  mapping_at "components" (merged_spec self) ->
  dict_get "components" (merged_spec self') = None \/
  mapping_at "components" (merged_spec self').
Proof.
  unfold clean_merged_spec, mapping_at. intros Hwf H [c Hc]. rewrite Hc in H.
  cbn [items bind] in H. bind_inv H.
  assert (Ha : is_dict a = true).
  { revert E. apply (foldM_invariant (fun v => is_dict v = true)); [|reflexivity].
    intros v key v' _ Hstep. apply (delitem_dict _ _ _ Hstep). }
  destruct (truthy a); injection H as <-; cbn [merged_spec with_spec].
  - right. destruct a; try discriminate. eexists. apply dict_get_set_same.
  - left. apply dict_get_del_same. exact Hwf.
Qed.

End Validated.

Section ValidatedMerge.

Import OpenAPIMerger.

(** X18.  Whatever the files were, the document that a completed
    [merge_all] leaves has a version key, an [info] mapping, a [paths]
    mapping and, if any, a [components] mapping: [validate_merged_spec] can
    only report a missing [info.title], a missing [info.version] or empty
    [paths], and reports exactly those that apply. *)
Theorem merge_all_validates
    (spec_files : list (exc (dict json))) (strategy output_format : string)
    (self' : state) :
  merge_all init spec_files strategy output_format = Ok self' ->
  exists info paths,
    dict_get "info" (merged_spec self') = Some (JObj info) /\
    dict_get "paths" (merged_spec self') = Some (JObj paths) /\
    validate_merged_spec self'
    = (if dict_mem "title" info then [] else ["Missing 'info.title'"])
      ++ (if dict_mem "version" info then [] else ["Missing 'info.version'"])
      ++ (match paths with [] => ["'paths' is empty"] | _ => [] end).
Proof.
  intros H.
  pose proof (merge_all_keeps "openapi" init spec_files strategy output_format self'
                ltac:(discriminate) H eq_refl) as Hopenapi.
  unfold merge_all in H. destruct spec_files as [|f0 files0] eqn:Ef; [discriminate|].
  rewrite <- Ef in *. clear Ef f0 files0.
  do 3 bind_inv H. injection H as <-.
  assert (Hinit : merged_shape (merged_spec init)).
  { split; [wf_keys|]. repeat split; eexists; reflexivity. }
  assert (Ha : merged_shape (merged_spec a)).
  { revert E. apply (foldM_invariant (fun s => merged_shape (merged_spec s)));
      [|exact Hinit].
    intros s loaded s' Hs Hstep. destruct loaded as [spec|e].
    - apply (merge_file_shape strategy s spec s' Hstep Hs).
    - injection Hstep as <-. exact Hs. }
  destruct Ha as [Hwf [[info Hi] [[paths Hp] Hc]]].
  exists info, paths.
  rewrite <- (clean_merged_spec_frame "info" _ _ ltac:(discriminate) E0) in Hi.
  rewrite <- (clean_merged_spec_frame "paths" _ _ ltac:(discriminate) E0) in Hp.
  split; [exact Hi|]. split; [exact Hp|].
  unfold validate_merged_spec, validate_spec_structure.
  rewrite Hopenapi, Hi, Hp. cbn [orb app].
  assert (Hcomp : match dict_get "components" (merged_spec a0) with
                  | Some (JObj _) | None => []
                  | Some _ => ["'components' must be an object"]
                  end = @nil string).
  { destruct (clean_merged_spec_mapping a a0 Hwf E0 Hc) as [Hn|[c Hc']].
    - rewrite Hn. reflexivity.
    - rewrite Hc'. reflexivity. }
  rewrite Hcomp, app_nil_r, <- app_assoc. do 2 f_equal. destruct paths; reflexivity.
Qed.

Lemma merge_all_validates_witness :
  let first := [("swagger", JStr "2.0");
                ("info", JObj [("title", JStr "Pets - Part 1")]);
                ("components", JObj [("schemas", JObj [])])] in
  let spec_files := [Ok first; Raise (ValueError "Failed to parse spec_b.json")] in
  exists self' info paths,
    merge_all init spec_files "keep_first" "json" = Ok self' /\
    dict_get "info" (merged_spec self') = Some (JObj info) /\
    dict_get "paths" (merged_spec self') = Some (JObj paths) /\
    validate_merged_spec self'
    = (if dict_mem "title" info then [] else ["Missing 'info.title'"])
      ++ (if dict_mem "version" info then [] else ["Missing 'info.version'"])
      ++ (match paths with [] => ["'paths' is empty"] | _ => [] end).
Proof.
  intros first spec_files.
  assert (Hrun : exists s, merge_all init spec_files "keep_first" "json" = Ok s)
    by (eexists; vm_compute; reflexivity).
  destruct Hrun as [s Hrun].
  destruct (merge_all_validates spec_files "keep_first" "json" s Hrun)
    as [info [paths [Hi [Hp Hv]]]].
  exists s, info, paths. split; [exact Hrun|]. split; [exact Hi|]. split; assumption.
Defined.

End ValidatedMerge.

(** ** The summary of the splitter *)

Section Summary.

Import OperationCounter OpenAPISplitter.

Lemma incr_keys k (counts : dict nat) :
  In k (dict_keys counts) -> dict_keys (incr k counts) = dict_keys counts.
Proof.
  intros H. unfold incr. rewrite dict_keys_set.
  apply dict_mem_In in H. rewrite H. reflexivity.
Qed.

Lemma count_path_item_keys (counts : dict nat) path_item :
  incl ("total" :: HTTP_METHODS) (dict_keys counts) ->
  dict_keys (count_path_item counts path_item) = dict_keys counts.
Proof.
  unfold count_path_item. destruct path_item as [ | | | | |d]; try reflexivity.
  assert (H : forall methods counts,
             incl methods HTTP_METHODS ->
             incl ("total" :: HTTP_METHODS) (dict_keys counts) ->
             dict_keys
               (fold_left (fun counts method =>
                             if dict_mem method d then incr "total" (incr method counts)
                             else counts) methods counts)
             = dict_keys counts).
  { induction methods as [|m methods IH]; intros c Hm Hc; cbn [fold_left]; [reflexivity|].
    assert (Hstep : dict_keys (if dict_mem m d then incr "total" (incr m c) else c)
                    = dict_keys c).
    { destruct (dict_mem m d); [|reflexivity].
      assert (Hin : In m (dict_keys c))
        by (apply Hc; right; apply Hm; left; reflexivity).
      rewrite incr_keys; rewrite incr_keys; try reflexivity; try exact Hin.
      apply Hc. left. reflexivity. }
    rewrite IH.
    - exact Hstep.
    - intros x Hx. apply Hm. right. exact Hx.
    - rewrite Hstep. exact Hc. }
  intros Hc. apply H; [apply incl_refl | exact Hc].
Qed.

Lemma count_paths_keys (paths : dict json) :
  forall counts : dict nat,
    incl ("total" :: HTTP_METHODS) (dict_keys counts) ->
    dict_keys (fold_left (fun counts entry => count_path_item counts (snd entry))
                         paths counts)
    = dict_keys counts.
Proof.
  induction paths as [|entry paths IH]; intros counts Hc; cbn [fold_left]; [reflexivity|].
  rewrite IH; rewrite count_path_item_keys; try reflexivity; exact Hc.
Qed.

Lemma dict_of_keys {A : Type} (f : string -> A) (d : dict A) :
  dict_wf d ->
  (forall k, In k (dict_keys d) -> dict_get k d = Some (f k)) ->
  d = map (fun k => (k, f k)) (dict_keys d).
Proof.
  unfold dict_wf. induction d as [|[k0 v0] r IH]; intros Hwf H; [reflexivity|].
  cbn [dict_keys map fst] in *. inversion Hwf as [|? ? Hk0 Hr]; subst.
  f_equal.
  - specialize (H k0 (or_introl eq_refl)). cbn [dict_get] in H.
    rewrite String.eqb_refl in H. injection H as ->. reflexivity.
  - apply IH; [exact Hr|]. intros k Hk. specialize (H k (or_intror Hk)).
    cbn [dict_get] in H. destruct (String.eqb k k0) eqn:E; [|exact H].
    apply String.eqb_eq in E. subst k. contradiction.
Qed.

Lemma sum_methods_used (operations : list endpoint) (methods : list string) :
  list_sum (map (fun m => count_method m operations)
                (filter (fun m => Nat.ltb 0 (count_method m operations)) methods))
  = list_sum (map (fun m => count_method m operations) methods).
Proof.
  assert (Hcons : forall a l, list_sum (a :: l) = a + list_sum l) by reflexivity.
  induction methods as [|m methods IH]; [reflexivity|]. cbn [filter map].
  destruct (Nat.ltb 0 (count_method m operations)) eqn:E; cbn [map];
    rewrite ?Hcons, IH.
  - reflexivity.
  - apply Nat.ltb_ge in E. lia.
Qed.

Lemma section_size_ok self section :
  absent_or components_sized "components" (spec self) = true ->
  In section ["schemas"; "responses"; "parameters"] ->
  exists n, section_size self section = Ok n.
Proof.
  unfold absent_or, section_size, dict_get_default. intros H Hin.
  destruct (dict_get "components" (spec self)) as [c|].
  - unfold components_sized in H. destruct c as [ | | | | |c]; try discriminate.
    apply andb_prop in H. destruct H as [H Hp]. apply andb_prop in H.
    destruct H as [Hs Hr]. cbn [get bind]. unfold absent_or, dict_get_default in *.
    cbn in Hin.
    destruct Hin as [<-|[<-|[<-|[]]]];
      match goal with
      | |- context [dict_get ?k c] =>
          destruct (dict_get k c) as [[ | | | | | ]|]; try discriminate;
            eexists; reflexivity
      end.
  - cbn [get dict_get bind len]. eexists. reflexivity.
Qed.

End Summary.

Section SummaryCounts.

Import OperationCounter OpenAPISplitter.

(** X19.  [analyze_spec], on a document whose [components], when present,
    is a mapping with sized [schemas], [responses] and [parameters], returns
    a summary in which [total_operations] is the number of operations that
    [get_operations] lists, and [operations_by_method] holds, in the order
    of [HTTP_METHODS], exactly the methods that at least one operation uses,
    each with the number of operations that use it; these numbers add up to
    [total_operations]. *)
Theorem analyze_spec_counts (self : OpenAPISplitter.state) (operations : list endpoint) :
  get_operations (spec self) = Ok operations ->
  absent_or components_sized "components" (spec self) = true ->
  exists analysis,
    analyze_spec self = Ok analysis /\
    dict_get "total_operations" analysis
    = Some (JNum (Z.of_nat (List.length operations))) /\
    dict_get "operations_by_method" analysis
    = Some (JObj (map (fun m => (m, JNum (Z.of_nat (count_method m operations))))
                      (methods_used operations))) /\
    list_sum (map (fun m => count_method m operations) (methods_used operations))
    = List.length operations.
Proof.
  intros Hops Hcomp. unfold get_operations in Hops. unfold analyze_spec, count_operations.
  destruct (dict_get_default "paths" (JObj []) (spec self)) as [ | | | | |paths] eqn:Ep;
    try discriminate.
  cbn [items bind] in Hops |- *. injection Hops as Hops.
  set (counts0 := dict_set "total" 0 (map (fun method => (method, 0)) HTTP_METHODS)).
  set (counts := fold_left (fun counts entry => count_path_item counts (snd entry))
                           paths counts0).
  assert (H0 : counted counts0 []).
  { split; [reflexivity|]. intros m Hm. simpl in Hm.
    repeat (destruct Hm as [<-|Hm]; [reflexivity|]). contradiction. }
  pose proof (counted_paths paths _ _ H0) as Hc. cbn [app] in Hc.
  fold counts in Hc. rewrite Hops in Hc. destruct Hc as [Htotal Hper].
  assert (Hkeys : dict_keys counts = HTTP_METHODS ++ ["total"]).
  { subst counts. rewrite count_paths_keys; [reflexivity|].
    intros k Hk. cbn in Hk |- *. tauto. }
  assert (Hmethods : forall e, In e operations -> In (endpoint_method e) HTTP_METHODS).
  { intros e He. rewrite <- Hops in He. apply (operations_methods paths e He). }
  set (f := fun k => if String.eqb k "total" then List.length operations
                     else count_method k operations).
  assert (Hcounts : counts = map (fun k => (k, f k)) (HTTP_METHODS ++ ["total"])).
  { rewrite <- Hkeys. apply dict_of_keys.
    - unfold dict_wf. rewrite Hkeys. cbn.
      repeat (constructor; [cbn; intuition discriminate|]). constructor.
    - intros k Hk. rewrite Hkeys in Hk. apply in_app_or in Hk. unfold f.
      destruct Hk as [Hk|[<-|[]]].
      + rewrite (http_method_not_total k Hk). apply Hper. exact Hk.
      + cbn [String.eqb Ascii.eqb Bool.eqb]. exact Htotal. }
  rewrite Htotal. cbn [bind len].
  destruct (section_size_ok self "schemas" Hcomp ltac:(cbn; tauto)) as [n1 E1].
  destruct (section_size_ok self "responses" Hcomp ltac:(cbn; tauto)) as [n2 E2].
  destruct (section_size_ok self "parameters" Hcomp ltac:(cbn; tauto)) as [n3 E3].
  rewrite E1, E2, E3. cbn [bind].
  assert (Hsec : exists b,
             (if dict_mem "security" (spec self) then Ok true
              else contains "securitySchemes"
                     (dict_get_default "components" (JObj []) (spec self))) = Ok b).
  { destruct (dict_mem "security" (spec self)); [eexists; reflexivity|].
    unfold absent_or in Hcomp. unfold dict_get_default.
    destruct (dict_get "components" (spec self)) as [c|]; [|eexists; reflexivity].
    destruct c; try discriminate. eexists. reflexivity. }
  destruct Hsec as [b Eb]. rewrite Eb. cbn [bind].
  eexists. split; [reflexivity|].
  split; [reflexivity|]. split.
  - cbn [dict_get String.eqb Ascii.eqb Bool.eqb]. do 2 f_equal.
    rewrite Hcounts. unfold methods_used, f.
    cbn [HTTP_METHODS filter fst snd map String.eqb Ascii.eqb Bool.eqb negb andb app].
    repeat match goal with
           | |- context [Nat.ltb 0 (count_method ?m operations)] =>
               destruct (Nat.ltb 0 (count_method m operations))
           end; reflexivity.
  - unfold methods_used. rewrite sum_methods_used.
    apply sum_count_method. exact Hmethods.
Qed.

Lemma analyze_spec_counts_witness :
  let self :=
    {| spec_path := "api.json";
       spec := [("openapi", JStr "3.0.0");
                ("paths",
                 JObj [("/a", JObj [("get", JObj []); ("post", JStr "x")]);
                       ("/b", JObj [("get", JObj [])]);
                       ("/c", JNull)]);
                ("components", JObj [("schemas", JObj [("A", JObj [])])])];
       common_components := [];
       st_mtime := JNum 0 |} in
  let operations :=
    [("/a", "get", JObj []); ("/a", "post", JStr "x"); ("/b", "get", JObj [])] in
  exists analysis,
    analyze_spec self = Ok analysis /\
    dict_get "total_operations" analysis
    = Some (JNum (Z.of_nat (List.length operations))) /\
    dict_get "operations_by_method" analysis
    = Some (JObj (map (fun m => (m, JNum (Z.of_nat (count_method m operations))))
                      (methods_used operations))) /\
    list_sum (map (fun m => count_method m operations) (methods_used operations))
    = List.length operations.
Proof.
  intros self operations.
  apply (analyze_spec_counts self operations); reflexivity.
Defined.

End SummaryCounts.
